(* ===== verification/_CoqProject ===== *)
-Q . S2P
Prelude.v
Primes.v
Words.v
KeccakSpec.v
KeccakF.v
Keccak.v
EthashSpec.v
Ethash.v
EthashHash.v
CudaHelper.v
CudaKeccak.v
CudaKernel.v
CudaSearch.v
CudaDag.v
Managed.v
Outcome.v
CommonData.v
FixedHash.v
Worker.v
Floats.v
Miner.v
CudaMiner.v
ClKeccak.v
ClKernel.v
ClSearch.v
ClDag.v
ClMiner.v
Farm.v
PoolURI.v
Target.v
PoolManager.v
Json.v
Lines.v
Api.v
PoolClient.v
Getwork.v
GetworkCorrect.v
GetworkProtocol.v
GetworkFindings.v
Simulate.v
Stratum.v
StratumCorrect.v
StratumProtocol.v
StratumFindings.v
StratumTypes.v
Devices.v
Cli.v
Hwmon.v
