(* ===== verification/Prelude.v ===== *)
(** * etcminer: a verification development

    The program mines Ethereum Classic: it takes work from a pool, searches
    nonces on graphics cards and returns the solutions.  This library models its
    parts as functions and step relations and proves what makes them correct.

    ** The program and the files

    Ethash ([ethash/lib], a C and C++ library) computes the hash.
    - [Words]: bit manipulation, KISS99, byte order, the hash unions as bytes.
    - [Primes]: the prime search of [primes.c].
    - [KeccakSpec], [KeccakF], [Keccak]: the Keccak permutation of the standard,
      the unrolled permutations of [keccak.c] and [keccakf800.c], the sponge.
    - [EthashSpec], [Ethash], [EthashHash]: the algorithm of the specification;
      sizes, seeds, light cache and epoch contexts; dataset items, hashing,
      verification and search of [ethash.cpp].
    - [Managed]: the epoch contexts threads share ([managed.cpp]), with
      reference counts and interleaved threads, and [EthashAux::eval].

    The CUDA miner ([libcuda]) searches on a device.
    - [CudaHelper], [CudaKeccak], [CudaKernel], [CudaSearch], [CudaDag]: register
      pairs, the device Keccak, the hash of eight threads with shuffles, the
      search kernel and the generation of the dataset.
    - [CudaMiner]: the host side, epochs, streams and the work loop.

    The OpenCL miner ([libcl]) does the same with other kernels.
    - [ClKeccak], [ClKernel], [ClSearch], [ClDag]: the functions and kernels of
      [ethash.cl], and the launches that generate the dataset.
    - [ClMiner]: the host side of [CLMiner], its buffers and their mutex, epochs
      and the work loop.

    The library code ([libdev]) and the farm ([libeth]).
    - [Outcome], [CommonData], [FixedHash], [Floats], [Target]: exceptions,
      hexadecimal text, hashes, floating point and its printing, the conversions
      between targets and difficulties.
    - [Worker]: the state machine of a thread and its owner.
    - [Miner], [Farm]: the base class of the miners and their collection, which
      divides nonces, checks solutions, keeps accounts and collects telemetry.
    - [Hwmon]: the monitors of [libhwmon], which read files of the kernel or call a
      library.

    The pool side ([libpool]) and the API ([libapi]).
    - [PoolURI], [PoolManager]: connection strings; the list of connections, its
      rotation, and the handlers through which a client drives the farm.
    - [PoolClient]: the session, handlers as functions on a client's state, and
      the rules with which they are reasoned about.
    - [Stratum], [StratumCorrect], [StratumProtocol], [StratumTypes],
      [StratumFindings]: the stratum client, its safety, its protocol, the ranges
      of its data, and behaviour that contradicts comments or purpose.
    - [Getwork], [GetworkCorrect], [GetworkProtocol], [GetworkFindings]: the same
      for the getwork client.
    - [Simulate]: the client of benchmark runs.
    - [Json], [Lines], [Api]: values of the JSON library, lines of text, and the
      API server with its requests, sessions and pages.

    The program itself ([etcminer/main.cpp]).
    - [Devices]: the enumeration of devices by both runtimes, their collection,
      the subscription to miners, and how a miner finds its device again.
    - [Cli]: the checks of options, the settings made of them, the exit code.

    ** How code becomes definitions

    A [w]-bit integer is a [Z] with [wrap w] where the code may leave the range;
    undefined behaviour (a bad index, a null pointer, signed overflow) is [None];
    code that throws returns an [outcome].  State is a record with the members of
    the class; a handler is a function from state to state, and components with
    threads or callbacks are step relations.  Calls into other components are
    recorded in a trace where they do not return anything.  Clocks, random
    numbers, what the network, the devices and the operating system report are
    arguments.  Libraries outside the sources (jsoncpp, Boost, the CUDA and OpenCL
    runtimes) are classes of operations or arguments, with what their
    documentation promises as laws; every theorem that uses laws has an instance
    of them in its witness.

    Loops have fuel where recursion is not structural: the number of characters
    left (lines of received text), of endpoints, of digits (printing), of rows or
    rounds (Ethash).  The fuel is part of the definition and the theorems show
    that it is enough, by giving the result the code computes.

    ** What the theorems show

    - Hashing: the C++ code, on hosts of both byte orders, and the CUDA and OpenCL
      kernels, for every order in which groups of threads run, compute the
      functions of the specification; searches miss no solution and report no
      other; contexts and datasets are those of the specification; sizes do not
      overflow.
    - Threads: worker threads end when they are told to, shared contexts are
      alive while they are used.
    - Farm: the miners search disjoint nonces, a solution leaves the farm only
      when it is valid, and every call keeps indices in range.
    - Pools: rotation tries every pool, work reaches the farm with the right
      epoch; every run of a client is free of undefined behaviour under stated
      conditions, hands over exactly the work it received and returns the shares
      as they were found; requests and responses are read and written as their
      formats say.
    - API: requests change something only when they are permitted and are answered
      as the protocol says.
    - Start: a card is one entry of the collection, is mined by one miner, and this
      miner selects this card; accepted options give settings under which the
      theorems on farm and miners apply.
    - Findings: many places where the code contradicts a comment or its purpose
      are theorems too, next to the component they are about.

    ** Not modelled

    - [libcl/CL/opencl.hpp] is a copy of the bindings of the OpenCL standard.
    - In [CLMiner]: the choice between kernel source and binary.
    - Within a hash, the eight CUDA threads and the four OpenCL work-items run in
      lock step; the OpenCL kernel relies on this, as it has no barriers there.
    - In [libhwmon]: [wrapadl], which is for Windows, and the loading of libraries.
    - In [main.cpp]: help texts, the listing of devices, the display timer and the
      signal handlers, which only print or set a flag; [doMiner] calls the start
      and stop operations of the parts in order.
    - [Log], [Terminal], [DBusInt]: output and a message bus.
    - The text of log lines everywhere, and of the HTML page of the API. *)

From stdpp Require Import base numbers list.
From Stdlib Require Import ZArith Lia Bool Btauto.

Local Open Scope Z_scope.

(** ** Machine integers

    A [w]-bit unsigned integer is a [Z] in [[0, 2^w)]; arithmetic that may
    leave the range is followed by an explicit [wrap]. *)

Definition wrap (w z : Z) : Z := z mod 2 ^ w.
Abbreviation u8 := (wrap 8).
Abbreviation u16 := (wrap 16).
Abbreviation u32 := (wrap 32).
Abbreviation u64 := (wrap 64).

(** Two's complement reinterpretation, [(int32_t)z]. *)
Definition swrap (w z : Z) : Z := (z + 2 ^ (w - 1)) mod 2 ^ w - 2 ^ (w - 1).
Abbreviation i32 := (swrap 32).

Definition in_word (w x : Z) : Prop := 0 <= x < 2 ^ w.

(** Shift left and complement truncate to the width of the operand's type. *)
Definition shl (w x s : Z) : Z := wrap w (Z.shiftl x s).
Definition wnot (w x : Z) : Z := Z.lxor x (Z.ones w).

Declare Scope word_scope.
Delimit Scope word_scope with word.
Infix ".^" := Z.lxor (at level 46, left associativity) : word_scope.
Infix ".&" := Z.land (at level 44, left associativity) : word_scope.
Infix ".|" := Z.lor (at level 48, left associativity) : word_scope.
Infix ".>" := Z.shiftr (at level 42, left associativity) : word_scope.

Create HintDb words.

Section Words.
Context (w : Z) (Hw : 0 <= w).

Lemma wrap_in_word z : in_word w (wrap w z).
Proof. unfold in_word, wrap. apply Z.mod_pos_bound. lia. Qed.

Lemma wrap_id z : in_word w z -> wrap w z = z.
Proof. unfold in_word, wrap. apply Z.mod_small. Qed.

Lemma wrap_idem z : wrap w (wrap w z) = wrap w z.
Proof. apply wrap_id, wrap_in_word. Qed.

Lemma in_word_0 : in_word w 0.
Proof. unfold in_word. lia. Qed.

Lemma in_word_testbit x i : in_word w x -> w <= i -> Z.testbit x i = false.
Proof.
  intros Hx Hi. rewrite <-(wrap_id x Hx). unfold wrap.
  by apply Z.mod_pow2_bits_high.
Qed.

Lemma in_word_bits x :
  0 <= x -> (forall i, w <= i -> Z.testbit x i = false) -> in_word w x.
Proof.
  intros Hx Hb. split; [done|].
  destruct (Z.eq_dec x 0) as [->|Hne]; [lia|].
  apply Z.log2_lt_pow2; [lia|].
  destruct (Z.lt_ge_cases (Z.log2 x) w) as [|Hge]; [done|].
  specialize (Hb _ Hge). rewrite Z.bit_log2 in Hb by lia. done.
Qed.

(** Two words are equal when their bits below the width agree. *)
Lemma word_ext a b :
  in_word w a -> in_word w b ->
  (forall i, 0 <= i < w -> Z.testbit a i = Z.testbit b i) -> a = b.
Proof.
  intros Ha Hb Hab. apply Z.bits_inj'. intros i Hi.
  destruct (Z.lt_ge_cases i w); [apply Hab; lia|].
  by rewrite !in_word_testbit.
Qed.

Lemma lxor_in_word a b : in_word w a -> in_word w b -> in_word w (Z.lxor a b).
Proof.
  intros Ha Hb. apply in_word_bits.
  - apply Z.lxor_nonneg. destruct Ha, Hb. tauto.
  - intros i Hi. rewrite Z.lxor_spec. by rewrite !in_word_testbit.
Qed.

Lemma lor_in_word a b : in_word w a -> in_word w b -> in_word w (Z.lor a b).
Proof.
  intros Ha Hb. apply in_word_bits.
  - apply Z.lor_nonneg. destruct Ha, Hb. tauto.
  - intros i Hi. rewrite Z.lor_spec. by rewrite !in_word_testbit.
Qed.

Lemma land_in_word_r a b : in_word w b -> in_word w (Z.land a b).
Proof.
  intros Hb. apply in_word_bits.
  - apply Z.land_nonneg. destruct Hb. tauto.
  - intros i Hi. rewrite Z.land_spec, (in_word_testbit b) by done.
    apply andb_false_r.
Qed.

Lemma land_in_word_l a b : in_word w a -> in_word w (Z.land a b).
Proof. rewrite Z.land_comm. apply land_in_word_r. Qed.

Lemma shiftr_in_word a s : 0 <= s -> in_word w a -> in_word w (Z.shiftr a s).
Proof.
  intros Hs Ha. apply in_word_bits.
  - apply Z.shiftr_nonneg, Ha.
  - intros i Hi. rewrite Z.shiftr_spec by lia. apply in_word_testbit; [done|lia].
Qed.

Lemma shl_in_word a s : in_word w (shl w a s).
Proof. apply wrap_in_word. Qed.

Lemma ones_in_word : in_word w (Z.ones w).
Proof. unfold in_word. rewrite Z.ones_equiv. lia. Qed.

Lemma wnot_in_word a : in_word w a -> in_word w (wnot w a).
Proof. intros Ha. apply lxor_in_word; [done|apply ones_in_word]. Qed.

Lemma shl_testbit a s i :
  0 <= s -> 0 <= i < w ->
  Z.testbit (shl w a s) i = if decide (i < s) then false else Z.testbit a (i - s).
Proof.
  intros Hs Hi. unfold shl, wrap. rewrite Z.mod_pow2_bits_low by lia.
  rewrite Z.shiftl_spec by lia. case_decide; [apply Z.testbit_neg_r; lia|done].
Qed.
End Words.

#[export] Hint Resolve wrap_in_word in_word_0 lxor_in_word lor_in_word
  land_in_word_l land_in_word_r shiftr_in_word shl_in_word wnot_in_word : words.
#[export] Hint Extern 1 (0 <= _) => lia : words.

Lemma lxor_cancel a b : Z.lxor (Z.lxor a b) b = a.
Proof. by rewrite Z.lxor_assoc, Z.lxor_nilpotent, Z.lxor_0_r. Qed.

Lemma lxor_inj_r a b c : Z.lxor a c = Z.lxor b c -> a = b.
Proof. intros H. by rewrite <-(lxor_cancel a c), H, lxor_cancel. Qed.

(** ** Loops

    [loop p f a] runs the body [f] at most [p] times from the loop state [a];
    the body either continues with a new state ([inl]) or leaves the loop with
    a result ([inr]).  The fuel is a binary number, so [2^64] iterations are a
    64-bit numeral and an early exit costs nothing. *)
Section Loop.
Context {A B : Type} (f : A -> A + B).

Fixpoint niter (n : nat) (a : A) : A + B :=
  match n with
  | O => inl a
  | S n => match f a with inl a' => niter n a' | inr b => inr b end
  end.

Fixpoint loop (p : positive) (a : A) : A + B :=
  match p with
  | xH => f a
  | xO q => match loop q a with inl a' => loop q a' | inr b => inr b end
  | xI q =>
      match f a with
      | inl a0 => match loop q a0 with inl a' => loop q a' | inr b => inr b end
      | inr b => inr b
      end
  end.

Lemma niter_add n m a :
  niter (n + m) a = match niter n a with inl a' => niter m a' | inr b => inr b end.
Proof.
  revert a. induction n as [|n IH]; intros a; simpl; [done|].
  destruct (f a); [apply IH|done].
Qed.

Lemma loop_niter p a : loop p a = niter (Pos.to_nat p) a.
Proof.
  revert a. induction p as [q IH|q IH|]; intros a; cbn [loop].
  - rewrite Pos2Nat.inj_xI. cbn [niter]. destruct (f a) as [a0|b]; [|done].
    rewrite Nat.mul_comm, Nat.mul_succ_r, Nat.mul_1_r, niter_add, IH.
    destruct (niter _ a0); [apply IH|done].
  - rewrite Pos2Nat.inj_xO.
    rewrite Nat.mul_comm, Nat.mul_succ_r, Nat.mul_1_r, niter_add, IH.
    destruct (niter _ a); [apply IH|done].
  - change (Pos.to_nat 1) with 1%nat. simpl. by destruct (f a).
Qed.

(** Total correctness of a loop: an invariant, a variant that decreases and
    stays nonnegative, and a postcondition at every exit. *)
Lemma loop_total (Inv : A -> Prop) (m : A -> Z) (Q : B -> Prop) p a :
  (forall a, Inv a -> 0 <= m a) ->
  (forall a, Inv a ->
     match f a with inl a' => Inv a' /\ m a' < m a | inr b => Q b end) ->
  Inv a -> m a < Zpos p ->
  exists b, loop p a = inr b /\ Q b.
Proof.
  intros Hm Hstep Ha Hp. rewrite loop_niter.
  assert (Hn : m a < Z.of_nat (Pos.to_nat p)) by lia. clear Hp.
  revert a Ha Hn. induction (Pos.to_nat p) as [|n IH]; intros a Ha Hn.
  - specialize (Hm a Ha). lia.
  - simpl. specialize (Hstep a Ha). destruct (f a) as [a'|b]; [|eauto].
    destruct Hstep. apply IH; [done|lia].
Qed.
End Loop.

(** Two loops whose bodies are related take the same path. *)
Lemma loop_rel {A A' B B'} (R : A -> A' -> Prop) (Q : B -> B' -> Prop)
    (f : A -> A + B) (f' : A' -> A' + B') p a a' :
  (forall a a', R a a' ->
     match f a, f' a' with
     | inl a, inl a' => R a a' | inr b, inr b' => Q b b' | _, _ => False
     end) ->
  R a a' ->
  match loop f p a, loop f' p a' with
  | inl a, inl a' => R a a' | inr b, inr b' => Q b b' | _, _ => False
  end.
Proof.
  intros Hf. rewrite !loop_niter. revert a a'.
  induction (Pos.to_nat p) as [|n IH]; intros a a' Ha; simpl; [done|].
  specialize (Hf a a' Ha). destruct (f a), (f' a'); try done. by apply IH.
Qed.

(** The number of iterations of a loop over a 32-bit (64-bit) counter is below
    this bound. *)
Definition fuel32 : positive := (2 ^ 32)%positive.
Definition fuel64 : positive := (2 ^ 65)%positive.

(** Signed overflow is undefined behaviour: [int_of z] is [None] when the
    mathematical result [z] of an [int] operation is not representable. *)
Definition int_min : Z := - 2 ^ 31.
Definition int_max : Z := 2 ^ 31 - 1.
Definition int_of (z : Z) : option Z :=
  if (int_min <=? z) && (z <=? int_max) then Some z else None.

Lemma int_of_Some z : int_min <= z <= int_max -> int_of z = Some z.
Proof.
  intros [H1 H2]. unfold int_of.
  by rewrite (proj2 (Z.leb_le _ _) H1), (proj2 (Z.leb_le _ _) H2).
Qed.

(** ** Bytes and byte strings

    A byte is a [Z] in [[0, 256)]; [le_word] reads a list of bytes as a
    little-endian number, [le_bytes] writes one. *)
Abbreviation is_byte := (in_word 8).
Abbreviation bytes_ok := (Forall is_byte).

Fixpoint le_word (l : list Z) : Z :=
  match l with [] => 0 | b :: l => b + 256 * le_word l end.

Fixpoint le_bytes (n : nat) (z : Z) : list Z :=
  match n with O => [] | S n => z mod 256 :: le_bytes n (z / 256) end.

Lemma length_le_bytes n z : length (le_bytes n z) = n.
Proof. revert z. induction n; intros; simpl; auto. Qed.

Lemma le_bytes_ok n z : bytes_ok (le_bytes n z).
Proof.
  revert z. induction n; intros; simpl; constructor; auto.
  apply (wrap_in_word 8). lia.
Qed.

Lemma pow256_succ n : 2 ^ (8 * Z.of_nat (S n)) = 256 * 2 ^ (8 * Z.of_nat n).
Proof.
  replace (8 * Z.of_nat (S n)) with (8 + 8 * Z.of_nat n) by lia.
  rewrite Z.pow_add_r by lia. done.
Qed.

Lemma le_word_in_word l : bytes_ok l -> in_word (8 * Z.of_nat (length l)) (le_word l).
Proof.
  unfold in_word. induction 1 as [|b l Hb _ IH]; [done|].
  cbn [length le_word]. rewrite pow256_succ. destruct Hb. lia.
Qed.

Lemma le_word_bytes n z : in_word (8 * Z.of_nat n) z -> le_word (le_bytes n z) = z.
Proof.
  unfold in_word. revert z. induction n as [|n IH]; intros z Hz.
  - change (2 ^ (8 * Z.of_nat 0)) with 1 in Hz. simpl. lia.
  - rewrite pow256_succ in Hz. cbn [le_bytes le_word]. rewrite IH; [|].
    + pose proof (Z.div_mod z 256). lia.
    + split; [apply Z.div_pos; lia|]. apply Z.div_lt_upper_bound; lia.
Qed.

Lemma le_bytes_word l n :
  bytes_ok l -> length l = n -> le_bytes n (le_word l) = l.
Proof.
  intros Hl <-. induction Hl as [|b l Hb _ IH]; [done|].
  cbn [length le_word le_bytes]. unfold in_word in Hb. change (2 ^ 8) with 256 in Hb. f_equal.
  - rewrite Z.mul_comm, Z_mod_plus_full, Z.mod_small; lia.
  - rewrite Z.mul_comm, Z_div_plus_full, Z.div_small, Z.add_0_l by lia. done.
Qed.

Lemma le_word_inj l1 l2 :
  bytes_ok l1 -> bytes_ok l2 -> length l1 = length l2 ->
  le_word l1 = le_word l2 -> l1 = l2.
Proof.
  intros H1 H2 Hlen Heq.
  rewrite <-(le_bytes_word l1 (length l1)) by done.
  rewrite Heq. by apply le_bytes_word.
Qed.

(** Splitting a byte string into [n]-byte groups, and joining it again. *)
Fixpoint chunks {A} (n : nat) (k : nat) (l : list A) : list (list A) :=
  match k with O => [] | S k => take n l :: chunks n k (drop n l) end.

Lemma length_chunks {A} n k (l : list A) : length (chunks n k l) = k.
Proof. revert l. induction k; intros; simpl; auto. Qed.

Lemma chunks_lengths {A} n k (l : list A) :
  length l = (n * k)%nat -> Forall (fun c => length c = n) (chunks n k l).
Proof.
  revert l. induction k as [|k IH]; intros l Hl; simpl; constructor.
  - rewrite length_take. lia.
  - apply IH. rewrite length_drop. lia.
Qed.

Lemma concat_chunks {A} n k (l : list A) :
  length l = (n * k)%nat -> concat (chunks n k l) = l.
Proof.
  revert l. induction k as [|k IH]; intros l Hl; simpl.
  - symmetry. apply nil_length_inv. lia.
  - rewrite IH; [apply take_drop|]. rewrite length_drop. lia.
Qed.

Lemma chunks_concat {A} n (ls : list (list A)) :
  Forall (fun c => length c = n) ls -> chunks n (length ls) (concat ls) = ls.
Proof.
  induction 1 as [|c ls Hc _ IH]; [done|]. simpl.
  rewrite take_app_length', drop_app_length' by done. by rewrite IH.
Qed.

Lemma Forall_chunks {A} (P : A -> Prop) n k (l : list A) :
  Forall P l -> Forall (Forall P) (chunks n k l).
Proof.
  revert l. induction k as [|k IH]; intros l Hl; simpl; constructor.
  - by apply Forall_take.
  - by apply IH, Forall_drop.
Qed.

Lemma Forall_concat_2 {A} (P : A -> Prop) ls :
  Forall (Forall P) ls -> Forall P (concat ls).
Proof. induction 1; simpl; [constructor|]. by apply Forall_app. Qed.

(** ** Folds *)

Lemma fold_left_ext_inv {A B} (P : A -> Prop) (f g : A -> B -> A) l a :
  P a -> (forall a b, b ∈ l -> P a -> f a b = g a b /\ P (g a b)) ->
  fold_left f l a = fold_left g l a.
Proof.
  revert a. induction l as [|b l IH]; intros a Ha Hfg; simpl; [done|].
  destruct (Hfg a b) as [-> Hb]; [by apply list_elem_of_here|done|].
  apply IH; [done|]. intros a' b' Hin. apply Hfg. by apply list_elem_of_further.
Qed.

Lemma fold_left_inv {A B} (P : A -> Prop) (f : A -> B -> A) l a :
  P a -> (forall a b, b ∈ l -> P a -> P (f a b)) -> P (fold_left f l a).
Proof.
  revert a. induction l as [|b l IH]; intros a Ha Hf; simpl; [done|].
  apply IH; [apply Hf; [by apply list_elem_of_here|done]|].
  intros a' b' Hin. apply Hf. by apply list_elem_of_further.
Qed.

(** A loop unrolled twice is the loop. *)
Lemma fold_left_unroll2 {A} (g : A -> nat -> A) k a :
  fold_left (fun a i => g (g a (2 * i)%nat) (2 * i + 1)%nat) (seq 0 k) a =
  fold_left g (seq 0 (2 * k)) a.
Proof.
  induction k as [|k IH]; [done|].
  replace (2 * S k)%nat with (2 * k + 2)%nat by lia.
  rewrite seq_S, !seq_app, !fold_left_app, <-IH. simpl.
  by rewrite Nat.add_1_r.
Qed.

(** ** More on byte strings *)

Lemma lookup_chunks {A} n k (l : list A) i :
  (i < k)%nat -> chunks n k l !! i = Some (take n (drop (n * i) l)).
Proof.
  revert l i. induction k as [|k IH]; intros l i Hi; [lia|].
  destruct i as [|i]; simpl; [by rewrite Nat.mul_0_r, drop_0|].
  rewrite IH, drop_drop by lia. do 3 f_equal. lia.
Qed.

Lemma add_lxor_low a b A B :
  is_byte a -> is_byte b ->
  Z.lxor (a + 256 * A) (b + 256 * B) = Z.lxor a b + 256 * Z.lxor A B.
Proof.
  intros Ha Hb.
  assert (Hsplit : forall c C, is_byte c -> c + 256 * C = Z.lxor c (Z.shiftl C 8)).
  { intros c C Hc. rewrite Z.shiftl_mul_pow2, (Z.mul_comm C) by lia.
    apply Z.add_nocarry_lxor. change (2 ^ 8) with 256.
    replace (256 * C) with (Z.shiftl C 8) by (rewrite Z.shiftl_mul_pow2 by lia; lia).
    apply Z.bits_inj'. intros i Hi. rewrite Z.land_spec, Z.shiftl_spec, Z.testbit_0_l by lia.
    destruct (Z.lt_ge_cases i 8) as [Hlt|Hge].
    - rewrite (Z.testbit_neg_r C) by lia. apply andb_false_r.
    - by rewrite (in_word_testbit 8 ltac:(lia) c i Hc Hge). }
  rewrite !Hsplit by (done || by apply lxor_in_word). rewrite Z.shiftl_lxor.
  rewrite !Z.lxor_assoc. f_equal. rewrite <-!Z.lxor_assoc. f_equal. apply Z.lxor_comm.
Qed.

Lemma le_word_zip_lxor l1 l2 :
  bytes_ok l1 -> bytes_ok l2 -> length l1 = length l2 ->
  le_word (zip_with Z.lxor l1 l2) = Z.lxor (le_word l1) (le_word l2).
Proof.
  intros H1. revert l2. induction H1 as [|a l1 Ha _ IH]; intros l2 H2 Hlen;
    destruct H2 as [|b l2 Hb Hl2]; try discriminate Hlen; [done|].
  injection Hlen as Hlen. cbn [zip_with le_word]. rewrite IH by done.
  symmetry. by apply add_lxor_low.
Qed.

Lemma le_word_zeros n : le_word (replicate n 0) = 0.
Proof. induction n as [|n IH]; [done|]. simpl replicate. cbn [le_word]. by rewrite IH. Qed.

Lemma le_word_app l1 l2 :
  le_word (l1 ++ l2) = le_word l1 + 2 ^ (8 * Z.of_nat (length l1)) * le_word l2.
Proof.
  induction l1 as [|b l1 IH]; [cbn; lia|].
  cbn [length app le_word]. rewrite pow256_succ, IH. lia.
Qed.

Lemma zeros_ok n : bytes_ok (replicate n 0).
Proof. apply Forall_replicate. by apply in_word_0. Qed.
#[export] Hint Resolve zeros_ok le_bytes_ok : words.

(** ** Loops whose body can fail *)

Fixpoint mfold {A B} (f : A -> B -> option A) (l : list B) (a : A) : option A :=
  match l with [] => Some a | b :: l => a' ← f a b; mfold f l a' end.

(** When no iteration fails under the invariant, the loop is a [fold_left]. *)
Lemma mfold_fold {A B} (P : A -> Prop) (f : A -> B -> option A) (g : A -> B -> A) l a :
  P a -> (forall a b, b ∈ l -> P a -> f a b = Some (g a b) /\ P (g a b)) ->
  mfold f l a = Some (fold_left g l a) /\ P (fold_left g l a).
Proof.
  revert a. induction l as [|b l IH]; intros a Ha Hf; simpl; [done|].
  destruct (Hf a b) as [-> Hg]; [by apply list_elem_of_here|done|]. simpl.
  apply IH; [done|]. intros. apply Hf; [by apply list_elem_of_further|done].
Qed.

(** A loop that can fail simulates a pure fold through a relation. *)
Lemma mfold_rel {A A' B} (R : A -> A' -> Prop) (f : A -> B -> option A) (g : A' -> B -> A') l a a' :
  R a a' ->
  (forall a a' b, b ∈ l -> R a a' -> exists a1, f a b = Some a1 /\ R a1 (g a' b)) ->
  exists a1, mfold f l a = Some a1 /\ R a1 (fold_left g l a').
Proof.
  revert a a'. induction l as [|b l IH]; intros a a' Ha Hf; simpl; [by exists a|].
  destruct (Hf a a' b) as (a1 & -> & Ha1); [by apply list_elem_of_here|done|]. simpl.
  apply IH; [done|]. intros. apply Hf; [by apply list_elem_of_further|done].
Qed.

(** Two folds run in turns are the two folds. *)
Lemma fold_left_pair {A1 A2 B} (f1 : A1 -> B -> A1) (f2 : A2 -> B -> A2) l a1 a2 :
  fold_left (fun p b => (f1 p.1 b, f2 p.2 b)) l (a1, a2) = (fold_left f1 l a1, fold_left f2 l a2).
Proof. revert a1 a2. induction l as [|b l IH]; intros; simpl; [done|]. apply IH. Qed.

Lemma mfold_app {A B} (f : A -> B -> option A) l1 l2 a :
  mfold f (l1 ++ l2) a = (a' ← mfold f l1 a; mfold f l2 a').
Proof.
  revert a. induction l1 as [|b l1 IH]; intros a; simpl; [done|].
  destruct (f a b); simpl; [apply IH|done].
Qed.

(** [a[i] = x] on an array, [None] when out of bounds. *)
Definition array_set {A} (i : Z) (x : A) (l : list A) : option (list A) :=
  if (0 <=? i) && (i <? Z.of_nat (length l)) then Some (<[Z.to_nat i := x]> l) else None.

(** [a[i]], [None] when out of bounds. *)
Definition array_get {A} (l : list A) (i : Z) : option A :=
  if 0 <=? i then l !! Z.to_nat i else None.

Lemma array_get_nth {A} (d : A) l i :
  0 <= i < Z.of_nat (length l) -> array_get l i = Some (nth (Z.to_nat i) l d).
Proof.
  intros Hi. unfold array_get. destruct (Z.leb_spec 0 i); [|lia].
  destruct (l !! Z.to_nat i) as [x|] eqn:Hx.
  - by rewrite (nth_lookup_Some _ _ _ _ Hx).
  - apply lookup_ge_None in Hx. lia.
Qed.

Lemma array_set_insert {A} (x : A) l i :
  0 <= i < Z.of_nat (length l) -> array_set i x l = Some (<[Z.to_nat i := x]> l).
Proof.
  intros Hi. unfold array_set.
  destruct (Z.leb_spec 0 i); [|lia]. destruct (Z.ltb_spec i (Z.of_nat (length l))); [done|lia].
Qed.

Lemma Forall_nth_lt {A} (P : A -> Prop) l i d : Forall P l -> (i < length l)%nat -> P (nth i l d).
Proof.
  intros Hl Hi. destruct (lookup_lt_is_Some_2 l i Hi) as [x Hx].
  rewrite (nth_lookup_Some _ _ _ _ Hx). exact (Forall_lookup_1 _ _ _ _ Hl Hx).
Qed.

Lemma lookup_nth_lt {A} (l : list A) i d :
  (i < length l)%nat -> l !! i = Some (nth i l d).
Proof.
  intros Hi. destruct (lookup_lt_is_Some_2 l i Hi) as [x Hx].
  by rewrite (nth_lookup_Some _ _ _ _ Hx).
Qed.

Lemma reverse_zip_with {A B C} (f : A -> B -> C) l1 l2 :
  length l1 = length l2 -> reverse (zip_with f l1 l2) = zip_with f (reverse l1) (reverse l2).
Proof.
  revert l2. induction l1 as [|x l1 IH]; intros [|y l2] Hl; try done.
  simpl. rewrite !reverse_cons, IH, zip_with_app; [done|rewrite !length_reverse|]; by injection Hl.
Qed.

(** ** Big-endian numbers

    A byte string as a big-endian number. *)
Definition be_number (h : list Z) : Z := le_word (reverse h).

Lemma be_number_app a b :
  be_number (a ++ b) = be_number a * 2 ^ (8 * Z.of_nat (length b)) + be_number b.
Proof. unfold be_number. rewrite reverse_app, le_word_app, length_reverse. lia. Qed.

Lemma be_number_range h : bytes_ok h -> 0 <= be_number h < 2 ^ (8 * Z.of_nat (length h)).
Proof.
  intros Hok. unfold be_number. rewrite <-(length_reverse h).
  by apply le_word_in_word, Forall_reverse.
Qed.

Lemma be_number_inj a b :
  bytes_ok a -> bytes_ok b -> length a = length b -> be_number a = be_number b -> a = b.
Proof.
  intros Ha Hb Hl Heq. apply (inj reverse).
  apply le_word_inj; [by apply Forall_reverse..|by rewrite !length_reverse|done].
Qed.
