(* ===== verification/Primes.v ===== *)
(** * The prime search of ethash ([ethash/lib/ethash/primes.c])

    [is_odd_prime] is trial division by odd numbers, [ethash_find_largest_prime]
    the descending search built on it.  [None] stands for signed overflow or a
    loop that does not stop; the theorems show that neither happens. *)

From stdpp Require Import base numbers list.
From Stdlib Require Import ZArith Znumtheory Lia.
From S2P Require Import Prelude.

Local Open Scope Z_scope.

(** One iteration of [for (d = 3; (int64_t)d * (int64_t)d <= number; d += 2)]. *)
Definition trial_step (number d : Z) : Z + option Z :=
  if d * d <=? number then
    if Z.rem number d =? 0 then inr (Some 0)
    else match int_of (d + 2) with Some d' => inl d' | None => inr None end
  else inr (Some 1).

Definition is_odd_prime (number : Z) : option Z :=
  match loop (trial_step number) fuel32 3 with inr r => r | inl _ => None end.

(** One iteration of [while (!is_odd_prime(n)) n -= 2]. *)
Definition descend_step (n : Z) : Z + option Z :=
  match is_odd_prime n with
  | None => inr None
  | Some r =>
      if r =? 0 then
        match int_of (n - 2) with Some n' => inl n' | None => inr None end
      else inr (Some n)
  end.

Definition ethash_find_largest_prime (upper_bound : Z) : option Z :=
  let n := upper_bound in
  if n <? 2 then Some 0
  else if n =? 2 then Some 2
  else
    let n := if Z.rem n 2 =? 0 then n - 1 else n in
    match loop descend_step fuel32 n with inr r => r | inl _ => None end.

(** ** Trial division *)

Lemma rem_eqb_divide a b : 0 <= a -> 0 < b -> (Z.rem a b =? 0) = true <-> (b | a).
Proof.
  intros Ha Hb. rewrite Z.eqb_eq, Z.rem_mod_nonneg by lia.
  apply Z.mod_divide. lia.
Qed.

(** A composite number has a factor that does not exceed its square root. *)
Lemma small_factor n : 1 < n -> ~ Z.prime n -> exists d, 1 < d /\ d * d <= n /\ (d | n).
Proof.
  intros Hn Hnp. rewrite prime_alt in Hnp.
  destruct (not_prime_divide n Hn Hnp) as (a & Ha & [b Hb]).
  destruct (Z.le_gt_cases (a * a) n) as [Hle|Hgt].
  - exists a. split; [lia|]. split; [done|]. by exists b.
  - exists b. split; [nia|]. split; [nia|]. exists a. lia.
Qed.

Lemma odd_factor d n : Z.odd n = true -> (d | n) -> Z.odd d = true.
Proof.
  intros Hn [k ->]. rewrite Z.odd_mul in Hn.
  apply andb_true_iff in Hn. apply Hn.
Qed.

Lemma odd_add2 n : Z.odd (n + 2) = Z.odd n.
Proof. rewrite Z.odd_add. change (Z.odd 2) with false. apply xorb_false_r. Qed.

Lemma odd_sub1 n : Z.odd (n - 1) = negb (Z.odd n).
Proof. rewrite Z.odd_sub. change (Z.odd 1) with true. apply xorb_true_r. Qed.

(** A Z.prime has no divisor strictly between 1 and itself. *)
Lemma prime_no_factor n d : Z.prime n -> 1 < d < n -> ~ (d | n).
Proof. intros [_ Hn]. apply Hn. Qed.

Lemma odd_prime_of_trial n d :
  2 < n -> Z.odd n = true -> Z.odd d = true -> n < d * d -> 3 <= d ->
  (forall e, 3 <= e < d -> Z.odd e = true -> ~ (e | n)) -> Z.prime n.
Proof.
  intros Hn Hodd Hd Hdd Hd3 Hnone.
  destruct (prime_dec n) as [?|Hnp]; [by apply prime_alt|exfalso].
  rewrite <-prime_alt in Hnp.
  destruct (small_factor n ltac:(lia) Hnp) as (e & He & Hee & Hdiv).
  pose proof (odd_factor e n Hodd Hdiv) as Heodd.
  apply (Hnone e); [|done|done].
  assert (e <> 2) by (intros ->; done). split; [lia|nia].
Qed.

Definition trial_inv (n d : Z) : Prop :=
  3 <= d /\ Z.odd d = true /\ (d - 2) * (d - 2) <= n /\
  (forall e, 3 <= e < d -> Z.odd e = true -> ~ (e | n)).

Lemma is_odd_prime_spec n :
  2 < n <= int_max -> Z.odd n = true ->
  exists r, is_odd_prime n = Some r /\
    (r = 0 /\ ~ Z.prime n \/ r = 1 /\ Z.prime n).
Proof.
  intros Hn Hodd. unfold is_odd_prime.
  destruct (loop_total (trial_step n) (trial_inv n) (fun d => 2 ^ 31 + 2 - d)
    (fun o => exists r, o = Some r /\ (r = 0 /\ ~ Z.prime n \/ r = 1 /\ Z.prime n))
    fuel32 3) as (b & -> & (r & -> & Hr)).
  - intros d (H1 & _ & H2 & _). unfold int_max in Hn. nia.
  - intros d (H3 & Hd & Hsq & Hnone). unfold trial_step.
    destruct (Z.leb_spec (d * d) n) as [Hle|Hgt]; [|
      exists 1; split; [done|]; right; split; [done|];
      by apply (odd_prime_of_trial n d); try lia].
    destruct (Z.rem n d =? 0) eqn:Hrem.
    + apply rem_eqb_divide in Hrem; [|lia..]. exists 0. split; [done|].
      left. split; [done|]. intros Hp.
      apply (prime_no_factor n d Hp); [nia|done].
    + rewrite int_of_Some by (unfold int_min, int_max in *; nia).
      split; [|lia]. split; [lia|]. split.
      { by rewrite odd_add2. }
      split; [nia|]. intros e He Heodd Hdiv.
      destruct (Z.lt_ge_cases e d) as [?|?]; [by apply (Hnone e ltac:(lia))|].
      destruct (Z.eq_dec e d) as [->|?].
      * apply rem_eqb_divide in Hdiv; [congruence|lia..].
      * assert (Hed : d = e - 1) by lia. rewrite Hed, odd_sub1, Heodd in Hd. done.
  - split; [lia|]. split; [done|]. split; [lia|]. intros; lia.
  - unfold fuel32. lia.
  - eauto.
Qed.

(** ** The descending search *)

Definition descend_inv (ub n : Z) : Prop :=
  3 <= n <= ub /\ Z.odd n = true /\ (forall q, Z.prime q -> q <= ub -> q <= n).

Lemma prime_even_2 q : Z.prime q -> Z.odd q = false -> q = 2.
Proof.
  intros Hq He. rewrite <-Z.negb_even in He. apply negb_false_iff, Z.even_spec in He.
  destruct He as [k Hk]. pose proof (Z.prime_ge_2 q Hq).
  destruct (Z.eq_dec q 2) as [|Hne]; [done|exfalso].
  apply (prime_no_factor q 2 Hq); [lia|]. exists k. lia.
Qed.

Lemma descend_total ub n :
  ub <= int_max -> descend_inv ub n ->
  exists p, loop descend_step fuel32 n = inr (Some p) /\
    Z.prime p /\ p <= ub /\ (forall q, Z.prime q -> q <= ub -> q <= p).
Proof.
  intros Hub Hinv.
  destruct (loop_total descend_step (descend_inv ub) (fun n => n)
    (fun o => exists p, o = Some p /\ Z.prime p /\ p <= ub /\
       (forall q, Z.prime q -> q <= ub -> q <= p)) fuel32 n)
    as (b & -> & p & -> & Hp); [| |done| |eauto].
  - intros k (Hk & _). lia.
  - intros k (Hk & Hodd & Hmax). unfold descend_step.
    destruct (is_odd_prime_spec k) as (r & -> & [[-> Hnp]|[-> Hp]]);
      [lia|done| |exists k; split; [done|split; [done|split; [lia|done]]]].
    change (0 =? 0) with true. cbv iota.
    assert (k <> 3) by (intros ->; apply Hnp, Z.prime_3).
    assert (k <> 4) by (intros ->; discriminate Hodd).
    rewrite int_of_Some by (unfold int_min, int_max in *; lia).
    split; [|lia]. split; [lia|].
    split; [by rewrite <-odd_add2, Z.sub_add|].
    intros q Hq Hle. specialize (Hmax q Hq Hle).
    destruct (Z.eq_dec q k) as [->|?]; [done|].
    destruct (Z.eq_dec q (k - 1)) as [->|?]; [|lia].
    pose proof (prime_even_2 (k - 1) Hq) as H2. rewrite odd_sub1, Hodd in H2.
    specialize (H2 eq_refl). lia.
  - unfold fuel32, int_max in *. destruct Hinv. lia.
Qed.

Lemma find_largest_prime_spec ub :
  2 <= ub <= int_max ->
  exists p, ethash_find_largest_prime ub = Some p /\
    Z.prime p /\ p <= ub /\ (forall q, Z.prime q -> q <= ub -> q <= p).
Proof.
  intros Hub. unfold ethash_find_largest_prime.
  destruct (Z.ltb_spec ub 2); [lia|].
  destruct (Z.eqb_spec ub 2) as [->|Hne]; [by exists 2; split; [|split; [apply Z.prime_2|]]|].
  assert (Hrem : (Z.rem ub 2 =? 0) = Z.even ub).
  { rewrite Z.rem_mod_nonneg, Zmod_even by lia. by destruct (Z.even ub). }
  rewrite Hrem. destruct (Z.even ub) eqn:Heven.
  - destruct (descend_total ub (ub - 1)) as (p & -> & Hp); [lia| |eauto].
    assert (ub <> 3) by (intros ->; discriminate Heven). split; [lia|]. split; [by rewrite odd_sub1, <-Z.negb_even, Heven|].
    intros q Hq Hle. destruct (Z.eq_dec q ub) as [->|?]; [|lia].
    pose proof (prime_even_2 ub Hq) as H2. rewrite <-Z.negb_even, Heven in H2.
    specialize (H2 eq_refl). lia.
  - destruct (descend_total ub ub) as (p & -> & Hp); [lia| |eauto].
    split; [lia|]. split; [by rewrite <-Z.negb_even, Heven|done].
Qed.

(** For every [int] upper bound, [ethash_find_largest_prime] stops without
    signed overflow; it gives 0 when there is no prime to find and otherwise
    the largest prime not above the bound. *)
Theorem find_largest_prime_correct (ub : Z) :
  int_min <= ub <= int_max ->
  exists p, ethash_find_largest_prime ub = Some p /\
    (ub < 2 /\ p = 0 \/
     Z.prime p /\ p <= ub /\ forall q, Z.prime q -> q <= ub -> q <= p).
Proof.
  intros Hub. destruct (Z.lt_ge_cases ub 2) as [Hlt|Hge].
  - exists 0. unfold ethash_find_largest_prime. destruct (Z.ltb_spec ub 2); [auto|lia].
  - destruct (find_largest_prime_spec ub) as (p & Hp & ?); [lia|eauto].
Qed.

Lemma find_largest_prime_correct_witness :
  int_min <= 4096 <= int_max /\ ethash_find_largest_prime 4096 = Some 4093 /\ Z.prime 4093.
Proof.
  assert (Hub : int_min <= 4096 <= int_max) by (unfold int_min, int_max; lia).
  destruct (find_largest_prime_correct 4096 Hub) as (p & Hp & Hspec).
  assert (Hv : ethash_find_largest_prime 4096 = Some 4093) by (vm_compute; reflexivity).
  split; [exact Hub|]. split; [exact Hv|].
  rewrite Hv in Hp. injection Hp as <-. destruct Hspec as [[H2 _]|[Hprime _]]; [lia|exact Hprime].
Defined.
