(* ===== verification/Words.v ===== *)
(** * Words, byte order and the hash unions

    Models [ethash/lib/ethash/bit_manipulation.h], [kiss99.hpp],
    [endianness.hpp] and [ethash/include/ethash/hash_types.h].  A hash union is
    its memory: a list of bytes; the [word32s]/[word64s] members are views
    through the byte order of the host, a parameter of the model. *)

From stdpp Require Import base numbers list.
From Stdlib Require Import ZArith Lia Bool.
From S2P Require Import Prelude.

Local Open Scope Z_scope.
Local Open Scope word_scope.

(** ** bit_manipulation.h *)
Module Bits.

(** [(unsigned int)(-(int)c)] for an already masked [c]. *)
Definition neg_c (c : Z) : Z := u32 (- c).

Definition rotl32 (n c : Z) : Z :=
  let mask := 31 in
  let c := c .& mask in
  (shl 32 n c) .| (n .> (neg_c c .& mask)).

Definition rotr32 (n c : Z) : Z :=
  let mask := 31 in
  let c := c .& mask in
  (n .> c) .| (shl 32 n (neg_c c .& mask)).

(** [__builtin_clz]: leading zero bits of a nonzero 32-bit word. *)
Definition builtin_clz (x : Z) : Z := 31 - Z.log2 x.

Definition clz32 (x : Z) : Z := if x =? 0 then 32 else builtin_clz x.

(** [__builtin_popcount]: one bits of a 32-bit word. *)
Definition builtin_popcount (x : Z) : Z :=
  Z.of_nat (length (filter (fun i => Z.testbit x (Z.of_nat i) = true) (seq 0 32))).

Definition popcount32 (x : Z) : Z := builtin_popcount x.

Definition mul_hi32 (x y : Z) : Z := u32 (u64 (x * y) .> 32).

Definition fnv_prime : Z := 0x01000193.
Definition fnv_offset_basis : Z := 0x811c9dc5.

Definition fnv1 (u v : Z) : Z := u32 (u * fnv_prime) .^ v.
Definition fnv1a (u v : Z) : Z := u32 ((u .^ v) * fnv_prime).

(** *** Rotations *)

Lemma land31 c : c .& 31 = c mod 32.
Proof. change 31 with (Z.ones 5). rewrite Z.land_ones by lia. done. Qed.

Lemma neg_land31 c : 0 <= c < 32 -> neg_c c .& 31 = (32 - c) mod 32.
Proof.
  intros Hc. rewrite land31. unfold neg_c, wrap.
  destruct (Z.eq_dec c 0) as [->|]; [done|].
  rewrite (Z.mod_small (32 - c)) by lia.
  rewrite <-(Z.mod_unique_pos (- c) (2 ^ 32) (-1) (2 ^ 32 - c)) by lia.
  symmetry. apply (Z.mod_unique_pos _ 32 (2 ^ 27 - 1)); lia.
Qed.

Lemma rotl32_testbit n c i :
  in_word 32 n -> 0 <= i < 32 ->
  Z.testbit (rotl32 n c) i = Z.testbit n ((i - c) mod 32).
Proof.
  intros Hn Hi. unfold rotl32. rewrite Z.lor_spec, Z.shiftr_spec by lia.
  rewrite !land31. set (k := c mod 32).
  assert (Hk : 0 <= k < 32) by (apply Z.mod_pos_bound; lia).
  assert (Hmod : (i - c) mod 32 = (i - k) mod 32).
  { unfold k. by rewrite Zminus_mod_idemp_r. }
  pose proof (neg_land31 k Hk) as Hneg. rewrite land31 in Hneg. rewrite Hneg, Hmod.
  rewrite shl_testbit by lia. destruct (Z.eq_dec k 0) as [Hk0|Hk0].
  - rewrite Hk0. case_decide; [lia|]. rewrite !Z.sub_0_r, Z.mod_same, Z.add_0_r by lia.
    rewrite Z.mod_small by lia. apply orb_diag.
  - rewrite (Z.mod_small (32 - k)) by lia. case_decide as Hd.
    + rewrite <-(Z.mod_unique_pos (i - k) 32 (-1) (i + (32 - k))) by lia. done.
    + rewrite (in_word_testbit 32 ltac:(lia) n (i + (32 - k))) by (done || lia).
      rewrite orb_false_r, Z.mod_small by lia. done.
Qed.

Lemma rotr32_testbit n c i :
  in_word 32 n -> 0 <= i < 32 ->
  Z.testbit (rotr32 n c) i = Z.testbit n ((i + c) mod 32).
Proof.
  intros Hn Hi. unfold rotr32. rewrite !land31. set (k := c mod 32).
  assert (Hk : 0 <= k < 32) by (apply Z.mod_pos_bound; lia).
  rewrite Z.lor_spec, Z.shiftr_spec by lia.
  assert (Hmod : (i + c) mod 32 = (i + k) mod 32).
  { unfold k. by rewrite Zplus_mod_idemp_r. }
  pose proof (neg_land31 k Hk) as Hneg. rewrite land31 in Hneg. rewrite Hneg, Hmod.
  destruct (Z.eq_dec k 0) as [Hk0|Hk0].
  - rewrite Hk0, Z.sub_0_r, Z.mod_same, !Z.add_0_r by lia. rewrite shl_testbit by lia.
    case_decide; [lia|]. rewrite Z.sub_0_r, Z.mod_small by lia. apply orb_diag.
  - rewrite (Z.mod_small (32 - k)), shl_testbit by lia. case_decide as Hd.
    + rewrite orb_false_r, Z.mod_small by lia. done.
    + rewrite (in_word_testbit 32 ltac:(lia) n (i + k)) by (done || lia).
      rewrite orb_false_l. f_equal.
      rewrite <-(Z.mod_unique_pos (i + k) 32 1 (i - (32 - k))) by lia. done.
Qed.

Lemma rotl32_in_word n c : in_word 32 n -> in_word 32 (rotl32 n c).
Proof.
  intros Hn. unfold rotl32. apply lor_in_word; [lia| |].
  - apply shl_in_word. lia.
  - apply shiftr_in_word; [lia| |done]. rewrite land31. apply Z.mod_pos_bound. lia.
Qed.

Lemma rotr32_in_word n c : in_word 32 n -> in_word 32 (rotr32 n c).
Proof.
  intros Hn. unfold rotr32. apply lor_in_word; [lia| |].
  - apply shiftr_in_word; [lia| |done]. rewrite land31. apply Z.mod_pos_bound. lia.
  - apply shl_in_word. lia.
Qed.

Lemma rotr32_rotl32 n c : in_word 32 n -> rotr32 (rotl32 n c) c = n.
Proof.
  intros Hn. apply (word_ext 32); [lia| |done|].
  - by apply rotr32_in_word, rotl32_in_word.
  - intros i Hi. rewrite rotr32_testbit by (done || by apply rotl32_in_word).
    rewrite rotl32_testbit by (done || (apply Z.mod_pos_bound; lia)). f_equal.
    rewrite Zminus_mod_idemp_l, Z.add_simpl_r. apply Z.mod_small. lia.
Qed.

(** For every 32-bit word and every (unmasked) rotation count, [rotl32] and
    [rotr32] rotate: bit [i] of the result is the bit [c] places below (above),
    modulo 32, the count 0 included; and they are inverse to each other. *)
Theorem rotations_correct (n c i : Z) :
  in_word 32 n -> 0 <= i < 32 ->
  Z.testbit (rotl32 n c) i = Z.testbit n ((i - c) mod 32) /\
  Z.testbit (rotr32 n c) i = Z.testbit n ((i + c) mod 32) /\
  rotr32 (rotl32 n c) c = n.
Proof. auto using rotl32_testbit, rotr32_testbit, rotr32_rotl32. Qed.

Lemma rotations_correct_witness :
  in_word 32 0x80000001 /\ rotr32 (rotl32 0x80000001 36) 36 = 0x80000001.
Proof.
  assert (Hn : in_word 32 0x80000001) by (unfold in_word; lia).
  split; [exact Hn|].
  exact (proj2 (proj2 (rotations_correct 0x80000001 36 5 Hn ltac:(lia)))).
Defined.

(** *** FNV-1 *)

Lemma fnv1_in_word u v : in_word 32 v -> in_word 32 (fnv1 u v).
Proof. intros. unfold fnv1. auto with words. Qed.

Lemma fnv1a_in_word u v : in_word 32 (fnv1a u v).
Proof. apply wrap_in_word. lia. Qed.

(** The FNV prime is odd, hence invertible modulo [2^32]. *)
Definition fnv_inverse : Z := 0x359c449b.

Lemma mul_fnv_prime_cancel u :
  in_word 32 u -> u32 (u32 (u * fnv_prime) * fnv_inverse) = u.
Proof.
  intros Hu. unfold wrap. rewrite Zmult_mod_idemp_l, <-Z.mul_assoc.
  rewrite <-Zmult_mod_idemp_r.
  change ((fnv_prime * fnv_inverse) mod 2 ^ 32) with 1.
  rewrite Z.mul_1_r. by apply Z.mod_small.
Qed.

End Bits.

(** ** kiss99.hpp *)
Module Kiss99.

Record kiss99 := mk_kiss99 { z : Z; w : Z; jsr : Z; jcong : Z }.

(** [kiss99() noexcept = default]: the initial values of the specification. *)
Definition default : kiss99 := mk_kiss99 362436069 521288629 123456789 380116160.

(** [operator()()]: the next number and the new state. *)
Definition next (k : kiss99) : Z * kiss99 :=
  let z := u32 (u32 (36969 * (z k .& 0xffff)) + (z k .> 16)) in
  let w := u32 (u32 (18000 * (w k .& 0xffff)) + (w k .> 16)) in
  let jcong := u32 (u32 (69069 * jcong k) + 1234567) in
  let j := jsr k in
  let j := j .^ shl 32 j 17 in
  let j := j .^ (j .> 13) in
  let j := j .^ shl 32 j 5 in
  (u32 ((u32 (shl 32 z 16 + w) .^ jcong) + j), mk_kiss99 z w j jcong).

Definition wf (k : kiss99) : Prop :=
  in_word 32 (z k) /\ in_word 32 (w k) /\ in_word 32 (jsr k) /\ in_word 32 (jcong k).

Lemma next_wf k : wf k -> wf (next k).2 /\ in_word 32 (next k).1.
Proof.
  intros (Hz & Hw & Hj & Hc). unfold next, wf; simpl.
  auto 10 with words.
Qed.

(** A multiply-with-carry step never leaves 32 bits: the wrap-around of the
    unsigned arithmetic is never used. *)
Lemma mwc_exact a x :
  0 <= a < 2 ^ 16 -> in_word 32 x ->
  u32 (u32 (a * (x .& 0xffff)) + (x .> 16)) = a * (x mod 2 ^ 16) + x / 2 ^ 16.
Proof.
  intros Ha Hx. unfold in_word in Hx.
  change 0xffff with (Z.ones 16). rewrite Z.land_ones, Z.shiftr_div_pow2 by lia.
  pose proof (Z.mod_pos_bound x (2 ^ 16) ltac:(lia)).
  assert (0 <= x / 2 ^ 16 < 2 ^ 16)
    by (split; [apply Z.div_pos; lia | apply Z.div_lt_upper_bound; lia]).
  rewrite (wrap_id 32 (a * _)) by (unfold in_word; nia).
  apply wrap_id. unfold in_word. nia.
Qed.

Lemma shl_fix_0 s x : 0 < s -> in_word 32 x -> x = shl 32 x s -> x = 0.
Proof.
  intros Hs Hx Heq. apply (word_ext 32); [lia|done|by apply in_word_0|].
  intros i Hi. rewrite Z.testbit_0_l.
  destruct Hi as [Hi Hi']. revert Hi'. pattern i. apply Zlt_0_ind; [|done].
  clear i Hi. intros i IH Hi Hi'. rewrite Heq, shl_testbit by lia.
  case_decide; [done|]. apply IH; lia.
Qed.

Lemma shr_fix_0 s x : 0 < s -> in_word 32 x -> x = x .> s -> x = 0.
Proof.
  intros Hs [Hx _] Heq. rewrite Z.shiftr_div_pow2 in Heq by lia.
  destruct (Z.eq_dec x 0) as [|Hne]; [done|exfalso].
  assert (1 < 2 ^ s) by (apply Z.pow_gt_1; lia).
  assert (x / 2 ^ s < x) by (apply Z.div_lt; lia). lia.
Qed.

Lemma xorshift_nonzero x y : (x = y -> x = 0) -> x <> 0 -> x .^ y <> 0.
Proof. intros H Hx Hxy. apply Hx, H. by apply Z.lxor_eq. Qed.

Lemma jsr_nonzero k : wf k -> jsr k <> 0 -> jsr (next k).2 <> 0.
Proof.
  intros (_ & _ & Hj & _) Hne. unfold next; simpl.
  apply xorshift_nonzero; [apply shl_fix_0; auto 8 with words; lia|].
  apply xorshift_nonzero; [apply shr_fix_0; auto 8 with words; lia|].
  apply xorshift_nonzero; [apply shl_fix_0; auto 8 with words; lia|done].
Qed.

Lemma mwc_nonzero a x : 0 < a -> in_word 32 x -> x <> 0 -> a * (x mod 2 ^ 16) + x / 2 ^ 16 <> 0.
Proof.
  intros Ha Hx Hne. pose proof (Z.div_mod x (2 ^ 16) ltac:(lia)).
  pose proof (Z.mod_pos_bound x (2 ^ 16) ltac:(lia)).
  assert (0 <= x / 2 ^ 16) by (apply Z.div_pos; unfold in_word in Hx; lia). nia.
Qed.

(** No component is at a fixed point of its recurrence. *)
Definition live (k : kiss99) : Prop := z k <> 0 /\ w k <> 0 /\ jsr k <> 0.

Lemma next_live k : wf k -> live k -> live (next k).2.
Proof.
  intros Hwf (Hz & Hw & Hj). split; [|split; [|by apply jsr_nonzero]];
    destruct Hwf as (? & ? & _); unfold next; simpl;
    rewrite mwc_exact by (done || lia); by apply mwc_nonzero.
Qed.

(** [n] successive calls of the generator. *)
Fixpoint draws (n : nat) (k : kiss99) : list Z * kiss99 :=
  match n with
  | O => ([], k)
  | S n => let '(x, k) := next k in let '(xs, k) := draws n k in (x :: xs, k)
  end.

(** Any number of draws from a generator that is well formed and live (the
    default-constructed one is) gives 32-bit numbers and leaves it well formed
    and live: neither multiply-with-carry part nor the xorshift part ever gets
    stuck at zero. *)
Theorem kiss99_draws_live (n : nat) (k : kiss99) :
  wf k -> live k ->
  wf default /\ live default /\
  Forall (in_word 32) (draws n k).1 /\ length (draws n k).1 = n /\
  wf (draws n k).2 /\ live (draws n k).2.
Proof.
  intros Hwf Hlive. split; [by repeat split|]. split; [by repeat split|].
  revert k Hwf Hlive. induction n as [|n IH]; intros k Hwf Hlive; cbn [draws]; [by auto|].
  destruct (next k) as [x k'] eqn:Hk. pose proof (next_wf k Hwf) as [Hwf' Hx].
  pose proof (next_live k Hwf Hlive) as Hlive'. rewrite Hk in *. simpl in *.
  destruct (IH k' Hwf' Hlive') as (? & ? & ? & ?). destruct (draws n k') as [xs k''].
  simpl in *. split; [by constructor|]. auto.
Qed.

Lemma kiss99_draws_live_witness :
  wf default /\ live default /\ length (draws 3 default).1 = 3%nat /\ live (draws 3 default).2.
Proof.
  assert (H1 : wf default) by (repeat split; vm_compute; congruence).
  assert (H2 : live default) by (repeat split; vm_compute; congruence).
  destruct (kiss99_draws_live 3 default H1 H2) as (_ & _ & _ & Hl & _ & Hv).
  exact (conj H1 (conj H2 (conj Hl Hv))).
Defined.

End Kiss99.

(** ** Byte order and the hash unions *)

Inductive byte_order := LittleEndian | BigEndian.

(** What the code asks of the machine it runs on: the byte order
    ([__BYTE_ORDER]) and the CPU features of [__builtin_cpu_supports]. *)
Class Host := mk_host { host_order : byte_order; cpu_bmi : bool; cpu_bmi2 : bool }.

(** A plain little-endian machine; not an instance, so that nothing is proved
    about it by accident. *)
Definition plain_host : Host := mk_host LittleEndian false false.

Section Memory.
Context {host : Host}.

(** Reading (writing) an integer from (to) memory in the host's order. *)
Definition load (l : list Z) : Z :=
  match host_order with LittleEndian => le_word l | BigEndian => le_word (reverse l) end.
Definition store (n : nat) (z : Z) : list Z :=
  match host_order with LittleEndian => le_bytes n z | BigEndian => reverse (le_bytes n z) end.

(** A union of bytes read as (built from) an array of [n]-byte integers: the
    [word32s] and [word64s] members of the hash unions. *)
Definition words (n : nat) (h : list Z) : list Z := load <$> chunks n (length h / n) h.
Definition of_words (n : nat) (ws : list Z) : list Z := concat (store n <$> ws).
End Memory.

Abbreviation word32s := (words 4).
Abbreviation word64s := (words 8).
Abbreviation of_word32s := (of_words 4).
Abbreviation of_word64s := (of_words 8).

(** [__builtin_bswap32], [__builtin_bswap64]. *)
Definition bswap32 (x : Z) : Z := le_word (reverse (le_bytes 4 x)).
Definition bswap64 (x : Z) : Z := le_word (reverse (le_bytes 8 x)).

(** [struct le] and [struct be] of endianness.hpp. *)
Definition le_uint32 {host : Host} (x : Z) : Z :=
  match host_order with LittleEndian => x | BigEndian => bswap32 x end.
Definition le_uint64 {host : Host} (x : Z) : Z :=
  match host_order with LittleEndian => x | BigEndian => bswap64 x end.
Definition le_uint32s {host : Host} (h : list Z) : list Z :=
  match host_order with
  | LittleEndian => h
  | BigEndian => of_word32s (le_uint32 <$> word32s h)
  end.
Definition be_uint64 {host : Host} (x : Z) : Z :=
  match host_order with LittleEndian => bswap64 x | BigEndian => x end.

(** A well-formed hash of [n] bytes: [hash256], [hash512], [hash1024]. *)
Definition hash_wf (n : nat) (h : list Z) : Prop := length h = n /\ bytes_ok h.
Abbreviation hash256_wf := (hash_wf 32).
Abbreviation hash512_wf := (hash_wf 64).
Abbreviation hash1024_wf := (hash_wf 128).

(** The host-independent reading of a byte string as little-endian words. *)
Abbreviation le_words := (@words plain_host).
Abbreviation of_le_words := (@of_words plain_host).

Lemma chunk_wf n k h i c :
  length h = (n * k)%nat -> bytes_ok h -> chunks n k h !! i = Some c ->
  length c = n /\ bytes_ok c.
Proof.
  intros Hh Hok Hc. split.
  - by apply (Forall_lookup_1 _ _ _ _ (chunks_lengths n k h Hh) Hc).
  - by apply (Forall_lookup_1 _ _ _ _ (Forall_chunks _ n k h Hok) Hc).
Qed.

Section MemoryLemmas.
Context {host : Host}.

Lemma length_store n z : length (store n z) = n.
Proof. unfold store. destruct host_order; rewrite ?length_reverse; apply length_le_bytes. Qed.

Lemma store_ok n z : bytes_ok (store n z).
Proof.
  unfold store. destruct host_order; [apply le_bytes_ok|].
  apply Forall_reverse, le_bytes_ok.
Qed.

Lemma load_store n z : in_word (8 * Z.of_nat n) z -> load (store n z) = z.
Proof.
  intros Hz. unfold load, store.
  destruct host_order; rewrite ?reverse_involutive; by apply le_word_bytes.
Qed.

Lemma store_load n l : length l = n -> bytes_ok l -> store n (load l) = l.
Proof.
  intros Hl Hok. unfold load, store. destruct host_order; [by apply le_bytes_word|].
  rewrite le_bytes_word; [apply reverse_involutive|by apply Forall_reverse|].
  by rewrite length_reverse.
Qed.

Lemma load_in_word l : bytes_ok l -> in_word (8 * Z.of_nat (length l)) (load l).
Proof.
  intros Hl. unfold load. destruct host_order; [by apply le_word_in_word|].
  rewrite <-length_reverse. by apply le_word_in_word, Forall_reverse.
Qed.

Lemma length_words n h : length (words n h) = (length h / n)%nat.
Proof. unfold words. by rewrite length_fmap, length_chunks. Qed.

Lemma length_of_words n ws : length (of_words n ws) = (n * length ws)%nat.
Proof.
  unfold of_words. induction ws as [|x ws IH]; csimpl; [lia|].
  rewrite length_app, length_store, IH. lia.
Qed.

Lemma of_words_ok n ws : bytes_ok (of_words n ws).
Proof.
  apply Forall_concat_2, Forall_fmap, Forall_true. intros x. apply store_ok.
Qed.

Lemma words_in_word n k h :
  (0 < n)%nat -> length h = (n * k)%nat -> bytes_ok h ->
  Forall (in_word (8 * Z.of_nat n)) (words n h).
Proof.
  intros Hn Hh Hok. unfold words. apply Forall_fmap.
  rewrite Hh, Nat.mul_comm, Nat.div_mul by lia.
  apply Forall_lookup. intros i c Hc.
  destruct (chunk_wf n k h i c) as [<- ?]; [done..|]. by apply load_in_word.
Qed.

Lemma words_of_words n ws :
  (0 < n)%nat -> Forall (in_word (8 * Z.of_nat n)) ws -> words n (of_words n ws) = ws.
Proof.
  intros Hn Hws. unfold words. rewrite length_of_words, Nat.mul_comm, Nat.div_mul by lia.
  unfold of_words.
  replace (length ws) with (length (store n <$> ws)) by apply length_fmap.
  rewrite chunks_concat.
  - rewrite <-list_fmap_compose. rewrite <-(list_fmap_id ws) at 2.
    apply list_fmap_ext. intros i x Hx. apply load_store.
    by eapply Forall_lookup_1 in Hws.
  - apply Forall_fmap, Forall_true. intros x. apply length_store.
Qed.

Lemma of_words_words n k h :
  (0 < n)%nat -> length h = (n * k)%nat -> bytes_ok h -> of_words n (words n h) = h.
Proof.
  intros Hn Hh Hok. unfold words, of_words.
  rewrite Hh, Nat.mul_comm, Nat.div_mul by lia.
  rewrite <-list_fmap_compose.
  transitivity (concat (chunks n k h)); [f_equal|by apply concat_chunks].
  rewrite <-(list_fmap_id (chunks n k h)) at 2. apply list_fmap_ext.
  intros i c Hc. simpl. by apply store_load; eapply chunk_wf.
Qed.
End MemoryLemmas.

(** The [le] conversions turn the host's words into little-endian ones. *)
Lemma le_uint32_load {host : Host} l :
  length l = 4%nat -> bytes_ok l -> le_uint32 (load l) = le_word l.
Proof.
  intros Hl Hok. unfold le_uint32, load. destruct host_order; [done|].
  unfold bswap32. rewrite le_bytes_word; [by rewrite reverse_involutive| |].
  - by apply Forall_reverse.
  - by rewrite length_reverse.
Qed.

Lemma le_uint32_in_word {host : Host} x : in_word 32 x -> in_word 32 (le_uint32 x).
Proof.
  intros Hx. unfold le_uint32. destruct host_order; [done|]. unfold bswap32.
  apply (le_word_in_word (reverse (le_bytes 4 x))), Forall_reverse, le_bytes_ok.
Qed.

Lemma be_uint64_load {host : Host} l :
  length l = 8%nat -> bytes_ok l -> be_uint64 (load l) = le_word (reverse l).
Proof.
  intros Hl Hok. unfold be_uint64, load. destruct host_order; [|done].
  unfold bswap64. by rewrite le_bytes_word.
Qed.

Lemma le_uint64_store {host : Host} x :
  in_word 64 x -> store 8 (le_uint64 x) = le_bytes 8 x.
Proof.
  intros Hx. unfold store, le_uint64. destruct host_order; [done|].
  unfold bswap64. rewrite le_bytes_word; [apply reverse_involutive| |].
  - apply Forall_reverse, le_bytes_ok.
  - by rewrite length_reverse, length_le_bytes.
Qed.

Lemma words_le_uint32s {host : Host} k h :
  length h = (4 * k)%nat -> bytes_ok h ->
  word32s (le_uint32s h) = le_words 4 h.
Proof.
  intros Hh Hok. unfold le_uint32s. destruct host_order eqn:E.
  - unfold words, load. by rewrite E.
  - rewrite words_of_words; [|lia|].
    + unfold words. rewrite <-list_fmap_compose. apply list_fmap_ext.
      intros i c Hc. rewrite Hh, (Nat.mul_comm 4), Nat.div_mul in Hc by lia. simpl.
      by rewrite le_uint32_load; [|eapply chunk_wf..].
    + apply Forall_fmap. eapply Forall_impl; [by eapply words_in_word; eauto; lia|].
      intros x Hx. by apply le_uint32_in_word.
Qed.

