(* ===== verification/KeccakSpec.v ===== *)
(** * Reference definition of the Keccak permutation

    The step mappings theta, rho, pi, chi and iota on a 5 by 5 array of
    [w]-bit lanes, with the rotation offsets and round constants computed from
    their definitions.  The lane [(x, y)] is at index [x + 5 * y]. *)

From stdpp Require Import base numbers list.
From Stdlib Require Import ZArith Lia.
From S2P Require Import Prelude.

Local Open Scope Z_scope.
Local Open Scope word_scope.

Definition coords : list (nat * nat) :=
  (fun i => (i mod 5, i / 5)%nat) <$> seq 0 25.

Definition lane (st : list Z) (x y : nat) : Z :=
  nth ((x mod 5) + 5 * (y mod 5))%nat st 0.

Definition build (f : nat -> nat -> Z) : list Z := (fun '(x, y) => f x y) <$> coords.

(** Left rotation of a [w]-bit lane. *)
Definition rot (w x s : Z) : Z := shl w x s .| (x .> (w - s)).

(** Rotation offsets: walking from [(1, 0)] by [(x, y) -> (y, 2x + 3y)], the
    [t]-th lane visited is rotated by the triangular number [(t+1)(t+2)/2]. *)
Fixpoint rho_walk (t : nat) (x y : nat) (n : nat) : list (nat * Z) :=
  match n with
  | O => []
  | S n =>
      ((x + 5 * y)%nat, Z.of_nat ((t + 1) * (t + 2) / 2)) ::
      rho_walk (S t) y ((2 * x + 3 * y) mod 5)%nat n
  end.

Definition rho_offset (w : Z) (x y : nat) : Z :=
  match find (fun p => Nat.eqb p.1 (x + 5 * y)) (rho_walk 0 1 0 24) with
  | Some p => p.2 mod w
  | None => 0
  end.

Definition theta (w : Z) (st : list Z) : list Z :=
  let c x := lane st x 0 .^ lane st x 1 .^ lane st x 2 .^ lane st x 3 .^ lane st x 4 in
  let d x := c (x + 4)%nat .^ rot w (c (x + 1)%nat) 1 in
  build (fun x y => lane st x y .^ d x).

Definition rho_table (w : Z) : list Z := build (rho_offset w).

Definition rho (w : Z) (st : list Z) : list Z :=
  build (fun x y =>
    let s := lane (rho_table w) x y in
    if s =? 0 then lane st x y else rot w (lane st x y) s).

Definition pi (st : list Z) : list Z :=
  build (fun x y => lane st (x + 3 * y) x).

Definition chi (w : Z) (st : list Z) : list Z :=
  build (fun x y => lane st x y .^ (wnot w (lane st (x + 1) y) .& lane st (x + 2) y)).

Definition iota (rc : Z) (st : list Z) : list Z :=
  build (fun x y => if ((x =? 0) && (y =? 0))%nat then lane st x y .^ rc else lane st x y).

Definition keccak_round (w rc : Z) (st : list Z) : list Z :=
  iota rc (chi w (pi (rho w (theta w st)))).

(** The round constants come from the LFSR with feedback polynomial
    [x^8 + x^6 + x^5 + x^4 + 1]; bit [t] of its output is [lfsr_bit t]. *)
Definition lfsr_step (r : Z) : Z :=
  let r := 2 * r in if Z.testbit r 8 then r .^ 0x171 else r.

Definition lfsr_bit (t : nat) : bool := Z.testbit (Nat.iter (t mod 255) lfsr_step 1) 0.

Definition round_constant (l : nat) (ir : nat) : Z :=
  fold_right (fun j acc =>
      if lfsr_bit (j + 7 * ir) then Z.setbit acc (2 ^ Z.of_nat j - 1) else acc)
    0 (seq 0 (S l)).

(** Keccak-f[25 * 2^l]: [12 + 2 l] rounds on lanes of width [2^l]. *)
Definition keccak_f (l : nat) (st : list Z) : list Z :=
  fold_left (fun st ir => keccak_round (2 ^ Z.of_nat l) (round_constant l ir) st)
    (seq 0 (12 + 2 * l)) st.
