(* ===== verification/KeccakF.v ===== *)
(** * The Keccak permutations of [ethash/lib/keccak]

    [keccakf1600_implementation] of keccak.c and [ethash_keccakf800] of
    keccakf800.c, both unrolled two rounds at a time over 25 local variables,
    and their equality with the reference permutation. *)

From stdpp Require Import base numbers list.
From Stdlib Require Import ZArith Lia.
From S2P Require Import Prelude KeccakSpec.

Local Open Scope Z_scope.
Local Open Scope word_scope.

(** [rol] of keccak.c: defined for [0 < s < 64]. *)
Definition rol64 (x s : Z) : Z := shl 64 x s .| (x .> (64 - s)).

Definition round_constants : list Z :=
  [0x0000000000000001; 0x0000000000008082; 0x800000000000808a; 0x8000000080008000;
   0x000000000000808b; 0x0000000080000001; 0x8000000080008081; 0x8000000000008009;
   0x000000000000008a; 0x0000000000000088; 0x0000000080008009; 0x000000008000000a;
   0x000000008000808b; 0x800000000000008b; 0x8000000000008089; 0x8000000000008003;
   0x8000000000008002; 0x8000000000000080; 0x000000000000800a; 0x800000008000000a;
   0x8000000080008081; 0x8000000000008080; 0x0000000080000001; 0x8000000080008008].

(** Round (n + 0): Axx -> Exx *)
Definition f1600_round_even (rc : Z) (st : list Z) : list Z :=
  match st with
  | [Aba; Abe; Abi; Abo; Abu;
     Aga; Age; Agi; Ago; Agu;
     Aka; Ake; Aki; Ako; Aku;
     Ama; Ame; Ami; Amo; Amu;
     Asa; Ase; Asi; Aso; Asu] =>
      let Ba := Aba .^ Aga .^ Aka .^ Ama .^ Asa in
      let Be := Abe .^ Age .^ Ake .^ Ame .^ Ase in
      let Bi := Abi .^ Agi .^ Aki .^ Ami .^ Asi in
      let Bo := Abo .^ Ago .^ Ako .^ Amo .^ Aso in
      let Bu := Abu .^ Agu .^ Aku .^ Amu .^ Asu in
      let Da := Bu .^ rol64 Be 1 in
      let De := Ba .^ rol64 Bi 1 in
      let Di := Be .^ rol64 Bo 1 in
      let Do := Bi .^ rol64 Bu 1 in
      let Du := Bo .^ rol64 Ba 1 in
      let Ba := Aba .^ Da in
      let Be := rol64 (Age .^ De) 44 in
      let Bi := rol64 (Aki .^ Di) 43 in
      let Bo := rol64 (Amo .^ Do) 21 in
      let Bu := rol64 (Asu .^ Du) 14 in
      let Eba := Ba .^ (wnot 64 Be .& Bi) .^ rc in
      let Ebe := Be .^ (wnot 64 Bi .& Bo) in
      let Ebi := Bi .^ (wnot 64 Bo .& Bu) in
      let Ebo := Bo .^ (wnot 64 Bu .& Ba) in
      let Ebu := Bu .^ (wnot 64 Ba .& Be) in
      let Ba := rol64 (Abo .^ Do) 28 in
      let Be := rol64 (Agu .^ Du) 20 in
      let Bi := rol64 (Aka .^ Da) 3 in
      let Bo := rol64 (Ame .^ De) 45 in
      let Bu := rol64 (Asi .^ Di) 61 in
      let Ega := Ba .^ (wnot 64 Be .& Bi) in
      let Ege := Be .^ (wnot 64 Bi .& Bo) in
      let Egi := Bi .^ (wnot 64 Bo .& Bu) in
      let Ego := Bo .^ (wnot 64 Bu .& Ba) in
      let Egu := Bu .^ (wnot 64 Ba .& Be) in
      let Ba := rol64 (Abe .^ De) 1 in
      let Be := rol64 (Agi .^ Di) 6 in
      let Bi := rol64 (Ako .^ Do) 25 in
      let Bo := rol64 (Amu .^ Du) 8 in
      let Bu := rol64 (Asa .^ Da) 18 in
      let Eka := Ba .^ (wnot 64 Be .& Bi) in
      let Eke := Be .^ (wnot 64 Bi .& Bo) in
      let Eki := Bi .^ (wnot 64 Bo .& Bu) in
      let Eko := Bo .^ (wnot 64 Bu .& Ba) in
      let Eku := Bu .^ (wnot 64 Ba .& Be) in
      let Ba := rol64 (Abu .^ Du) 27 in
      let Be := rol64 (Aga .^ Da) 36 in
      let Bi := rol64 (Ake .^ De) 10 in
      let Bo := rol64 (Ami .^ Di) 15 in
      let Bu := rol64 (Aso .^ Do) 56 in
      let Ema := Ba .^ (wnot 64 Be .& Bi) in
      let Eme := Be .^ (wnot 64 Bi .& Bo) in
      let Emi := Bi .^ (wnot 64 Bo .& Bu) in
      let Emo := Bo .^ (wnot 64 Bu .& Ba) in
      let Emu := Bu .^ (wnot 64 Ba .& Be) in
      let Ba := rol64 (Abi .^ Di) 62 in
      let Be := rol64 (Ago .^ Do) 55 in
      let Bi := rol64 (Aku .^ Du) 39 in
      let Bo := rol64 (Ama .^ Da) 41 in
      let Bu := rol64 (Ase .^ De) 2 in
      let Esa := Ba .^ (wnot 64 Be .& Bi) in
      let Ese := Be .^ (wnot 64 Bi .& Bo) in
      let Esi := Bi .^ (wnot 64 Bo .& Bu) in
      let Eso := Bo .^ (wnot 64 Bu .& Ba) in
      let Esu := Bu .^ (wnot 64 Ba .& Be) in
      [Eba; Ebe; Ebi; Ebo; Ebu;
       Ega; Ege; Egi; Ego; Egu;
       Eka; Eke; Eki; Eko; Eku;
       Ema; Eme; Emi; Emo; Emu;
       Esa; Ese; Esi; Eso; Esu]
  | _ => st
  end.

(** Round (n + 1): Exx -> Axx *)
Definition f1600_round_odd (rc : Z) (st : list Z) : list Z :=
  match st with
  | [Eba; Ebe; Ebi; Ebo; Ebu;
     Ega; Ege; Egi; Ego; Egu;
     Eka; Eke; Eki; Eko; Eku;
     Ema; Eme; Emi; Emo; Emu;
     Esa; Ese; Esi; Eso; Esu] =>
      let Ba := Eba .^ Ega .^ Eka .^ Ema .^ Esa in
      let Be := Ebe .^ Ege .^ Eke .^ Eme .^ Ese in
      let Bi := Ebi .^ Egi .^ Eki .^ Emi .^ Esi in
      let Bo := Ebo .^ Ego .^ Eko .^ Emo .^ Eso in
      let Bu := Ebu .^ Egu .^ Eku .^ Emu .^ Esu in
      let Da := Bu .^ rol64 Be 1 in
      let De := Ba .^ rol64 Bi 1 in
      let Di := Be .^ rol64 Bo 1 in
      let Do := Bi .^ rol64 Bu 1 in
      let Du := Bo .^ rol64 Ba 1 in
      let Ba := Eba .^ Da in
      let Be := rol64 (Ege .^ De) 44 in
      let Bi := rol64 (Eki .^ Di) 43 in
      let Bo := rol64 (Emo .^ Do) 21 in
      let Bu := rol64 (Esu .^ Du) 14 in
      let Aba := Ba .^ (wnot 64 Be .& Bi) .^ rc in
      let Abe := Be .^ (wnot 64 Bi .& Bo) in
      let Abi := Bi .^ (wnot 64 Bo .& Bu) in
      let Abo := Bo .^ (wnot 64 Bu .& Ba) in
      let Abu := Bu .^ (wnot 64 Ba .& Be) in
      let Ba := rol64 (Ebo .^ Do) 28 in
      let Be := rol64 (Egu .^ Du) 20 in
      let Bi := rol64 (Eka .^ Da) 3 in
      let Bo := rol64 (Eme .^ De) 45 in
      let Bu := rol64 (Esi .^ Di) 61 in
      let Aga := Ba .^ (wnot 64 Be .& Bi) in
      let Age := Be .^ (wnot 64 Bi .& Bo) in
      let Agi := Bi .^ (wnot 64 Bo .& Bu) in
      let Ago := Bo .^ (wnot 64 Bu .& Ba) in
      let Agu := Bu .^ (wnot 64 Ba .& Be) in
      let Ba := rol64 (Ebe .^ De) 1 in
      let Be := rol64 (Egi .^ Di) 6 in
      let Bi := rol64 (Eko .^ Do) 25 in
      let Bo := rol64 (Emu .^ Du) 8 in
      let Bu := rol64 (Esa .^ Da) 18 in
      let Aka := Ba .^ (wnot 64 Be .& Bi) in
      let Ake := Be .^ (wnot 64 Bi .& Bo) in
      let Aki := Bi .^ (wnot 64 Bo .& Bu) in
      let Ako := Bo .^ (wnot 64 Bu .& Ba) in
      let Aku := Bu .^ (wnot 64 Ba .& Be) in
      let Ba := rol64 (Ebu .^ Du) 27 in
      let Be := rol64 (Ega .^ Da) 36 in
      let Bi := rol64 (Eke .^ De) 10 in
      let Bo := rol64 (Emi .^ Di) 15 in
      let Bu := rol64 (Eso .^ Do) 56 in
      let Ama := Ba .^ (wnot 64 Be .& Bi) in
      let Ame := Be .^ (wnot 64 Bi .& Bo) in
      let Ami := Bi .^ (wnot 64 Bo .& Bu) in
      let Amo := Bo .^ (wnot 64 Bu .& Ba) in
      let Amu := Bu .^ (wnot 64 Ba .& Be) in
      let Ba := rol64 (Ebi .^ Di) 62 in
      let Be := rol64 (Ego .^ Do) 55 in
      let Bi := rol64 (Eku .^ Du) 39 in
      let Bo := rol64 (Ema .^ Da) 41 in
      let Bu := rol64 (Ese .^ De) 2 in
      let Asa := Ba .^ (wnot 64 Be .& Bi) in
      let Ase := Be .^ (wnot 64 Bi .& Bo) in
      let Asi := Bi .^ (wnot 64 Bo .& Bu) in
      let Aso := Bo .^ (wnot 64 Bu .& Ba) in
      let Asu := Bu .^ (wnot 64 Ba .& Be) in
      [Aba; Abe; Abi; Abo; Abu;
       Aga; Age; Agi; Ago; Agu;
       Aka; Ake; Aki; Ako; Aku;
       Ama; Ame; Ami; Amo; Amu;
       Asa; Ase; Asi; Aso; Asu]
  | _ => st
  end.

(** [for (size_t n = 0; n < 24; n += 2)]: two rounds per iteration. *)
Definition keccakf1600_implementation (state : list Z) : list Z :=
  fold_left (fun A i =>
      let n := (2 * i)%nat in
      f1600_round_odd (nth (n + 1) round_constants 0)
        (f1600_round_even (nth n round_constants 0) A))
    (seq 0 12) state.

(** [rol] of keccakf800.c: defined for [0 < s < 32]. *)
Definition rol32 (x s : Z) : Z := shl 32 x s .| (x .> (32 - s)).

Definition f800_round_constants : list Z :=
  [0x00000001; 0x00008082; 0x0000808A; 0x80008000; 0x0000808B; 0x80000001; 0x80008081; 0x00008009;
   0x0000008A; 0x00000088; 0x80008009; 0x8000000A; 0x8000808B; 0x0000008B; 0x00008089; 0x00008003;
   0x00008002; 0x00000080; 0x0000800A; 0x8000000A; 0x80008081; 0x00008080].

(** Round (n + 0): Axx -> Exx *)
Definition f800_round_even (rc : Z) (st : list Z) : list Z :=
  match st with
  | [Aba; Abe; Abi; Abo; Abu;
     Aga; Age; Agi; Ago; Agu;
     Aka; Ake; Aki; Ako; Aku;
     Ama; Ame; Ami; Amo; Amu;
     Asa; Ase; Asi; Aso; Asu] =>
      let Ba := Aba .^ Aga .^ Aka .^ Ama .^ Asa in
      let Be := Abe .^ Age .^ Ake .^ Ame .^ Ase in
      let Bi := Abi .^ Agi .^ Aki .^ Ami .^ Asi in
      let Bo := Abo .^ Ago .^ Ako .^ Amo .^ Aso in
      let Bu := Abu .^ Agu .^ Aku .^ Amu .^ Asu in
      let Da := Bu .^ rol32 Be 1 in
      let De := Ba .^ rol32 Bi 1 in
      let Di := Be .^ rol32 Bo 1 in
      let Do := Bi .^ rol32 Bu 1 in
      let Du := Bo .^ rol32 Ba 1 in
      let Ba := Aba .^ Da in
      let Be := rol32 (Age .^ De) 12 in
      let Bi := rol32 (Aki .^ Di) 11 in
      let Bo := rol32 (Amo .^ Do) 21 in
      let Bu := rol32 (Asu .^ Du) 14 in
      let Eba := Ba .^ (wnot 32 Be .& Bi) .^ rc in
      let Ebe := Be .^ (wnot 32 Bi .& Bo) in
      let Ebi := Bi .^ (wnot 32 Bo .& Bu) in
      let Ebo := Bo .^ (wnot 32 Bu .& Ba) in
      let Ebu := Bu .^ (wnot 32 Ba .& Be) in
      let Ba := rol32 (Abo .^ Do) 28 in
      let Be := rol32 (Agu .^ Du) 20 in
      let Bi := rol32 (Aka .^ Da) 3 in
      let Bo := rol32 (Ame .^ De) 13 in
      let Bu := rol32 (Asi .^ Di) 29 in
      let Ega := Ba .^ (wnot 32 Be .& Bi) in
      let Ege := Be .^ (wnot 32 Bi .& Bo) in
      let Egi := Bi .^ (wnot 32 Bo .& Bu) in
      let Ego := Bo .^ (wnot 32 Bu .& Ba) in
      let Egu := Bu .^ (wnot 32 Ba .& Be) in
      let Ba := rol32 (Abe .^ De) 1 in
      let Be := rol32 (Agi .^ Di) 6 in
      let Bi := rol32 (Ako .^ Do) 25 in
      let Bo := rol32 (Amu .^ Du) 8 in
      let Bu := rol32 (Asa .^ Da) 18 in
      let Eka := Ba .^ (wnot 32 Be .& Bi) in
      let Eke := Be .^ (wnot 32 Bi .& Bo) in
      let Eki := Bi .^ (wnot 32 Bo .& Bu) in
      let Eko := Bo .^ (wnot 32 Bu .& Ba) in
      let Eku := Bu .^ (wnot 32 Ba .& Be) in
      let Ba := rol32 (Abu .^ Du) 27 in
      let Be := rol32 (Aga .^ Da) 4 in
      let Bi := rol32 (Ake .^ De) 10 in
      let Bo := rol32 (Ami .^ Di) 15 in
      let Bu := rol32 (Aso .^ Do) 24 in
      let Ema := Ba .^ (wnot 32 Be .& Bi) in
      let Eme := Be .^ (wnot 32 Bi .& Bo) in
      let Emi := Bi .^ (wnot 32 Bo .& Bu) in
      let Emo := Bo .^ (wnot 32 Bu .& Ba) in
      let Emu := Bu .^ (wnot 32 Ba .& Be) in
      let Ba := rol32 (Abi .^ Di) 30 in
      let Be := rol32 (Ago .^ Do) 23 in
      let Bi := rol32 (Aku .^ Du) 7 in
      let Bo := rol32 (Ama .^ Da) 9 in
      let Bu := rol32 (Ase .^ De) 2 in
      let Esa := Ba .^ (wnot 32 Be .& Bi) in
      let Ese := Be .^ (wnot 32 Bi .& Bo) in
      let Esi := Bi .^ (wnot 32 Bo .& Bu) in
      let Eso := Bo .^ (wnot 32 Bu .& Ba) in
      let Esu := Bu .^ (wnot 32 Ba .& Be) in
      [Eba; Ebe; Ebi; Ebo; Ebu;
       Ega; Ege; Egi; Ego; Egu;
       Eka; Eke; Eki; Eko; Eku;
       Ema; Eme; Emi; Emo; Emu;
       Esa; Ese; Esi; Eso; Esu]
  | _ => st
  end.

(** Round (n + 1): Exx -> Axx *)
Definition f800_round_odd (rc : Z) (st : list Z) : list Z :=
  match st with
  | [Eba; Ebe; Ebi; Ebo; Ebu;
     Ega; Ege; Egi; Ego; Egu;
     Eka; Eke; Eki; Eko; Eku;
     Ema; Eme; Emi; Emo; Emu;
     Esa; Ese; Esi; Eso; Esu] =>
      let Ba := Eba .^ Ega .^ Eka .^ Ema .^ Esa in
      let Be := Ebe .^ Ege .^ Eke .^ Eme .^ Ese in
      let Bi := Ebi .^ Egi .^ Eki .^ Emi .^ Esi in
      let Bo := Ebo .^ Ego .^ Eko .^ Emo .^ Eso in
      let Bu := Ebu .^ Egu .^ Eku .^ Emu .^ Esu in
      let Da := Bu .^ rol32 Be 1 in
      let De := Ba .^ rol32 Bi 1 in
      let Di := Be .^ rol32 Bo 1 in
      let Do := Bi .^ rol32 Bu 1 in
      let Du := Bo .^ rol32 Ba 1 in
      let Ba := Eba .^ Da in
      let Be := rol32 (Ege .^ De) 12 in
      let Bi := rol32 (Eki .^ Di) 11 in
      let Bo := rol32 (Emo .^ Do) 21 in
      let Bu := rol32 (Esu .^ Du) 14 in
      let Aba := Ba .^ (wnot 32 Be .& Bi) .^ rc in
      let Abe := Be .^ (wnot 32 Bi .& Bo) in
      let Abi := Bi .^ (wnot 32 Bo .& Bu) in
      let Abo := Bo .^ (wnot 32 Bu .& Ba) in
      let Abu := Bu .^ (wnot 32 Ba .& Be) in
      let Ba := rol32 (Ebo .^ Do) 28 in
      let Be := rol32 (Egu .^ Du) 20 in
      let Bi := rol32 (Eka .^ Da) 3 in
      let Bo := rol32 (Eme .^ De) 13 in
      let Bu := rol32 (Esi .^ Di) 29 in
      let Aga := Ba .^ (wnot 32 Be .& Bi) in
      let Age := Be .^ (wnot 32 Bi .& Bo) in
      let Agi := Bi .^ (wnot 32 Bo .& Bu) in
      let Ago := Bo .^ (wnot 32 Bu .& Ba) in
      let Agu := Bu .^ (wnot 32 Ba .& Be) in
      let Ba := rol32 (Ebe .^ De) 1 in
      let Be := rol32 (Egi .^ Di) 6 in
      let Bi := rol32 (Eko .^ Do) 25 in
      let Bo := rol32 (Emu .^ Du) 8 in
      let Bu := rol32 (Esa .^ Da) 18 in
      let Aka := Ba .^ (wnot 32 Be .& Bi) in
      let Ake := Be .^ (wnot 32 Bi .& Bo) in
      let Aki := Bi .^ (wnot 32 Bo .& Bu) in
      let Ako := Bo .^ (wnot 32 Bu .& Ba) in
      let Aku := Bu .^ (wnot 32 Ba .& Be) in
      let Ba := rol32 (Ebu .^ Du) 27 in
      let Be := rol32 (Ega .^ Da) 4 in
      let Bi := rol32 (Eke .^ De) 10 in
      let Bo := rol32 (Emi .^ Di) 15 in
      let Bu := rol32 (Eso .^ Do) 24 in
      let Ama := Ba .^ (wnot 32 Be .& Bi) in
      let Ame := Be .^ (wnot 32 Bi .& Bo) in
      let Ami := Bi .^ (wnot 32 Bo .& Bu) in
      let Amo := Bo .^ (wnot 32 Bu .& Ba) in
      let Amu := Bu .^ (wnot 32 Ba .& Be) in
      let Ba := rol32 (Ebi .^ Di) 30 in
      let Be := rol32 (Ego .^ Do) 23 in
      let Bi := rol32 (Eku .^ Du) 7 in
      let Bo := rol32 (Ema .^ Da) 9 in
      let Bu := rol32 (Ese .^ De) 2 in
      let Asa := Ba .^ (wnot 32 Be .& Bi) in
      let Ase := Be .^ (wnot 32 Bi .& Bo) in
      let Asi := Bi .^ (wnot 32 Bo .& Bu) in
      let Aso := Bo .^ (wnot 32 Bu .& Ba) in
      let Asu := Bu .^ (wnot 32 Ba .& Be) in
      [Aba; Abe; Abi; Abo; Abu;
       Aga; Age; Agi; Ago; Agu;
       Aka; Ake; Aki; Ako; Aku;
       Ama; Ame; Ami; Amo; Amu;
       Asa; Ase; Asi; Aso; Asu]
  | _ => st
  end.

(** [for (size_t n = 0; n < 22; n += 2)]. *)
Definition ethash_keccakf800 (state : list Z) : list Z :=
  fold_left (fun A i =>
      let n := (2 * i)%nat in
      f800_round_odd (nth (n + 1) f800_round_constants 0)
        (f800_round_even (nth n f800_round_constants 0) A))
    (seq 0 11) state.

(** ** Equality with the reference *)

Lemma round_constants_spec : round_constants = round_constant 6 <$> seq 0 24.
Proof. vm_compute. reflexivity. Qed.

Lemma f800_round_constants_spec : f800_round_constants = round_constant 5 <$> seq 0 22.
Proof. vm_compute. reflexivity. Qed.

(** A list of 25 lanes is given by its elements. *)
Lemma lanes_25 (st : list Z) : length st = 25%nat ->
  exists a0 a1 a2 a3 a4 a5 a6 a7 a8 a9 a10 a11 a12 a13 a14 a15 a16 a17 a18 a19
    a20 a21 a22 a23 a24,
    st = [a0; a1; a2; a3; a4; a5; a6; a7; a8; a9; a10; a11; a12; a13; a14; a15; a16;
          a17; a18; a19; a20; a21; a22; a23; a24].
Proof.
  intros H. do 25 (destruct st as [|? st]; [discriminate H|]).
  destruct st; [|discriminate H]. repeat eexists.
Qed.

Lemma rol64_rot : rol64 = rot 64.
Proof. reflexivity. Qed.

Lemma rol32_rot : rol32 = rot 32.
Proof. reflexivity. Qed.

Lemma rho_table_64 :
  rho_table 64 =
    [0; 1; 62; 28; 27; 36; 44; 6; 55; 20; 3; 10; 43; 25; 39; 41; 45; 15; 21; 8; 18; 2;
     61; 56; 14].
Proof. vm_compute. reflexivity. Qed.

Lemma rho_table_32 :
  rho_table 32 =
    [0; 1; 30; 28; 27; 4; 12; 6; 23; 20; 3; 10; 11; 25; 7; 9; 13; 15; 21; 8; 18; 2;
     29; 24; 14].
Proof. vm_compute. reflexivity. Qed.

(** Each step mapping on 25 named lanes. *)
Lemma theta_lanes w a0 a1 a2 a3 a4 a5 a6 a7 a8 a9 a10 a11 a12 a13 a14 a15 a16 a17 a18 a19 a20 a21 a22 a23 a24 :
  theta w
    [a0; a1; a2; a3; a4;
     a5; a6; a7; a8; a9;
     a10; a11; a12; a13; a14;
     a15; a16; a17; a18; a19;
     a20; a21; a22; a23; a24] =
  let c0 := a0 .^ a5 .^ a10 .^ a15 .^ a20 in
  let c1 := a1 .^ a6 .^ a11 .^ a16 .^ a21 in
  let c2 := a2 .^ a7 .^ a12 .^ a17 .^ a22 in
  let c3 := a3 .^ a8 .^ a13 .^ a18 .^ a23 in
  let c4 := a4 .^ a9 .^ a14 .^ a19 .^ a24 in
  let d0 := c4 .^ rot w c1 1 in
  let d1 := c0 .^ rot w c2 1 in
  let d2 := c1 .^ rot w c3 1 in
  let d3 := c2 .^ rot w c4 1 in
  let d4 := c3 .^ rot w c0 1 in
    [a0 .^ d0; a1 .^ d1; a2 .^ d2; a3 .^ d3; a4 .^ d4;
     a5 .^ d0; a6 .^ d1; a7 .^ d2; a8 .^ d3; a9 .^ d4;
     a10 .^ d0; a11 .^ d1; a12 .^ d2; a13 .^ d3; a14 .^ d4;
     a15 .^ d0; a16 .^ d1; a17 .^ d2; a18 .^ d3; a19 .^ d4;
     a20 .^ d0; a21 .^ d1; a22 .^ d2; a23 .^ d3; a24 .^ d4].
Proof. reflexivity. Qed.

Lemma rho_lanes_64 a0 a1 a2 a3 a4 a5 a6 a7 a8 a9 a10 a11 a12 a13 a14 a15 a16 a17 a18 a19 a20 a21 a22 a23 a24 :
  rho 64
    [a0; a1; a2; a3; a4;
     a5; a6; a7; a8; a9;
     a10; a11; a12; a13; a14;
     a15; a16; a17; a18; a19;
     a20; a21; a22; a23; a24] =
    [a0; rot 64 a1 1; rot 64 a2 62; rot 64 a3 28; rot 64 a4 27;
     rot 64 a5 36; rot 64 a6 44; rot 64 a7 6; rot 64 a8 55; rot 64 a9 20;
     rot 64 a10 3; rot 64 a11 10; rot 64 a12 43; rot 64 a13 25; rot 64 a14 39;
     rot 64 a15 41; rot 64 a16 45; rot 64 a17 15; rot 64 a18 21; rot 64 a19 8;
     rot 64 a20 18; rot 64 a21 2; rot 64 a22 61; rot 64 a23 56; rot 64 a24 14].
Proof. unfold rho. rewrite rho_table_64. reflexivity. Qed.

Lemma rho_lanes_32 a0 a1 a2 a3 a4 a5 a6 a7 a8 a9 a10 a11 a12 a13 a14 a15 a16 a17 a18 a19 a20 a21 a22 a23 a24 :
  rho 32
    [a0; a1; a2; a3; a4;
     a5; a6; a7; a8; a9;
     a10; a11; a12; a13; a14;
     a15; a16; a17; a18; a19;
     a20; a21; a22; a23; a24] =
    [a0; rot 32 a1 1; rot 32 a2 30; rot 32 a3 28; rot 32 a4 27;
     rot 32 a5 4; rot 32 a6 12; rot 32 a7 6; rot 32 a8 23; rot 32 a9 20;
     rot 32 a10 3; rot 32 a11 10; rot 32 a12 11; rot 32 a13 25; rot 32 a14 7;
     rot 32 a15 9; rot 32 a16 13; rot 32 a17 15; rot 32 a18 21; rot 32 a19 8;
     rot 32 a20 18; rot 32 a21 2; rot 32 a22 29; rot 32 a23 24; rot 32 a24 14].
Proof. unfold rho. rewrite rho_table_32. reflexivity. Qed.

Lemma pi_lanes a0 a1 a2 a3 a4 a5 a6 a7 a8 a9 a10 a11 a12 a13 a14 a15 a16 a17 a18 a19 a20 a21 a22 a23 a24 :
  pi
    [a0; a1; a2; a3; a4;
     a5; a6; a7; a8; a9;
     a10; a11; a12; a13; a14;
     a15; a16; a17; a18; a19;
     a20; a21; a22; a23; a24] =
    [a0; a6; a12; a18; a24;
     a3; a9; a10; a16; a22;
     a1; a7; a13; a19; a20;
     a4; a5; a11; a17; a23;
     a2; a8; a14; a15; a21].
Proof. reflexivity. Qed.

Lemma chi_lanes w a0 a1 a2 a3 a4 a5 a6 a7 a8 a9 a10 a11 a12 a13 a14 a15 a16 a17 a18 a19 a20 a21 a22 a23 a24 :
  chi w
    [a0; a1; a2; a3; a4;
     a5; a6; a7; a8; a9;
     a10; a11; a12; a13; a14;
     a15; a16; a17; a18; a19;
     a20; a21; a22; a23; a24] =
    [a0 .^ (wnot w a1 .& a2); a1 .^ (wnot w a2 .& a3); a2 .^ (wnot w a3 .& a4); a3 .^ (wnot w a4 .& a0); a4 .^ (wnot w a0 .& a1);
     a5 .^ (wnot w a6 .& a7); a6 .^ (wnot w a7 .& a8); a7 .^ (wnot w a8 .& a9); a8 .^ (wnot w a9 .& a5); a9 .^ (wnot w a5 .& a6);
     a10 .^ (wnot w a11 .& a12); a11 .^ (wnot w a12 .& a13); a12 .^ (wnot w a13 .& a14); a13 .^ (wnot w a14 .& a10); a14 .^ (wnot w a10 .& a11);
     a15 .^ (wnot w a16 .& a17); a16 .^ (wnot w a17 .& a18); a17 .^ (wnot w a18 .& a19); a18 .^ (wnot w a19 .& a15); a19 .^ (wnot w a15 .& a16);
     a20 .^ (wnot w a21 .& a22); a21 .^ (wnot w a22 .& a23); a22 .^ (wnot w a23 .& a24); a23 .^ (wnot w a24 .& a20); a24 .^ (wnot w a20 .& a21)].
Proof. reflexivity. Qed.

Lemma iota_lanes rc a0 a1 a2 a3 a4 a5 a6 a7 a8 a9 a10 a11 a12 a13 a14 a15 a16 a17 a18 a19 a20 a21 a22 a23 a24 :
  iota rc
    [a0; a1; a2; a3; a4;
     a5; a6; a7; a8; a9;
     a10; a11; a12; a13; a14;
     a15; a16; a17; a18; a19;
     a20; a21; a22; a23; a24] =
    [a0 .^ rc; a1; a2; a3; a4;
     a5; a6; a7; a8; a9;
     a10; a11; a12; a13; a14;
     a15; a16; a17; a18; a19;
     a20; a21; a22; a23; a24].
Proof. reflexivity. Qed.

Ltac solve_round rho_lanes rol_rot round :=
  intros H; apply lanes_25 in H;
  repeat match type of H with ex _ => destruct H as [? H] end; subst;
  unfold keccak_round; rewrite theta_lanes; cbv zeta;
  rewrite rho_lanes, pi_lanes, chi_lanes, iota_lanes;
  cbv beta iota zeta delta [round]; rewrite rol_rot; reflexivity.

Lemma f1600_round_even_spec rc st :
  length st = 25%nat -> f1600_round_even rc st = keccak_round 64 rc st.
Proof. solve_round rho_lanes_64 rol64_rot f1600_round_even. Qed.

(** The two halves of the loop body are the same round with the roles of the
    variables exchanged. *)
Lemma f1600_round_odd_even : f1600_round_odd = f1600_round_even.
Proof. reflexivity. Qed.

Lemma f800_round_even_spec rc st :
  length st = 25%nat -> f800_round_even rc st = keccak_round 32 rc st.
Proof. solve_round rho_lanes_32 rol32_rot f800_round_even. Qed.

Lemma f800_round_odd_even : f800_round_odd = f800_round_even.
Proof. reflexivity. Qed.

Lemma length_keccak_round w rc st : length (keccak_round w rc st) = 25%nat.
Proof. reflexivity. Qed.

Lemma nth_fmap_seq (f : nat -> Z) n i : (i < n)%nat -> nth i (f <$> seq 0 n) 0 = f i.
Proof.
  intros Hi. rewrite (nth_indep _ 0 (f 0%nat)) by (rewrite length_fmap, length_seq; lia).
  change (f <$> seq 0 n) with (map f (seq 0 n)). rewrite map_nth, seq_nth; done.
Qed.

(** A permutation written as [k] iterations of two rounds is the reference
    permutation with [2 k] rounds. *)
Lemma unrolled_permutation w l k (round : Z -> list Z -> list Z) consts st :
  w = 2 ^ Z.of_nat l -> (12 + 2 * l = 2 * k)%nat ->
  consts = round_constant l <$> seq 0 (2 * k) ->
  (forall rc st, length st = 25%nat -> round rc st = keccak_round w rc st) ->
  length st = 25%nat ->
  fold_left (fun A i => round (nth (2 * i + 1) consts 0) (round (nth (2 * i) consts 0) A))
    (seq 0 k) st = keccak_f l st.
Proof.
  intros -> Hk -> Hround Hst. unfold keccak_f. rewrite Hk.
  rewrite (fold_left_unroll2 (fun A j => round (nth j _ 0) A)).
  apply (fold_left_ext_inv (fun st => length st = 25%nat)); [done|].
  intros A j Hj HA. rewrite Hround by done. split; [|apply length_keccak_round].
  apply list_elem_of_In, in_seq in Hj. by rewrite nth_fmap_seq by lia.
Qed.

Lemma keccakf1600_spec st :
  length st = 25%nat -> keccakf1600_implementation st = keccak_f 6 st.
Proof.
  intros Hst. unfold keccakf1600_implementation. rewrite f1600_round_odd_even.
  apply (unrolled_permutation 64 6 12);
    [done|done|apply round_constants_spec|apply f1600_round_even_spec|done].
Qed.

Lemma keccakf800_spec st :
  length st = 25%nat -> ethash_keccakf800 st = keccak_f 5 st.
Proof.
  intros Hst. unfold ethash_keccakf800. rewrite f800_round_odd_even.
  apply (unrolled_permutation 32 5 11);
    [done|done|apply f800_round_constants_spec|apply f800_round_even_spec|done].
Qed.
