(* ===== verification/Keccak.v ===== *)
(** * The Keccak sponge of [ethash/lib/keccak/keccak.c]

    [keccak] absorbs the message block by block, then the remaining words, then
    a last word built byte by byte with the padding; the theorem is that it is
    the padded sponge over the reference permutation, on every host. *)

From stdpp Require Import base numbers list.
From Stdlib Require Import ZArith Lia Bool.
From S2P Require Import Prelude Words KeccakSpec KeccakF.

Local Open Scope Z_scope.
Local Open Scope word_scope.

(** ** The code *)

Definition keccakf1600_generic (state : list Z) : list Z := keccakf1600_implementation state.
Definition keccakf1600_bmi (state : list Z) : list Z := keccakf1600_implementation state.

(** The function pointer [keccakf1600_best] after
    [select_keccakf1600_implementation] ran. *)
Definition keccakf1600_best {host : Host} (state : list Z) : list Z :=
  if cpu_bmi && cpu_bmi2 then keccakf1600_bmi state else keccakf1600_generic state.

Section Sponge.
Context {host : Host}.

(** [load_le]: eight bytes at [data] as a little-endian number. *)
Definition load_le (data : list Z) : Z := le_uint64 (load (take 8 data)).

(** [state[i] ^= x]. *)
Definition xor_at (i : nat) (x : Z) (state : list Z) : list Z :=
  alter (fun s => s .^ x) i state.

(** [state[i] ^= load_le(data); data += word_size]. *)
Definition absorb_word (s : list Z * list Z) (i : nat) : list Z * list Z :=
  (xor_at i (load_le s.2) s.1, drop 8 s.2).

(** [while (size >= block_size)]. *)
Fixpoint absorb_blocks (fuel block_size : nat) (state data : list Z) : list Z * list Z :=
  match fuel with
  | O => (state, data)
  | S fuel =>
      if (block_size <=? length data)%nat then
        let s := fold_left absorb_word (seq 0 (block_size / 8)) (state, data) in
        absorb_blocks fuel block_size (keccakf1600_best s.1) s.2
      else (state, data)
  end.

(** [while (size >= word_size)], with [state_iter] as an index. *)
Fixpoint absorb_words (fuel : nat) (state : list Z) (state_iter : nat) (data : list Z)
  : list Z * nat * list Z :=
  match fuel with
  | O => (state, state_iter, data)
  | S fuel =>
      if (8 <=? length data)%nat then
        absorb_words fuel (xor_at state_iter (load_le data) state) (S state_iter) (drop 8 data)
      else (state, state_iter, data)
  end.

(** The whole function; the result is the memory of [out]. *)
Definition keccak (bits : nat) (data : list Z) : list Z :=
  let hash_size := (bits / 8)%nat in
  let block_size := ((1600 - bits * 2) / 8)%nat in
  let '(state, data) := absorb_blocks (length data) block_size (replicate 25 0) data in
  let '(state, state_iter, data) := absorb_words (length data) state 0 data in
  (* the bytes left and the padding byte, copied into the memory of last_word *)
  let last_word := load (data ++ [0x01] ++ replicate (7 - length data) 0) in
  let state := xor_at state_iter (le_uint64 last_word) state in
  let state := xor_at (block_size / 8 - 1) 0x8000000000000000 state in
  let state := keccakf1600_best state in
  of_word64s (le_uint64 <$> take (hash_size / 8) state).

Definition ethash_keccak256 (data : list Z) : list Z := keccak 256 data.
Definition ethash_keccak256_32 (data : list Z) : list Z := keccak 256 (take 32 data).
Definition ethash_keccak512 (data : list Z) : list Z := keccak 512 data.
Definition ethash_keccak512_64 (data : list Z) : list Z := keccak 512 (take 64 data).

(** The overloads of [ethash/include/ethash/keccak.hpp]: on bytes and on a hash. *)
Definition keccak256 (data : list Z) : list Z := ethash_keccak256 data.
Definition keccak256_hash (input : list Z) : list Z := ethash_keccak256_32 input.
Definition keccak512 (data : list Z) : list Z := ethash_keccak512 data.
Definition keccak512_hash (input : list Z) : list Z := ethash_keccak512_64 input.
End Sponge.

(** ** The specification *)

(** The padding of the original Keccak submission: a byte [0x01], zeros, and
    [0x80] in the last byte of the block. *)
Definition pad (rate n : nat) : list Z :=
  let q := (rate - n mod rate)%nat in
  if (q =? 1)%nat then [0x81] else 0x01 :: replicate (q - 2) 0 ++ [0x80].

Definition xor_block (ws st : list Z) : list Z := imap (fun i x => x .^ nth i ws 0) st.

Definition sponge_absorb (st block : list Z) : list Z :=
  keccak_f 6 (xor_block (le_words 8 block) st).

Definition sponge (rate out : nat) (data : list Z) : list Z :=
  let p := data ++ pad rate (length data) in
  take out (of_le_words 8
    (fold_left sponge_absorb (chunks rate (length p / rate) p) (replicate 25 0))).

(** The published digests of the empty message and of 32 zero bytes. *)
Example keccak256_empty :
  @ethash_keccak256 plain_host [] =
  reverse (le_bytes 32 0xc5d2460186f7233c927e7db2dcc703c0e500b653ca82273b7bfad8045d85a470).
Proof. vm_compute. reflexivity. Qed.

Example keccak256_zeros :
  @ethash_keccak256_32 (mk_host BigEndian true true) (replicate 32 0) =
  reverse (le_bytes 32 0x290decd9548b62a8d60345a988386fc84ba6bc95484008f6362f93160ef3e563).
Proof. vm_compute. reflexivity. Qed.

(** ** Absorbing words *)

Fixpoint xor_list (i : nat) (ws st : list Z) : list Z :=
  match ws with [] => st | x :: ws => xor_list (S i) ws (xor_at i x st) end.

Lemma length_xor_at i x st : length (xor_at i x st) = length st.
Proof. apply length_alter. Qed.

Lemma length_xor_list i ws st : length (xor_list i ws st) = length st.
Proof.
  revert i st. induction ws as [|x ws IH]; intros; simpl; [done|].
  by rewrite IH, length_xor_at.
Qed.

Lemma lookup_xor_at i x st j s :
  st !! j = Some s ->
  xor_at i x st !! j = Some (if decide (j = i) then s .^ x else s).
Proof.
  intros Hs. unfold xor_at. case_decide as Hd; subst.
  - by rewrite list_lookup_alter_eq, Hs.
  - by rewrite list_lookup_alter_ne by done.
Qed.

Lemma lookup_xor_list i ws st j s :
  st !! j = Some s ->
  xor_list i ws st !! j = Some (if decide (i <= j)%nat then s .^ nth (j - i) ws 0 else s).
Proof.
  revert i st s. induction ws as [|x ws IH]; intros i st s Hs; simpl.
  - rewrite Hs. case_decide; [|done]. destruct (j - i)%nat; by rewrite Z.lxor_0_r.
  - erewrite IH by (by apply lookup_xor_at). f_equal.
    destruct (decide (j = i)) as [->|Hne].
    + rewrite decide_False, decide_True, Nat.sub_diag by lia. done.
    + destruct (decide (S i <= j)%nat).
      * rewrite decide_True by lia. by replace (j - i)%nat with (S (j - S i)) by lia.
      * by rewrite decide_False by lia.
Qed.

Lemma xor_list_block ws st : xor_list 0 ws st = xor_block ws st.
Proof.
  apply list_eq. intros j. unfold xor_block. rewrite list_lookup_imap.
  destruct (st !! j) as [s|] eqn:Hs; simpl.
  - erewrite lookup_xor_list by done. rewrite decide_True by lia. by rewrite Nat.sub_0_r.
  - apply lookup_ge_None. rewrite length_xor_list. by apply lookup_ge_None.
Qed.

Section Absorb.
Context {host : Host}.

Lemma load_le_word l : (8 <= length l)%nat -> bytes_ok l -> load_le l = le_word (take 8 l).
Proof.
  intros Hl Hok. unfold load_le.
  assert (Hlen : length (take 8 l) = 8%nat) by (rewrite length_take; lia).
  assert (Hb : bytes_ok (take 8 l)) by by apply Forall_take.
  unfold le_uint64, load. destruct host_order; [done|].
  unfold bswap64. rewrite le_bytes_word; [by rewrite reverse_involutive| |].
  - by apply Forall_reverse.
  - by rewrite length_reverse.
Qed.

(** The little-endian words of the first [8 k] bytes. *)
Definition lwords (k : nat) (l : list Z) : list Z := le_word <$> chunks 8 k l.

Lemma absorb_word_fold k i st data :
  (8 * k <= length data)%nat -> bytes_ok data ->
  fold_left absorb_word (seq i k) (st, data) =
  (xor_list i (lwords k data) st, drop (8 * k) data).
Proof.
  revert i st data. induction k as [|k IH]; intros i st data Hlen Hok.
  - by rewrite Nat.mul_0_r, drop_0.
  - cbn [seq fold_left]. unfold absorb_word at 2. cbn [fst snd].
    rewrite IH; [|rewrite length_drop; lia|by apply Forall_drop].
    rewrite load_le_word, drop_drop by (done || lia).
    unfold lwords. csimpl. do 2 f_equal. lia.
Qed.

Lemma absorb_words_spec fuel st i data :
  (length data <= fuel)%nat -> bytes_ok data ->
  let k := (length data / 8)%nat in
  absorb_words fuel st i data =
  (xor_list i (lwords k data) st, (i + k)%nat, drop (8 * k) data).
Proof.
  revert st i data. induction fuel as [|fuel IH]; intros st i data Hfuel Hok k; subst k.
  - replace (length data) with 0%nat by lia. simpl. by rewrite drop_0, Nat.add_0_r.
  - cbn [absorb_words]. destruct (Nat.leb_spec 8 (length data)) as [Hle|Hlt].
    + rewrite IH; [|rewrite length_drop; lia|by apply Forall_drop].
      rewrite load_le_word, length_drop by done.
      replace (length data / 8)%nat with (S ((length data - 8) / 8)).
      2:{ replace (length data) with (length data - 8 + 1 * 8)%nat at 2 by lia.
          rewrite Nat.div_add by lia. lia. }
      rewrite drop_drop. unfold lwords. csimpl. f_equal; f_equal; lia.
    + rewrite Nat.div_small by lia. simpl. by rewrite drop_0, Nat.add_0_r.
Qed.
End Absorb.

Lemma length_tail (l : list Z) : (length (drop (8 * (length l / 8)) l) < 8)%nat.
Proof.
  rewrite length_drop. pose proof (Nat.div_mod_eq (length l) 8).
  pose proof (Nat.mod_upper_bound (length l) 8 ltac:(lia)). lia.
Qed.

(** ** The last block *)

Lemma nth_lwords k l j :
  nth j (lwords k l) 0 = if decide (j < k)%nat then le_word (take 8 (drop (8 * j) l)) else 0.
Proof.
  unfold lwords. rewrite nth_lookup, list_lookup_fmap. case_decide as Hd.
  - by rewrite lookup_chunks by done.
  - by rewrite lookup_ge_None_2 by (rewrite length_chunks; lia).
Qed.

Lemma le_words_lwords k l : length l = (8 * k)%nat -> le_words 8 l = lwords k l.
Proof.
  intros Hl. unfold words, lwords. by rewrite Hl, Nat.mul_comm, Nat.div_mul by lia.
Qed.

Lemma nth_lwords_zip k l1 l2 j :
  bytes_ok l1 -> bytes_ok l2 -> length l1 = length l2 ->
  nth j (lwords k (zip_with Z.lxor l1 l2)) 0 = nth j (lwords k l1) 0 .^ nth j (lwords k l2) 0.
Proof.
  intros H1 H2 Hlen. rewrite !nth_lwords. case_decide; [|done].
  rewrite zip_with_drop, zip_with_take.
  apply le_word_zip_lxor; [by apply Forall_take, Forall_drop..|].
  rewrite !length_take, !length_drop. lia.
Qed.

Lemma zip_lxor_zeros l : zip_with Z.lxor l (replicate (length l) 0) = l.
Proof.
  induction l as [|x l IH]; [done|]. simpl. by rewrite IH, Z.lxor_0_r.
Qed.

(** The padded last block is the message followed by the byte [0x01] and
    zeros, with the top bit of the block flipped. *)
Lemma pad_split rate rest :
  (length rest < rate)%nat ->
  rest ++ pad rate (length rest) =
  zip_with Z.lxor (rest ++ [0x01] ++ replicate (rate - length rest - 1) 0)
    (replicate (rate - 1) 0 ++ [0x80]).
Proof.
  intros Hlt. unfold pad. rewrite Nat.mod_small by done. set (q := (rate - length rest)%nat).
  replace (rate - 1)%nat with (length rest + (q - 1))%nat by lia.
  rewrite replicate_add, <-app_assoc, zip_with_app, zip_lxor_zeros
    by (by rewrite length_replicate). f_equal.
  destruct (Nat.eqb_spec q 1) as [->|Hq]; [done|].
  replace (q - 1)%nat with (S (q - 2)) by lia.
  transitivity (zip_with Z.lxor ([1] ++ replicate (q - 2) 0 ++ [0])
    ([0] ++ replicate (q - 2) 0 ++ [0x80])).
  - rewrite (zip_with_app _ [1]), (zip_with_app _ (replicate (q - 2) 0)) by done.
    pose proof (zip_lxor_zeros (replicate (q - 2) 0)) as Hz.
    rewrite length_replicate in Hz. by rewrite Hz.
  - f_equal. rewrite replicate_S_end. done.
Qed.

Lemma nth_lwords_message r rest j :
  (length rest < 8 * r)%nat -> (j < r)%nat ->
  let k := (length rest / 8)%nat in
  let tail := drop (8 * k) rest in
  nth j (lwords r (rest ++ [0x01] ++ replicate (8 * r - length rest - 1) 0)) 0 =
  if decide (j = k) then le_word (tail ++ [0x01] ++ replicate (7 - length tail) 0)
  else nth j (lwords k rest) 0.
Proof.
  intros Hlt Hj k tail. rewrite !nth_lwords, decide_True by done.
  pose proof (Nat.div_mod_eq (length rest) 8) as Hdm. fold k in Hdm.
  pose proof (Nat.mod_upper_bound (length rest) 8 ltac:(lia)).
  assert (Htail : length tail = (length rest mod 8)%nat)
    by (subst tail; rewrite length_drop; lia).
  case_decide as Hd; [subst j|case_decide].
  - rewrite drop_app_le by lia. fold tail.
    rewrite take_app_ge by lia. rewrite take_app_ge by (simpl; lia). simpl length.
    rewrite take_replicate. do 3 f_equal. f_equal. lia.
  - rewrite drop_app_le, take_app_le; [done|rewrite length_drop; lia|lia].
  - rewrite drop_app_ge, drop_app_ge by (simpl; lia).
    rewrite drop_replicate, take_replicate. apply le_word_zeros.
Qed.

Lemma nth_lwords_topbit r j :
  (0 < r)%nat -> (j < r)%nat ->
  nth j (lwords r (replicate (8 * r - 1) 0 ++ [0x80])) 0 =
  if decide (j = r - 1)%nat then 2 ^ 63 else 0.
Proof.
  intros Hr Hj. rewrite nth_lwords, decide_True by done.
  rewrite drop_app_le by (rewrite length_replicate; lia). rewrite drop_replicate.
  case_decide as Hd.
  - subst j. replace (8 * r - 1 - 8 * (r - 1))%nat with 7%nat by lia. done.
  - rewrite take_app_le by (rewrite length_replicate; lia).
    rewrite take_replicate. apply le_word_zeros.
Qed.

Lemma last_block r rest st :
  (0 < r <= 25)%nat -> length st = 25%nat -> (length rest < 8 * r)%nat -> bytes_ok rest ->
  let k := (length rest / 8)%nat in
  let tail := drop (8 * k) rest in
  xor_at (r - 1) (2 ^ 63)
    (xor_at k (le_word (tail ++ [0x01] ++ replicate (7 - length tail) 0))
       (xor_list 0 (lwords k rest) st)) =
  xor_block (le_words 8 (rest ++ pad (8 * r) (length rest))) st.
Proof.
  intros Hr Hst Hlt Hok k tail. apply list_eq. intros j. unfold xor_block.
  rewrite list_lookup_imap. destruct (st !! j) as [s|] eqn:Hs; simpl; cycle 1.
  { apply lookup_ge_None. rewrite !length_xor_at, length_xor_list. by apply lookup_ge_None. }
  erewrite lookup_xor_at by (apply lookup_xor_at, lookup_xor_list, Hs).
  rewrite (decide_True (P := (0 <= j)%nat)), Nat.sub_0_r by lia. f_equal.
  rewrite pad_split by done.
  assert (HB1 : bytes_ok (rest ++ [0x01] ++ replicate (8 * r - length rest - 1) 0)).
  { apply Forall_app. split; [done|]. apply Forall_app. split; [|apply zeros_ok].
    constructor; [done|constructor]. }
  assert (HB2 : bytes_ok (replicate (8 * r - 1) 0 ++ [0x80])).
  { apply Forall_app. split; [apply zeros_ok|]. constructor; [done|constructor]. }
  rewrite (le_words_lwords r).
  2:{ rewrite length_zip_with, !length_app, !length_replicate. simpl. lia. }
  rewrite nth_lwords_zip; [|done|done|rewrite !length_app, !length_replicate; simpl; lia].
  assert (Hk : (k < r)%nat) by (apply Nat.Div0.div_lt_upper_bound; lia).
  destruct (decide (j < r)%nat) as [Hjr|Hjr].
  - rewrite nth_lwords_message, nth_lwords_topbit by lia. fold k. fold tail.
    rewrite (nth_lwords k). destruct (decide (j = k)) as [->|].
    + rewrite (decide_False (P := (k < k)%nat)) by lia. rewrite Z.lxor_0_r.
      case_decide; rewrite ?Z.lxor_0_r, ?Z.lxor_assoc; done.
    + case_decide; case_decide; rewrite ?Z.lxor_0_r, ?Z.lxor_assoc; done.
  - rewrite !nth_lwords, !decide_False by lia. by rewrite !Z.lxor_0_r.
Qed.

(** ** Lanes stay in range *)

Lemma build_in_word w f : (forall x y, in_word w (f x y)) -> Forall (in_word w) (build f).
Proof. intros Hf. apply Forall_fmap, Forall_forall. intros [x y] _. apply Hf. Qed.

Section Range.
Context (w : Z) (Hw : 1 < w).

Lemma lane_in_word st x y : Forall (in_word w) st -> in_word w (lane st x y).
Proof.
  intros Hst. unfold lane. rewrite nth_lookup. destruct (st !! _) as [s|] eqn:Hs; simpl.
  - exact (Forall_lookup_1 _ _ _ _ Hst Hs).
  - apply in_word_0. lia.
Qed.

Lemma rot_in_word x s : 0 <= s < w -> in_word w x -> in_word w (rot w x s).
Proof.
  intros Hs Hx. unfold rot. apply lor_in_word; [lia| |].
  - apply shl_in_word. lia.
  - apply shiftr_in_word; lia || done.
Qed.

Lemma rho_table_range x y : 0 <= lane (rho_table w) x y < w.
Proof.
  assert (Hall : Forall (fun s => 0 <= s < w) (rho_table w)).
  { apply Forall_fmap, Forall_forall. intros [i j] _. simpl. unfold rho_offset.
    destruct (find _ _); [apply Z.mod_pos_bound|]; lia. }
  unfold lane. rewrite nth_lookup. destruct (rho_table w !! _) as [s|] eqn:Hs; simpl; [|lia].
  exact (Forall_lookup_1 _ _ _ _ Hall Hs).
Qed.

Lemma keccak_round_range rc st :
  in_word w rc -> Forall (in_word w) st -> Forall (in_word w) (keccak_round w rc st).
Proof.
  intros Hrc Hst. unfold keccak_round.
  assert (Htheta : Forall (in_word w) (theta w st)).
  { apply build_in_word. intros. apply lxor_in_word; [lia|by apply lane_in_word|].
    apply lxor_in_word; [lia| |apply rot_in_word; [lia|]];
      repeat apply lxor_in_word; try lia; by apply lane_in_word. }
  assert (Hrho : Forall (in_word w) (rho w (theta w st))).
  { apply build_in_word. intros. simpl. pose proof (rho_table_range x y).
    destruct (_ =? 0); [|apply rot_in_word; [lia|]]; by apply lane_in_word. }
  assert (Hchi : Forall (in_word w) (chi w (pi (rho w (theta w st))))).
  { assert (Forall (in_word w) (pi (rho w (theta w st))))
      by (apply build_in_word; intros; by apply lane_in_word).
    apply build_in_word. intros. apply lxor_in_word; [lia|by apply lane_in_word|].
    apply land_in_word_r; [lia|by apply lane_in_word]. }
  apply build_in_word. intros. destruct (_ && _); [apply lxor_in_word; [lia| |done]|];
    by apply lane_in_word.
Qed.
End Range.

Lemma round_constants_range : Forall (in_word 64) (round_constant 6 <$> seq 0 24).
Proof.
  rewrite <-round_constants_spec. unfold round_constants.
  repeat (apply Forall_cons; split; [by vm_compute|]). done.
Qed.

Lemma keccak_f_range st :
  Forall (in_word 64) st -> Forall (in_word 64) (keccak_f 6 st).
Proof.
  intros Hst. unfold keccak_f. apply (fold_left_inv (Forall (in_word 64))); [done|].
  intros a ir Hir Ha. apply (keccak_round_range 64); [done| |done].
  eapply Forall_forall; [apply round_constants_range|]. by apply list_elem_of_fmap_2.
Qed.

Lemma length_keccak_f st : length st = 25%nat -> length (keccak_f 6 st) = 25%nat.
Proof.
  intros Hst. unfold keccak_f. by apply (fold_left_inv (fun st => length st = 25%nat)).
Qed.

Lemma keccakf1600_best_spec {host : Host} st :
  length st = 25%nat -> keccakf1600_best st = keccak_f 6 st.
Proof. intros Hst. unfold keccakf1600_best. destruct (_ && _); by apply keccakf1600_spec. Qed.

(** ** The whole sponge *)

Definition state_ok (st : list Z) : Prop := length st = 25%nat /\ Forall (in_word 64) st.

Lemma length_xor_block ws st : length (xor_block ws st) = length st.
Proof. apply length_imap. Qed.

Lemma xor_block_ok ws st :
  Forall (in_word 64) ws -> state_ok st -> state_ok (xor_block ws st).
Proof.
  intros Hws [Hlen Hst]. split; [by rewrite length_xor_block|].
  apply Forall_lookup. intros i x. unfold xor_block. rewrite list_lookup_imap.
  destruct (st !! i) as [s|] eqn:Hs; simpl; [|done]. intros [= <-].
  apply lxor_in_word; [done|exact (Forall_lookup_1 _ _ _ _ Hst Hs)|].
  rewrite nth_lookup. destruct (ws !! i) as [v|] eqn:Hv; simpl; [|by apply in_word_0].
  exact (Forall_lookup_1 _ _ _ _ Hws Hv).
Qed.

Lemma sponge_absorb_ok k st block :
  length block = (8 * k)%nat -> bytes_ok block -> state_ok st -> state_ok (sponge_absorb st block).
Proof.
  intros Hlen Hok Hst. unfold sponge_absorb.
  destruct (xor_block_ok (le_words 8 block) st) as [H1 H2]; [|done|].
  - apply (words_in_word (host := plain_host) 8 k); [lia|done|done].
  - split; [by apply length_keccak_f|by apply keccak_f_range].
Qed.

Lemma chunks_app {A} n k (l1 l2 : list A) :
  length l1 = (n * k)%nat -> length l2 = n -> chunks n (S k) (l1 ++ l2) = chunks n k l1 ++ [l2].
Proof.
  revert l1. induction k as [|k IH]; intros l1 H1 H2.
  - replace l1 with (@nil A) by (symmetry; apply nil_length_inv; lia). simpl.
    by rewrite take_ge by lia.
  - change (chunks n (S (S k)) (l1 ++ l2))
      with (take n (l1 ++ l2) :: chunks n (S k) (drop n (l1 ++ l2))).
    rewrite take_app_le, drop_app_le, IH by (rewrite ?length_drop; lia). done.
Qed.

Lemma chunks_take {A} n k (l : list A) : chunks n k (take (n * k) l) = chunks n k l.
Proof.
  revert l. induction k as [|k IH]; intros l; simpl; [done|].
  rewrite Nat.mul_succ_r, take_take, Nat.min_l by lia. f_equal.
  rewrite skipn_firstn_comm, Nat.add_sub. apply IH.
Qed.

Lemma length_pad rate n : (0 < rate)%nat -> (length (pad rate n) = rate - n mod rate)%nat.
Proof.
  intros Hr. unfold pad. pose proof (Nat.mod_upper_bound n rate ltac:(lia)).
  destruct (Nat.eqb_spec (rate - n mod rate) 1) as [->|]; [done|].
  simpl. rewrite length_app, length_replicate. simpl. lia.
Qed.

Lemma pad_mod rate n : pad rate (n mod rate) = pad rate n.
Proof. unfold pad. by rewrite Nat.Div0.mod_mod. Qed.

(** The padded message is its full blocks followed by the padded rest. *)
Lemma padded_blocks rate data :
  (0 < rate)%nat ->
  let m := (length data / rate)%nat in
  let rest := drop (rate * m) data in
  let p := data ++ pad rate (length data) in
  chunks rate (length p / rate) p = chunks rate m data ++ [rest ++ pad rate (length rest)].
Proof.
  intros Hr m rest p. pose proof (Nat.div_mod_eq (length data) rate) as Hdm. fold m in Hdm.
  pose proof (Nat.mod_upper_bound (length data) rate ltac:(lia)).
  assert (Hrest : length rest = (length data mod rate)%nat)
    by (subst rest; rewrite length_drop; lia).
  assert (Hp : p = take (rate * m) data ++ (rest ++ pad rate (length data)))
    by (by rewrite app_assoc; unfold rest; rewrite take_drop).
  replace (length p / rate)%nat with (S m).
  2:{ subst p. rewrite length_app, length_pad by done.
      apply Nat.div_unique with 0%nat; lia. }
  rewrite Hp, chunks_app, chunks_take, Hrest, pad_mod; [done| |].
  - rewrite length_take. lia.
  - rewrite length_app, length_pad; lia.
Qed.

Lemma of_words_take k st :
  of_le_words 8 (take k st) = take (8 * k) (of_le_words 8 st).
Proof.
  revert k. induction st as [|x st IH]; intros [|k]; [done|done|done|].
  change (le_bytes 8 x ++ of_le_words 8 (take k st) =
          take (8 * S k) (le_bytes 8 x ++ of_le_words 8 st)).
  rewrite IH, take_app_ge by (rewrite length_le_bytes; lia).
  do 2 f_equal. rewrite length_le_bytes. lia.
Qed.

Section Correct.
Context {host : Host} (r : nat) (Hr : (0 < r <= 25)%nat).

Lemma absorb_blocks_spec fuel st data :
  (length data <= fuel)%nat -> bytes_ok data -> state_ok st ->
  let m := (length data / (8 * r))%nat in
  let st' := fold_left sponge_absorb (chunks (8 * r) m data) st in
  absorb_blocks fuel (8 * r) st data = (st', drop (8 * r * m) data) /\ state_ok st'.
Proof.
  revert st data. induction fuel as [|fuel IH]; intros st data Hfuel Hok Hst; cbv zeta.
  { replace (length data) with 0%nat by lia. rewrite Nat.Div0.div_0_l.
    by rewrite Nat.mul_0_r, drop_0. }
  cbn [absorb_blocks]. destruct (Nat.leb_spec (8 * r) (length data)) as [Hle|Hlt]; cycle 1.
  { rewrite Nat.div_small by lia. by rewrite Nat.mul_0_r, drop_0. }
  replace (8 * r / 8)%nat with r by (rewrite Nat.mul_comm, Nat.div_mul; lia).
  rewrite absorb_word_fold by done. cbn [fst snd].
  assert (Hblock : length (take (8 * r) data) = (8 * r)%nat) by (rewrite length_take; lia).
  assert (Hxor : xor_list 0 (lwords r data) st = xor_block (le_words 8 (take (8 * r) data)) st).
  { rewrite (le_words_lwords r) by done. unfold lwords. by rewrite chunks_take, xor_list_block. }
  assert (Hnext : keccakf1600_best (xor_list 0 (lwords r data) st) =
                  sponge_absorb st (take (8 * r) data)).
  { rewrite Hxor. apply keccakf1600_best_spec. rewrite length_xor_block. apply Hst. }
  rewrite Hnext.
  destruct (IH (sponge_absorb st (take (8 * r) data)) (drop (8 * r) data)) as [-> Hend].
  { rewrite length_drop. lia. } { by apply Forall_drop. }
  { eapply sponge_absorb_ok; [done| |done]. by apply Forall_take. }
  rewrite length_drop in *.
  replace (length data / (8 * r))%nat with (S ((length data - 8 * r) / (8 * r))).
  2:{ replace (length data) with (length data - 8 * r + 1 * (8 * r))%nat at 2 by lia.
      rewrite Nat.div_add by lia. lia. }
  split; [|done]. rewrite drop_drop. f_equal. f_equal. lia.
Qed.

Lemma pad_ok rate n : bytes_ok (pad rate n).
Proof.
  unfold pad. destruct (_ =? _)%nat; [by constructor|].
  constructor; [done|]. apply Forall_app. split; [apply zeros_ok|by constructor].
Qed.

(** [last_word] is the padded tail read in little-endian order. *)
Lemma le_uint64_tail tail :
  bytes_ok tail -> (length tail < 8)%nat ->
  le_uint64 (load (tail ++ [0x01] ++ replicate (7 - length tail) 0)) =
  le_word (tail ++ [0x01] ++ replicate (7 - length tail) 0).
Proof.
  intros Hok Hlt. set (l := tail ++ _).
  assert (Hlen : length l = 8%nat)
    by (subst l; rewrite !length_app, length_replicate; simpl; lia).
  assert (bytes_ok l).
  { apply Forall_app. split; [done|]. constructor; [done|apply zeros_ok]. }
  pose proof (load_le_word l) as Hload. unfold load_le in Hload.
  rewrite take_ge in Hload by lia. apply Hload; [lia|done].
Qed.

Lemma of_word64s_state st :
  Forall (in_word 64) st -> of_word64s (le_uint64 <$> st) = of_le_words 8 st.
Proof.
  intros Hst. unfold of_words. f_equal. rewrite <-list_fmap_compose.
  apply list_fmap_ext. intros i x Hx. simpl.
  rewrite le_uint64_store; [done|]. exact (Forall_lookup_1 _ _ _ _ Hst Hx).
Qed.

Lemma keccak_sponge h data :
  (1600 - 64 * h * 2 = 64 * r)%nat -> bytes_ok data ->
  keccak (64 * h) data = sponge (8 * r) (8 * h) data.
Proof.
  intros Hh Hok. unfold keccak. rewrite Hh.
  replace (64 * r / 8)%nat with (8 * r)%nat
    by (replace (64 * r)%nat with (8 * r * 8)%nat by lia; rewrite Nat.div_mul; lia).
  replace (64 * h / 8)%nat with (8 * h)%nat
    by (replace (64 * h)%nat with (8 * h * 8)%nat by lia; rewrite Nat.div_mul; lia).
  replace (8 * r / 8)%nat with r by (rewrite Nat.mul_comm, Nat.div_mul; lia).
  replace (8 * h / 8)%nat with h by (rewrite Nat.mul_comm, Nat.div_mul; lia).
  assert (H0 : state_ok (replicate 25 0)) by (split; [done|by apply Forall_replicate, in_word_0]).
  destruct (absorb_blocks_spec (length data) (replicate 25 0) data) as [-> Hst]; [done..|].
  set (m := (length data / (8 * r))%nat) in *. set (rest := drop (8 * r * m) data).
  set (st := fold_left _ _ _) in *.
  assert (Hrest : bytes_ok rest) by by apply Forall_drop.
  assert (Hlt : (length rest < 8 * r)%nat).
  { subst rest. rewrite length_drop. pose proof (Nat.div_mod_eq (length data) (8 * r)) as Hdm.
    pose proof (Nat.mod_upper_bound (length data) (8 * r) ltac:(lia)). fold m in Hdm. lia. }
  rewrite absorb_words_spec by done. rewrite Nat.add_0_l.
  rewrite le_uint64_tail; [|by apply Forall_drop|apply length_tail].
  change 0x8000000000000000 with (2 ^ 63). rewrite last_block; [|lia|apply Hst|done|done].
  rewrite keccakf1600_best_spec by (rewrite length_xor_block; apply Hst).
  unfold sponge. rewrite padded_blocks by lia. fold m. fold rest.
  rewrite fold_left_app. fold st. cbn [fold_left].
  change (keccak_f 6 _) with (sponge_absorb st (rest ++ pad (8 * r) (length rest))).
  assert (Hend : state_ok (sponge_absorb st (rest ++ pad (8 * r) (length rest)))).
  { apply (sponge_absorb_ok r); [| |done].
    - rewrite length_app, length_pad, Nat.mod_small; lia.
    - apply Forall_app. split; [done|apply pad_ok]. }
  rewrite of_word64s_state by (apply Forall_take, Hend). apply of_words_take.
Qed.
End Correct.

Lemma ethash_keccak256_sponge {host : Host} data :
  bytes_ok data -> ethash_keccak256 data = sponge 136 32 data.
Proof. intros Hok. exact (keccak_sponge 17 ltac:(lia) 4 data eq_refl Hok). Qed.

Lemma ethash_keccak512_sponge {host : Host} data :
  bytes_ok data -> ethash_keccak512 data = sponge 72 64 data.
Proof. intros Hok. exact (keccak_sponge 9 ltac:(lia) 8 data eq_refl Hok). Qed.

Lemma keccak256_hash_sponge {host : Host} h :
  hash256_wf h -> keccak256_hash h = sponge 136 32 h.
Proof.
  intros [Hl Hok]. unfold keccak256_hash, ethash_keccak256_32.
  rewrite take_ge by lia. by apply ethash_keccak256_sponge.
Qed.

Lemma keccak512_hash_sponge {host : Host} h :
  hash512_wf h -> keccak512_hash h = sponge 72 64 h.
Proof.
  intros [Hl Hok]. unfold keccak512_hash, ethash_keccak512_64.
  rewrite take_ge by lia. by apply ethash_keccak512_sponge.
Qed.

Lemma length_absorbed data st :
  length st = 25%nat -> length (fold_left sponge_absorb data st) = 25%nat.
Proof.
  intros Hst. apply (fold_left_inv (fun st => length st = 25%nat)); [done|].
  intros a b _ Ha. unfold sponge_absorb. apply length_keccak_f. by rewrite length_xor_block.
Qed.

Lemma sponge_wf rate out data : (out <= 200)%nat -> hash_wf out (sponge rate out data).
Proof.
  intros Hout. unfold sponge. set (st := fold_left _ _ _).
  assert (Hst : length st = 25%nat) by by apply length_absorbed.
  split; [|apply Forall_take, of_words_ok].
  rewrite length_take, length_of_words, Hst. lia.
Qed.

Lemma ethash_keccak256_wf {host : Host} data :
  bytes_ok data -> hash256_wf (ethash_keccak256 data).
Proof. intros Hok. rewrite ethash_keccak256_sponge by done. apply sponge_wf. lia. Qed.

Lemma ethash_keccak512_wf {host : Host} data :
  bytes_ok data -> hash512_wf (ethash_keccak512 data).
Proof. intros Hok. rewrite ethash_keccak512_sponge by done. apply sponge_wf. lia. Qed.

(** The unrolled permutations [keccakf1600_implementation] (24 rounds, two
    per iteration, whichever of the generic and BMI variants the CPU selects)
    and [ethash_keccakf800] (22 rounds) compute the reference permutations
    Keccak-f[1600] and Keccak-f[800], built from theta, rho, pi, chi and iota
    with offsets and round constants derived, not tabulated. *)
Theorem permutations_correct (host : Host) (st : list Z) :
  length st = 25%nat ->
  keccakf1600_best st = keccak_f 6 st /\ ethash_keccakf800 st = keccak_f 5 st.
Proof. intros Hst. split; [by apply keccakf1600_best_spec|by apply keccakf800_spec]. Qed.

Lemma permutations_correct_witness :
  length (replicate 25 7) = 25%nat /\
  @keccakf1600_best plain_host (replicate 25 7) = keccak_f 6 (replicate 25 7) /\
  ethash_keccakf800 (replicate 25 7) = keccak_f 5 (replicate 25 7).
Proof. split; [reflexivity|]. exact (permutations_correct plain_host (replicate 25 7) eq_refl). Defined.

(** C32: on every host, of either byte order, the four hash functions of
    keccak.c are the Keccak sponge of capacity 512 (1024) bits with the
    original padding, and give well-formed hashes of 32 (64) bytes. *)
Theorem keccak_hashes_correct (host : Host) (data : list Z) :
  bytes_ok data ->
  ethash_keccak256 data = sponge 136 32 data /\
  ethash_keccak256_32 data = sponge 136 32 (take 32 data) /\
  ethash_keccak512 data = sponge 72 64 data /\
  ethash_keccak512_64 data = sponge 72 64 (take 64 data) /\
  hash256_wf (ethash_keccak256 data) /\ hash512_wf (ethash_keccak512 data).
Proof.
  intros Hok. split; [exact (ethash_keccak256_sponge data Hok)|].
  split; [exact (ethash_keccak256_sponge _ (Forall_take _ 32 _ Hok))|].
  split; [exact (ethash_keccak512_sponge data Hok)|].
  split; [exact (ethash_keccak512_sponge _ (Forall_take _ 64 _ Hok))|].
  split; [by apply ethash_keccak256_wf|by apply ethash_keccak512_wf].
Qed.

Lemma keccak_hashes_correct_witness :
  let host := mk_host BigEndian false true in
  let data := le_bytes 140 (2 ^ 1000 + 12345) in
  bytes_ok data /\ ethash_keccak256 data = sponge 136 32 data.
Proof.
  intros host data. assert (Hok : bytes_ok data) by apply le_bytes_ok.
  split; [exact Hok|]. exact (proj1 (keccak_hashes_correct host data Hok)).
Defined.
