(* ===== verification/EthashSpec.v ===== *)
(** * Reference definition of Ethash

    The algorithm of the Ethash specification (revision 23), over lists of
    little-endian words and with no reference to a machine: [mkcache],
    [calc_dataset_item] and [hashimoto].  [Ethash.v] and [EthashHash.v] prove
    that the code computes these functions. *)

From stdpp Require Import base numbers list.
From Stdlib Require Import ZArith Lia.
From S2P Require Import Prelude Words Keccak.

Local Open Scope Z_scope.
Local Open Scope word_scope.

(** The two hash functions, on byte strings. *)
Definition sha3_512 (data : list Z) : list Z := sponge 72 64 data.
Definition sha3_256 (data : list Z) : list Z := sponge 136 32 data.

Definition fnv (v1 v2 : Z) : Z := ((v1 * 0x01000193) .^ v2) mod 2 ^ 32.

(** The seed of an epoch: [n] hashes of the zero string. *)
Fixpoint epoch_seed (n : nat) : list Z :=
  match n with O => replicate 32 0 | S n => sha3_256 (epoch_seed n) end.

(** ** The light cache: Sergio Demian Lerner's RandMemoHash *)

Fixpoint cache_chain (n : nat) (item : list Z) : list (list Z) :=
  match n with O => [] | S n => item :: cache_chain n (sha3_512 item) end.

Definition cache_update (n : nat) (o : list (list Z)) (i : nat) : list (list Z) :=
  let v := Z.to_nat (le_word (take 4 (nth i o [])) mod Z.of_nat n) in
  let x := zip_with Z.lxor (nth v o []) (nth ((i + n - 1) mod n) o []) in
  <[i := sha3_512 x]> o.

Definition mkcache (n : nat) (seed : list Z) : list (list Z) :=
  fold_left (fun o _ => fold_left (cache_update n) (seq 0 n) o) (seq 0 3)
    (cache_chain n (sha3_512 seed)).

(** ** Dataset items *)

(** The first mix of item [i]: the cache row with its first word xored. *)
Definition item_seed (cache : list (list Z)) (i : Z) : list Z :=
  let row := le_words 4 (nth (Z.to_nat (i mod Z.of_nat (length cache))) cache []) in
  le_words 4 (sha3_512 (of_le_words 4 (alter (fun x => x .^ i) 0%nat row))).

Definition item_round (cache : list (list Z)) (i : Z) (mix : list Z) (j : nat) : list Z :=
  let cache_index := fnv (i .^ Z.of_nat j) (nth (j mod 16) mix 0) in
  zip_with fnv mix
    (le_words 4 (nth (Z.to_nat (cache_index mod Z.of_nat (length cache))) cache [])).

Definition calc_dataset_item (cache : list (list Z)) (i : Z) : list Z :=
  sha3_512 (of_le_words 4 (fold_left (item_round cache i) (seq 0 256) (item_seed cache i))).

(** ** The main loop *)

Definition hashimoto_round (cache : list (list Z)) (pages s0 : Z) (mix : list Z) (i : nat)
  : list Z :=
  let p := fnv (Z.of_nat i .^ s0) (nth (i mod 32) mix 0) mod pages in
  zip_with fnv mix
    (le_words 4 (calc_dataset_item cache (2 * p)) ++ le_words 4 (calc_dataset_item cache (2 * p + 1))).

Definition compress (mix : list Z) : list Z :=
  (fun i => fnv (fnv (fnv (nth (4 * i) mix 0) (nth (4 * i + 1) mix 0)) (nth (4 * i + 2) mix 0))
              (nth (4 * i + 3) mix 0)) <$> seq 0 8.

(** [hashimoto] on a header of 32 bytes and a 64-bit nonce: the final hash and
    the mix hash; [pages] is the number of 128-byte rows of the dataset. *)
Definition hashimoto (cache : list (list Z)) (pages : Z) (header : list Z) (nonce : Z)
  : list Z * list Z :=
  let s := sha3_512 (header ++ le_bytes 8 nonce) in
  let s_words := le_words 4 s in
  let mix := fold_left (hashimoto_round cache pages (nth 0 s_words 0)) (seq 0 64)
               (s_words ++ s_words) in
  let cmix := of_le_words 4 (compress mix) in
  (sha3_256 (s ++ cmix), cmix).
