(* ===== verification/Ethash.v ===== *)
(** * Ethash: epochs, the light cache and contexts

    Models the part of [ethash/lib/ethash/ethash.cpp] that sets an epoch up
    ([build_light_cache], [create_epoch_context], the sizes and the seed) and
    recovers an epoch from its seed ([find_epoch_number]), with the types of
    [ethash.h], [ethash.hpp] and [ethash-internal.hpp].  [None] stands for
    undefined behaviour: signed overflow, an index out of bounds, a division by
    zero, a null dereference. *)

From stdpp Require Import base numbers list.
From Stdlib Require Import ZArith Lia Bool.
From S2P Require Import Prelude Primes Words Keccak EthashSpec.

Local Open Scope Z_scope.
Local Open Scope word_scope.

(** ** Constants *)

Definition light_cache_init_size : Z := Z.shiftl 1 24.
Definition light_cache_growth : Z := Z.shiftl 1 17.
Definition light_cache_rounds : nat := 3.
Definition full_dataset_init_size : Z := Z.shiftl 1 30.
Definition full_dataset_growth : Z := Z.shiftl 1 23.
Definition full_dataset_item_parents : nat := 256.
Definition ecip_1099_activation_epoch : Z := 390.

Definition light_cache_item_size : Z := 64.
Definition full_dataset_item_size : Z := 128.
Definition num_dataset_accesses : nat := 64.
Definition epoch_length : Z := 30000.
Definition epoch_length_ecip1099 : Z := 60000.
Definition ecip1099_activation_block : Z := 11700000.

(** A value-initialised hash, [hash256 h = {}]. *)
Definition zero_hash (n : nat) : list Z := replicate n 0.

(** ** Contexts *)

(** [ethash_epoch_context]; the cache pointer is the array it points to, and
    [l1_cache] the offset of the pointer in the allocated block. *)
Record epoch_context := mk_epoch_context {
  epoch_number : Z;
  light_cache_num_items : Z;
  light_cache : list (list Z);
  l1_cache : Z;
  full_dataset_num_items : Z
}.

(** [ethash_epoch_context_full]; [full_dataset] is null for a light context. *)
Record epoch_context_full := mk_epoch_context_full {
  base : epoch_context;
  full_dataset : option (list (list Z))
}.

(** ** Sizes *)

Definition get_epoch_number (block_number : Z) : Z :=
  if ecip1099_activation_block <=? block_number then Z.quot block_number epoch_length_ecip1099
  else Z.quot block_number epoch_length.

Definition get_light_cache_size (num_items : Z) : Z := u64 (u64 num_items * light_cache_item_size).
Definition get_full_dataset_size (num_items : Z) : Z := u64 (u64 num_items * full_dataset_item_size).

(** [num_items_init + epoch_number * num_items_growth] in [int] arithmetic. *)
Definition num_items_upper_bound (init growth epoch_number : Z) : option Z :=
  p ← int_of (epoch_number * growth); int_of (init + p).

Definition ethash_calculate_light_cache_num_items (epoch_number : Z) : option Z :=
  let num_items_init := Z.quot light_cache_init_size light_cache_item_size in
  let num_items_growth := Z.quot light_cache_growth light_cache_item_size in
  ub ← num_items_upper_bound num_items_init num_items_growth epoch_number;
  ethash_find_largest_prime ub.

Definition ethash_calculate_full_dataset_num_items (epoch_number : Z) : option Z :=
  let num_items_init := Z.quot full_dataset_init_size full_dataset_item_size in
  let num_items_growth := Z.quot full_dataset_growth full_dataset_item_size in
  ub ← num_items_upper_bound num_items_init num_items_growth epoch_number;
  ethash_find_largest_prime ub.

(** The result of [std::calloc(1, size)] as far as the code looks at it: whether
    there is a block.  A parameter, since it depends on the state of the heap. *)
Definition allocator := Z -> bool.

Section Code.
Context {host : Host}.

(** ** The seed of an epoch *)

Definition seed_step (epoch_seed : list Z) (_ : nat) : list Z := ethash_keccak256_32 epoch_seed.

Definition ethash_calculate_epoch_seed (epoch_number : Z) : list Z :=
  fold_left seed_step (seq 0 (Z.to_nat epoch_number)) (zero_hash 32).

(** The [thread_local] variables of [find_epoch_number]. *)
Record epoch_search := mk_epoch_search { cached_epoch_number : Z; cached_seed : list Z }.
Definition epoch_search_init : epoch_search := mk_epoch_search 0 (zero_hash 32).

(** [s.word32s[0]]. *)
Definition first_word (s : list Z) : Z := nth 0 (word32s s) 0.

Definition num_tries : Z := 30000.

(** One iteration of the search from epoch 0, on the pair [(i, s)]. *)
Definition find_step (seed_part : Z) (p : Z * list Z) : (Z * list Z) + option (Z * list Z) :=
  let '(i, s) := p in
  if i <? num_tries then
    if first_word s =? seed_part then inr (Some (i, s))
    else inl (i + 1, keccak256_hash s)
  else inr None.

Definition find_epoch_number (seed : list Z) (c : epoch_search) : option (Z * epoch_search) :=
  let seed_part := first_word seed in
  let e := cached_epoch_number c in
  let s := cached_seed c in
  if first_word s =? seed_part then Some (e, c)
  else
    let s := keccak256_hash s in
    if first_word s =? seed_part then
      e' ← int_of (e + 1); Some (e', mk_epoch_search e' s)
    else
      match loop (find_step seed_part) fuel32 (0, zero_hash 32) with
      | inr (Some (i, s)) => Some (i, mk_epoch_search i s)
      | inr None => Some (-1, c)
      | inl _ => None
      end.

(** ** The light cache *)

Definition fnv1_512 (u v : list Z) : list Z := of_word32s (zip_with Bits.fnv1 (word32s u) (word32s v)).

Definition bitwise_xor (x y : list Z) : list Z := of_word64s (zip_with Z.lxor (word64s x) (word64s y)).

(** [item = hash_fn(item.bytes, sizeof(item)); cache[i] = item]. *)
Definition chain_step (hash_fn : list Z -> list Z) (s : list Z * list (list Z)) (i : nat)
  : option (list Z * list (list Z)) :=
  let item := hash_fn s.1 in
  cache ← array_set (Z.of_nat i) item s.2; Some (item, cache).

(** The body of the loop of a round. *)
Definition round_step (hash_fn : list Z -> list Z) (num_items : Z) (cache : list (list Z)) (i : nat)
  : option (list (list Z)) :=
  let index_limit := u32 num_items in
  if index_limit =? 0 then None else
  item ← array_get cache (Z.of_nat i);
  let t := le_uint32 (first_word item) in
  let v := t mod index_limit in
  w ← int_of (num_items + (Z.of_nat i - 1));
  let w := u32 w mod index_limit in
  cache_v ← array_get cache v;
  cache_w ← array_get cache w;
  array_set (Z.of_nat i) (hash_fn (bitwise_xor cache_v cache_w)) cache.

Definition generic_build_light_cache (hash_fn : list Z -> list Z) (cache : list (list Z))
    (num_items : Z) (seed : list Z) : option (list (list Z)) :=
  let item := hash_fn seed in
  cache ← array_set 0 item cache;
  s ← mfold (chain_step hash_fn) (seq 1 (Z.to_nat num_items - 1)) (item, cache);
  mfold (fun cache _ => mfold (round_step hash_fn num_items) (seq 0 (Z.to_nat num_items)) cache)
    (seq 0 light_cache_rounds) s.2.

Definition build_light_cache (cache : list (list Z)) (num_items : Z) (seed : list Z)
  : option (list (list Z)) :=
  generic_build_light_cache keccak512 cache num_items seed.

(** ** Creating a context *)

(** [epoch_ecip1099]: since ECIP-1099 the cache and the dataset grow at half the
    speed. *)
Definition epoch_ecip1099 (epoch_number : Z) : Z :=
  if ecip_1099_activation_epoch <=? epoch_number then Z.quot epoch_number 2 else epoch_number.

(** The outer option is undefined behaviour, the inner one a null result. *)
Definition generic_create_epoch_context
    (build_fn : list (list Z) -> Z -> list Z -> option (list (list Z)))
    (calloc : allocator) (epoch_number : Z) (full : bool) : option (option epoch_context_full) :=
  let context_alloc_size := 64 in
  let e := epoch_ecip1099 epoch_number in
  light_cache_num_items ← ethash_calculate_light_cache_num_items e;
  full_dataset_num_items ← ethash_calculate_full_dataset_num_items e;
  let light_cache_size := get_light_cache_size light_cache_num_items in
  let full_dataset_size := if full then u64 (u64 full_dataset_num_items * 128) else 0 in
  let alloc_size := u64 (u64 (context_alloc_size + light_cache_size) + full_dataset_size) in
  if negb (calloc alloc_size) then Some None
  else
    let light_cache := replicate (Z.to_nat light_cache_num_items) (zero_hash 64) in
    let epoch_seed := ethash_calculate_epoch_seed epoch_number in
    light_cache ← build_fn light_cache light_cache_num_items epoch_seed;
    let l1_cache := context_alloc_size + light_cache_size in
    let full_dataset :=
      if full then Some (replicate (Z.to_nat full_dataset_num_items) (zero_hash 128)) else None in
    Some (Some (mk_epoch_context_full
      (mk_epoch_context epoch_number light_cache_num_items light_cache l1_cache
         full_dataset_num_items)
      full_dataset)).

Definition ethash_create_epoch_context (calloc : allocator) (epoch_number : Z)
  : option (option epoch_context) :=
  option_map (option_map base)
    (generic_create_epoch_context build_light_cache calloc epoch_number false).

Definition ethash_create_epoch_context_full (calloc : allocator) (epoch_number : Z)
  : option (option epoch_context_full) :=
  generic_create_epoch_context build_light_cache calloc epoch_number true.

End Code.

(** ** Sizes *)

Lemma num_items_spec init growth e :
  0 <= e -> 0 <= growth -> 2 <= init -> init + e * growth <= int_max ->
  exists n, (ub ← num_items_upper_bound init growth e; ethash_find_largest_prime ub) = Some n /\
    Z.prime n /\ n <= init + e * growth /\
    (forall q, Z.prime q -> q <= init + e * growth -> q <= n).
Proof.
  intros He Hg Hi Hmax. unfold num_items_upper_bound.
  rewrite int_of_Some by (unfold int_min; nia). simpl.
  rewrite int_of_Some by (unfold int_min; nia). simpl.
  apply find_largest_prime_spec. nia.
Qed.

(** The largest epoch for which the row counts are representable as [int]. *)
Definition max_epoch : Z := 32639.

Lemma light_num_items_spec e :
  0 <= e <= max_epoch ->
  exists n, ethash_calculate_light_cache_num_items e = Some n /\ Z.prime n /\
    n <= 2 ^ 18 + e * 2 ^ 11 /\ (forall q, Z.prime q -> q <= 2 ^ 18 + e * 2 ^ 11 -> q <= n).
Proof.
  intros He. apply (num_items_spec (2 ^ 18) (2 ^ 11)); unfold max_epoch, int_max in *; lia.
Qed.

Lemma full_num_items_spec e :
  0 <= e <= max_epoch ->
  exists n, ethash_calculate_full_dataset_num_items e = Some n /\ Z.prime n /\
    n <= 2 ^ 23 + e * 2 ^ 16 /\ (forall q, Z.prime q -> q <= 2 ^ 23 + e * 2 ^ 16 -> q <= n).
Proof.
  intros He. apply (num_items_spec (2 ^ 23) (2 ^ 16)); unfold max_epoch, int_max in *; lia.
Qed.

(** For every epoch up to 32639 the numbers of rows of the light cache and
    of the full dataset are computed without overflow: the largest primes below
    the linear bounds [2^18 + 2^11 e] and [2^23 + 2^16 e]; one epoch later the
    dataset bound overflows [int]. *)
Theorem num_items_correct (e : Z) :
  0 <= e <= max_epoch ->
  (exists n, ethash_calculate_light_cache_num_items e = Some n /\ Z.prime n /\
     n <= 2 ^ 18 + e * 2 ^ 11 /\ (forall q, Z.prime q -> q <= 2 ^ 18 + e * 2 ^ 11 -> q <= n)) /\
  (exists n, ethash_calculate_full_dataset_num_items e = Some n /\ Z.prime n /\
     n <= 2 ^ 23 + e * 2 ^ 16 /\ (forall q, Z.prime q -> q <= 2 ^ 23 + e * 2 ^ 16 -> q <= n)) /\
  ethash_calculate_full_dataset_num_items (max_epoch + 1) = None.
Proof.
  intros He. split; [by apply light_num_items_spec|].
  split; [by apply full_num_items_spec|]. by vm_compute.
Qed.

Lemma num_items_correct_witness :
  0 <= 0 <= max_epoch /\ ethash_calculate_light_cache_num_items 0 = Some 262139 /\
  Z.prime 262139.
Proof.
  assert (He : 0 <= 0 <= max_epoch) by (unfold max_epoch; lia).
  destruct (num_items_correct 0 He) as [(n & Hn & Hp & _) _].
  assert (Hv : ethash_calculate_light_cache_num_items 0 = Some 262139) by (vm_compute; reflexivity).
  split; [exact He|]. split; [exact Hv|].
  rewrite Hv in Hn. injection Hn as <-. exact Hp.
Defined.

(** ** Seeds and epochs *)

#[local] Opaque sponge keccak.

Lemma epoch_seed_wf n : hash256_wf (epoch_seed n).
Proof. destruct n; [split; [done|apply zeros_ok]|]. apply sponge_wf. lia. Qed.

Lemma epoch_seed_next {host : Host} n : keccak256_hash (epoch_seed n) = epoch_seed (S n).
Proof. apply keccak256_hash_sponge, epoch_seed_wf. Qed.

Lemma epoch_seed_next_Z {host : Host} e :
  0 <= e -> keccak256_hash (epoch_seed (Z.to_nat e)) = epoch_seed (Z.to_nat (e + 1)).
Proof. intros He. by rewrite epoch_seed_next, Z2Nat.inj_add, Nat.add_comm by lia. Qed.

Lemma seed_step_next {host : Host} n i : seed_step (epoch_seed n) i = epoch_seed (S n).
Proof. apply epoch_seed_next. Qed.

Lemma calculate_epoch_seed_spec {host : Host} e :
  ethash_calculate_epoch_seed e = epoch_seed (Z.to_nat e).
Proof.
  unfold ethash_calculate_epoch_seed. induction (Z.to_nat e) as [|n IH]; [done|].
  by rewrite seq_S, fold_left_app, IH, Nat.add_0_l; cbn [fold_left]; rewrite seed_step_next.
Qed.

Section FindEpoch.
Context {host : Host}.

(** The cached pair is an epoch and its seed. *)
Definition search_ok (c : epoch_search) : Prop :=
  0 <= cached_epoch_number c < int_max /\
  cached_seed c = epoch_seed (Z.to_nat (cached_epoch_number c)).

(** The 32-bit prefix by which the code tells seeds apart. *)
Definition seed_prefix (e : Z) : Z := first_word (epoch_seed (Z.to_nat e)).

Lemma find_loop_spec part :
  exists o, loop (find_step part) fuel32 (0, zero_hash 32) = inr o /\
    match o with
    | Some (i, s) =>
        0 <= i < num_tries /\ s = epoch_seed (Z.to_nat i) /\ seed_prefix i = part /\
        (forall j, 0 <= j < i -> seed_prefix j <> part)
    | None => forall j, 0 <= j < num_tries -> seed_prefix j <> part
    end.
Proof.
  apply (loop_total (find_step part) (fun p => 0 <= p.1 <= num_tries /\
      p.2 = epoch_seed (Z.to_nat p.1) /\ forall j, 0 <= j < p.1 -> seed_prefix j <> part)
    (fun p => num_tries - p.1 + 1)).
  - intros [i s] (Hi & _). simpl in *. lia.
  - intros [i s] (Hi & Hs & Hno). cbn [fst snd] in *. subst s. unfold find_step.
    destruct (Z.ltb_spec i num_tries); [|intros j Hj; apply Hno; lia].
    destruct (Z.eqb_spec (first_word (epoch_seed (Z.to_nat i))) part) as [|Hne]; [by auto with lia|].
    split; [|simpl; lia]. cbn [fst snd]. split; [lia|]. split; [apply epoch_seed_next_Z; lia|].
    intros j Hj. destruct (Z.eq_dec j i) as [->|]; [done|]. apply Hno. lia.
  - cbn [fst snd]. split; [unfold num_tries; lia|]. split; [done|]. intros. lia.
  - cbn [fst snd]. unfold num_tries, fuel32. lia.
Qed.

Lemma find_epoch_number_total seed c :
  search_ok c ->
  let e := cached_epoch_number c in
  exists r c', find_epoch_number seed c = Some (r, c') /\
   (r = -1 /\ c' = c /\
      (forall j, 0 <= j < num_tries \/ j = e \/ j = e + 1 -> seed_prefix j <> first_word seed) \/
    0 <= r /\ seed_prefix r = first_word seed /\
      (r = e \/ r = e + 1 \/
       r < num_tries /\ forall j, 0 <= j < r -> seed_prefix j <> first_word seed) /\
      c' = mk_epoch_search r (epoch_seed (Z.to_nat r))).
Proof.
  intros [He Hs] e. unfold find_epoch_number. fold e in He, Hs |- *. rewrite Hs.
  destruct (Z.eqb_spec (first_word (epoch_seed (Z.to_nat e))) (first_word seed)) as [H1|H1].
  { exists e, c. split; [done|]. right. split; [lia|]. split; [done|]. split; [auto|].
    destruct c; simpl in *. by subst. }
  rewrite epoch_seed_next_Z by lia.
  destruct (Z.eqb_spec (first_word (epoch_seed (Z.to_nat (e + 1)))) (first_word seed)) as [H2|H2].
  { rewrite int_of_Some by (unfold int_min; lia). simpl. eexists _, _. split; [done|].
    right. split; [lia|]. auto. }
  destruct (find_loop_spec (first_word seed)) as ([[i s]|] & -> & Ho).
  - destruct Ho as (Hi & -> & Hp & Hmin). eexists _, _. split; [done|]. right. auto 10 with lia.
  - eexists _, _. split; [done|]. left. split; [done|]. split; [done|].
    intros j [Hj|[->| ->]]; [by apply Ho|done|done].
Qed.

End FindEpoch.

(** Whatever the thread-local cache holds (an epoch and its seed), the
    search stops without overflow.  It answers -1, and leaves the cache alone,
    exactly when no epoch below 30000, nor the cached one or its successor, has
    a seed with the given 32-bit prefix; otherwise it answers an epoch whose
    seed has that prefix, the least one when the cache did not answer, and
    caches it with its seed. *)
Theorem find_epoch_number_correct (host : Host) (seed : list Z) (c : epoch_search) :
  search_ok c ->
  let e := cached_epoch_number c in
  exists r c', find_epoch_number seed c = Some (r, c') /\
   (r = -1 /\ c' = c /\
      (forall j, 0 <= j < num_tries \/ j = e \/ j = e + 1 -> seed_prefix j <> first_word seed) \/
    0 <= r /\ seed_prefix r = first_word seed /\
      (r = e \/ r = e + 1 \/
       r < num_tries /\ forall j, 0 <= j < r -> seed_prefix j <> first_word seed) /\
      c' = mk_epoch_search r (epoch_seed (Z.to_nat r))).
Proof. apply find_epoch_number_total. Qed.

Lemma find_epoch_number_correct_witness :
  exists r c', @find_epoch_number plain_host (zero_hash 32) epoch_search_init = Some (r, c') /\
    (r = -1 \/ 0 <= r).
Proof.
  assert (Hok : search_ok epoch_search_init)
    by (split; [unfold int_max; simpl; lia|reflexivity]).
  destruct (find_epoch_number_correct plain_host (zero_hash 32) epoch_search_init Hok)
    as (r & c' & Hr & [(H & _)|(H & _)]); exists r, c'; auto.
Defined.

Lemma find_epoch_number_seed {host : Host} (c : epoch_search) (n : Z) :
  search_ok c -> 0 <= n < num_tries ->
  (forall j, 0 <= j < n \/ j = cached_epoch_number c \/ j = cached_epoch_number c + 1 ->
     seed_prefix j = seed_prefix n -> j = n) ->
  exists c', find_epoch_number (ethash_calculate_epoch_seed n) c = Some (n, c') /\
    search_ok c' /\ cached_epoch_number c' = n.
Proof.
  intros Hok Hn Huniq. rewrite calculate_epoch_seed_spec.
  destruct (find_epoch_number_total (epoch_seed (Z.to_nat n)) c Hok)
    as (r & c' & -> & [(_ & _ & Hno)|(Hr & Hp & Hwhere & ->)]).
  { exfalso. by apply (Hno n); [auto|]. }
  change (first_word _) with (seed_prefix n) in Hp, Hwhere.
  assert (r = n) as ->.
  { destruct Hwhere as [->|[->|[Hlt Hmin]]]; [apply Huniq; auto..|].
    destruct (Z.lt_trichotomy r n) as [|[|]]; [apply Huniq; auto with lia|done|].
    exfalso. by apply (Hmin n); [lia|]. }
  eexists. split; [done|]. split; [|done]. split; [|done].
  unfold num_tries, int_max in *. simpl. lia.
Qed.

(** The seed of an epoch below 30000 gives that epoch back, as long as no
    earlier epoch, nor the cached one or its successor, shares its 32-bit
    prefix; the cache then holds that epoch, so that the next epoch is found
    in one hash. *)
Theorem find_epoch_number_finds (host : Host) (c : epoch_search) (n : Z) :
  search_ok c -> 0 <= n < num_tries ->
  (forall j, 0 <= j < n \/ j = cached_epoch_number c \/ j = cached_epoch_number c + 1 ->
     seed_prefix j = seed_prefix n -> j = n) ->
  exists c', find_epoch_number (ethash_calculate_epoch_seed n) c = Some (n, c') /\
    search_ok c' /\ cached_epoch_number c' = n.
Proof. apply find_epoch_number_seed. Qed.

Lemma find_epoch_number_finds_witness :
  exists c', @find_epoch_number plain_host (@ethash_calculate_epoch_seed plain_host 2) epoch_search_init
    = Some (2, c') /\ cached_epoch_number c' = 2.
Proof.
  assert (Hok : search_ok epoch_search_init)
    by (split; [unfold int_max; simpl; lia|reflexivity]).
  destruct (find_epoch_number_finds plain_host epoch_search_init 2 Hok ltac:(unfold num_tries; lia))
    as (c' & H1 & _ & H2); [|exists c'; auto].
  simpl cached_epoch_number. intros j Hj Heq.
  unfold seed_prefix in Heq. rewrite <-!(@calculate_epoch_seed_spec plain_host) in Heq.
  assert (Hcases : j = 0 \/ j = 1) by lia.
  destruct Hcases as [->| ->]; exfalso; revert Heq; vm_compute; discriminate.
Defined.

(** ** The light cache *)

Lemma first_word_le {host : Host} k s :
  length s = (4 * S k)%nat -> bytes_ok s -> le_uint32 (first_word s) = le_word (take 4 s).
Proof.
  intros Hl Hok. unfold first_word, words.
  replace (length s / 4)%nat with (S k) by (rewrite Hl, Nat.mul_comm, Nat.div_mul; lia).
  apply le_uint32_load; [rewrite length_take; lia|by apply Forall_take].
Qed.

Section XorWords.
Context {host : Host} (n : nat) (Hn : (0 < n)%nat).

Lemma load_lxor l1 l2 :
  bytes_ok l1 -> bytes_ok l2 -> length l1 = length l2 ->
  load (zip_with Z.lxor l1 l2) = load l1 .^ load l2.
Proof.
  intros H1 H2 Hl. unfold load. destruct host_order; [by apply le_word_zip_lxor|].
  rewrite reverse_zip_with by done.
  apply le_word_zip_lxor; [by apply Forall_reverse..|by rewrite !length_reverse].
Qed.

Lemma load_chunks_lxor k x y :
  length x = length y -> bytes_ok x -> bytes_ok y ->
  load <$> chunks n k (zip_with Z.lxor x y) =
  zip_with Z.lxor (load <$> chunks n k x) (load <$> chunks n k y).
Proof.
  revert x y. induction k as [|k IH]; intros x y Hl Hx Hy; csimpl; [done|].
  rewrite zip_with_take, zip_with_drop. f_equal.
  - apply load_lxor; [by apply Forall_take..|rewrite !length_take; lia].
  - apply IH; [rewrite !length_drop; lia|by apply Forall_drop..].
Qed.

Lemma zip_lxor_ok x y : bytes_ok x -> bytes_ok y -> bytes_ok (zip_with Z.lxor x y).
Proof.
  intros Hx. revert y. induction Hx as [|a x Ha Hx IH]; intros y Hy; [done|].
  destruct Hy; simpl; constructor; [by apply lxor_in_word|auto].
Qed.

(** Word by word or byte by byte, exclusive or is the same. *)
Lemma of_words_lxor k x y :
  length x = (n * k)%nat -> length y = (n * k)%nat -> bytes_ok x -> bytes_ok y ->
  of_words n (zip_with Z.lxor (words n x) (words n y)) = zip_with Z.lxor x y.
Proof.
  intros Hx Hy Hbx Hby. unfold words. rewrite Hx, Hy.
  rewrite <-load_chunks_lxor by congruence.
  replace (n * k)%nat with (length (zip_with Z.lxor x y)) by (rewrite length_zip_with; lia).
  apply (of_words_words n k); [done|rewrite length_zip_with; lia|by apply zip_lxor_ok].
Qed.
End XorWords.

Lemma bitwise_xor_bytes {host : Host} x y :
  hash512_wf x -> hash512_wf y -> bitwise_xor x y = zip_with Z.lxor x y.
Proof. intros [Hx ?] [Hy ?]. apply (of_words_lxor 8 ltac:(lia) 8); done. Qed.

Lemma sha3_512_wf x : hash512_wf (sha3_512 x).
Proof. apply sponge_wf. lia. Qed.

Lemma cache_chain_wf n item : hash512_wf item -> Forall hash512_wf (cache_chain n item).
Proof.
  revert item. induction n as [|n IH]; intros item Hi; simpl; constructor; [done|].
  apply IH, sha3_512_wf.
Qed.

Lemma length_cache_chain n item : length (cache_chain n item) = n.
Proof. revert item. induction n; intros; simpl; auto. Qed.

Section LightCache.
Context {host : Host} (hash_fn : list Z -> list Z).
Context (Hhash : forall x, bytes_ok x -> hash_fn x = sha3_512 x).

Lemma chain_fold m pre item :
  bytes_ok item ->
  exists last, mfold (chain_step hash_fn) (seq (length pre) m)
    (item, pre ++ replicate m (zero_hash 64)) =
  Some (last, pre ++ cache_chain m (sha3_512 item)).
Proof.
  revert pre item. induction m as [|m IH]; intros pre item Hok; [by exists item|].
  assert (Hstep : chain_step hash_fn (item, pre ++ replicate (S m) (zero_hash 64)) (length pre) =
    Some (sha3_512 item, pre ++ sha3_512 item :: replicate m (zero_hash 64))).
  { unfold chain_step. cbn [fst snd].
    rewrite array_set_insert by (rewrite length_app, length_replicate; lia).
    rewrite Nat2Z.id, Hhash by done. cbn [mbind option_bind replicate].
    by rewrite insert_app_r_alt, Nat.sub_diag. }
  cbn [seq mfold]. rewrite Hstep. cbn [mbind option_bind].
  replace (S (length pre)) with (length (pre ++ [sha3_512 item]))
    by (rewrite length_app; simpl; lia).
  replace (pre ++ sha3_512 item :: replicate m (zero_hash 64))
    with ((pre ++ [sha3_512 item]) ++ replicate m (zero_hash 64)) by (by rewrite <-app_assoc).
  destruct (IH (pre ++ [sha3_512 item]) (sha3_512 item)) as [last ->]; [apply sha3_512_wf|].
  exists last. by rewrite <-app_assoc.
Qed.

(** A cache of [n] well-formed rows. *)
Definition cache_ok (n : nat) (o : list (list Z)) : Prop := length o = n /\ Forall hash512_wf o.

Lemma cache_row n o i : cache_ok n o -> 0 <= i < Z.of_nat n ->
  array_get o i = Some (nth (Z.to_nat i) o []) /\ hash512_wf (nth (Z.to_nat i) o []).
Proof.
  intros [Hl Hwf] Hi. split; [by apply array_get_nth; rewrite Hl|].
  apply Forall_nth_lt; [done|lia].
Qed.

Lemma cache_update_ok n o i : cache_ok n o -> cache_ok n (cache_update n o i).
Proof.
  intros [Hl Hwf]. unfold cache_update. split; [by rewrite length_insert|].
  apply Forall_insert; [done|apply sha3_512_wf].
Qed.

Lemma round_step_spec n o i :
  0 < Z.of_nat n <= 2 ^ 30 -> (i < n)%nat -> cache_ok n o ->
  round_step hash_fn (Z.of_nat n) o i = Some (cache_update n o i).
Proof.
  intros Hn Hi Ho. unfold round_step.
  rewrite (wrap_id 32 (Z.of_nat n)) by (unfold in_word; lia).
  destruct (Z.eqb_spec (Z.of_nat n) 0); [lia|].
  destruct (cache_row n o (Z.of_nat i) Ho ltac:(lia)) as [-> Hrow]. rewrite Nat2Z.id in Hrow.
  cbn [mbind option_bind]. rewrite int_of_Some by (unfold int_min, int_max; lia).
  cbn [mbind option_bind]. rewrite wrap_id by (unfold in_word; lia).
  rewrite Nat2Z.id, (first_word_le 15) by apply Hrow.
  set (v := le_word _ mod _). assert (Hv : 0 <= v < Z.of_nat n) by (apply Z.mod_pos_bound; lia).
  set (w := (Z.of_nat n + (Z.of_nat i - 1)) mod _).
  assert (Hw : 0 <= w < Z.of_nat n) by (apply Z.mod_pos_bound; lia).
  destruct (cache_row n o v Ho Hv) as [-> Hv']. destruct (cache_row n o w Ho Hw) as [-> Hw'].
  cbn [mbind option_bind]. destruct Ho as [Hl Hwf].
  rewrite array_set_insert, Nat2Z.id by lia.
  rewrite bitwise_xor_bytes by done. rewrite Hhash by (apply zip_lxor_ok; [apply Hv'|apply Hw']).
  unfold cache_update. fold v. do 5 f_equal. subst w.
  replace (Z.of_nat n + (Z.of_nat i - 1)) with (Z.of_nat (i + n - 1)) by lia.
  by rewrite <-Nat2Z.inj_mod, Nat2Z.id.
Qed.

Lemma generic_build_light_cache_spec n seed :
  0 < Z.of_nat n <= 2 ^ 30 -> bytes_ok seed ->
  generic_build_light_cache hash_fn (replicate n (zero_hash 64)) (Z.of_nat n) seed =
    Some (mkcache n seed) /\ cache_ok n (mkcache n seed).
Proof.
  intros Hn Hseed. destruct n as [|m]; [lia|]. unfold generic_build_light_cache.
  rewrite array_set_insert by (rewrite length_replicate; lia).
  cbn [mbind option_bind replicate Z.to_nat insert list_insert].
  rewrite Nat2Z.id, Nat.sub_1_r, Nat.pred_succ, Hhash by done.
  destruct (chain_fold m [sha3_512 seed] (sha3_512 seed)) as [last Hchain]; [apply sha3_512_wf|].
  cbn [app length] in Hchain.
  change (<[Z.to_nat 0 := sha3_512 seed]> (zero_hash 64 :: replicate m (zero_hash 64)))
    with (sha3_512 seed :: replicate m (zero_hash 64)).
  rewrite Hchain. cbn [mbind option_bind snd].
  apply (mfold_fold (cache_ok (S m))).
  - split; [by simpl; rewrite length_cache_chain|].
    apply (cache_chain_wf (S m)), sha3_512_wf.
  - intros o q _ Ho. apply (mfold_fold (cache_ok (S m))); [done|].
    intros o' i Hi Ho'. apply list_elem_of_In, in_seq in Hi. split.
    + apply round_step_spec; [done|lia|done].
    + by apply cache_update_ok.
Qed.
End LightCache.

(** C33: on every host, [build_light_cache] on zeroed memory of [n] rows
    (1 to 2^30) stays within the array, never overflows, and leaves exactly the
    cache of the specification, [n] well-formed 64-byte rows. *)
Theorem build_light_cache_correct (host : Host) (n : nat) (seed : list Z) :
  0 < Z.of_nat n <= 2 ^ 30 -> hash256_wf seed ->
  build_light_cache (replicate n (zero_hash 64)) (Z.of_nat n) seed = Some (mkcache n seed) /\
  cache_ok n (mkcache n seed).
Proof.
  intros Hn [_ Hseed]. apply generic_build_light_cache_spec; [|done|done].
  intros x. apply ethash_keccak512_sponge.
Qed.

Lemma build_light_cache_correct_witness :
  let host := mk_host BigEndian false false in
  build_light_cache (replicate 3 (zero_hash 64)) 3 (zero_hash 32) =
    Some (mkcache 3 (zero_hash 32)).
Proof.
  intros host. assert (Hseed : hash256_wf (zero_hash 32)) by (split; [reflexivity|apply zeros_ok]).
  exact (proj1 (build_light_cache_correct host 3 (zero_hash 32) ltac:(simpl; lia) Hseed)).
Defined.

(** ** Contexts *)

(** What the hash functions need of a context. *)
Definition context_ok (c : epoch_context) : Prop :=
  0 < light_cache_num_items c <= 2 ^ 30 /\
  cache_ok (Z.to_nat (light_cache_num_items c)) (light_cache c) /\
  0 < full_dataset_num_items c <= int_max.

(** The context the specification asks for. *)
Definition spec_context (e ln fn : Z) : epoch_context :=
  mk_epoch_context e ln (mkcache (Z.to_nat ln) (epoch_seed (Z.to_nat e))) (64 + 64 * ln) fn.

Lemma epoch_ecip1099_range e :
  0 <= e <= 2 * max_epoch + 1 -> 0 <= epoch_ecip1099 e <= max_epoch.
Proof.
  intros He. unfold epoch_ecip1099, ecip_1099_activation_epoch, max_epoch in *.
  destruct (Z.leb_spec 390 e); [|lia]. rewrite Z.quot_div_nonneg by lia.
  split; [apply Z.div_pos; lia|]. apply Z.lt_succ_r, Z.div_lt_upper_bound; lia.
Qed.

Lemma create_epoch_context_spec {host : Host} (calloc : allocator) e full :
  0 <= e <= 2 * max_epoch + 1 ->
  exists ln fn,
    ethash_calculate_light_cache_num_items (epoch_ecip1099 e) = Some ln /\
    ethash_calculate_full_dataset_num_items (epoch_ecip1099 e) = Some fn /\
    context_ok (spec_context e ln fn) /\
    generic_create_epoch_context build_light_cache calloc e full =
      Some (if calloc (64 + 64 * ln + if full then 128 * fn else 0) then
        Some (mk_epoch_context_full (spec_context e ln fn)
          (if full then Some (replicate (Z.to_nat fn) (zero_hash 128)) else None))
      else None).
Proof.
  intros He. pose proof (epoch_ecip1099_range e He) as He'.
  destruct (light_num_items_spec _ He') as (ln & Hln & Hpl & Hbl & _).
  destruct (full_num_items_spec _ He') as (fn & Hfn & Hpf & Hbf & _).
  pose proof (Z.prime_ge_2 _ Hpl). pose proof (Z.prime_ge_2 _ Hpf).
  unfold max_epoch in He'.
  assert (Hlr : 0 < ln <= 2 ^ 30) by lia. assert (Hfr : 0 < fn <= int_max) by (unfold int_max; lia).
  destruct (generic_build_light_cache_spec keccak512 (fun x => ethash_keccak512_sponge x)
    (Z.to_nat ln) (epoch_seed (Z.to_nat e))) as [Hbuild Hok]; [lia|apply epoch_seed_wf|].
  rewrite Z2Nat.id in Hbuild by lia. fold build_light_cache in Hbuild.
  exists ln, fn. split; [done|]. split; [done|]. split; [done|].
  unfold generic_create_epoch_context. rewrite Hln, Hfn. cbn [mbind option_bind].
  unfold get_light_cache_size, light_cache_item_size.
  rewrite (wrap_id 64 ln), (wrap_id 64 (ln * 64)) by (unfold in_word; lia).
  replace (u64 (u64 (64 + ln * 64) + if full then u64 (u64 fn * 128) else 0))
    with (64 + 64 * ln + if full then 128 * fn else 0); cycle 1.
  { unfold int_max in *. rewrite (wrap_id 64 (64 + ln * 64)) by (unfold in_word; lia).
    destruct full; [|rewrite wrap_id by (unfold in_word; lia); lia].
    rewrite (wrap_id 64 fn), (wrap_id 64 (fn * 128)), wrap_id by (unfold in_word; lia). lia. }
  destruct (calloc _); [|done]. cbn [negb]. rewrite calculate_epoch_seed_spec.
  change (build_light_cache (replicate (Z.to_nat ln) (zero_hash 64)) ln (epoch_seed (Z.to_nat e)))
    with (generic_build_light_cache keccak512 (replicate (Z.to_nat ln) (zero_hash 64)) ln
            (epoch_seed (Z.to_nat e))).
  rewrite Hbuild. cbn [mbind option_bind]. unfold spec_context. by rewrite (Z.mul_comm ln 64).
Qed.

(** Creating the context of any epoch up to 65279 is free of undefined
    behaviour; it gives null exactly when the allocation of the context, the
    cache and (for a full context) the dataset fails, and otherwise the context
    with the cache of the specification for the row counts of the epoch, halved
    from epoch 390 on, and a dataset marked as not generated. *)
Theorem create_epoch_context_correct (host : Host) (calloc : allocator) (e : Z) :
  0 <= e <= 2 * max_epoch + 1 ->
  exists ln fn,
    ethash_calculate_light_cache_num_items (if 390 <=? e then e / 2 else e) = Some ln /\
    ethash_calculate_full_dataset_num_items (if 390 <=? e then e / 2 else e) = Some fn /\
    context_ok (spec_context e ln fn) /\
    ethash_create_epoch_context calloc e =
      Some (if calloc (64 + 64 * ln + 0) then Some (spec_context e ln fn) else None) /\
    ethash_create_epoch_context_full calloc e =
      Some (if calloc (64 + 64 * ln + 128 * fn) then
              Some (mk_epoch_context_full (spec_context e ln fn)
                      (Some (replicate (Z.to_nat fn) (zero_hash 128))))
            else None).
Proof.
  intros He. rewrite <-(Z.quot_div_nonneg e 2) by lia. fold (epoch_ecip1099 e).
  destruct (create_epoch_context_spec calloc e false He) as (ln & fn & Hln & Hfn & Hok & Hlight).
  destruct (create_epoch_context_spec calloc e true He) as (ln' & fn' & Hln' & Hfn' & _ & Hfull).
  simplify_eq. exists ln, fn. split; [done|]. split; [done|]. split; [done|]. split; [|done].
  unfold ethash_create_epoch_context. rewrite Hlight. by destruct (calloc _).
Qed.

Lemma create_epoch_context_correct_witness :
  0 <= 500 <= 2 * max_epoch + 1 /\
  exists ln fn, @ethash_create_epoch_context plain_host (fun _ => true) 500 =
    Some (Some (spec_context 500 ln fn)).
Proof.
  assert (He : 0 <= 500 <= 2 * max_epoch + 1) by (unfold max_epoch; lia).
  split; [exact He|].
  destruct (create_epoch_context_correct plain_host (fun _ => true) 500 He)
    as (ln & fn & _ & _ & _ & H & _).
  exists ln, fn. exact H.
Defined.
