(* ===== verification/EthashHash.v ===== *)
(** * Ethash: dataset items, hashing, verification and search

    Models the rest of [ethash/lib/ethash/ethash.cpp] and the comparisons of
    [ethash-internal.hpp].  The two ways of looking a dataset row up (computed
    from the light cache, or generated lazily in the full dataset) are
    instances of one interface, [DatasetLookup]; the main loop is proved against
    the interface.  [None] stands for undefined behaviour, as in [Ethash.v]. *)

From stdpp Require Import base numbers list.
From Stdlib Require Import ZArith Lia Bool.
From S2P Require Import Prelude Words Keccak EthashSpec Ethash.

Local Open Scope Z_scope.
Local Open Scope word_scope.

(** ** Comparisons (ethash-internal.hpp) *)

Section Compare.
Context {host : Host}.

Fixpoint less_or_equal_words (a b : list Z) : bool :=
  match a, b with
  | x :: a, y :: b =>
      if be_uint64 y <? be_uint64 x then false
      else if be_uint64 x <? be_uint64 y then true
      else less_or_equal_words a b
  | _, _ => true
  end.

Definition is_less_or_equal (a b : list Z) : bool :=
  less_or_equal_words (word64s a) (word64s b).

(** [memcmp(a.bytes, b.bytes, sizeof(a)) == 0]. *)
Definition is_equal (a b : list Z) : bool := bool_decide (a = b).
End Compare.

(** ** Dataset items *)

(** [item_state], with the cache pointer as the array it points to. *)
Record item_state := mk_item_state {
  is_cache : list (list Z);
  is_num_cache_items : Z;
  is_seed : Z;
  is_mix : list Z
}.

Record result := mk_result { final_hash : list Z; mix_hash : list Z }.

Record search_result := mk_search_result {
  solution_found : bool;
  sr_nonce : Z;
  sr_final_hash : list Z;
  sr_mix_hash : list Z
}.

(** [search_result() = default] and the constructor from a result. *)
Definition search_result_none : search_result :=
  mk_search_result false 0 (zero_hash 32) (zero_hash 32).
Definition search_result_found (res : result) (n : Z) : search_result :=
  mk_search_result true n (final_hash res) (mix_hash res).

Section Code.
Context {host : Host}.

(** The constructor. *)
Definition item_state_new (context : epoch_context) (index : Z) : option item_state :=
  let cache := light_cache context in
  let num_cache_items := light_cache_num_items context in
  let seed := u32 index in
  if num_cache_items =? 0 then None else
  mix ← array_get cache (Z.rem index num_cache_items);
  let mix := of_word32s (alter (fun w => w .^ le_uint32 seed) 0%nat (word32s mix)) in
  Some (mk_item_state cache num_cache_items seed (le_uint32s (keccak512_hash mix))).

Definition update (s : item_state) (round : Z) : option item_state :=
  let num_words := 16 in
  let t := Bits.fnv1 (is_seed s .^ round) (nth (Z.to_nat (round mod num_words)) (word32s (is_mix s)) 0) in
  if is_num_cache_items s =? 0 then None else
  let parent_index := Z.rem t (is_num_cache_items s) in
  row ← array_get (is_cache s) parent_index;
  Some (mk_item_state (is_cache s) (is_num_cache_items s) (is_seed s)
    (fnv1_512 (is_mix s) (le_uint32s row))).

Definition item_final (s : item_state) : list Z := keccak512_hash (le_uint32s (is_mix s)).

Definition calculate_dataset_item_512 (context : epoch_context) (index : Z) : option (list Z) :=
  item0 ← item_state_new context index;
  item0 ← mfold (fun s j => update s (Z.of_nat j)) (seq 0 full_dataset_item_parents) item0;
  Some (item_final item0).

(** The two items are updated in turns. *)
Definition update2 (p : item_state * item_state) (j : nat) : option (item_state * item_state) :=
  item0 ← update p.1 (Z.of_nat j);
  item1 ← update p.2 (Z.of_nat j);
  Some (item0, item1).

Definition calculate_dataset_item_1024 (context : epoch_context) (index : Z) : option (list Z) :=
  item0 ← item_state_new context (index * 2);
  item1 ← item_state_new context (index * 2 + 1);
  p ← mfold update2 (seq 0 full_dataset_item_parents) (item0, item1);
  Some (item_final p.1 ++ item_final p.2).

Definition update4 (p : (item_state * item_state) * (item_state * item_state)) (j : nat)
  : option ((item_state * item_state) * (item_state * item_state)) :=
  p01 ← update2 p.1 j;
  p23 ← update2 p.2 j;
  Some (p01, p23).

Definition calculate_dataset_item_2048 (context : epoch_context) (index : Z) : option (list Z) :=
  item0 ← item_state_new context (index * 4);
  item1 ← item_state_new context (index * 4 + 1);
  item2 ← item_state_new context (index * 4 + 2);
  item3 ← item_state_new context (index * 4 + 3);
  p ← mfold update4 (seq 0 full_dataset_item_parents) ((item0, item1), (item2, item3));
  Some (item_final p.1.1 ++ item_final p.1.2 ++ item_final p.2.1 ++ item_final p.2.2).

(** ** Hashing *)

Definition hash_seed (header_hash : list Z) (nonce : Z) : list Z :=
  keccak512 (header_hash ++ store 8 (le_uint64 nonce)).

Definition hash_final (seed mix_hash : list Z) : list Z := keccak256 (seed ++ mix_hash).

(** The lookup function may change memory, the state [S]. *)
Definition lookup_fn (S : Type) : Type := S -> Z -> option (list Z * S).

Definition kernel_step {S} (index_limit seed_init : Z) (lookup : lookup_fn S)
    (st : list Z * S) (i : nat) : option (list Z * S) :=
  let '(mix, s) := st in
  let num_words := 32%nat in
  let p := Bits.fnv1 (Z.of_nat i .^ seed_init) (nth (i mod num_words) (word32s mix) 0)
             mod index_limit in
  '(newdata, s) ← lookup s p;
  Some (of_word32s (zip_with Bits.fnv1 (word32s mix) (word32s (le_uint32s newdata))), s).

(** The words of [mix_hash]. *)
Definition compress_mix (mix : list Z) : list Z :=
  (fun i =>
     let h1 := Bits.fnv1 (nth (4 * i) (word32s mix) 0) (nth (4 * i + 1) (word32s mix) 0) in
     let h2 := Bits.fnv1 h1 (nth (4 * i + 2) (word32s mix) 0) in
     Bits.fnv1 h2 (nth (4 * i + 3) (word32s mix) 0)) <$> seq 0 8.

Definition hash_kernel {S} (context : epoch_context) (seed : list Z) (lookup : lookup_fn S) (s : S)
  : option (list Z * S) :=
  let index_limit := u32 (full_dataset_num_items context) in
  let seed_init := le_uint32 (first_word seed) in
  let mix := le_uint32s seed ++ le_uint32s seed in
  if index_limit =? 0 then None else
  '(mix, s) ← mfold (kernel_step index_limit seed_init lookup) (seq 0 num_dataset_accesses) (mix, s);
  Some (le_uint32s (of_word32s (compress_mix mix)), s).

(** [calculate_dataset_item_1024] as a lookup function: it changes nothing. *)
Definition light_lookup (context : epoch_context) : lookup_fn unit :=
  fun _ index => item ← calculate_dataset_item_1024 context index; Some (item, tt).

Definition ethash_hash (context : epoch_context) (header_hash : list Z) (nonce : Z)
  : option result :=
  let seed := hash_seed header_hash nonce in
  '(mix_hash, _) ← hash_kernel context seed (light_lookup context) tt;
  Some (mk_result (hash_final seed mix_hash) mix_hash).

(** [lazy_lookup]: the state is the memory of the full dataset. *)
Definition lazy_lookup (context : epoch_context) : lookup_fn (list (list Z)) :=
  fun full_dataset index =>
    item ← array_get full_dataset index;
    if nth 0 (word64s item) 0 =? 0 then
      item ← calculate_dataset_item_1024 context index;
      full_dataset ← array_set index item full_dataset;
      Some (item, full_dataset)
    else Some (item, full_dataset).

(** [hash] on a full context: the result and the context with its dataset. *)
Definition hash_full (context : epoch_context_full) (header_hash : list Z) (nonce : Z)
  : option (result * epoch_context_full) :=
  let seed := hash_seed header_hash nonce in
  ds ← full_dataset context;
  '(mix_hash, ds) ← hash_kernel (base context) seed (lazy_lookup (base context)) ds;
  Some (mk_result (hash_final seed mix_hash) mix_hash,
        mk_epoch_context_full (base context) (Some ds)).

(** ** Verification *)

Definition ethash_verify_final_hash (header_hash mix_hash : list Z) (nonce : Z) (boundary : list Z)
  : bool :=
  let seed := hash_seed header_hash nonce in
  is_less_or_equal (hash_final seed mix_hash) boundary.

Definition ethash_verify (context : epoch_context) (header_hash mix_hash : list Z) (nonce : Z)
    (boundary : list Z) : option bool :=
  let seed := hash_seed header_hash nonce in
  if negb (is_less_or_equal (hash_final seed mix_hash) boundary) then Some false
  else
    '(expected_mix_hash, _) ← hash_kernel context seed (light_lookup context) tt;
    Some (is_equal expected_mix_hash mix_hash).

(** ** Search *)

Definition search_light_step (context : epoch_context) (header_hash boundary : list Z)
    (end_nonce nonce : Z) : Z + option search_result :=
  if nonce <? end_nonce then
    match ethash_hash context header_hash nonce with
    | None => inr None
    | Some r =>
        if is_less_or_equal (final_hash r) boundary then inr (Some (search_result_found r nonce))
        else inl (u64 (nonce + 1))
    end
  else inr (Some search_result_none).

Definition search_light (context : epoch_context) (header_hash boundary : list Z)
    (start_nonce iterations : Z) : option search_result :=
  let end_nonce := u64 (start_nonce + iterations) in
  match loop (search_light_step context header_hash boundary end_nonce) fuel64 start_nonce with
  | inr r => r
  | inl _ => None
  end.

Definition search_step (header_hash boundary : list Z) (end_nonce : Z)
    (st : Z * epoch_context_full)
  : (Z * epoch_context_full) + option (search_result * epoch_context_full) :=
  let '(nonce, context) := st in
  if nonce <? end_nonce then
    match hash_full context header_hash nonce with
    | None => inr None
    | Some (r, context) =>
        if is_less_or_equal (final_hash r) boundary then
          inr (Some (search_result_found r nonce, context))
        else inl (u64 (nonce + 1), context)
    end
  else inr (Some (search_result_none, context)).

Definition search (context : epoch_context_full) (header_hash boundary : list Z)
    (start_nonce iterations : Z) : option (search_result * epoch_context_full) :=
  let end_nonce := u64 (start_nonce + iterations) in
  match loop (search_step header_hash boundary end_nonce) fuel64 (start_nonce, context) with
  | inr r => r
  | inl _ => None
  end.

End Code.

(** ** Word views of a hash *)

#[local] Opaque sponge keccak.

Lemma le_bytes_lxor n a b :
  in_word (8 * Z.of_nat n) a -> in_word (8 * Z.of_nat n) b ->
  le_bytes n (a .^ b) = zip_with Z.lxor (le_bytes n a) (le_bytes n b).
Proof.
  intros Ha Hb. rewrite <-(le_word_bytes n a) at 1 by done. rewrite <-(le_word_bytes n b) at 1 by done.
  rewrite <-le_word_zip_lxor by (apply le_bytes_ok || by rewrite !length_le_bytes).
  apply le_bytes_word; [apply zip_lxor_ok; apply le_bytes_ok|].
  rewrite length_zip_with, !length_le_bytes. lia.
Qed.

Section Views.
Context {host : Host}.

Lemma le_uint32_lxor a b :
  in_word 32 a -> in_word 32 b -> le_uint32 (a .^ b) = le_uint32 a .^ le_uint32 b.
Proof.
  intros Ha Hb. unfold le_uint32. destruct host_order; [done|]. unfold bswap32.
  rewrite (le_bytes_lxor 4) by done. rewrite reverse_zip_with by by rewrite !length_le_bytes.
  apply le_word_zip_lxor; [apply Forall_reverse, le_bytes_ok..|].
  by rewrite !length_reverse, !length_le_bytes.
Qed.

Lemma le_uint32_store x : in_word 32 x -> store 4 (le_uint32 x) = le_bytes 4 x.
Proof.
  intros Hx. unfold store, le_uint32. destruct host_order; [done|].
  unfold bswap32. rewrite le_bytes_word; [apply reverse_involutive| |].
  - apply Forall_reverse, le_bytes_ok.
  - by rewrite length_reverse, length_le_bytes.
Qed.

Lemma of_word32s_le ws :
  Forall (in_word 32) ws -> of_word32s (le_uint32 <$> ws) = of_le_words 4 ws.
Proof.
  intros Hws. unfold of_words. f_equal. rewrite <-list_fmap_compose.
  apply list_fmap_ext. intros i x Hx. simpl.
  rewrite le_uint32_store; [done|]. exact (Forall_lookup_1 _ _ _ _ Hws Hx).
Qed.

(** The words of a hash are its little-endian words, converted to the host. *)
Lemma word32s_le k h :
  length h = (4 * k)%nat -> bytes_ok h -> word32s h = le_uint32 <$> le_words 4 h.
Proof.
  intros Hl Hok. unfold words. rewrite <-list_fmap_compose. apply list_fmap_ext.
  intros i c Hc. rewrite Hl, Nat.mul_comm, Nat.div_mul in Hc by lia.
  destruct (chunk_wf 4 k h i c Hl Hok Hc) as [Hlc Hokc]. simpl.
  unfold load at 2, le_uint32. simpl. unfold load. destruct host_order; [done|].
  unfold bswap32. by rewrite le_bytes_word.
Qed.

Lemma le_uint32s_bytes k h :
  length h = (4 * k)%nat -> bytes_ok h -> le_uint32s h = of_le_words 4 (word32s h).
Proof.
  intros Hl Hok. assert (Hw : Forall (in_word 32) (word32s h))
    by (apply (words_in_word 4 k); [lia|done..]).
  rewrite <-of_word32s_le by done. unfold le_uint32s, le_uint32.
  destruct host_order; [|done]. rewrite list_fmap_id.
  symmetry. by apply (of_words_words 4 k); [lia|..].
Qed.

Lemma length_word32s k h : length h = (4 * k)%nat -> length (word32s h) = k.
Proof. intros Hl. by rewrite length_words, Hl, Nat.mul_comm, Nat.div_mul by lia. Qed.

Lemma length_le_uint32s k h :
  length h = (4 * k)%nat -> bytes_ok h ->
  length (le_uint32s h) = (4 * k)%nat /\ bytes_ok (le_uint32s h).
Proof.
  intros Hl Hok. rewrite (le_uint32s_bytes k) by done. split; [|apply of_words_ok].
  by rewrite length_of_words, (length_word32s k).
Qed.
End Views.

Lemma fnv_fnv1 a b : in_word 32 b -> fnv a b = Bits.fnv1 a b.
Proof.
  intros Hb. unfold fnv, Bits.fnv1, Bits.fnv_prime.
  apply (word_ext 32); [lia|by apply wrap_in_word|auto with words|].
  intros i Hi. rewrite Z.mod_pow2_bits_low, !Z.lxor_spec by lia.
  unfold wrap. by rewrite Z.mod_pow2_bits_low by lia.
Qed.

Lemma zip_fnv u v : Forall (in_word 32) v -> zip_with Bits.fnv1 u v = zip_with fnv u v.
Proof.
  intros Hv. revert u. induction Hv as [|b v Hb Hv IH]; intros [|a u]; try done.
  simpl. by rewrite IH, fnv_fnv1.
Qed.

Lemma zip_fnv_in_word u v : Forall (in_word 32) v -> Forall (in_word 32) (zip_with Bits.fnv1 u v).
Proof.
  intros Hv. revert u. induction Hv as [|b v Hb Hv IH]; intros [|a u]; simpl; try done.
  constructor; [by apply Bits.fnv1_in_word|done].
Qed.

(** ** Dataset items *)

Section Items.
Context {host : Host} (c : epoch_context) (Hc : context_ok c).

(** The state of an item whose mix, read as words, is [ws]. *)
Definition item_rel (i : Z) (it : item_state) (ws : list Z) : Prop :=
  is_cache it = light_cache c /\ is_num_cache_items it = light_cache_num_items c /\
  is_seed it = i /\ hash512_wf (is_mix it) /\ word32s (is_mix it) = ws.

Lemma cache_size : Z.of_nat (length (light_cache c)) = light_cache_num_items c.
Proof. destruct Hc as (Hn & [Hl _] & _). rewrite Hl. lia. Qed.

Lemma cache_lookup i :
  0 <= i ->
  let row := nth (Z.to_nat (i mod Z.of_nat (length (light_cache c)))) (light_cache c) [] in
  array_get (light_cache c) (Z.rem i (light_cache_num_items c)) = Some row /\ hash512_wf row.
Proof.
  intros Hi. destruct Hc as (Hn & Hok & _). rewrite cache_size, Z.rem_mod_nonneg by lia.
  apply (cache_row _ _ _ Hok). rewrite Z2Nat.id by lia. apply Z.mod_pos_bound. lia.
Qed.

Lemma num_cache_items_nonzero : (light_cache_num_items c =? 0) = false.
Proof. apply Z.eqb_neq. destruct Hc. lia. Qed.

(** The words of a row with its first word xored by the item index. *)
Lemma first_word_xored row i :
  hash512_wf row -> in_word 32 i ->
  of_word32s (alter (fun w => w .^ le_uint32 i) 0%nat (word32s row)) =
  of_le_words 4 (alter (fun w => w .^ i) 0%nat (le_words 4 row)).
Proof.
  intros [Hl Hok] Hi. rewrite (word32s_le 16) by done.
  assert (Hw : Forall (in_word 32) (le_words 4 row))
    by (apply (words_in_word (host := plain_host) 4 16); [lia|done..]).
  destruct (le_words 4 row) as [|w ws]; [done|]. inversion_clear Hw. csimpl.
  rewrite <-le_uint32_lxor by done.
  change (le_uint32 (w .^ i) :: (le_uint32 <$> ws)) with (le_uint32 <$> (w .^ i :: ws)).
  apply of_word32s_le. constructor; [by apply lxor_in_word|done].
Qed.

Lemma item_state_new_spec i :
  0 <= i < 2 ^ 32 ->
  exists it, item_state_new c i = Some it /\ item_rel i it (item_seed (light_cache c) i).
Proof.
  intros Hi. unfold item_state_new. rewrite num_cache_items_nonzero, (wrap_id 32) by done.
  destruct (cache_lookup i ltac:(lia)) as [-> Hrow]. cbn [mbind option_bind].
  eexists. split; [done|]. unfold item_rel. cbn [is_cache is_num_cache_items is_seed is_mix].
  rewrite first_word_xored by done. set (m := of_le_words _ _).
  assert (Hm : hash512_wf m).
  { split; [|apply of_words_ok]. subst m.
    rewrite length_of_words, length_alter, (length_word32s 16) by apply Hrow. lia. }
  rewrite keccak512_hash_sponge by done. fold (sha3_512 m).
  destruct (sha3_512_wf m) as [Hl Hok].
  split; [done|]. split; [done|]. split; [done|]. split.
  - by apply (length_le_uint32s 16).
  - by apply (words_le_uint32s 16).
Qed.

Lemma fnv1_512_spec u v :
  hash512_wf u -> hash512_wf v ->
  hash512_wf (fnv1_512 u (le_uint32s v)) /\
  word32s (fnv1_512 u (le_uint32s v)) = zip_with fnv (word32s u) (le_words 4 v).
Proof.
  intros [Hu Hu'] [Hv Hv']. unfold fnv1_512. rewrite (words_le_uint32s 16) by done.
  assert (Hw : Forall (in_word 32) (le_words 4 v))
    by (apply (words_in_word (host := plain_host) 4 16); [lia|done..]).
  rewrite <-zip_fnv by done. split; [split; [|apply of_words_ok]|].
  - rewrite length_of_words, length_zip_with, !(length_word32s 16) by done. lia.
  - apply words_of_words; [lia|]. by apply zip_fnv_in_word.
Qed.

Lemma nth_in_word ws j : Forall (in_word 32) ws -> in_word 32 (nth j ws 0).
Proof.
  intros Hw. destruct (decide (j < length ws)%nat); [by apply Forall_nth_lt|].
  rewrite nth_overflow by lia. by apply in_word_0.
Qed.

Lemma hash_words_in_word n h : length h = (4 * n)%nat -> bytes_ok h -> Forall (in_word 32) (word32s h).
Proof. intros. apply (words_in_word 4 n); [lia|done..]. Qed.

Lemma update_spec i it ws j :
  item_rel i it ws ->
  exists it', update it (Z.of_nat j) = Some it' /\
    item_rel i it' (item_round (light_cache c) i ws j).
Proof.
  intros (H1 & H2 & H3 & Hwf & <-). unfold update.
  rewrite H1, H2, H3, num_cache_items_nonzero.
  change 16 with (Z.of_nat 16). rewrite <-(Nat2Z.inj_mod j 16), Nat2Z.id.
  pose proof (hash_words_in_word 16 _ (proj1 Hwf) (proj2 Hwf)) as Hw.
  rewrite <-fnv_fnv1 by by apply nth_in_word.
  set (t := fnv _ _). assert (Ht : 0 <= t) by (apply Z.mod_pos_bound; lia).
  destruct (cache_lookup t Ht) as [-> Hrow]. cbn [mbind option_bind].
  eexists. split; [done|]. unfold item_rel. cbn [is_cache is_num_cache_items is_seed is_mix].
  destruct (fnv1_512_spec (is_mix it) _ Hwf Hrow). auto.
Qed.

Lemma item_final_spec i it ws :
  item_rel i it ws -> item_final it = sha3_512 (of_le_words 4 ws).
Proof.
  intros (_ & _ & _ & [Hl Hok] & <-). unfold item_final.
  rewrite (le_uint32s_bytes 16) by done. apply keccak512_hash_sponge.
  split; [by rewrite length_of_words, (length_word32s 16)|apply of_words_ok].
Qed.

Lemma calculate_dataset_item_512_spec i :
  0 <= i < 2 ^ 32 -> calculate_dataset_item_512 c i = Some (calc_dataset_item (light_cache c) i).
Proof.
  intros Hi. unfold calculate_dataset_item_512.
  destruct (item_state_new_spec i Hi) as (it & -> & Hit). cbn [mbind option_bind].
  destruct (mfold_rel (item_rel i) (fun s j => update s (Z.of_nat j)) (item_round (light_cache c) i)
    (seq 0 full_dataset_item_parents) it _ Hit) as (it' & -> & Hit').
  { intros a ws j _ Ha. by apply update_spec. }
  cbn [mbind option_bind]. by rewrite (item_final_spec i _ _ Hit').
Qed.

(** Two items in lock step. *)
Definition pair_rel (i1 i2 : Z) (p : item_state * item_state) (q : list Z * list Z) : Prop :=
  item_rel i1 p.1 q.1 /\ item_rel i2 p.2 q.2.

Definition pair_round (i1 i2 : Z) (q : list Z * list Z) (j : nat) : list Z * list Z :=
  (item_round (light_cache c) i1 q.1 j, item_round (light_cache c) i2 q.2 j).

Lemma update2_spec i1 i2 p q j :
  pair_rel i1 i2 p q ->
  exists p', update2 p j = Some p' /\ pair_rel i1 i2 p' (pair_round i1 i2 q j).
Proof.
  intros [H1 H2]. unfold update2.
  destruct (update_spec i1 _ _ j H1) as (it1 & -> & H1').
  destruct (update_spec i2 _ _ j H2) as (it2 & -> & H2').
  by exists (it1, it2).
Qed.

Lemma calculate_dataset_item_1024_spec p :
  0 <= p < 2 ^ 31 ->
  calculate_dataset_item_1024 c p =
  Some (calc_dataset_item (light_cache c) (2 * p) ++ calc_dataset_item (light_cache c) (2 * p + 1)).
Proof.
  intros Hp. unfold calculate_dataset_item_1024. rewrite (Z.mul_comm p 2).
  destruct (item_state_new_spec (2 * p) ltac:(lia)) as (it0 & -> & H0).
  destruct (item_state_new_spec (2 * p + 1) ltac:(lia)) as (it1 & -> & H1).
  cbn [mbind option_bind].
  destruct (mfold_rel (pair_rel (2 * p) (2 * p + 1)) update2 (pair_round (2 * p) (2 * p + 1))
    (seq 0 full_dataset_item_parents) (it0, it1) (_, _) (conj H0 H1)) as (q & -> & Hq).
  { intros a ws j _ Ha. by apply update2_spec. }
  unfold pair_round in Hq. rewrite fold_left_pair in Hq. destruct Hq as [Hq0 Hq1].
  cbn [mbind option_bind].
  by rewrite (item_final_spec _ _ _ Hq0), (item_final_spec _ _ _ Hq1).
Qed.

Lemma calculate_dataset_item_2048_spec p :
  0 <= p < 2 ^ 30 ->
  calculate_dataset_item_2048 c p =
  Some (calc_dataset_item (light_cache c) (4 * p) ++ calc_dataset_item (light_cache c) (4 * p + 1) ++
        calc_dataset_item (light_cache c) (4 * p + 2) ++ calc_dataset_item (light_cache c) (4 * p + 3)).
Proof.
  intros Hp. unfold calculate_dataset_item_2048. rewrite (Z.mul_comm p 4).
  destruct (item_state_new_spec (4 * p) ltac:(lia)) as (it0 & -> & H0).
  destruct (item_state_new_spec (4 * p + 1) ltac:(lia)) as (it1 & -> & H1).
  destruct (item_state_new_spec (4 * p + 2) ltac:(lia)) as (it2 & -> & H2).
  destruct (item_state_new_spec (4 * p + 3) ltac:(lia)) as (it3 & -> & H3).
  cbn [mbind option_bind].
  set (r01 := pair_round (4 * p) (4 * p + 1)). set (r23 := pair_round (4 * p + 2) (4 * p + 3)).
  destruct (mfold_rel
    (fun s q => pair_rel (4 * p) (4 * p + 1) s.1 q.1 /\ pair_rel (4 * p + 2) (4 * p + 3) s.2 q.2)
    update4 (fun q j => (r01 q.1 j, r23 q.2 j)) (seq 0 full_dataset_item_parents)
    ((it0, it1), (it2, it3)) (_, _, (_, _)) (conj (conj H0 H1) (conj H2 H3))) as (q & -> & Hq).
  { intros a ws j _ [Ha Hb]. unfold update4.
    destruct (update2_spec _ _ _ _ j Ha) as (p01 & -> & ?).
    destruct (update2_spec _ _ _ _ j Hb) as (p23 & -> & ?). by exists (p01, p23). }
  rewrite fold_left_pair in Hq. unfold r01, r23, pair_round in Hq.
  rewrite !fold_left_pair in Hq. destruct Hq as [[Hq0 Hq1] [Hq2 Hq3]].
  cbn [mbind option_bind]. by rewrite (item_final_spec _ _ _ Hq0), (item_final_spec _ _ _ Hq1),
    (item_final_spec _ _ _ Hq2), (item_final_spec _ _ _ Hq3).
Qed.
End Items.

(** On every host and for every well-formed context, dataset items are
    those of the specification, and the interleaved computations of two and of
    four items at once give the concatenation of the single items; no index
    leaves the light cache. *)
Theorem dataset_items_correct (host : Host) (c : epoch_context) (i p q : Z) :
  context_ok c -> 0 <= i < 2 ^ 32 -> 0 <= p < 2 ^ 31 -> 0 <= q < 2 ^ 30 ->
  let item := calc_dataset_item (light_cache c) in
  calculate_dataset_item_512 c i = Some (item i) /\
  calculate_dataset_item_1024 c p = Some (item (2 * p) ++ item (2 * p + 1)) /\
  calculate_dataset_item_2048 c q =
    Some (item (4 * q) ++ item (4 * q + 1) ++ item (4 * q + 2) ++ item (4 * q + 3)).
Proof.
  intros Hc Hi Hp Hq item. split; [by apply calculate_dataset_item_512_spec|].
  split; [by apply calculate_dataset_item_1024_spec|by apply calculate_dataset_item_2048_spec].
Qed.

(** A small context: three zero rows and a dataset of five rows. *)
Definition tiny_context : epoch_context :=
  mk_epoch_context 0 3 (replicate 3 (zero_hash 64)) 256 5.

Lemma tiny_context_ok : context_ok tiny_context.
Proof.
  split; [simpl; lia|]. split; [|unfold int_max; simpl; lia].
  split; [reflexivity|]. apply Forall_replicate. split; [reflexivity|apply zeros_ok].
Qed.

Lemma dataset_items_correct_witness :
  context_ok tiny_context /\
  @calculate_dataset_item_512 plain_host tiny_context 4 =
    Some (calc_dataset_item (light_cache tiny_context) 4).
Proof.
  split; [exact tiny_context_ok|].
  exact (proj1 (dataset_items_correct plain_host tiny_context 4 2 1 tiny_context_ok
    ltac:(lia) ltac:(lia) ltac:(lia))).
Defined.

(** ** The main loop, over any lookup function that gives the dataset rows *)

Lemma calc_dataset_item_wf cache i : hash512_wf (calc_dataset_item cache i).
Proof. apply (sha3_512_wf _). Qed.

#[local] Opaque calc_dataset_item.

Definition dataset_row (c : epoch_context) (p : Z) : list Z :=
  calc_dataset_item (light_cache c) (2 * p) ++ calc_dataset_item (light_cache c) (2 * p + 1).

(** What [hash_kernel] asks of its lookup function: from a memory that satisfies
    the invariant, it gives the row and keeps the invariant. *)
Class DatasetLookup (c : epoch_context) {S} (lookup : lookup_fn S) (Inv : S -> Prop) : Prop :=
  lookup_row : forall s p, Inv s -> 0 <= p < full_dataset_num_items c ->
    exists s', lookup s p = Some (dataset_row c p, s') /\ Inv s'.

#[export] Instance light_lookup_ok {host : Host} (c : epoch_context) (Hc : context_ok c) :
  DatasetLookup c (light_lookup c) (fun _ => True).
Proof.
  intros [] p _ Hp. exists tt. split; [|done]. unfold light_lookup.
  destruct Hc as (? & ? & ?). unfold int_max in *.
  rewrite calculate_dataset_item_1024_spec by (done || lia). done.
Qed.

(** Every row of the lazily filled dataset is either still marked as not
    generated (its first 64-bit word is zero) or the row of the specification. *)
Definition dataset_inv {host : Host} (c : epoch_context) (ds : list (list Z)) : Prop :=
  Z.of_nat (length ds) = full_dataset_num_items c /\
  forall i row, ds !! i = Some row ->
    nth 0 (word64s row) 0 = 0 \/ row = dataset_row c (Z.of_nat i).

#[export] Instance lazy_lookup_ok {host : Host} (c : epoch_context) (Hc : context_ok c) :
  DatasetLookup c (lazy_lookup c) (dataset_inv c).
Proof.
  intros ds p [Hlen Hrows] Hp. unfold lazy_lookup.
  rewrite (array_get_nth []) by lia. cbn [mbind option_bind].
  set (row := nth (Z.to_nat p) ds []).
  assert (Hrow : ds !! Z.to_nat p = Some row) by (apply lookup_nth_lt; lia).
  destruct (Z.eqb_spec (nth 0 (word64s row) 0) 0) as [H0|H0].
  - destruct Hc as (? & ? & ?). unfold int_max in *.
    rewrite calculate_dataset_item_1024_spec by (done || lia). cbn [mbind option_bind].
    rewrite array_set_insert by lia. cbn [mbind option_bind]. eexists. split; [done|].
    split; [by rewrite length_insert|]. intros i r Hi.
    destruct (decide (i = Z.to_nat p)) as [->|Hne].
    + rewrite list_lookup_insert_eq in Hi by lia. apply Some_inj in Hi. right.
      rewrite Z2Nat.id by lia. exact (eq_sym Hi).
    + rewrite list_lookup_insert_ne in Hi by done. by apply Hrows.
  - destruct (Hrows _ _ Hrow) as [|Heq]; [done|]. rewrite Z2Nat.id in Heq by lia.
    exists ds. rewrite Heq. split; [reflexivity|exact (conj Hlen Hrows)].
Qed.

(** A freshly allocated dataset satisfies the invariant. *)
Lemma dataset_inv_fresh {host : Host} c :
  context_ok c ->
  dataset_inv c (replicate (Z.to_nat (full_dataset_num_items c)) (zero_hash 128)).
Proof.
  intros (_ & _ & ?). split; [rewrite length_replicate; lia|].
  intros i row Hi. apply lookup_replicate in Hi as [-> _]. left.
  unfold words, load. by destruct host_order.
Qed.

Lemma dataset_row_wf c p : hash1024_wf (dataset_row c p).
Proof.
  destruct (calc_dataset_item_wf (light_cache c) (2 * p)) as [Hl1 Hok1].
  destruct (calc_dataset_item_wf (light_cache c) (2 * p + 1)) as [Hl2 Hok2].
  unfold dataset_row. split; [by rewrite length_app, Hl1, Hl2|].
  apply Forall_app. exact (conj Hok1 Hok2).
Qed.

Lemma words_app {host : Host} n a b ka kb :
  (0 < n)%nat -> length a = (n * ka)%nat -> length b = (n * kb)%nat ->
  words n (a ++ b) = words n a ++ words n b.
Proof.
  intros Hn Ha Hb. unfold words. rewrite length_app, Ha, Hb, <-Nat.mul_add_distr_l.
  rewrite !(Nat.mul_comm n), !Nat.div_mul by lia. rewrite <-fmap_app. f_equal.
  clear Hb. revert a Ha. induction ka as [|ka IH]; intros a Ha.
  - by replace a with (@nil Z) by (symmetry; apply nil_length_inv; lia).
  - simpl. rewrite take_app_le, drop_app_le, IH by (rewrite ?length_drop; lia). done.
Qed.

Section Kernel.
Context {host : Host} (c : epoch_context) (Hc : context_ok c).
Context {S : Type} (lookup : lookup_fn S) (Inv : S -> Prop) {Hlookup : DatasetLookup c lookup Inv}.

Definition kernel_rel (st : list Z * S) (ws : list Z) : Prop :=
  hash1024_wf st.1 /\ word32s st.1 = ws /\ Inv st.2.

Lemma kernel_step_spec s0 st ws i :
  kernel_rel st ws ->
  exists st', kernel_step (full_dataset_num_items c) s0 lookup st i = Some st' /\
    kernel_rel st' (hashimoto_round (light_cache c) (full_dataset_num_items c) s0 ws i).
Proof.
  destruct st as [mix s]. intros ([Hl Hok] & Hw & Hs). cbn [fst snd] in *. subst ws.
  pose proof (hash_words_in_word 32 mix Hl Hok) as Hwords. unfold kernel_step.
  rewrite <-fnv_fnv1 by by apply nth_in_word.
  unfold hashimoto_round. set (p := fnv _ _ mod _).
  assert (Hp : 0 <= p < full_dataset_num_items c)
    by (apply Z.mod_pos_bound; destruct Hc as (_ & _ & ?); lia).
  destruct (lookup_row s p Hs Hp) as (s' & -> & Hs'). cbn [mbind option_bind].
  eexists. split; [reflexivity|].
  destruct (dataset_row_wf c p) as [Hrl Hrok].
  assert (Hrow : le_words 4 (dataset_row c p) =
    le_words 4 (calc_dataset_item (light_cache c) (2 * p)) ++
    le_words 4 (calc_dataset_item (light_cache c) (2 * p + 1)))
    by (apply (words_app 4 _ _ 16 16); [lia|apply calc_dataset_item_wf..]).
  rewrite (words_le_uint32s 32), Hrow by done. rewrite <-Hrow.
  pose proof (hash_words_in_word (host := plain_host) 32 _ Hrl Hrok) as Hrw.
  rewrite <-zip_fnv by done. unfold kernel_rel. cbn [fst snd]. split; [split|split].
  - rewrite length_of_words, length_zip_with, !(length_word32s 32) by done. lia.
  - apply of_words_ok.
  - apply words_of_words; [lia|]. by apply zip_fnv_in_word.
  - exact Hs'.
Qed.

Lemma compress_mix_spec mix :
  hash1024_wf mix -> compress_mix mix = compress (word32s mix).
Proof.
  intros [Hl Hok]. unfold compress_mix, compress. apply list_fmap_ext. intros i x _.
  by rewrite !fnv_fnv1 by (eapply nth_in_word, (hash_words_in_word 32); done).
Qed.

Lemma compress_in_word ws : Forall (in_word 32) (compress ws).
Proof.
  apply Forall_fmap, Forall_forall. intros i _. unfold fnv at 1. by apply wrap_in_word.
Qed.

Lemma le_uint32s_of_words ws n :
  length ws = n -> Forall (in_word 32) ws -> le_uint32s (of_word32s ws) = of_le_words 4 ws.
Proof.
  intros Hl Hw. rewrite (le_uint32s_bytes n), words_of_words by
    (lia || done || apply of_words_ok || (rewrite length_of_words; lia)). done.
Qed.

(** The mix hash of the specification, from the seed hash. *)
Definition spec_mix (seed : list Z) : list Z :=
  let s_words := le_words 4 seed in
  of_le_words 4 (compress (fold_left
    (hashimoto_round (light_cache c) (full_dataset_num_items c) (nth 0 s_words 0))
    (seq 0 64) (s_words ++ s_words))).

Lemma hash_kernel_spec seed s :
  hash512_wf seed -> Inv s ->
  exists s', hash_kernel c seed lookup s = Some (spec_mix seed, s') /\ Inv s'.
Proof.
  intros [Hl Hok] Hs. unfold hash_kernel.
  destruct (Hc) as (_ & _ & HN). unfold int_max in HN.
  rewrite (wrap_id 32) by (unfold in_word; lia).
  destruct (Z.eqb_spec (full_dataset_num_items c) 0); [lia|].
  rewrite (first_word_le 15) by done.
  assert (H0 : le_word (take 4 seed) = nth 0 (le_words 4 seed) 0).
  { rewrite <-(first_word_le (host := plain_host) 15) by done. reflexivity. }
  rewrite H0.
  destruct (length_le_uint32s 16 seed Hl Hok) as [Hml Hmok].
  assert (Hinit : kernel_rel (le_uint32s seed ++ le_uint32s seed, s)
    (le_words 4 seed ++ le_words 4 seed)).
  { unfold kernel_rel. cbn [fst snd].
    split; [split; [rewrite length_app, Hml; reflexivity|by apply Forall_app]|].
    split; [|exact Hs].
    rewrite (words_app 4 _ _ 16 16), (words_le_uint32s 16) by (done || lia). done. }
  destruct (mfold_rel kernel_rel _ _ (seq 0 num_dataset_accesses) _ _ Hinit
    (fun st ws i _ Hst => kernel_step_spec (nth 0 (le_words 4 seed) 0) st ws i Hst))
    as ([mix s'] & -> & Hwf & Hmix & Hs').
  cbn [mbind option_bind fst snd] in *. exists s'. split; [|exact Hs'].
  rewrite compress_mix_spec, Hmix by done.
  rewrite (le_uint32s_of_words _ 8) by (done || apply compress_in_word). done.
Qed.
End Kernel.

Lemma spec_mix_wf c seed : hash256_wf (spec_mix c seed).
Proof. split; [|apply of_words_ok]. unfold spec_mix. by rewrite length_of_words. Qed.

Lemma hash_seed_spec {host : Host} header nonce :
  hash256_wf header -> in_word 64 nonce ->
  hash_seed header nonce = sha3_512 (header ++ le_bytes 8 nonce).
Proof.
  intros [Hl Hok] Hn. unfold hash_seed. rewrite le_uint64_store by done.
  apply ethash_keccak512_sponge, Forall_app. split; [done|apply le_bytes_ok].
Qed.

Lemma hash_final_spec {host : Host} seed mix :
  bytes_ok seed -> bytes_ok mix -> hash_final seed mix = sha3_256 (seed ++ mix).
Proof. intros. by apply ethash_keccak256_sponge, Forall_app. Qed.

(** The result record of the specification. *)
Definition spec_result (c : epoch_context) (header : list Z) (nonce : Z) : result :=
  let '(f, m) := hashimoto (light_cache c) (full_dataset_num_items c) header nonce in
  mk_result f m.

Lemma ethash_hash_spec {host : Host} c header nonce :
  context_ok c -> hash256_wf header -> in_word 64 nonce ->
  ethash_hash c header nonce = Some (spec_result c header nonce).
Proof.
  intros Hc Hh Hn. unfold ethash_hash. rewrite hash_seed_spec by done.
  destruct (hash_kernel_spec c Hc (light_lookup c) (fun _ => True) (Hlookup := light_lookup_ok c Hc)
    (sha3_512 (header ++ le_bytes 8 nonce)) tt) as (s' & -> & _); [apply sha3_512_wf|done|].
  cbn [mbind option_bind].
  rewrite hash_final_spec by (apply sha3_512_wf || apply spec_mix_wf). reflexivity.
Qed.

Lemma hash_full_spec {host : Host} c ds header nonce :
  context_ok c -> hash256_wf header -> in_word 64 nonce -> dataset_inv c ds ->
  exists ds', hash_full (mk_epoch_context_full c (Some ds)) header nonce =
      Some (spec_result c header nonce, mk_epoch_context_full c (Some ds')) /\ dataset_inv c ds'.
Proof.
  intros Hc Hh Hn Hds. unfold hash_full. cbn [full_dataset base mbind option_bind].
  rewrite hash_seed_spec by done.
  destruct (hash_kernel_spec c Hc (lazy_lookup c) (dataset_inv c) (Hlookup := lazy_lookup_ok c Hc)
    (sha3_512 (header ++ le_bytes 8 nonce)) ds) as (ds' & -> & Hds'); [apply sha3_512_wf|done|].
  cbn [mbind option_bind]. exists ds'. split; [|done].
  rewrite hash_final_spec by (apply sha3_512_wf || apply spec_mix_wf). reflexivity.
Qed.

(** ** Comparisons *)

Section CompareSpec.
Context {host : Host}.

Lemma less_or_equal_words_spec k a b :
  length a = (8 * k)%nat -> length b = (8 * k)%nat -> bytes_ok a -> bytes_ok b ->
  less_or_equal_words (load <$> chunks 8 k a) (load <$> chunks 8 k b) =
  (be_number a <=? be_number b).
Proof.
  revert a b. induction k as [|k IH]; intros a b Hla Hlb Ha Hb.
  { replace a with (@nil Z) by (symmetry; apply nil_length_inv; lia).
    by replace b with (@nil Z) by (symmetry; apply nil_length_inv; lia). }
  cbn [chunks]. csimpl.
  assert (Htake : forall l, length l = (8 * S k)%nat -> bytes_ok l ->
    be_uint64 (load (take 8 l)) = be_number (take 8 l)).
  { intros l Hl Hok. apply be_uint64_load; [rewrite length_take; lia|by apply Forall_take]. }
  rewrite !Htake by done. rewrite IH by (rewrite ?length_drop; lia || by apply Forall_drop).
  pose proof (be_number_app (take 8 a) (drop 8 a)) as Hsa.
  pose proof (be_number_app (take 8 b) (drop 8 b)) as Hsb.
  rewrite take_drop in Hsa, Hsb. rewrite Hsa, Hsb.
  assert (Hd : length (drop 8 b) = length (drop 8 a)) by (rewrite !length_drop; lia).
  rewrite Hd.
  pose proof (be_number_range (drop 8 a) (Forall_drop _ 8 _ Ha)) as Hra.
  pose proof (be_number_range (drop 8 b) (Forall_drop _ 8 _ Hb)) as Hrb. rewrite Hd in Hrb.
  set (M := 2 ^ _) in *. set (xa := be_number (take 8 a)). set (xb := be_number (take 8 b)).
  destruct (Z.ltb_spec xb xa); [symmetry; apply Z.leb_gt; nia|].
  destruct (Z.ltb_spec xa xb); [symmetry; apply Z.leb_le; nia|].
  assert (xa = xb) as -> by lia.
  destruct (Z.leb_spec (be_number (drop 8 a)) (be_number (drop 8 b)));
    symmetry; [apply Z.leb_le|apply Z.leb_gt]; lia.
Qed.

Lemma is_less_or_equal_spec a b :
  hash256_wf a -> hash256_wf b -> is_less_or_equal a b = (be_number a <=? be_number b).
Proof.
  intros [Ha Ha'] [Hb Hb']. unfold is_less_or_equal, words. rewrite Ha, Hb.
  by apply (less_or_equal_words_spec 4).
Qed.
End CompareSpec.

(** ** Verification and search *)

Definition seed_of (header : list Z) (nonce : Z) : list Z := sha3_512 (header ++ le_bytes 8 nonce).

Lemma spec_result_eq c header nonce :
  spec_result c header nonce =
  mk_result (sha3_256 (seed_of header nonce ++ spec_mix c (seed_of header nonce)))
    (spec_mix c (seed_of header nonce)).
Proof. reflexivity. Qed.

Lemma sha3_256_wf x : hash256_wf (sha3_256 x).
Proof. apply sponge_wf. lia. Qed.

#[local] Opaque sha3_256 sha3_512 spec_mix spec_result loop.

Lemma final_hash_wf c header nonce : hash256_wf (final_hash (spec_result c header nonce)).
Proof. rewrite spec_result_eq. apply sha3_256_wf. Qed.

Lemma ethash_verify_final_hash_spec {host : Host} header mix nonce boundary :
  hash256_wf header -> hash256_wf mix -> in_word 64 nonce -> hash256_wf boundary ->
  ethash_verify_final_hash header mix nonce boundary =
  (be_number (sha3_256 (seed_of header nonce ++ mix)) <=? be_number boundary).
Proof.
  intros Hh [Hml Hm] Hn Hb. unfold ethash_verify_final_hash. rewrite hash_seed_spec by done.
  rewrite hash_final_spec by (apply sha3_512_wf || done).
  by apply is_less_or_equal_spec; [apply sha3_256_wf|].
Qed.

Lemma ethash_verify_spec {host : Host} c header mix nonce boundary :
  context_ok c -> hash256_wf header -> hash256_wf mix -> in_word 64 nonce -> hash256_wf boundary ->
  exists b, ethash_verify c header mix nonce boundary = Some b /\
    (b = true <-> mix_hash (spec_result c header nonce) = mix /\
                  be_number (final_hash (spec_result c header nonce)) <= be_number boundary).
Proof.
  intros Hc Hh Hm Hn Hb. unfold ethash_verify. change (is_less_or_equal _ _)
    with (ethash_verify_final_hash header mix nonce boundary).
  rewrite ethash_verify_final_hash_spec, spec_result_eq by done. cbn [mix_hash final_hash].
  destruct (Z.leb_spec (be_number (sha3_256 (seed_of header nonce ++ mix))) (be_number boundary))
    as [Hle|Hgt]; cbn [negb]; cycle 1.
  { exists false. split; [done|]. split; [done|]. intros [<- ?]. lia. }
  rewrite hash_seed_spec by done.
  destruct (hash_kernel_spec c Hc (light_lookup c) (fun _ => True) (Hlookup := light_lookup_ok c Hc)
    (seed_of header nonce) tt) as (s' & Hk & _); [apply sha3_512_wf|done|].
  unfold seed_of in Hk at 1. rewrite Hk. cbn [mbind option_bind].
  eexists. split; [reflexivity|]. unfold is_equal. rewrite bool_decide_eq_true.
  split; [intros <-; done|by intros [<- _]].
Qed.

(** A nonce solves a block when its final hash is within the boundary. *)
Definition solves (c : epoch_context) (header boundary : list Z) (nonce : Z) : Prop :=
  be_number (final_hash (spec_result c header nonce)) <= be_number boundary.

(** The first solution in [[a, b)], or none. *)
Definition first_solution (c : epoch_context) (header boundary : list Z) (a b : Z)
    (r : search_result) : Prop :=
  (exists n, a <= n < b /\ r = search_result_found (spec_result c header n) n /\
     solves c header boundary n /\ forall m, a <= m < n -> ~ solves c header boundary m) \/
  (r = search_result_none /\ forall m, a <= m < b -> ~ solves c header boundary m).

Section Search.
Context {host : Host} (c : epoch_context) (header boundary : list Z).
Context (Hc : context_ok c) (Hh : hash256_wf header) (Hb : hash256_wf boundary).

Lemma solution_test n :
  is_less_or_equal (final_hash (spec_result c header n)) boundary = true <->
  solves c header boundary n.
Proof. rewrite is_less_or_equal_spec by (done || apply final_hash_wf). apply Z.leb_le. Qed.

Lemma search_light_loop a b :
  in_word 64 a -> in_word 64 b ->
  exists o, loop (search_light_step c header boundary b) fuel64 a = inr o /\
    exists r, o = Some r /\ first_solution c header boundary a b r.
Proof.
  intros Ha Hb'. apply (loop_total _
    (fun n => a <= n <= Z.max a b /\ forall m, a <= m < n -> ~ solves c header boundary m)
    (fun n => 2 ^ 64 - n)).
  - intros n [Hn _]. unfold in_word in *. lia.
  - intros n [Hn Hno]. unfold search_light_step, in_word in *.
    destruct (Z.ltb_spec n b).
    + rewrite ethash_hash_spec by (done || unfold in_word; lia).
      destruct (is_less_or_equal _ _) eqn:Htest.
      * apply solution_test in Htest. eexists. split; [done|]. left. exists n.
        split; [lia|]. auto.
      * rewrite wrap_id by (unfold in_word; lia). split; [|lia]. split; [lia|].
        intros m Hm. destruct (Z.eq_dec m n) as [->|]; [|apply Hno; lia].
        intros Hs%solution_test. congruence.
    + eexists. split; [done|]. right. split; [done|]. intros m Hm. apply Hno. lia.
  - unfold in_word in *. split; [lia|]. intros. lia.
  - unfold fuel64, in_word in *. lia.
Qed.

Lemma search_light_spec start iterations :
  in_word 64 start -> in_word 64 iterations ->
  exists r, search_light c header boundary start iterations = Some r /\
    first_solution c header boundary start (u64 (start + iterations)) r.
Proof.
  intros Hs Hi. unfold search_light.
  destruct (search_light_loop start (u64 (start + iterations))) as (o & -> & r & -> & Hr); eauto.
  by apply wrap_in_word.
Qed.

(** The light and the full loop at the same nonce. *)
Definition search_rel (n : Z) (st : Z * epoch_context_full) : Prop :=
  in_word 64 n /\ exists ds, dataset_inv c ds /\ st = (n, mk_epoch_context_full c (Some ds)).

Definition search_result_rel (r : option search_result)
    (r' : option (search_result * epoch_context_full)) : Prop :=
  exists ds, dataset_inv c ds /\
    r' = option_map (fun r => (r, mk_epoch_context_full c (Some ds))) r.

Lemma search_step_rel b n st :
  search_rel n st ->
  match search_light_step c header boundary b n, search_step header boundary b st with
  | inl n, inl st => search_rel n st
  | inr r, inr r' => search_result_rel r r'
  | _, _ => False
  end.
Proof.
  intros (Hn & ds & Hds & ->). unfold search_light_step, search_step.
  destruct (n <? b); [|by exists ds].
  rewrite ethash_hash_spec by done.
  destruct (hash_full_spec c ds header n Hc Hh Hn Hds) as (ds' & -> & Hds').
  destruct (is_less_or_equal _ _); [by exists ds'|].
  split; [by apply wrap_in_word|]. by exists ds'.
Qed.

Lemma search_spec ds start iterations :
  in_word 64 start -> in_word 64 iterations -> dataset_inv c ds ->
  exists r ds', search (mk_epoch_context_full c (Some ds)) header boundary start iterations =
      Some (r, mk_epoch_context_full c (Some ds')) /\ dataset_inv c ds' /\
    search_light c header boundary start iterations = Some r.
Proof.
  intros Hs Hi Hds. pose proof (wrap_in_word 64 ltac:(lia) (start + iterations)) as Hb'.
  destruct (search_light_loop start _ Hs Hb') as (o & Hloop & r & -> & _).
  pose proof (loop_rel search_rel search_result_rel
    (search_light_step c header boundary (u64 (start + iterations)))
    (search_step header boundary (u64 (start + iterations))) fuel64
    start (start, mk_epoch_context_full c (Some ds))
    (search_step_rel _) (conj Hs (ex_intro _ ds (conj Hds eq_refl)))) as Hrel.
  rewrite Hloop in Hrel. unfold search, search_light. rewrite Hloop.
  destruct (loop (search_step _ _ _) fuel64 _) as [|r']; [done|].
  destruct Hrel as (ds' & Hds' & ->). exists r, ds'. auto.
Qed.
End Search.

(** C1: on every host, of either byte order, [ethash_hash] is hashimoto of the
    specification for every well-formed context, header and 64-bit nonce; no
    access leaves the cache. *)
Theorem ethash_hash_correct (host : Host) (c : epoch_context) (header : list Z) (nonce : Z) :
  context_ok c -> hash256_wf header -> in_word 64 nonce ->
  exists r, ethash_hash c header nonce = Some r /\
    (final_hash r, mix_hash r) =
      hashimoto (light_cache c) (full_dataset_num_items c) header nonce.
Proof.
  intros Hc Hh Hn. exists (spec_result c header nonce). split; [by apply ethash_hash_spec|].
  reflexivity.
Qed.

Lemma ethash_hash_correct_witness :
  let host := mk_host BigEndian true false in
  exists r, ethash_hash tiny_context (zero_hash 32) 7 = Some r /\
    (final_hash r, mix_hash r) = hashimoto (light_cache tiny_context) 5 (zero_hash 32) 7.
Proof.
  intros host. apply (ethash_hash_correct host tiny_context (zero_hash 32) 7 tiny_context_ok).
  - split; [reflexivity|apply zeros_ok].
  - unfold in_word; lia.
Defined.

(** C2: hashing with a lazily generated full dataset refines hashing with the
    light cache.  A freshly allocated dataset satisfies the invariant "every
    row is marked as not generated or is the row of the specification"; from
    any dataset that satisfies it the result is the light one, and the
    invariant holds again. *)
Theorem lazy_hash_refines_light (host : Host) (c : epoch_context) (ds : list (list Z))
    (header : list Z) (nonce : Z) :
  context_ok c -> dataset_inv c ds -> hash256_wf header -> in_word 64 nonce ->
  dataset_inv c (replicate (Z.to_nat (full_dataset_num_items c)) (zero_hash 128)) /\
  exists r ds', ethash_hash c header nonce = Some r /\
    hash_full (mk_epoch_context_full c (Some ds)) header nonce =
      Some (r, mk_epoch_context_full c (Some ds')) /\ dataset_inv c ds'.
Proof.
  intros Hc Hds Hh Hn. split; [by apply dataset_inv_fresh|].
  destruct (hash_full_spec c ds header nonce Hc Hh Hn Hds) as (ds' & Hfull & Hds').
  exists (spec_result c header nonce), ds'. split; [by apply ethash_hash_spec|]. auto.
Qed.

Lemma lazy_hash_refines_light_witness :
  let host := plain_host in
  exists r ds', ethash_hash tiny_context (zero_hash 32) 7 = Some r /\
    hash_full (mk_epoch_context_full tiny_context (Some (replicate 5 (zero_hash 128))))
      (zero_hash 32) 7 = Some (r, mk_epoch_context_full tiny_context (Some ds')).
Proof.
  intros host.
  destruct (lazy_hash_refines_light host tiny_context (replicate 5 (zero_hash 128)) (zero_hash 32) 7
    tiny_context_ok (dataset_inv_fresh tiny_context tiny_context_ok)) as (_ & r & ds' & H1 & H2 & _).
  - split; [reflexivity|apply zeros_ok].
  - unfold in_word; lia.
  - exists r, ds'. exact (conj H1 H2).
Defined.

(** [is_less_or_equal] compares 256-bit hashes as big-endian numbers on
    every host; it is a total order whose equality is [is_equal]. *)
Theorem is_less_or_equal_correct (host : Host) (a b : list Z) :
  hash256_wf a -> hash256_wf b ->
  (is_less_or_equal a b = true <-> be_number a <= be_number b) /\
  (is_equal a b = true <-> is_less_or_equal a b = true /\ is_less_or_equal b a = true).
Proof.
  intros Ha Hb. rewrite !is_less_or_equal_spec, !Z.leb_le by done. split; [done|].
  unfold is_equal. rewrite bool_decide_eq_true. split; [intros ->; lia|].
  intros [H1 H2]. destruct Ha as [Hla Ha], Hb as [Hlb Hb].
  apply be_number_inj; [done|done|congruence|lia].
Qed.

Lemma is_less_or_equal_correct_witness :
  let host := plain_host in
  hash256_wf (reverse (le_bytes 32 5)) /\ hash256_wf (reverse (le_bytes 32 (2 ^ 200))) /\
  is_less_or_equal (reverse (le_bytes 32 5)) (reverse (le_bytes 32 (2 ^ 200))) = true.
Proof.
  intros host.
  assert (Hwf : forall x, hash256_wf (reverse (le_bytes 32 x))).
  { intros x. split; [rewrite length_reverse; apply length_le_bytes|].
    apply Forall_reverse, le_bytes_ok. }
  split; [apply Hwf|]. split; [apply Hwf|].
  apply (proj2 (proj1 (is_less_or_equal_correct host _ _ (Hwf 5) (Hwf (2 ^ 200))))).
  vm_compute. discriminate.
Defined.

(** C4: [ethash_verify] accepts exactly the mix hash that [ethash_hash] computes
    for the header and the nonce, and only when the final hash is within the
    boundary; the quick check [ethash_verify_final_hash] never rejects a
    solution that the full check accepts. *)
Theorem ethash_verify_correct (host : Host) (c : epoch_context) (header mix boundary : list Z)
    (nonce : Z) :
  context_ok c -> hash256_wf header -> hash256_wf mix -> in_word 64 nonce -> hash256_wf boundary ->
  exists r b, ethash_hash c header nonce = Some r /\
    ethash_verify c header mix nonce boundary = Some b /\
    (b = true <-> mix_hash r = mix /\ be_number (final_hash r) <= be_number boundary) /\
    (b = true -> ethash_verify_final_hash header mix nonce boundary = true).
Proof.
  intros Hc Hh Hm Hn Hb.
  destruct (ethash_verify_spec c header mix nonce boundary Hc Hh Hm Hn Hb) as (b & Hv & Hiff).
  exists (spec_result c header nonce), b. split; [by apply ethash_hash_spec|].
  split; [done|]. split; [done|]. rewrite Hiff, spec_result_eq. cbn [mix_hash final_hash].
  intros [<- Hle]. rewrite ethash_verify_final_hash_spec by done. by apply Z.leb_le.
Qed.

Lemma ethash_verify_correct_witness :
  let host := plain_host in
  exists r b, ethash_hash tiny_context (zero_hash 32) 7 = Some r /\
    ethash_verify tiny_context (zero_hash 32) (zero_hash 32) 7 (zero_hash 32) = Some b /\
    (b = true -> mix_hash r = zero_hash 32).
Proof.
  intros host. assert (Hz : hash256_wf (zero_hash 32)) by (split; [reflexivity|apply zeros_ok]).
  assert (Hn : in_word 64 7) by (unfold in_word; lia).
  destruct (ethash_verify_correct host tiny_context (zero_hash 32) (zero_hash 32) (zero_hash 32) 7
    tiny_context_ok Hz Hz Hn Hz) as (r & b & H1 & H2 & H3 & _).
  exists r, b. split; [exact H1|]. split; [exact H2|]. intros Hb. apply H3, Hb.
Defined.

(** C3: the two searches stop and report the first nonce of
    [[start_nonce, end_nonce)] whose final hash is within the boundary, with its
    hashes, or that there is none; the full search refines the light one and
    keeps the dataset invariant.  [end_nonce] wraps: a range that crosses
    [2^64] is not searched at all. *)
Theorem search_correct (host : Host) (c : epoch_context) (ds : list (list Z))
    (header boundary : list Z) (start iterations : Z) :
  context_ok c -> dataset_inv c ds -> hash256_wf header -> hash256_wf boundary ->
  in_word 64 start -> in_word 64 iterations ->
  exists r ds', search_light c header boundary start iterations = Some r /\
    search (mk_epoch_context_full c (Some ds)) header boundary start iterations =
      Some (r, mk_epoch_context_full c (Some ds')) /\ dataset_inv c ds' /\
    first_solution c header boundary start (u64 (start + iterations)) r /\
    (start + iterations < 2 ^ 64 -> u64 (start + iterations) = start + iterations) /\
    (2 ^ 64 <= start + iterations -> r = search_result_none).
Proof.
  intros Hc Hds Hh Hb Hs Hi.
  destruct (search_spec c header boundary Hc Hh Hb ds start iterations Hs Hi Hds)
    as (r & ds' & Hfull & Hds' & Hlight).
  destruct (search_light_spec c header boundary Hc Hh Hb start iterations Hs Hi) as (r' & Hr' & Hfirst).
  rewrite Hlight in Hr'. apply Some_inj in Hr'. subst r'.
  exists r, ds'. split; [done|]. split; [done|]. split; [done|]. split; [done|].
  unfold in_word in *. split; [intros; apply wrap_id; unfold in_word; lia|]. intros Hwrap.
  destruct Hfirst as [(n & Hn & _)|[-> _]]; [|done]. exfalso. unfold wrap in Hn.
  rewrite <-(Z.mod_unique_pos (start + iterations) (2 ^ 64) 1 (start + iterations - 2 ^ 64)) in Hn by lia.
  lia.
Qed.

Lemma search_correct_witness :
  let host := plain_host in
  exists r, search_light tiny_context (zero_hash 32) (zero_hash 32) 3 2 = Some r /\
    first_solution tiny_context (zero_hash 32) (zero_hash 32) 3 5 r.
Proof.
  intros host. assert (Hz : hash256_wf (zero_hash 32)) by (split; [reflexivity|apply zeros_ok]).
  destruct (search_correct host tiny_context _ (zero_hash 32) (zero_hash 32) 3 2 tiny_context_ok
    (dataset_inv_fresh tiny_context tiny_context_ok) Hz Hz
    ltac:(unfold in_word; lia) ltac:(unfold in_word; lia)) as (r & ds' & H1 & _ & _ & H2 & _).
  exists r. exact (conj H1 H2).
Defined.
