(* ===== verification/CudaHelper.v ===== *)
(** * Device primitives of [libcuda/cuda_helper.h]

    64-bit lanes held as pairs of 32-bit registers, the PTX instructions the
    header emits for them on the architecture the kernel is compiled for, and
    the 64-bit operations they stand for. *)

From stdpp Require Import base numbers list.
From Stdlib Require Import ZArith Lia Bool Btauto.
From S2P Require Import Prelude Words KeccakSpec.

Local Open Scope Z_scope.
Local Open Scope word_scope.

(** [__CUDA_ARCH__] and [CUDA_VERSION], tested by the preprocessor. *)
Class Arch := mk_arch { cuda_arch : Z; cuda_version : Z }.

Definition has_shf {arch : Arch} : bool := 350 <=? cuda_arch.
Definition has_lop3 {arch : Arch} : bool := (500 <=? cuda_arch) && (7050 <=? cuda_version).

(** The built-in vector types. *)
Record uint2 := make_uint2 { x2 : Z; y2 : Z }.
Record uint4 := make_uint4 { x4 : Z; y4 : Z; z4 : Z; w4 : Z }.

#[global] Instance uint2_eq_dec : EqDecision uint2.
Proof. solve_decision. Defined.
#[global] Instance uint4_eq_dec : EqDecision uint4.
Proof. solve_decision. Defined.

(** ** Instructions and intrinsics *)

(** [lop3.b32]: bit [i] of the result is the entry of the truth table [lut]
    indexed by bits [i] of the operands. *)
Definition lop3 (a b c lut : Z) : Z :=
  let pick (x : Z) (set : bool) := if set then x else wnot 32 x in
  let minterm k := pick a (Z.testbit k 2) .& pick b (Z.testbit k 1) .& pick c (Z.testbit k 0) in
  fold_left (fun r k => if Z.testbit lut k then r .| minterm k else r)
    [0; 1; 2; 3; 4; 5; 6; 7] 0.

(** [shf.l.wrap.b32]: the high word of [b:a] shifted left, the amount taken
    modulo 32. *)
Definition shf_l_wrap (a b c : Z) : Z :=
  let n := c .& 31 in shl 32 b n .| (a .> (32 - n)).

(** [__byte_perm]: each nibble of the selector chooses a byte of [y:x]. *)
Definition byte_perm (x y s : Z) : Z :=
  let pool := x .| Z.shiftl y 32 in
  let pick k := (pool .> (8 * ((s .> (4 * k)) .& 7))) .& 255 in
  pick 0 .| Z.shiftl (pick 1) 8 .| Z.shiftl (pick 2) 16 .| Z.shiftl (pick 3) 24.

(** [bfe.u32]: [len] bits of [x] from bit [pos], both taken modulo 256. *)
Definition bfe (x bit numBits : Z) : Z :=
  (x .> (bit .& 255)) .& Z.ones (Z.min (numBits .& 255) 32).

(** ** Functions of the header *)

Definition cuda_swab32 (x : Z) : Z := byte_perm x x 0x0123.

Definition devectorize (a : uint2) : Z := x2 a .| Z.shiftl (y2 a) 32.
Definition vectorize (x : Z) : uint2 := make_uint2 (u32 x) (u32 (x .> 32)).

Definition cuda_swab64 (x : Z) : Z :=
  let t := vectorize x in
  let tx := byte_perm (x2 t) 0 0x0123 in
  let ty := byte_perm (y2 t) 0 0x0123 in
  devectorize (make_uint2 ty tx).

Definition devectorize2 (inn : uint4) : uint2 * uint2 :=
  (make_uint2 (x4 inn) (y4 inn), make_uint2 (z4 inn) (w4 inn)).
Definition vectorize2 (x y : uint2) : uint4 := make_uint4 (x2 x) (y2 x) (x2 y) (y2 y).

(** [operator^] on [uint2]. *)
Definition xor_uint2 (a b : uint2) : uint2 := make_uint2 (x2 a .^ x2 b) (y2 a .^ y2 b).
(** [operator&] on [uint2]. *)
Definition and_uint2 (a b : uint2) : uint2 := make_uint2 (x2 a .& x2 b) (y2 a .& y2 b).
(** [operator~] on [uint2]. *)
Definition not_uint2 (a : uint2) : uint2 := make_uint2 (wnot 32 (x2 a)) (wnot 32 (y2 a)).

Infix "^^" := xor_uint2 (at level 46, left associativity) : word_scope.

Definition ROR8 (a : uint2) : uint2 :=
  make_uint2 (byte_perm (y2 a) (x2 a) 0x0765) (byte_perm (y2 a) (x2 a) 0x4321).

Definition ROL8 (a : uint2) : uint2 :=
  make_uint2 (byte_perm (y2 a) (x2 a) 0x6543) (byte_perm (y2 a) (x2 a) 0x2107).

Definition ROL2 {arch : Arch} (a : uint2) (offset : Z) : uint2 :=
  if has_shf then
    if 32 <=? offset then
      make_uint2 (shf_l_wrap (x2 a) (y2 a) offset) (shf_l_wrap (y2 a) (x2 a) offset)
    else make_uint2 (shf_l_wrap (y2 a) (x2 a) offset) (shf_l_wrap (x2 a) (y2 a) offset)
  else if offset <=? 32 then
    make_uint2 (shl 32 (x2 a) offset .| (y2 a .> (32 - offset)))
               (shl 32 (y2 a) offset .| (x2 a .> (32 - offset)))
  else
    make_uint2 (shl 32 (y2 a) (offset - 32) .| (x2 a .> (64 - offset)))
               (shl 32 (x2 a) (offset - 32) .| (y2 a .> (64 - offset))).

(** ** Bitwise reasoning *)

Lemma wrap_testbit w z i : 0 <= i < w -> Z.testbit (wrap w z) i = Z.testbit z i.
Proof. intros Hi. unfold wrap. apply Z.mod_pow2_bits_low. lia. Qed.

Lemma wrap_testbit_high w z i : 0 <= w <= i -> Z.testbit (wrap w z) i = false.
Proof. intros Hi. unfold wrap. by apply Z.mod_pow2_bits_high. Qed.

Lemma wnot_testbit w z i : 0 <= i < w -> Z.testbit (wnot w z) i = negb (Z.testbit z i).
Proof.
  intros Hi. unfold wnot. rewrite Z.lxor_spec, Z.ones_spec_low by lia. apply xorb_true_r.
Qed.

#[export] Hint Rewrite Z.lxor_spec Z.land_spec Z.lor_spec : bits.
#[export] Hint Rewrite wrap_testbit wnot_testbit Z.shiftr_spec using lia : bits.

(** Equality of words of 32 bits, bit by bit. *)
Ltac by_bits :=
  apply (word_ext 32); [lia|auto 10 with words..|intros i Hi; autorewrite with bits].

(** ** A register pair represents a 64-bit lane *)

Definition rep (a : uint2) (z : Z) : Prop := in_word 64 z /\ a = vectorize z.

(** An array of lanes. *)
Abbreviation reps := (Forall2 rep).

Create HintDb lanes.

Lemma vectorize_rep z : in_word 64 z -> rep (vectorize z) z.
Proof. done. Qed.

Lemma make_uint2_rep lo hi :
  in_word 32 lo -> in_word 32 hi -> rep (make_uint2 lo hi) (lo + 2 ^ 32 * hi).
Proof.
  unfold rep, vectorize, in_word. intros Hlo Hhi. split; [lia|].
  rewrite Z.shiftr_div_pow2 by lia. rewrite (Z.add_comm lo), (Z.mul_comm (2 ^ 32)).
  rewrite Z.div_add_l, (Z.div_small lo) by lia. unfold wrap.
  rewrite (Z.add_comm (hi * 2 ^ 32)), Z.mod_add, !Z.mod_small by lia. f_equal. lia.
Qed.

Lemma devectorize_add a :
  in_word 32 (x2 a) -> devectorize a = x2 a + 2 ^ 32 * y2 a.
Proof.
  intros Ha. unfold devectorize.
  assert (H0 : x2 a .& Z.shiftl (y2 a) 32 = 0).
  { apply Z.bits_inj'. intros i Hi. rewrite Z.land_spec, Z.bits_0, Z.shiftl_spec by lia.
    destruct (Z.lt_ge_cases i 32); [rewrite (Z.testbit_neg_r _ (i - 32)) by lia; apply andb_false_r|].
    by rewrite (in_word_testbit 32) by (auto; lia). }
  rewrite <-Z.lxor_lor, <-Z.add_nocarry_lxor, Z.shiftl_mul_pow2 by (done || lia). lia.
Qed.

Lemma devectorize_rep a z : rep a z -> devectorize a = z.
Proof.
  intros [Hz ->]. rewrite devectorize_add by (simpl; auto with words). simpl.
  unfold wrap. rewrite Z.shiftr_div_pow2 by lia. unfold in_word in Hz.
  rewrite (Z.mod_small (z / 2 ^ 32)).
  - pose proof (Z.div_mod z (2 ^ 32)). lia.
  - split; [apply Z.div_pos; lia|apply Z.div_lt_upper_bound; lia].
Qed.

(** The 64-bit operations computed on register pairs. *)
Section Lanes.
Context {arch : Arch}.

Lemma xor_rep a b x y : rep a x -> rep b y -> rep (a ^^ b) (x .^ y).
Proof.
  intros [Hx ->] [Hy ->]. split; [auto with words|]. unfold xor_uint2, vectorize.
  simpl. f_equal; by_bits; done.
Qed.

Lemma rot_in_word_64 x n : 0 <= n < 64 -> in_word 64 x -> in_word 64 (rot 64 x n).
Proof. intros Hn Hx. unfold rot. apply lor_in_word; auto with words. Qed.

Lemma rot_testbit x n i :
  0 < n < 64 -> 0 <= i < 64 -> in_word 64 x ->
  Z.testbit (rot 64 x n) i = Z.testbit x (if decide (i < n) then i + 64 - n else i - n).
Proof.
  intros Hn Hi Hx. unfold rot. rewrite Z.lor_spec, shl_testbit, Z.shiftr_spec by lia.
  case_decide; [by replace (i + (64 - n)) with (i + 64 - n) by lia|].
  rewrite (in_word_testbit 64 ltac:(lia) x (i + (64 - n))) by (auto; lia). apply orb_false_r.
Qed.

(** One 32-bit half of a rotation: the high word of [b:a] shifted by [n]. *)
Lemma half_rotation x n (p q : Z) :
  0 < n < 32 -> in_word 64 x -> (p = 0 /\ q = 32 \/ p = 32 /\ q = 0) ->
  shl 32 (u32 (x .> p)) n .| (u32 (x .> q) .> (32 - n)) = u32 (rot 64 x n .> p).
Proof.
  intros Hn Hx Hpq. apply (word_ext 32); [lia|auto with words..|].
  intros i Hi. rewrite Z.lor_spec, shl_testbit, (wrap_testbit 32 (rot 64 x n .> p)), !Z.shiftr_spec by lia.
  rewrite rot_testbit by (done || lia).
  case_decide as H1.
  - rewrite wrap_testbit, Z.shiftr_spec by lia. simpl.
    destruct Hpq as [[-> ->]|[-> ->]]; case_decide; try lia; f_equal; lia.
  - rewrite (wrap_testbit_high _ _ (i + _)), wrap_testbit, Z.shiftr_spec, orb_false_r by lia.
    destruct Hpq as [[-> ->]|[-> ->]]; case_decide; try lia; f_equal; lia.
Qed.

Lemma swapped_rotation x n :
  0 < n < 32 -> in_word 64 x ->
  u32 (rot 64 x (n + 32)) = u32 (rot 64 x n .> 32) /\
  u32 (rot 64 x (n + 32) .> 32) = u32 (rot 64 x n).
Proof.
  intros Hn Hx. split; apply (word_ext 32); try solve [auto with words|lia];
    intros i Hi; rewrite !wrap_testbit, ?Z.shiftr_spec, !rot_testbit by (done || lia);
    repeat case_decide; try lia; f_equal; lia.
Qed.

Lemma land_31 n : 0 <= n -> n .& 31 = n mod 32.
Proof. intros Hn. change 31 with (Z.ones 5). by rewrite Z.land_ones by lia. Qed.

Lemma ROL2_rep a x n : 0 < n < 64 -> n <> 32 -> rep a x -> rep (ROL2 a n) (rot 64 x n).
Proof.
  intros Hn Hn32 [Hx ->]. split; [apply rot_in_word_64; [lia|done]|].
  unfold ROL2, shf_l_wrap. rewrite land_31 by lia.
  assert (Hlow : n < 32 -> vectorize (rot 64 x n) =
    make_uint2 (shl 32 (u32 x) n .| (u32 (x .> 32) .> (32 - n)))
               (shl 32 (u32 (x .> 32)) n .| (u32 x .> (32 - n)))).
  { intros Hlt. unfold vectorize. f_equal.
    - symmetry. apply (half_rotation x n 0 32); [lia|done|by left].
    - symmetry. apply (half_rotation x n 32 0); [lia|done|by right]. }
  assert (Hhigh : 32 < n -> vectorize (rot 64 x n) =
    make_uint2 (shl 32 (u32 (x .> 32)) (n - 32) .| (u32 x .> (64 - n)))
               (shl 32 (u32 x) (n - 32) .| (u32 (x .> 32) .> (64 - n)))).
  { intros Hgt. destruct (swapped_rotation x (n - 32)) as [H1 H2]; [lia|done|].
    unfold vectorize. rewrite Z.sub_add in H1, H2. rewrite H1, H2.
    replace (64 - n) with (32 - (n - 32)) by lia. f_equal.
    - symmetry. apply (half_rotation x _ 32 0); [lia|done|by right].
    - symmetry. apply (half_rotation x _ 0 32); [lia|done|by left]. }
  destruct (Z.lt_ge_cases n 32).
  - rewrite Hlow by done. rewrite Z.mod_small by lia. simpl.
    rewrite (proj2 (Z.leb_gt 32 n)), (proj2 (Z.leb_le n 32)) by lia. by destruct has_shf.
  - rewrite Hhigh by lia. replace (n mod 32) with (n - 32)
      by (apply (Z.mod_unique_pos _ _ 1); lia).
    replace (32 - (n - 32)) with (64 - n) by lia. simpl.
    rewrite (proj2 (Z.leb_le 32 n)), (proj2 (Z.leb_gt n 32)) by lia. by destruct has_shf.
Qed.

(** The bits of a byte permutation. *)
Lemma byte_perm_testbit x y s i :
  0 <= i < 32 ->
  Z.testbit (byte_perm x y s) i =
  Z.testbit (x .| Z.shiftl y 32) (8 * ((s .> (4 * (i / 8))) .& 7) + i mod 8).
Proof.
  intros Hi. unfold byte_perm. set (pool := x .| _).
  assert (Hpick : forall k j, 0 <= k -> Z.testbit ((pool .> (8 * ((s .> (4 * k)) .& 7))) .& 255) j =
    if decide (0 <= j < 8) then Z.testbit pool (8 * ((s .> (4 * k)) .& 7) + j) else false).
  { intros k j Hk. destruct (Z.lt_ge_cases j 0).
    { rewrite Z.testbit_neg_r by lia. case_decide; [lia|done]. }
    rewrite Z.land_spec. change 255 with (Z.ones 8). case_decide.
    - rewrite Z.ones_spec_low, andb_true_r, Z.shiftr_spec by lia. f_equal. lia.
    - rewrite Z.ones_spec_high by lia. apply andb_false_r. }
  rewrite !Z.lor_spec, !Z.shiftl_spec, !Hpick by lia.
  pose proof (Z.div_mod i 8 ltac:(lia)) as Hdm. pose proof (Z.mod_pos_bound i 8 ltac:(lia)).
  assert (Hq : i / 8 = 0 \/ i / 8 = 1 \/ i / 8 = 2 \/ i / 8 = 3).
  { pose proof (Z.div_pos i 8). pose proof (Z.div_lt_upper_bound i 8 4). lia. }
  destruct Hq as [Hq|[Hq|[Hq|Hq]]]; rewrite Hq in *;
    repeat (case_decide; try lia); rewrite ?orb_false_r; simpl orb; f_equal; lia.
Qed.

Lemma pair_testbit x y j :
  in_word 32 x -> in_word 32 y -> 0 <= j < 64 ->
  Z.testbit (x .| Z.shiftl y 32) j =
  if decide (j < 32) then Z.testbit x j else Z.testbit y (j - 32).
Proof.
  intros Hx Hy Hj. rewrite Z.lor_spec, Z.shiftl_spec by lia. case_decide.
  - rewrite (Z.testbit_neg_r _ (j - 32)) by lia. apply orb_false_r.
  - by rewrite (in_word_testbit 32 ltac:(lia) x) by (done || lia).
Qed.

Lemma byte_perm_in_word x y s : in_word 32 (byte_perm x y s).
Proof.
  unfold byte_perm. set (pool := x .| _).
  assert (Hpick : forall m k, 0 <= k <= 24 -> in_word 32 (Z.shiftl ((pool .> m) .& 255) k)).
  { intros m k Hk. rewrite Z.shiftl_mul_pow2 by lia. change 255 with (Z.ones 8).
    rewrite Z.land_ones by lia. unfold in_word.
    pose proof (Z.mod_pos_bound (pool .> m) (2 ^ 8) ltac:(lia)).
    pose proof (Z.pow_le_mono_r 2 k 24). nia. }
  repeat apply lor_in_word; try lia; try (apply Hpick; lia).
  rewrite <-(Z.shiftl_0_r (_ .& 255)). apply Hpick. lia.
Qed.

(** A byte permutation of the two halves, one result bit at a time: every bit
    of the result is the bit of the lane that the rotation puts there. *)
Ltac byte_rotation :=
  intros [Hx ->]; split; [apply rot_in_word_64; [lia|done]|];
  unfold ROL8, ROR8, vectorize; cbn [x2 y2];
  f_equal; (apply (word_ext 32); [lia|apply byte_perm_in_word|by apply wrap_in_word|]);
  intros i Hi; rewrite wrap_testbit, ?Z.shiftr_spec, rot_testbit by (done || lia);
  rewrite byte_perm_testbit by lia;
  pose proof (Z.div_mod i 8 ltac:(lia)); pose proof (Z.mod_pos_bound i 8 ltac:(lia));
  assert (Hq : i / 8 = 0 \/ i / 8 = 1 \/ i / 8 = 2 \/ i / 8 = 3)
    by (pose proof (Z.div_pos i 8); pose proof (Z.div_lt_upper_bound i 8 4); lia);
  destruct Hq as [Hq|[Hq|[Hq|Hq]]]; rewrite Hq in *;
  match goal with |- context [8 * ?e] =>
    let v := eval vm_compute in (8 * e) in replace (8 * e) with v by reflexivity end;
  rewrite pair_testbit by (lia || by apply wrap_in_word);
  repeat (case_decide; try lia); rewrite wrap_testbit, ?Z.shiftr_spec by lia; f_equal; lia.

Lemma ROL8_rep a x : rep a x -> rep (ROL8 a) (rot 64 x 8).
Proof. byte_rotation. Qed.

Lemma ROR8_rep a x : rep a x -> rep (ROR8 a) (rot 64 x 56).
Proof. byte_rotation. Qed.

(** The two truth tables the hash uses: the parity of three words, and
    [a ^ (~b & c)]. *)
Lemma lop3_parity a b c i :
  0 <= i < 32 ->
  Z.testbit (lop3 a b c 0x96) i = xorb (xorb (Z.testbit a i) (Z.testbit b i)) (Z.testbit c i).
Proof.
  intros Hi.
  change (lop3 a b c 0x96) with
    (0 .| (wnot 32 a .& wnot 32 b .& c) .| (wnot 32 a .& b .& wnot 32 c) .| (a .& wnot 32 b .& wnot 32 c) .| (a .& b .& c)).
  autorewrite with bits. rewrite Z.bits_0. btauto.
Qed.

Lemma lop3_chi a b c i :
  0 <= i < 32 ->
  Z.testbit (lop3 a b c 0xD2) i = xorb (Z.testbit a i) (negb (Z.testbit b i) && Z.testbit c i).
Proof.
  intros Hi.
  change (lop3 a b c 0xD2) with
    (0 .| (wnot 32 a .& wnot 32 b .& c) .| (a .& wnot 32 b .& wnot 32 c) .| (a .& b .& wnot 32 c) .| (a .& b .& c)).
  autorewrite with bits. rewrite Z.bits_0. btauto.
Qed.

Lemma lop3_in_word a b c lut :
  in_word 32 a -> in_word 32 b -> in_word 32 c -> in_word 32 (lop3 a b c lut).
Proof.
  intros Ha Hb Hc. unfold lop3. apply (fold_left_inv (in_word 32)); [by apply in_word_0|].
  intros r k _ Hr. destruct (Z.testbit lut k); [|done].
  apply lor_in_word; [lia|done|]. apply land_in_word_l; [lia|].
  apply land_in_word_l; [lia|]. destruct (Z.testbit k 2); [done|by apply wnot_in_word].
Qed.
End Lanes.

(** ** Bytes of a lane *)

Lemma le_word_testbit l i :
  bytes_ok l -> 0 <= i ->
  Z.testbit (le_word l) i = Z.testbit (nth (Z.to_nat (i / 8)) l 0) (i mod 8).
Proof.
  intros Hl. revert i. induction Hl as [|b l Hb _ IH]; intros i Hi.
  { cbn [le_word]. destruct (Z.to_nat (i / 8)); cbn [nth]; by rewrite !Z.bits_0. }
  cbn [le_word]. destruct (Z.lt_ge_cases i 8).
  - rewrite Z.div_small, Z.mod_small by lia. simpl nth.
    rewrite <-(Z.mod_pow2_bits_low _ 8) by lia.
    replace ((b + 256 * le_word l) mod 2 ^ 8) with b; [done|].
    rewrite Z.mul_comm, Z.mod_add by lia. symmetry. by apply Z.mod_small.
  - replace (Z.to_nat (i / 8)) with (S (Z.to_nat ((i - 8) / 8))).
    2:{ replace i with (i - 8 + 1 * 8) at 2 by lia. rewrite Z.div_add by lia.
        pose proof (Z.div_pos (i - 8) 8). lia. }
    replace (i mod 8) with ((i - 8) mod 8)
      by (replace i with (i - 8 + 1 * 8) at 2 by lia; by rewrite Z.mod_add by lia).
    cbn [nth]. rewrite <-IH by lia. replace i with ((i - 8) + 8) at 1 by lia.
    rewrite <-Z.div_pow2_bits by lia. f_equal.
    rewrite Z.mul_comm, Z.div_add, Z.div_small by (done || lia). lia.
Qed.

(** A byte permutation of two words given by their bytes. *)
Lemma byte_perm_word l1 l2 s :
  hash_wf 4 l1 -> hash_wf 4 l2 ->
  byte_perm (le_word l1) (le_word l2) s =
  le_word ((fun k => nth (Z.to_nat ((s .> (4 * k)) .& 7)) (l1 ++ l2) 0) <$> [0; 1; 2; 3]).
Proof.
  intros [H1 Hb1] [H2 Hb2].
  assert (Hw : forall l, length l = 4%nat -> bytes_ok l -> in_word 32 (le_word l)).
  { intros l Hl Hok. pose proof (le_word_in_word l Hok) as H. by rewrite Hl in H. }
  assert (Hsel : forall k, (Z.to_nat ((s .> (4 * k)) .& 7) < length (l1 ++ l2))%nat).
  { intros k. rewrite length_app, H1, H2. change 7 with (Z.ones 3).
    rewrite Z.land_ones by lia. pose proof (Z.mod_pos_bound (s .> (4 * k)) (2 ^ 3)). lia. }
  assert (Hok : bytes_ok ((fun k => nth (Z.to_nat ((s .> (4 * k)) .& 7)) (l1 ++ l2) 0) <$> [0; 1; 2; 3])).
  { apply Forall_fmap, Forall_true. intros k.
    apply (Forall_nth_lt is_byte); [by apply Forall_app|apply Hsel]. }
  apply (word_ext 32); [lia|apply byte_perm_in_word|by apply Hw|].
  intros i Hi. rewrite byte_perm_testbit, le_word_testbit by (done || lia).
  pose proof (devectorize_add (make_uint2 (le_word l1) (le_word l2)) (Hw _ H1 Hb1)) as Hd.
  unfold devectorize in Hd. cbn [x2 y2] in Hd. rewrite Hd. clear Hd.
  replace (2 ^ 32) with (2 ^ (8 * Z.of_nat (length l1))) by by rewrite H1.
  rewrite <-le_word_app, le_word_testbit; [|by apply Forall_app|].
  2:{ pose proof (Z.mod_pos_bound i 8 ltac:(lia)).
      pose proof (proj2 (Z.land_nonneg (s .> (4 * (i / 8))) 7)). lia. }
  pose proof (Z.mod_pos_bound i 8 ltac:(lia)) as Hm.
  rewrite (Z.mul_comm 8 (_ .& 7)), Z.div_add_l, (Z.div_small (i mod 8)), Z.add_0_r by lia.
  rewrite Z.add_comm, Z.mod_add, Z.mod_mod by lia.
  assert (Hq : i / 8 = 0 \/ i / 8 = 1 \/ i / 8 = 2 \/ i / 8 = 3).
  { pose proof (Z.div_pos i 8). pose proof (Z.div_lt_upper_bound i 8 4). lia. }
  by destruct Hq as [-> | [-> | [-> | -> ]]].
Qed.

Lemma vectorize_bytes l1 l2 :
  hash_wf 4 l1 -> hash_wf 4 l2 ->
  vectorize (le_word (l1 ++ l2)) = make_uint2 (le_word l1) (le_word l2).
Proof.
  intros [H1 Hb1] [H2 Hb2]. rewrite le_word_app, H1.
  pose proof (le_word_in_word l1 Hb1) as Hw1. pose proof (le_word_in_word l2 Hb2) as Hw2.
  rewrite H1 in Hw1. rewrite H2 in Hw2.
  destruct (make_uint2_rep (le_word l1) (le_word l2) Hw1 Hw2) as [_ Heq]. by rewrite Heq.
Qed.

(** Reversing the bytes of a 64-bit value through its two halves. *)
Lemma cuda_swab64_bswap x : in_word 64 x -> cuda_swab64 x = bswap64 x.
Proof.
  intros Hx. unfold bswap64.
  assert (Hl : hash_wf 8 (le_bytes 8 x)) by (split; [apply length_le_bytes|apply le_bytes_ok]).
  rewrite <-(le_word_bytes 8 x Hx) at 1. revert Hl. generalize (le_bytes 8 x). intros l [Hlen Hok].
  destruct l as [|b0 [|b1 [|b2 [|b3 [|b4 [|b5 [|b6 [|b7 [|]]]]]]]]]; try discriminate Hlen.
  unfold cuda_swab64. rewrite !Forall_cons in Hok.
  change [b0; b1; b2; b3; b4; b5; b6; b7] with ([b0; b1; b2; b3] ++ [b4; b5; b6; b7]).
  assert (W0 : hash_wf 4 [0; 0; 0; 0]) by (split; [done|apply (zeros_ok 4)]).
  assert (W1 : hash_wf 4 [b0; b1; b2; b3]) by (split; [done|]; rewrite !Forall_cons; tauto).
  assert (W2 : hash_wf 4 [b4; b5; b6; b7]) by (split; [done|]; rewrite !Forall_cons; tauto).
  assert (W3 : hash_wf 4 [b3; b2; b1; b0]) by (split; [done|]; rewrite !Forall_cons; tauto).
  assert (W4 : hash_wf 4 [b7; b6; b5; b4]) by (split; [done|]; rewrite !Forall_cons; tauto).
  rewrite vectorize_bytes by done. cbn [x2 y2].
  assert (Hperm : forall l, hash_wf 4 l -> byte_perm (le_word l) 0 0x0123 = le_word (reverse l)).
  { intros l Hl. rewrite (byte_perm_word l [0; 0; 0; 0] 0x0123 Hl W0 : byte_perm _ 0 _ = _).
    destruct Hl as [Hl _]. by destruct l as [|? [|? [|? [|? [|]]]]]. }
  rewrite !Hperm by done.
  change (devectorize (make_uint2 (le_word [b7; b6; b5; b4]) (le_word [b3; b2; b1; b0])) =
          le_word ([b7; b6; b5; b4] ++ [b3; b2; b1; b0])).
  rewrite <-vectorize_bytes by done. apply devectorize_rep, vectorize_rep.
  apply (le_word_in_word ([b7; b6; b5; b4] ++ [b3; b2; b1; b0])).
  apply Forall_app. split; [apply W4|apply W3].
Qed.
