(* ===== verification/CudaKeccak.v ===== *)
(** * The Keccak kernels of [libcuda/keccak.cuh]

    [keccak_f1600_init], [keccak_f1600_final] and [SHA3_512] keep the state as
    25 register pairs, update it in place, take shortcuts in the first round
    (lanes known to be zero) and in the last one (lanes nobody reads).  They
    are shown to be the Keccak hashes of the specification. *)

From stdpp Require Import base numbers list.
From Stdlib Require Import ZArith Lia Bool Btauto.
From S2P Require Import Prelude Words KeccakSpec KeccakF Keccak EthashSpec Ethash EthashHash CudaHelper.

Local Open Scope Z_scope.
Local Open Scope word_scope.

Definition keccak_round_constants : list uint2 :=
  [make_uint2 0x00000001 0x00000000; make_uint2 0x00008082 0x00000000; make_uint2 0x0000808a 0x80000000;
   make_uint2 0x80008000 0x80000000; make_uint2 0x0000808b 0x00000000; make_uint2 0x80000001 0x00000000;
   make_uint2 0x80008081 0x80000000; make_uint2 0x00008009 0x80000000; make_uint2 0x0000008a 0x00000000;
   make_uint2 0x00000088 0x00000000; make_uint2 0x80008009 0x00000000; make_uint2 0x8000000a 0x00000000;
   make_uint2 0x8000808b 0x00000000; make_uint2 0x0000008b 0x80000000; make_uint2 0x00008089 0x80000000;
   make_uint2 0x00008003 0x80000000; make_uint2 0x00008002 0x80000000; make_uint2 0x00000080 0x80000000;
   make_uint2 0x0000800a 0x00000000; make_uint2 0x8000000a 0x80000000; make_uint2 0x80008081 0x80000000;
   make_uint2 0x00008080 0x80000000; make_uint2 0x80000001 0x00000000; make_uint2 0x80008008 0x80000000].

(** The 25 lanes of a state and the register pairs that represent them. *)
Ltac lanes_of H :=
  match type of H with Forall2 rep ?s ?zs =>
    let L := fresh in
    match goal with Hl : length zs = 25%nat |- _ => pose proof (lanes_25 zs Hl) as L end;
    repeat match type of L with ex _ => destruct L as [? L] end; subst zs;
    repeat (apply Forall2_cons_inv_r in H as (? & ? & ? & H & ->));
    apply Forall2_nil_inv_r in H as ->
  end.

Section Kernel.
Context {arch : Arch}.

Definition xor5 (a b c d e : uint2) : uint2 :=
  if has_lop3 then
    make_uint2 (lop3 (lop3 (x2 a) (x2 b) (x2 c) 0x96) (x2 d) (x2 e) 0x96)
               (lop3 (lop3 (y2 a) (y2 b) (y2 c) 0x96) (y2 d) (y2 e) 0x96)
  else a ^^ b ^^ c ^^ d ^^ e.

Definition xor3 (a b c : uint2) : uint2 :=
  if has_lop3 then
    make_uint2 (lop3 (x2 a) (x2 b) (x2 c) 0x96) (lop3 (y2 a) (y2 b) (y2 c) 0x96)
  else a ^^ b ^^ c.

(** [a ^ (~b) & c] in the fallback: [&] binds tighter than [^]. *)
Definition chi (a b c : uint2) : uint2 :=
  if has_lop3 then
    make_uint2 (lop3 (x2 a) (x2 b) (x2 c) 0xD2) (lop3 (y2 a) (y2 b) (y2 c) 0xD2)
  else a ^^ and_uint2 (not_uint2 b) c.

(** The five column parities [t[0..4]]. *)
Definition columns : Type := uint2 * uint2 * uint2 * uint2 * uint2.

(** theta: c = a[0,i] ^ a[1,i] ^ .. a[4,i] *)
Definition theta_columns (s : list uint2) : option columns :=
  match s with
  | [s0; s1; s2; s3; s4;
     s5; s6; s7; s8; s9;
     s10; s11; s12; s13; s14;
     s15; s16; s17; s18; s19;
     s20; s21; s22; s23; s24] =>
      let t0 := xor5 s0 s5 s10 s15 s20 in
      let t1 := xor5 s1 s6 s11 s16 s21 in
      let t2 := xor5 s2 s7 s12 s17 s22 in
      let t3 := xor5 s3 s8 s13 s18 s23 in
      let t4 := xor5 s4 s9 s14 s19 s24 in
      Some (t0, t1, t2, t3, t4)
  | _ => None
  end.

(** The first round of [keccak_f1600_init], where lanes 6, 7 and 9 to 24 are
    zero and lanes 5 and 8 have one half zero. *)
Definition init_columns (s : list uint2) : option columns :=
  match s with
  | s0 :: s1 :: s2 :: s3 :: s4 :: s5 :: _ :: _ :: s8 :: _ =>
      let t0 := make_uint2 (x2 s0 .^ x2 s5) (y2 s0) in
      let t1 := s1 in
      let t2 := s2 in
      let t3 := make_uint2 (x2 s3) (y2 s3 .^ y2 s8) in
      let t4 := s4 in
      Some (t0, t1, t2, t3, t4)
  | _ => None
  end.

(** The first round of [keccak_f1600_final], where lanes 13 to 15 and 17 to 24
    are zero. *)
Definition final_columns (s : list uint2) : option columns :=
  match s with
  | [s0; s1; s2; s3; s4;
     s5; s6; s7; s8; s9;
     s10; s11; s12; s13; s14;
     s15; s16; s17; s18; s19;
     s20; s21; s22; s23; s24] =>
      let t0 := xor3 s0 s5 s10 in
      let t1 := xor3 s1 s6 s11 ^^ s16 in
      let t2 := xor3 s2 s7 s12 in
      let t3 := s3 ^^ s8 in
      let t4 := s4 ^^ s9 in
      Some (t0, t1, t2, t3, t4)
  | _ => None
  end.

(** theta: a[0,i], a[1,i], .. a[4,i] ^= d[i] *)
Definition theta_apply (t : columns) (s : list uint2) : list uint2 :=
  match s with
  | [s0; s1; s2; s3; s4;
     s5; s6; s7; s8; s9;
     s10; s11; s12; s13; s14;
     s15; s16; s17; s18; s19;
     s20; s21; s22; s23; s24] =>
      let '(t0, t1, t2, t3, t4) := t in
      let u := t4 ^^ ROL2 t1 1 in let s0 := s0 ^^ u in let s5 := s5 ^^ u in
      let s10 := s10 ^^ u in let s15 := s15 ^^ u in let s20 := s20 ^^ u in
      let u := t0 ^^ ROL2 t2 1 in let s1 := s1 ^^ u in let s6 := s6 ^^ u in
      let s11 := s11 ^^ u in let s16 := s16 ^^ u in let s21 := s21 ^^ u in
      let u := t1 ^^ ROL2 t3 1 in let s2 := s2 ^^ u in let s7 := s7 ^^ u in
      let s12 := s12 ^^ u in let s17 := s17 ^^ u in let s22 := s22 ^^ u in
      let u := t2 ^^ ROL2 t4 1 in let s3 := s3 ^^ u in let s8 := s8 ^^ u in
      let s13 := s13 ^^ u in let s18 := s18 ^^ u in let s23 := s23 ^^ u in
      let u := t3 ^^ ROL2 t0 1 in let s4 := s4 ^^ u in let s9 := s9 ^^ u in
      let s14 := s14 ^^ u in let s19 := s19 ^^ u in let s24 := s24 ^^ u in
      [s0; s1; s2; s3; s4;
       s5; s6; s7; s8; s9;
       s10; s11; s12; s13; s14;
       s15; s16; s17; s18; s19;
       s20; s21; s22; s23; s24]
  | _ => s
  end.

(** rho pi: b[..] = rotl(a[..], ..), with the rotations by 8 and 56 as the
    function writes them. *)
Definition rho_pi (rol8 rol56 : uint2 -> uint2) (s : list uint2) : list uint2 :=
  match s with
  | [s0; s1; s2; s3; s4;
     s5; s6; s7; s8; s9;
     s10; s11; s12; s13; s14;
     s15; s16; s17; s18; s19;
     s20; s21; s22; s23; s24] =>
      let u := s1 in
      let s1 := ROL2 s6 44 in
      let s6 := ROL2 s9 20 in
      let s9 := ROL2 s22 61 in
      let s22 := ROL2 s14 39 in
      let s14 := ROL2 s20 18 in
      let s20 := ROL2 s2 62 in
      let s2 := ROL2 s12 43 in
      let s12 := ROL2 s13 25 in
      let s13 := rol8 s19 in
      let s19 := rol56 s23 in
      let s23 := ROL2 s15 41 in
      let s15 := ROL2 s4 27 in
      let s4 := ROL2 s24 14 in
      let s24 := ROL2 s21 2 in
      let s21 := ROL2 s8 55 in
      let s8 := ROL2 s16 45 in
      let s16 := ROL2 s5 36 in
      let s5 := ROL2 s3 28 in
      let s3 := ROL2 s18 21 in
      let s18 := ROL2 s17 15 in
      let s17 := ROL2 s11 10 in
      let s11 := ROL2 s7 6 in
      let s7 := ROL2 s10 3 in
      let s10 := ROL2 u 1 in
      [s0; s1; s2; s3; s4;
       s5; s6; s7; s8; s9;
       s10; s11; s12; s13; s14;
       s15; s16; s17; s18; s19;
       s20; s21; s22; s23; s24]
  | _ => s
  end.

(** chi: a[i,j] ^= ~b[i,j+1] & b[i,j+2] *)
Definition chi_rows (s : list uint2) : list uint2 :=
  match s with
  | [s0; s1; s2; s3; s4;
     s5; s6; s7; s8; s9;
     s10; s11; s12; s13; s14;
     s15; s16; s17; s18; s19;
     s20; s21; s22; s23; s24] =>
      let u := s0 in
      let v := s1 in
      let s0 := chi s0 s1 s2 in
      let s1 := chi s1 s2 s3 in
      let s2 := chi s2 s3 s4 in
      let s3 := chi s3 s4 u in
      let s4 := chi s4 u v in
      let u := s5 in
      let v := s6 in
      let s5 := chi s5 s6 s7 in
      let s6 := chi s6 s7 s8 in
      let s7 := chi s7 s8 s9 in
      let s8 := chi s8 s9 u in
      let s9 := chi s9 u v in
      let u := s10 in
      let v := s11 in
      let s10 := chi s10 s11 s12 in
      let s11 := chi s11 s12 s13 in
      let s12 := chi s12 s13 s14 in
      let s13 := chi s13 s14 u in
      let s14 := chi s14 u v in
      let u := s15 in
      let v := s16 in
      let s15 := chi s15 s16 s17 in
      let s16 := chi s16 s17 s18 in
      let s17 := chi s17 s18 s19 in
      let s18 := chi s18 s19 u in
      let s19 := chi s19 u v in
      let u := s20 in
      let v := s21 in
      let s20 := chi s20 s21 s22 in
      let s21 := chi s21 s22 s23 in
      let s22 := chi s22 s23 s24 in
      let s23 := chi s23 s24 u in
      let s24 := chi s24 u v in
      [s0; s1; s2; s3; s4;
       s5; s6; s7; s8; s9;
       s10; s11; s12; s13; s14;
       s15; s16; s17; s18; s19;
       s20; s21; s22; s23; s24]
  | _ => s
  end.

(** iota: a[0,0] ^= round constant *)
Definition iota0 (i : nat) (s : list uint2) : list uint2 :=
  match s, keccak_round_constants !! i with
  | s0 :: rest, Some rc => (s0 ^^ rc) :: rest
  | _, _ => s
  end.

(** One round with the given column parities. *)
Definition round_with (rol8 rol56 : uint2 -> uint2) (cols : list uint2 -> option columns)
    (i : nat) (s : list uint2) : list uint2 :=
  match cols s with
  | Some t => iota0 i (chi_rows (rho_pi rol8 rol56 (theta_apply t s)))
  | None => s
  end.

(** The last round of [keccak_f1600_init] and [SHA3_512]: only the lanes that
    reach [s[0..7]] are computed. *)
Definition last_round (s : list uint2) : list uint2 :=
  match s with
  | [s0; s1; s2; s3; s4;
     s5; s6; s7; s8; s9;
     s10; s11; s12; s13; s14;
     s15; s16; s17; s18; s19;
     s20; s21; s22; s23; s24] =>
      let t0 := xor5 s0 s5 s10 s15 s20 in
      let t1 := xor5 s1 s6 s11 s16 s21 in
      let t2 := xor5 s2 s7 s12 s17 s22 in
      let t3 := xor5 s3 s8 s13 s18 s23 in
      let t4 := xor5 s4 s9 s14 s19 s24 in
      let u := t4 ^^ ROL2 t1 1 in let s0 := s0 ^^ u in let s10 := s10 ^^ u in
      let u := t0 ^^ ROL2 t2 1 in let s6 := s6 ^^ u in let s16 := s16 ^^ u in
      let u := t1 ^^ ROL2 t3 1 in let s12 := s12 ^^ u in let s22 := s22 ^^ u in
      let u := t2 ^^ ROL2 t4 1 in let s3 := s3 ^^ u in let s18 := s18 ^^ u in
      let u := t3 ^^ ROL2 t0 1 in let s9 := s9 ^^ u in let s24 := s24 ^^ u in
      let u := s1 in
      let s1 := ROL2 s6 44 in
      let s6 := ROL2 s9 20 in
      let s9 := ROL2 s22 61 in
      let s2 := ROL2 s12 43 in
      let s4 := ROL2 s24 14 in
      let s8 := ROL2 s16 45 in
      let s5 := ROL2 s3 28 in
      let s3 := ROL2 s18 21 in
      let s7 := ROL2 s10 3 in
      let u := s0 in
      let v := s1 in
      let s0 := chi s0 s1 s2 in
      let s1 := chi s1 s2 s3 in
      let s2 := chi s2 s3 s4 in
      let s3 := chi s3 s4 u in
      let s4 := chi s4 u v in
      let s5 := chi s5 s6 s7 in
      let s6 := chi s6 s7 s8 in
      let s7 := chi s7 s8 s9 in
      iota0 23 [s0; s1; s2; s3; s4;
                s5; s6; s7; s8; s9;
                s10; s11; s12; s13; s14;
                s15; s16; s17; s18; s19;
                s20; s21; s22; s23; s24]
  | _ => s
  end.

(** The last round of [keccak_f1600_final]: only [s[0]]. *)
Definition last_lane (s : list uint2) : Z :=
  match s with
  | [s0; s1; s2; s3; s4;
     s5; s6; s7; s8; s9;
     s10; s11; s12; s13; s14;
     s15; s16; s17; s18; s19;
     s20; s21; s22; s23; s24] =>
      let t0 := xor5 s0 s5 s10 s15 s20 in
      let t1 := xor5 s1 s6 s11 s16 s21 in
      let t2 := xor5 s2 s7 s12 s17 s22 in
      let t3 := xor5 s3 s8 s13 s18 s23 in
      let t4 := xor5 s4 s9 s14 s19 s24 in
      let s0 := xor3 s0 t4 (ROL2 t1 1) in
      let s6 := xor3 s6 t0 (ROL2 t2 1) in
      let s12 := xor3 s12 t1 (ROL2 t3 1) in
      let s1 := ROL2 s6 44 in
      let s2 := ROL2 s12 43 in
      let s0 := chi s0 s1 s2 in
      match keccak_round_constants !! 23%nat with
      | Some rc => devectorize (s0 ^^ rc)
      | None => 0
      end
  | _ => 0
  end.

Definition u2zero : uint2 := make_uint2 0 0.

(** [state[4]] holds the nonce on entry; [state[0..11]] is written. *)
Definition keccak_f1600_init (d_header : uint4 * uint4) (state : list uint2) : list uint2 :=
  let '(s0, s1) := devectorize2 d_header.1 in
  let '(s2, s3) := devectorize2 d_header.2 in
  let s4 := nth 4 state u2zero in
  let s := [s0; s1; s2; s3; s4; make_uint2 1 0; u2zero; u2zero; make_uint2 0 0x80000000] ++
           replicate 16 u2zero in
  let s := round_with ROL8 ROR8 init_columns 0 s in
  let s := fold_left (fun s i => round_with ROL8 ROR8 theta_columns i s) (seq 1 22) s in
  let s := last_round s in
  take 12 s ++ drop 12 state.

Definition keccak_f1600_final (state : list uint2) : Z :=
  let s := take 12 state ++
           [make_uint2 1 0; u2zero; u2zero; u2zero; make_uint2 0 0x80000000] ++
           replicate 8 u2zero in
  let s := round_with ROL8 ROR8 final_columns 0 s in
  let s := fold_left (fun s i => round_with ROL8 ROR8 theta_columns i s) (seq 1 22) s in
  last_lane s.

Definition SHA3_512 (s : list uint2) : list uint2 :=
  let s := take 8 s ++ [make_uint2 1 0x80000000] ++ replicate 16 u2zero in
  let rol n := fun a => ROL2 a n in
  let s := fold_left (fun s i => round_with (rol 8) (rol 56) theta_columns i s) (seq 0 23) s in
  last_round s.

(** ** The lane operations *)

Lemma xor3_rep a b c x y z :
  rep a x -> rep b y -> rep c z -> rep (xor3 a b c) (x .^ y .^ z).
Proof.
  intros Ha Hb Hc. unfold xor3. destruct has_lop3; [|by auto using xor_rep].
  destruct Ha as [Hx ->], Hb as [Hy ->], Hc as [Hz ->].
  split; [auto with words|]. unfold vectorize. cbn [x2 y2].
  f_equal; (apply (word_ext 32);
    [lia|apply lop3_in_word; auto with words|auto with words|]); intros i Hi;
    rewrite lop3_parity by done; autorewrite with bits; done.
Qed.

Lemma lop3_xor3 a b c : has_lop3 = true ->
  make_uint2 (lop3 (x2 a) (x2 b) (x2 c) 0x96) (lop3 (y2 a) (y2 b) (y2 c) 0x96) = xor3 a b c.
Proof. intros H. unfold xor3. by rewrite H. Qed.

Lemma xor5_rep a b c d e x y z v w :
  rep a x -> rep b y -> rep c z -> rep d v -> rep e w ->
  rep (xor5 a b c d e) (x .^ y .^ z .^ v .^ w).
Proof.
  intros Ha Hb Hc Hd He. unfold xor5. destruct has_lop3 eqn:Hl.
  - change (rep (make_uint2
      (lop3 (x2 (make_uint2 (lop3 (x2 a) (x2 b) (x2 c) 0x96) (lop3 (y2 a) (y2 b) (y2 c) 0x96)))
        (x2 d) (x2 e) 0x96)
      (lop3 (y2 (make_uint2 (lop3 (x2 a) (x2 b) (x2 c) 0x96) (lop3 (y2 a) (y2 b) (y2 c) 0x96)))
        (y2 d) (y2 e) 0x96)) (x .^ y .^ z .^ v .^ w)).
    rewrite !lop3_xor3 by done. by repeat apply xor3_rep.
  - by repeat apply xor_rep.
Qed.

Lemma chi_rep a b c x y z :
  rep a x -> rep b y -> rep c z -> rep (chi a b c) (x .^ (wnot 64 y .& z)).
Proof.
  intros [Hx ->] [Hy ->] [Hz ->]. split; [auto with words|].
  assert (Hbits : forall p, 0 <= p <= 32 ->
    lop3 (u32 (x .> p)) (u32 (y .> p)) (u32 (z .> p)) 0xD2 = u32 ((x .^ (wnot 64 y .& z)) .> p) /\
    u32 (x .> p) .^ (wnot 32 (u32 (y .> p)) .& u32 (z .> p)) = u32 ((x .^ (wnot 64 y .& z)) .> p)).
  { intros p Hp. split; (apply (word_ext 32);
      [lia|first [apply lop3_in_word|apply lxor_in_word]; auto with words|auto with words|]);
      intros i Hi; rewrite ?lop3_chi by done; autorewrite with bits; done. }
  destruct (Hbits 0 ltac:(lia)) as [H1 H2], (Hbits 32 ltac:(lia)) as [H3 H4].
  rewrite !Z.shiftr_0_r in H1, H2.
  unfold chi, vectorize. destruct has_lop3; unfold xor_uint2, and_uint2, not_uint2; cbn [x2 y2].
  - by rewrite H1, H3.
  - by rewrite H2, H4.
Qed.

Hint Resolve xor_rep xor3_rep xor5_rep chi_rep ROL8_rep ROR8_rep : lanes.
Hint Extern 2 (rep (ROL2 _ _) _) => apply ROL2_rep; [lia|lia|] : lanes.

(** ** The rounds *)

Definition parity (zs : list Z) (x : nat) : Z :=
  lane zs x 0 .^ lane zs x 1 .^ lane zs x 2 .^ lane zs x 3 .^ lane zs x 4.

Definition columns_rep (t : columns) (zs : list Z) : Prop :=
  let '(t0, t1, t2, t3, t4) := t in
  rep t0 (parity zs 0) /\ rep t1 (parity zs 1) /\ rep t2 (parity zs 2) /\
  rep t3 (parity zs 3) /\ rep t4 (parity zs 4).

Lemma theta_columns_rep s zs :
  length zs = 25%nat -> reps s zs ->
  exists t, theta_columns s = Some t /\ columns_rep t zs.
Proof.
  intros Hlen H. lanes_of H. eexists. split; [reflexivity|].
  cbv beta iota delta [columns_rep]. split_and!; apply xor5_rep; assumption.
Qed.

Lemma theta_apply_rep t s zs :
  length zs = 25%nat -> reps s zs -> columns_rep t zs ->
  reps (theta_apply t s) (theta 64 zs).
Proof.
  intros Hlen H Ht. destruct t as [[[[t0 t1] t2] t3] t4]. destruct Ht as (H0 & H1 & H2 & H3 & H4).
  lanes_of H. rewrite theta_lanes.
  cbv [parity lane nth Nat.modulo Nat.divmod Nat.add Nat.mul Nat.sub fst snd] in H0, H1, H2, H3, H4.
  cbv zeta beta iota delta [theta_apply].
  repeat (constructor; [auto with lanes|]). constructor.
Qed.

Lemma rho_pi_rep rol8 rol56 s zs :
  (forall a x, rep a x -> rep (rol8 a) (rot 64 x 8)) ->
  (forall a x, rep a x -> rep (rol56 a) (rot 64 x 56)) ->
  length zs = 25%nat -> reps s zs -> reps (rho_pi rol8 rol56 s) (pi (rho 64 zs)).
Proof.
  intros H8 H56 Hlen H. lanes_of H. rewrite rho_lanes_64, pi_lanes.
  cbv zeta beta iota delta [rho_pi].
  repeat (constructor; [auto with lanes|]). constructor.
Qed.

Lemma chi_rows_rep s zs :
  length zs = 25%nat -> reps s zs -> reps (chi_rows s) (KeccakSpec.chi 64 zs).
Proof.
  intros Hlen H. lanes_of H. rewrite chi_lanes. cbv zeta beta iota delta [chi_rows].
  repeat (constructor; [by apply chi_rep|]). constructor.
Qed.

Lemma keccak_round_constants_rep :
  reps keccak_round_constants (round_constant 6 <$> seq 0 24).
Proof.
  rewrite <-round_constants_spec.
  repeat (constructor; [split; [split; [discriminate|reflexivity]|reflexivity]|]). constructor.
Qed.

Lemma iota0_rep i s zs :
  (i < 24)%nat -> length zs = 25%nat -> reps s zs ->
  reps (iota0 i s) (iota (round_constant 6 i) zs).
Proof.
  intros Hi Hlen H. pose proof keccak_round_constants_rep as Hrc.
  destruct (Forall2_lookup_r _ _ _ i (round_constant 6 i) Hrc) as (rc & Hi' & Hrep).
  { rewrite list_lookup_fmap, lookup_seq_lt by done. done. }
  lanes_of H. rewrite iota_lanes. unfold iota0. rewrite Hi'.
  repeat (constructor; [auto with lanes|]). constructor.
Qed.

Lemma round_with_rep rol8 rol56 cols t i s zs :
  (forall a x, rep a x -> rep (rol8 a) (rot 64 x 8)) ->
  (forall a x, rep a x -> rep (rol56 a) (rot 64 x 56)) ->
  (i < 24)%nat -> length zs = 25%nat -> reps s zs ->
  cols s = Some t -> columns_rep t zs ->
  reps (round_with rol8 rol56 cols i s) (keccak_round 64 (round_constant 6 i) zs).
Proof.
  intros H8 H56 Hi Hlen Hs Ht Hc. unfold round_with, keccak_round. rewrite Ht.
  apply iota0_rep; [done|done|]. apply chi_rows_rep; [done|].
  apply rho_pi_rep; [done|done|done|]. by apply theta_apply_rep.
Qed.

(** The first [n] rounds of the reference. *)
Definition rounds (a n : nat) (zs : list Z) : list Z :=
  fold_left (fun st i => keccak_round 64 (round_constant 6 i) st) (seq a n) zs.

Lemma length_rounds a n zs : length zs = 25%nat -> length (rounds a n zs) = 25%nat.
Proof. intros H. by apply (fold_left_inv (fun st => length st = 25%nat)). Qed.

Lemma keccak_f_rounds zs :
  keccak_f 6 zs = keccak_round 64 (round_constant 6 23) (rounds 0 23 zs).
Proof. unfold keccak_f, rounds. change (seq 0 (12 + 2 * 6)) with (seq 0 23 ++ [23%nat]).
  by rewrite fold_left_app. Qed.

Lemma keccak_f_rounds_first zs :
  keccak_f 6 zs = keccak_round 64 (round_constant 6 23)
    (rounds 1 22 (keccak_round 64 (round_constant 6 0) zs)).
Proof. apply keccak_f_rounds. Qed.

Lemma rounds_rep rol8 rol56 a n s zs :
  (forall a x, rep a x -> rep (rol8 a) (rot 64 x 8)) ->
  (forall a x, rep a x -> rep (rol56 a) (rot 64 x 56)) ->
  (a + n <= 24)%nat -> length zs = 25%nat -> reps s zs ->
  reps (fold_left (fun s i => round_with rol8 rol56 theta_columns i s) (seq a n) s)
    (rounds a n zs).
Proof.
  intros H8 H56. unfold rounds. revert a s zs.
  induction n as [|n IH]; intros a s zs Ha Hlen Hs; [done|]. cbn [seq fold_left].
  apply IH; [lia|apply length_keccak_round|].
  destruct (theta_columns_rep s zs Hlen Hs) as (t & Ht & Hc).
  apply (round_with_rep rol8 rol56 _ t); auto; lia.
Qed.

(** The lanes the last round computes are those of the full round. *)
Lemma last_round_rep s zs :
  length zs = 25%nat -> reps s zs ->
  reps (take 8 (last_round s)) (take 8 (keccak_round 64 (round_constant 6 23) zs)) /\
  length (last_round s) = 25%nat.
Proof.
  intros Hlen H. pose proof keccak_round_constants_rep as Hrc.
  destruct (Forall2_lookup_r _ _ _ 23%nat (round_constant 6 23) Hrc) as (rc & Hi' & Hrep); [done|].
  lanes_of H. unfold keccak_round. rewrite theta_lanes. cbv zeta.
  rewrite rho_lanes_64, pi_lanes, chi_lanes, iota_lanes.
  cbv zeta beta iota delta [last_round iota0]. rewrite Hi'. cbn [take]. split; [|done].
  repeat (constructor; [auto 8 with lanes|]). constructor.
Qed.

Lemma last_lane_eq s zs :
  length zs = 25%nat -> reps s zs ->
  last_lane s = nth 0 (keccak_round 64 (round_constant 6 23) zs) 0.
Proof.
  intros Hlen H. pose proof keccak_round_constants_rep as Hrc.
  destruct (Forall2_lookup_r _ _ _ 23%nat (round_constant 6 23) Hrc) as (rc & Hi' & Hrep); [done|].
  lanes_of H. unfold keccak_round. rewrite theta_lanes. cbv zeta.
  rewrite rho_lanes_64, pi_lanes, chi_lanes, iota_lanes.
  cbv zeta beta iota delta [last_lane]. rewrite Hi'. cbn [nth]. apply devectorize_rep.
  rewrite <-!(Z.lxor_assoc _ _ (rot 64 _ 1)). auto 8 with lanes.
Qed.

(** ** The padded states *)

Definition zero_lanes (n : nat) : list Z := replicate n 0.

Lemma zero_rep : rep u2zero 0.
Proof. split; [by apply in_word_0|reflexivity]. Qed.
Lemma one_rep : rep (make_uint2 1 0) 1.
Proof. split; [split; [discriminate|reflexivity]|reflexivity]. Qed.
Lemma top_rep : rep (make_uint2 0 0x80000000) (2 ^ 63).
Proof. split; [split; [discriminate|reflexivity]|reflexivity]. Qed.
Lemma one_top_rep : rep (make_uint2 1 0x80000000) (2 ^ 63 + 1).
Proof. split; [split; [discriminate|reflexivity]|reflexivity]. Qed.
Hint Resolve zero_rep one_rep top_rep one_top_rep : lanes.

Lemma zeros_rep n : reps (replicate n u2zero) (replicate n 0).
Proof. induction n; constructor; [apply zero_rep|done]. Qed.

Lemma init_columns_rep s0 s1 s2 s3 s4 z0 z1 z2 z3 z4 :
  rep s0 z0 -> rep s1 z1 -> rep s2 z2 -> rep s3 z3 -> rep s4 z4 ->
  exists t,
    init_columns ([s0; s1; s2; s3; s4; make_uint2 1 0; u2zero; u2zero; make_uint2 0 0x80000000] ++
      replicate 16 u2zero) = Some t /\
    columns_rep t ([z0; z1; z2; z3; z4; 1; 0; 0; 2 ^ 63] ++ replicate 16 0).
Proof.
  intros H0 H1 H2 H3 H4. eexists. split; [reflexivity|].
  cbv [columns_rep parity lane nth Nat.modulo Nat.divmod Nat.add Nat.mul Nat.sub fst snd
       app replicate x2 y2]. rewrite !Z.lxor_0_r.
  split_and!; [|done|done| |done].
  - replace (make_uint2 _ _) with (s0 ^^ make_uint2 1 0); [auto with lanes|].
    unfold xor_uint2. cbn [x2 y2]. by rewrite Z.lxor_0_r.
  - replace (make_uint2 _ _) with (s3 ^^ make_uint2 0 0x80000000); [auto with lanes|].
    unfold xor_uint2. cbn [x2 y2]. by rewrite Z.lxor_0_r.
Qed.

Lemma final_columns_rep s zs :
  length zs = 12%nat -> reps s zs ->
  exists t,
    final_columns (s ++ [make_uint2 1 0; u2zero; u2zero; u2zero; make_uint2 0 0x80000000] ++
      replicate 8 u2zero) = Some t /\
    columns_rep t (zs ++ [1; 0; 0; 0; 2 ^ 63] ++ replicate 8 0).
Proof.
  intros Hlen H. do 12 (destruct zs as [|? zs]; [discriminate Hlen|]).
  destruct zs; [|discriminate Hlen].
  repeat (apply Forall2_cons_inv_r in H as (? & ? & ? & H & ->)).
  apply Forall2_nil_inv_r in H as ->. eexists. split; [reflexivity|].
  cbv [columns_rep parity lane nth Nat.modulo Nat.divmod Nat.add Nat.mul Nat.sub fst snd
       app replicate]. rewrite !Z.lxor_0_r.
  split_and!; auto with lanes.
Qed.

(** ** The hashes *)

Lemma xor_block_zeros ws :
  (length ws <= 25)%nat ->
  xor_block ws (replicate 25 0) = ws ++ replicate (25 - length ws) 0.
Proof.
  intros Hlen. unfold xor_block. apply list_eq. intros i. rewrite list_lookup_imap.
  destruct (decide (i < 25)%nat) as [Hi|Hi].
  - rewrite lookup_replicate_2 by done. cbn. rewrite nth_lookup.
    destruct (ws !! i) as [x|] eqn:Hx; cbn.
    + symmetry. by apply lookup_app_l_Some.
    + apply lookup_ge_None in Hx. rewrite lookup_app_r, lookup_replicate_2 by lia. done.
  - rewrite !lookup_ge_None_2; [done|rewrite length_app, length_replicate; lia|].
    rewrite length_replicate. lia.
Qed.

(** A message that fits one block with its padding is absorbed at once. *)
Lemma sponge_one_block r out data k padding :
  (r <= 25)%nat -> length data = (8 * k)%nat -> bytes_ok data ->
  pad (8 * r) (8 * k) = padding -> length padding = (8 * (r - k))%nat -> (k < r)%nat ->
  sponge (8 * r) out data =
  take out (of_le_words 8 (keccak_f 6
    ((le_words 8 data ++ le_words 8 padding) ++ replicate (25 - r) 0))).
Proof.
  intros Hr Hlen Hok Hpad Hplen Hk. unfold sponge. rewrite Hlen, Hpad.
  rewrite length_app, Hlen, Hplen.
  replace (8 * k + 8 * (r - k))%nat with (1 * (8 * r))%nat by lia.
  rewrite Nat.div_mul by lia. cbn [chunks fold_left].
  rewrite (take_ge (data ++ padding)) by (rewrite length_app; lia). unfold sponge_absorb.
  rewrite (words_app 8 data padding k (r - k)) by (done || lia).
  rewrite xor_block_zeros; rewrite length_app, !length_words, Hlen, Hplen, !(Nat.mul_comm 8), !Nat.div_mul by lia.
  - replace (25 - (k + (r - k)))%nat with (25 - r)%nat by lia. reflexivity.
  - lia.
Qed.

(** The words of the output are the leading lanes. *)
Lemma le_words_output k st :
  Forall (in_word 64) st -> le_words 8 (take (8 * k) (of_le_words 8 st)) = take k st.
Proof.
  intros Hst. rewrite <-of_words_take. apply words_of_words; [lia|by apply Forall_take].
Qed.

#[local] Opaque keccak_f keccak_round.

Lemma keccak_f_words st :
  length st = 25%nat -> Forall (in_word 64) st -> Forall (in_word 64) (keccak_f 6 st).
Proof. intros Hlen Hst. by apply keccak_f_range. Qed.

(** The first [o] words of the sponge of a one-block message. *)
Lemma sponge_words r o k data padding ws :
  (r <= 25)%nat -> length data = (8 * k)%nat -> bytes_ok data ->
  pad (8 * r) (8 * k) = padding -> length padding = (8 * (r - k))%nat -> (k < r)%nat ->
  le_words 8 padding = ws -> Forall (in_word 64) (le_words 8 data ++ ws ++ replicate (25 - r) 0) ->
  le_words 8 (sponge (8 * r) (8 * o) data) =
  take o (keccak_f 6 (le_words 8 data ++ ws ++ replicate (25 - r) 0)).
Proof.
  intros Hr Hlen Hok Hpad Hplen Hk <- Hw.
  rewrite (sponge_one_block r (8 * o) data k padding) by done. rewrite <-app_assoc.
  apply le_words_output, keccak_f_words; [|done].
  rewrite !length_app, !length_words, length_replicate, Hlen, Hplen, !(Nat.mul_comm 8), !Nat.div_mul; lia.
Qed.

Lemma reps_words s zs : reps s zs -> Forall (in_word 64) zs.
Proof. intros H. induction H as [|a z s zs [Hz _] _ IH]; by constructor. Qed.

Lemma reps_vectorize s zs : reps s zs -> s = vectorize <$> zs.
Proof. intros H. induction H as [|a z s zs [_ ->] _ IH]; [done|]. cbn. by rewrite IH. Qed.

Lemma vectorize_reps zs : Forall (in_word 64) zs -> reps (vectorize <$> zs) zs.
Proof. intros H. induction H; constructor; [by apply vectorize_rep|done]. Qed.

Lemma le_words_nonce n : in_word 64 n -> le_words 8 (le_bytes 8 n) = [n].
Proof.
  intros Hn. pose proof (words_of_words (host := plain_host) 8 [n] ltac:(lia)) as E.
  unfold of_words in E. cbn [fmap list_fmap concat] in E. rewrite app_nil_r in E.
  apply E. by constructor.
Qed.

(** The hashes the kernels compute, as permutations of a padded state: of a
    node, of header and nonce, and of seed and mix. *)
Lemma node_hash_lanes data :
  hash512_wf data ->
  le_words 8 (sha3_512 data) = take 8 (keccak_f 6 (le_words 8 data ++ [2 ^ 63 + 1] ++ replicate 16 0)).
Proof.
  intros [Hlen Hok]. apply (sponge_words 9 8 8 data (pad 72 64) [2 ^ 63 + 1]); try done || lia.
  apply Forall_app. split; [apply (words_in_word (host := plain_host) 8 8); [lia|done|done]|].
  constructor; [done|]. by apply Forall_replicate.
Qed.

Lemma seed_hash_lanes header nonce :
  hash256_wf header -> in_word 64 nonce ->
  le_words 8 (sha3_512 (header ++ le_bytes 8 nonce)) =
  take 8 (keccak_f 6 (le_words 8 header ++ [nonce; 1; 0; 0; 2 ^ 63] ++ replicate 16 0)).
Proof.
  intros [Hlen Hok] Hn.
  assert (El : le_words 8 (header ++ le_bytes 8 nonce) ++ [1; 0; 0; 2 ^ 63] ++ replicate 16 0 =
    le_words 8 header ++ [nonce; 1; 0; 0; 2 ^ 63] ++ replicate 16 0).
  { rewrite (words_app 8 header (le_bytes 8 nonce) 4 1); [|lia|exact Hlen|apply length_le_bytes].
    by rewrite le_words_nonce, <-app_assoc by exact Hn. }
  rewrite <-El.
  apply (sponge_words 9 8 5 _ (pad 72 40)); [lia| | |reflexivity|reflexivity|lia|reflexivity|].
  - by rewrite length_app, length_le_bytes, Hlen.
  - apply Forall_app. split; [done|apply le_bytes_ok].
  - change (25 - 9)%nat with 16%nat. rewrite El. apply Forall_app.
    split; [apply (words_in_word (host := plain_host) 8 4); [lia|done|done]|].
    repeat (constructor; [done|]). constructor.
Qed.

Lemma final_hash_lanes data :
  hash_wf 96 data ->
  le_words 8 (sha3_256 data) = take 4 (keccak_f 6 (le_words 8 data ++ [1; 0; 0; 0; 2 ^ 63] ++ replicate 8 0)).
Proof.
  intros [Hlen Hok]. apply (sponge_words 17 4 12 _ (pad 136 96)); try done || lia.
  apply Forall_app. split; [apply (words_in_word (host := plain_host) 8 12); [lia|done|done]|].
  repeat (constructor; [done|]). constructor.
Qed.

(** [SHA3_512] on eight lanes. *)
Lemma SHA3_512_rep s data :
  hash512_wf data -> reps (take 8 s) (le_words 8 data) ->
  reps (take 8 (SHA3_512 s)) (le_words 8 (sha3_512 data)) /\ length (SHA3_512 s) = 25%nat.
Proof.
  intros [Hlen Hok] Hs. unfold SHA3_512.
  set (s0 := take 8 s ++ _). set (zs := le_words 8 data ++ [2 ^ 63 + 1] ++ replicate 16 0).
  assert (Hzs : length zs = 25%nat).
  { subst zs. by rewrite length_app, length_words, Hlen. }
  assert (H0 : reps s0 zs).
  { apply Forall2_app; [done|]. constructor; [apply one_top_rep|apply zeros_rep]. }
  assert (Hr : reps (fold_left (fun s i => round_with (fun a => ROL2 a 8) (fun a => ROL2 a 56)
      theta_columns i s) (seq 0 23) s0) (rounds 0 23 zs)).
  { apply rounds_rep; try done; [intros; apply ROL2_rep; done || lia..|lia]. }
  destruct (last_round_rep _ _ (length_rounds 0 23 zs Hzs) Hr) as [Hlast Hl]. split; [|exact Hl].
  rewrite node_hash_lanes, keccak_f_rounds by done. exact Hlast.
Qed.

(** ** Hashes in device memory

    The unions [hash32_t], [hash64_t] and [hash128_t] read as [uint4s]; the
    device is little-endian. *)
Definition uint4_of (l : list Z) : uint4 :=
  make_uint4 (le_word (take 4 l)) (le_word (take 4 (drop 4 l)))
    (le_word (take 4 (drop 8 l))) (le_word (take 4 (drop 12 l))).

Definition hash32_uint4s (h : list Z) : uint4 * uint4 := (uint4_of h, uint4_of (drop 16 h)).

Lemma pair_words_rep l :
  hash_wf 8 l -> rep (make_uint2 (le_word (take 4 l)) (le_word (take 4 (drop 4 l)))) (le_word l).
Proof.
  intros [Hlen Hok]. rewrite (take_ge (drop 4 l)) by (rewrite length_drop; lia).
  rewrite <-(take_drop 4 l) at 3. split.
  - pose proof (le_word_in_word l Hok) as H. rewrite Hlen in H. by rewrite take_drop.
  - symmetry. apply vectorize_bytes; split; try (rewrite ?length_take, ?length_drop; lia);
      [by apply Forall_take|by apply Forall_drop].
Qed.

Lemma uint4_of_lanes l :
  hash_wf 16 l -> reps [(devectorize2 (uint4_of l)).1; (devectorize2 (uint4_of l)).2] (le_words 8 l).
Proof.
  intros [Hlen Hok].
  destruct l as [|b0 [|b1 [|b2 [|b3 [|b4 [|b5 [|b6 [|b7 l]]]]]]]]; try discriminate Hlen.
  destruct l as [|b8 [|b9 [|b10 [|b11 [|b12 [|b13 [|b14 [|b15 [|]]]]]]]]]; try discriminate Hlen.
  change (le_words 8 _) with
    [le_word [b0; b1; b2; b3; b4; b5; b6; b7]; le_word [b8; b9; b10; b11; b12; b13; b14; b15]].
  rewrite !Forall_cons in Hok. constructor; [|constructor; [|constructor]].
  - apply (pair_words_rep [b0; b1; b2; b3; b4; b5; b6; b7]).
    split; [done|]. rewrite !Forall_cons. tauto.
  - apply (pair_words_rep [b8; b9; b10; b11; b12; b13; b14; b15]).
    split; [done|]. rewrite !Forall_cons. tauto.
Qed.

(** The four lanes of a 32-byte hash. *)
Lemma hash32_lanes h :
  hash256_wf h ->
  reps [(devectorize2 (hash32_uint4s h).1).1; (devectorize2 (hash32_uint4s h).1).2;
        (devectorize2 (hash32_uint4s h).2).1; (devectorize2 (hash32_uint4s h).2).2] (le_words 8 h).
Proof.
  intros [Hlen Hok].
  assert (W1 : hash_wf 16 (take 16 h)) by (split; [rewrite length_take; lia|by apply Forall_take]).
  assert (W2 : hash_wf 16 (drop 16 h)) by (split; [rewrite length_drop; lia|by apply Forall_drop]).
  assert (E : le_words 8 h = le_words 8 (take 16 h) ++ le_words 8 (drop 16 h)).
  { rewrite <-(words_app 8 _ _ 2 2), take_drop;
      [done|lia|rewrite length_take; lia|rewrite length_drop; lia]. }
  assert (Etake : uint4_of (take 16 h) = uint4_of h).
  { unfold uint4_of. rewrite !skipn_firstn_comm, !take_take. done. }
  rewrite E. match goal with |- Forall2 _ [?a; ?b; ?c; ?d] _ => change [a; b; c; d] with ([a; b] ++ [c; d]) end.
  apply Forall2_app.
  - unfold hash32_uint4s. cbn [fst]. rewrite <-Etake. by apply uint4_of_lanes.
  - by apply uint4_of_lanes.
Qed.

(** The rounds of a kernel whose first round has its own column sums. *)
Lemma rounds_from_rep cols t s zs :
  length zs = 25%nat -> reps s zs -> cols s = Some t -> columns_rep t zs ->
  reps (fold_left (fun s i => round_with ROL8 ROR8 theta_columns i s) (seq 1 22)
      (round_with ROL8 ROR8 cols 0 s))
    (rounds 1 22 (keccak_round 64 (round_constant 6 0) zs)).
Proof.
  intros Hlen Hs Ht Hc. apply rounds_rep; [apply ROL8_rep|apply ROR8_rep|lia|apply length_keccak_round|].
  apply (round_with_rep _ _ _ t); [apply ROL8_rep|apply ROR8_rep|lia|done..].
Qed.

(** [keccak_f1600_init]: the seed hash of header and nonce. *)
Lemma keccak_f1600_init_rep header nonce state :
  hash256_wf header -> in_word 64 nonce -> nth 4 state u2zero = vectorize nonce ->
  reps (take 8 (keccak_f1600_init (hash32_uint4s header) state))
    (le_words 8 (sha3_512 (header ++ le_bytes 8 nonce))) /\
  length (keccak_f1600_init (hash32_uint4s header) state) = (12 + (length state - 12))%nat.
Proof.
  intros Hh Hn Hst. pose proof (hash32_lanes header Hh) as Hlanes.
  unfold keccak_f1600_init.
  destruct (devectorize2 (hash32_uint4s header).1) as [s0 s1].
  destruct (devectorize2 (hash32_uint4s header).2) as [s2 s3]. cbn [fst snd] in Hlanes.
  remember (le_words 8 header) as ws eqn:Ew.
  apply Forall2_cons_inv_l in Hlanes as (z0 & ? & H0 & Hlanes & ->).
  apply Forall2_cons_inv_l in Hlanes as (z1 & ? & H1 & Hlanes & ->).
  apply Forall2_cons_inv_l in Hlanes as (z2 & ? & H2 & Hlanes & ->).
  apply Forall2_cons_inv_l in Hlanes as (z3 & ? & H3 & Hlanes & ->).
  apply Forall2_nil_inv_l in Hlanes as ->.
  rewrite Hst. set (s := _ ++ replicate 16 u2zero).
  pose proof (vectorize_rep nonce Hn) as H4.
  set (zs := [z0; z1; z2; z3; nonce; 1; 0; 0; 2 ^ 63] ++ replicate 16 0).
  assert (Hs : reps s zs).
  { apply Forall2_app; [|apply zeros_rep]. repeat (constructor; [auto with lanes|]). constructor. }
  destruct (init_columns_rep s0 s1 s2 s3 (vectorize nonce) z0 z1 z2 z3 nonce) as (t & Ht & Hc);
    [done..|].
  pose proof (rounds_from_rep init_columns t s zs eq_refl Hs Ht Hc) as Hr.
  destruct (last_round_rep _ _ (length_rounds 1 22 _ (length_keccak_round _ _ _)) Hr) as [Hlast Hl].
  split; [|by rewrite length_app, length_take, length_drop, Hl].
  rewrite seed_hash_lanes, <-Ew by done. fold zs. rewrite keccak_f_rounds_first.
  rewrite take_app_le, take_take by (rewrite length_take, Hl; lia). exact Hlast.
Qed.

(** [keccak_f1600_final]: the leading word of the final hash. *)
Lemma keccak_f1600_final_eq state data :
  hash_wf 96 data -> reps (take 12 state) (le_words 8 data) ->
  keccak_f1600_final state = nth 0 (le_words 8 (sha3_256 data)) 0.
Proof.
  intros [Hlen Hok] Hst. unfold keccak_f1600_final. set (s := take 12 state ++ _).
  set (zs := le_words 8 data ++ [1; 0; 0; 0; 2 ^ 63] ++ replicate 8 0).
  assert (Hl : length (le_words 8 data) = 12%nat) by by rewrite length_words, Hlen.
  assert (Hs : reps s zs).
  { apply Forall2_app; [done|]. apply Forall2_app; [|apply zeros_rep].
    repeat (constructor; [auto with lanes|]). constructor. }
  destruct (final_columns_rep _ _ Hl Hst) as (t & Ht & Hc).
  assert (Hzs : length zs = 25%nat) by (unfold zs; rewrite length_app, Hl; done).
  pose proof (rounds_from_rep final_columns t s zs Hzs Hs Ht Hc) as Hr.
  rewrite (last_lane_eq _ _ (length_rounds 1 22 _ (length_keccak_round _ _ _)) Hr).
  rewrite <-keccak_f_rounds_first.
  rewrite final_hash_lanes by done. fold zs. by destruct (keccak_f 6 zs).
Qed.
End Kernel.

(** On every architecture (with or without the funnel-shift and three-input
    logic instructions) the device functions agree with the host's Keccak:
    [keccak_f1600_init] leaves the seed hash of header and nonce in the first
    eight lanes, [SHA3_512] replaces a 64-byte node by its hash, and
    [keccak_f1600_final] gives the leading 64-bit word of the final hash of
    seed and mix. *)
Theorem cuda_keccak_correct (arch : Arch) (host : Host) (header node seed mix : list Z) (nonce : Z)
    (state rest : list uint2) :
  hash256_wf header -> hash512_wf node -> hash512_wf seed -> hash256_wf mix ->
  in_word 64 nonce -> nth 4 state u2zero = vectorize nonce ->
  take 8 (keccak_f1600_init (hash32_uint4s header) state) =
    vectorize <$> le_words 8 (hash_seed header nonce) /\
  take 8 (SHA3_512 ((vectorize <$> le_words 8 node) ++ rest)) =
    vectorize <$> le_words 8 (ethash_keccak512 node) /\
  keccak_f1600_final (vectorize <$> le_words 8 (seed ++ mix)) =
    nth 0 (le_words 8 (hash_final seed mix)) 0.
Proof.
  intros Hh [Hnl Hno] [Hsl Hso] [Hml Hmo] Hn Hst.
  assert (Hw : forall k l, length l = (8 * k)%nat -> bytes_ok l -> reps (vectorize <$> le_words 8 l) (le_words 8 l)).
  { intros k l Hl Hok. apply vectorize_reps, (words_in_word (host := plain_host) 8 k); [lia|done|done]. }
  split; [|split].
  - rewrite hash_seed_spec by done. by apply reps_vectorize, keccak_f1600_init_rep.
  - rewrite ethash_keccak512_sponge by done. apply reps_vectorize, SHA3_512_rep; [done|].
    rewrite take_app_length' by (rewrite length_fmap, length_words, Hnl; done).
    by apply (Hw 8%nat).
  - rewrite hash_final_spec by done. apply keccak_f1600_final_eq.
    + split; [rewrite length_app, Hsl, Hml; done|by apply Forall_app].
    + rewrite take_ge by (rewrite length_fmap, length_words, length_app, Hsl, Hml; done).
      apply (Hw 12%nat); [rewrite length_app, Hsl, Hml; done|by apply Forall_app].
Qed.

Lemma cuda_keccak_correct_witness :
  let a := mk_arch 860 12000 in
  let header := le_bytes 32 12345 in
  let state := replicate 4 u2zero ++ [vectorize 0x123456789abcdef0] ++ replicate 7 u2zero in
  take 8 (@keccak_f1600_init a (hash32_uint4s header) state) =
    vectorize <$> le_words 8 (@hash_seed plain_host header 0x123456789abcdef0).
Proof.
  intros a header state.
  refine (proj1 (cuda_keccak_correct a plain_host header (le_bytes 64 7) (le_bytes 64 8)
    (le_bytes 32 9) 0x123456789abcdef0 state [] _ _ _ _ _ _));
    try (split; [reflexivity|apply le_bytes_ok]).
  - split; [discriminate|reflexivity].
  - reflexivity.
Defined.
