(* ===== verification/CudaKernel.v ===== *)
(** * The hash of the CUDA kernel

    [libcuda/fnv.cuh] and [dagger_shuffled.cuh]: the hash of eight nonces by a
    group of eight threads that exchange registers with shuffles.

    The threads of a group run in lockstep: a variable of the kernel is the
    list of its values over the threads of the group, and [SHFL(x, y, w)] reads
    the value of thread [y].  Device memory is little-endian.  [None] stands
    for undefined behaviour (a division by zero or a read of memory that was
    never written). *)

From stdpp Require Import base numbers list gmap.
From Stdlib Require Import ZArith Lia Bool.
From S2P Require Import Prelude Words KeccakSpec KeccakF Keccak EthashSpec Ethash EthashHash.
From S2P Require Import CudaHelper CudaKeccak.

Local Open Scope Z_scope.
Local Open Scope word_scope.

(** The [__constant__] variables.  [d_dag] is keyed by the 64-byte node. *)
Record device := mk_device {
  d_dag_size : Z;
  d_dag : gmap Z (list Z);
  d_light_size : Z;
  d_light : list (list Z);
  d_header : list Z;
  d_target : Z
}.

Definition ACCESSES : nat := 64.
Definition THREADS_PER_HASH : nat := 8.
Definition PARALLEL_HASH : nat := 4.
Definition FNV_PRIME : Z := 0x01000193.

(** ** fnv.cuh *)

Definition fnv (x y : Z) : Z := u32 (x * FNV_PRIME) .^ y.

Definition fnv4 (a b : uint4) : uint4 :=
  make_uint4 (u32 (x4 a * FNV_PRIME) .^ x4 b) (u32 (y4 a * FNV_PRIME) .^ y4 b)
    (u32 (z4 a * FNV_PRIME) .^ z4 b) (u32 (w4 a * FNV_PRIME) .^ w4 b).

Definition fnv_reduce (v : uint4) : Z := fnv (fnv (fnv (x4 v) (y4 v)) (z4 v)) (w4 v).

(** The words of a [uint4], and member [k] of the [uint4s] of a hash union. *)
Definition uint4_words (v : uint4) : list Z := [x4 v; y4 v; z4 v; w4 v].
Definition uint4s (h : list Z) (k : nat) : uint4 := uint4_of (drop (16 * k) h).

(** The 32-bit words of an array of lanes. *)
Definition node_words (buf : list uint2) : list Z := buf ≫= (fun l => [x2 l; y2 l]).

(** ** dagger_shuffled.cuh *)

Section Search.
Context {arch : Arch} (dev : device).

(** Row [offset] of the DAG, [d_dag[offset]]: two nodes. *)
Definition dag_row (offset : Z) : option (list Z) :=
  lo ← d_dag dev !! (2 * offset);
  hi ← d_dag dev !! (2 * offset + 1);
  Some (lo ++ hi).

(** [mix[p]] of thread [thread_id] from the lanes shuffled out of thread
    [i + p]: the [switch] on [mix_idx]. *)
Definition init_mix (shuffle : list uint2) (thread_id : nat) : uint4 :=
  let mix_idx := (thread_id mod 4)%nat in
  match mix_idx with
  | 0%nat => vectorize2 (nth 0 shuffle u2zero) (nth 1 shuffle u2zero)
  | 1%nat => vectorize2 (nth 2 shuffle u2zero) (nth 3 shuffle u2zero)
  | 2%nat => vectorize2 (nth 4 shuffle u2zero) (nth 5 shuffle u2zero)
  | _ => vectorize2 (nth 6 shuffle u2zero) (nth 7 shuffle u2zero)
  end.

(** One access of hash [p]: every thread computes an offset, the one of thread
    [t] is used by all, and each thread mixes its 16 bytes of the row. *)
Definition mix_access (init0 : Z) (a b : nat) (m : list uint4) : option (list uint4) :=
  let t := Z.to_nat (bfe (Z.of_nat a) 2 3) in
  if d_dag_size dev =? 0 then None else
  let offsets :=
    (fun v => fnv (init0 .^ Z.of_nat (a + b)) (nth b (uint4_words v) 0) mod d_dag_size dev) <$> m in
  offset ← offsets !! t;
  row ← dag_row offset;
  Some (imap (fun thread_id v => fnv4 v (uint4s row thread_id)) m).

(** The loop over [a], [b] and [p]. *)
Definition mix_loop (init0 : list Z) (mix : list (list uint4)) : option (list (list uint4)) :=
  mfold (fun mix a =>
    mfold (fun mix b =>
      mfold (fun mix p =>
        m ← mix !! p;
        i0 ← init0 !! p;
        m ← mix_access i0 a b m;
        Some (<[p := m]> mix)) (seq 0 PARALLEL_HASH) mix) (seq 0 4) mix)
    ((fun k => 4 * k)%nat <$> seq 0 (ACCESSES / 4)) mix.

(** The reduced mix of hash [i + p], shuffled from the eight threads, moved into
    the state of thread [i + p]. *)
Definition move_mix (m : list uint4) (state : list uint2) : list uint2 :=
  let thread_mix k := fnv_reduce (nth k m (make_uint4 0 0 0 0)) in
  take 8 state ++
  [make_uint2 (thread_mix 0%nat) (thread_mix 1%nat); make_uint2 (thread_mix 2%nat) (thread_mix 3%nat);
   make_uint2 (thread_mix 4%nat) (thread_mix 5%nat); make_uint2 (thread_mix 6%nat) (thread_mix 7%nat)] ++
  drop 12 state.

Definition store_mix (owner : nat) (m : list uint4) (states : list (list uint2)) : list (list uint2) :=
  imap (fun thread_id state => if (owner =? thread_id)%nat then move_mix m state else state) states.

(** One iteration of the loop over [i]: hashes [i] to [i + 3]. *)
Definition parallel_hash (states : list (list uint2)) (i : nat) : option (list (list uint2)) :=
  let shuffle p := take 8 (nth (i + p) states []) in
  let mix := (fun p => init_mix (shuffle p) <$> seq 0 THREADS_PER_HASH) <$> seq 0 PARALLEL_HASH in
  let init0 := (fun p => x2 (nth 0 (shuffle p) u2zero)) <$> seq 0 PARALLEL_HASH in
  mix ← mix_loop init0 mix;
  Some (fold_left (fun states p => store_mix (i + p) (nth p mix []) states) (seq 0 PARALLEL_HASH) states).

(** [compute_hash] on the eight threads of a group; [true] means that the hash
    is above the target. *)
Definition compute_hash (nonces : list Z) : option (list bool) :=
  let states : list (list uint2) :=
    (fun nonce => keccak_f1600_init (hash32_uint4s (d_header dev))
                    (<[4%nat := vectorize nonce]> (replicate 12 u2zero))) <$> nonces in
  states ← mfold parallel_hash [0%nat; PARALLEL_HASH] states;
  Some (map (fun state => d_target dev <? cuda_swab64 (keccak_f1600_final state)) states).
End Search.

(** ** Registers and words *)

Lemma fnv_fnv1_cuda : fnv = Bits.fnv1.
Proof. reflexivity. Qed.

(** The words held by the threads of a group, in thread order. *)
Definition flat (m : list uint4) : list Z := m ≫= uint4_words.

Lemma length_flat m : length (flat m) = (4 * length m)%nat.
Proof. induction m as [|v m IH]; [done|].
  change (flat (v :: m)) with (uint4_words v ++ flat m). rewrite length_app, IH. cbn [length uint4_words]. lia. Qed.

Lemma flat_fnv4 m vs : length m = length vs ->
  flat (zip_with fnv4 m vs) = zip_with Bits.fnv1 (flat m) (flat vs).
Proof.
  revert vs. induction m as [|v m IH]; intros [|u vs] Hlen; try discriminate Hlen; [done|].
  injection Hlen as Hlen. cbn. f_equal. f_equal. f_equal. f_equal. by apply IH.
Qed.

Lemma nth_flat m t b : (t < length m)%nat -> (b < 4)%nat ->
  nth (4 * t + b) (flat m) 0 = nth b (uint4_words (nth t m (make_uint4 0 0 0 0))) 0.
Proof.
  revert t. induction m as [|v m IH]; intros t Ht Hb; cbn [length] in Ht; [lia|].
  destruct t as [|t].
  - cbn [Nat.mul Nat.add]. destruct b as [|[|[|[|b]]]]; try reflexivity. lia.
  - replace (4 * S t + b)%nat with (S (S (S (S (4 * t + b))))) by lia.
    change (nth (4 * t + b) (flat m) 0 = nth b (uint4_words (nth t m (make_uint4 0 0 0 0))) 0).
    apply IH; lia.
Qed.

Lemma uint4_of_words l : length l = 16%nat -> uint4_words (uint4_of l) = le_words 4 l.
Proof.
  intros Hlen.
  destruct l as [|b0 [|b1 [|b2 [|b3 [|b4 [|b5 [|b6 [|b7 l]]]]]]]]; try discriminate Hlen.
  destruct l as [|b8 [|b9 [|b10 [|b11 [|b12 [|b13 [|b14 [|b15 [|]]]]]]]]]; try discriminate Hlen.
  reflexivity.
Qed.

Lemma uint4_of_take l : uint4_of (take 16 l) = uint4_of l.
Proof. unfold uint4_of. rewrite !skipn_firstn_comm, !take_take. done. Qed.

Lemma flat_uint4s k row : length row = (16 * k)%nat ->
  flat (uint4s row <$> seq 0 k) = le_words 4 row.
Proof.
  revert row. induction k as [|k IH]; intros row Hlen.
  { apply nil_length_inv in Hlen as ->. done. }
  assert (E : uint4s row <$> seq 1 k = uint4s (drop 16 row) <$> seq 0 k).
  { rewrite <-fmap_S_seq, <-list_fmap_compose. apply list_fmap_ext. intros j x _. cbn [compose].
    unfold compose, uint4s. rewrite drop_drop. do 2 f_equal. lia. }
  cbn [seq]. rewrite fmap_cons, E. change (flat (uint4s row 0 :: ?l)) with
    (uint4_words (uint4s row 0) ++ flat l).
  rewrite IH by (rewrite length_drop; lia). unfold uint4s. rewrite drop_0.
  rewrite <-uint4_of_take, uint4_of_words by (rewrite length_take; lia).
  rewrite <-(words_app 4 _ _ 4 (4 * k)), take_drop; [done|lia|rewrite length_take; lia|rewrite length_drop; lia].
Qed.

Lemma imap_zip {A B C} (f : A -> B -> C) (g : nat -> B) (m : list A) k :
  imap (fun i a => f a (g (k + i)%nat)) m = zip_with f m (g <$> seq k (length m)).
Proof.
  revert k. induction m as [|a m IH]; intros k; [done|]. cbn. rewrite Nat.add_0_r. f_equal.
  rewrite <-IH. apply imap_ext. intros i x _. cbn. f_equal. f_equal. lia.
Qed.

Lemma imap_zip_0 {A B C} (f : A -> B -> C) (g : nat -> B) (m : list A) :
  imap (fun i a => f a (g i)) m = zip_with f m (g <$> seq 0 (length m)).
Proof. exact (imap_zip f g m 0). Qed.

Lemma bfe_accesses k : (k < 16)%nat -> Z.to_nat (bfe (Z.of_nat (4 * k)) 2 3) = (k mod 8)%nat.
Proof. intros Hk. do 16 (destruct k as [|k]; [reflexivity|]). lia. Qed.

(** A fold that steps the elements of a list independently. *)
Lemma fold_left_zip {A B} (f : A -> B -> nat -> B) (xs : list A) (ys : list B) l :
  length xs = length ys ->
  fold_left (fun ys j => zip_with (fun x y => f x y j) xs ys) l ys =
  zip_with (fun x y => fold_left (f x) l y) xs ys.
Proof.
  revert ys. induction l as [|j l IH]; intros ys Hlen.
  - cbn. revert ys Hlen. induction xs as [|x xs IH]; intros [|y ys] Hlen;
      try discriminate Hlen; [done|]. cbn. f_equal. apply IH. by injection Hlen.
  - cbn [fold_left]. rewrite IH by (rewrite length_zip_with; lia). clear IH. revert ys Hlen.
    induction xs as [|x xs IH]; intros [|y ys] Hlen; try discriminate Hlen; [done|].
    cbn. f_equal. apply IH. by injection Hlen.
Qed.

Lemma calc_dataset_item_eq cache i :
  calc_dataset_item cache i =
  sha3_512 (of_le_words 4 (fold_left (item_round cache i) (seq 0 256) (item_seed cache i))).
Proof. reflexivity. Qed.

Lemma item_seed_eq cache i :
  item_seed cache i =
  le_words 4 (sha3_512 (of_le_words 4 (alter (fun x => x .^ i) 0%nat
    (le_words 4 (nth (Z.to_nat (i mod Z.of_nat (length cache))) cache []))))).
Proof. reflexivity. Qed.

#[local] Opaque calc_dataset_item item_seed sha3_512 sha3_256.

(** ** The main loop of the hash *)

(** The dataset the constants point to. *)
Definition dag_ok (dev : device) (c : epoch_context) : Prop :=
  d_dag_size dev = full_dataset_num_items c /\
  forall k, 0 <= k < 2 * full_dataset_num_items c ->
    d_dag dev !! k = Some (calc_dataset_item (light_cache c) k).

Section Mixing.
Context {arch : Arch} (dev : device) (c : epoch_context).
Context (Hpages : 0 < full_dataset_num_items c) (Hdag : dag_ok dev c).

Lemma dag_row_spec o : 0 <= o < full_dataset_num_items c -> dag_row dev o = Some (dataset_row c o).
Proof.
  intros Ho. unfold dag_row. rewrite !(proj2 Hdag) by lia. done.
Qed.

(** The registers [m] hold the mix [ws]. *)
Definition mix_rel (m : list uint4) (ws : list Z) : Prop :=
  length m = 8%nat /\ Forall (in_word 32) ws /\ flat m = ws.

Abbreviation spec_round s0 := (hashimoto_round (light_cache c) (full_dataset_num_items c) s0).

Lemma mix_access_spec s0 k b m ws :
  (k < 16)%nat -> (b < 4)%nat -> mix_rel m ws ->
  exists m', mix_access dev s0 (4 * k) b m = Some m' /\ mix_rel m' (spec_round s0 ws (4 * k + b)).
Proof.
  intros Hk Hb (Hlen & Hws & Hflat). unfold mix_access. rewrite (proj1 Hdag), bfe_accesses by done.
  rewrite (proj2 (Z.eqb_neq _ _)) by lia.
  cbv zeta.
  assert (Ht : (k mod 8 < length m)%nat) by (pose proof (Nat.mod_upper_bound k 8); lia).
  rewrite list_lookup_fmap, (lookup_nth_lt m (k mod 8) (make_uint4 0 0 0 0)) by done.
  cbn [fmap option_fmap option_map mbind option_bind].
  match goal with |- context [dag_row dev ?x] => set (o := x) end. set (i := (4 * k + b)%nat).
  assert (Ho : o = EthashSpec.fnv (Z.of_nat i .^ s0) (nth (i mod 32) ws 0) mod full_dataset_num_items c).
  { unfold o. rewrite fnv_fnv1 by by apply nth_in_word. rewrite fnv_fnv1_cuda, Z.lxor_comm.
    do 2 f_equal. rewrite <-nth_flat by done. rewrite Hflat. f_equal. unfold i.
    replace (4 * k + b)%nat with (4 * (k mod 8) + b + (k / 8) * 32)%nat
      by (pose proof (Nat.div_mod_eq k 8); lia).
    rewrite Nat.Div0.mod_add, (Nat.mod_small (4 * (k mod 8) + b) 32) by (pose proof (Nat.mod_upper_bound k 8); lia). done. }
  assert (Hrange : 0 <= o < full_dataset_num_items c) by (rewrite Ho; apply Z.mod_pos_bound; lia).
  rewrite dag_row_spec by done. cbn [mbind option_bind]. eexists. split; [reflexivity|].
  assert (Hrow : le_words 4 (dataset_row c o) =
    le_words 4 (calc_dataset_item (light_cache c) (2 * o)) ++
    le_words 4 (calc_dataset_item (light_cache c) (2 * o + 1))).
  { unfold dataset_row. rewrite (words_app 4 _ _ 16 16); [done|lia|apply calc_dataset_item_wf..]. }
  destruct (dataset_row_wf c o) as [Hrl Hrok].
  assert (Hrw : Forall (in_word 32) (le_words 4 (dataset_row c o)))
    by (apply (words_in_word (host := plain_host) 4 32); [lia|done|done]).
  assert (E : flat (imap (fun thread_id v => fnv4 v (uint4s (dataset_row c o) thread_id)) m) =
    spec_round s0 ws i).
  { rewrite (imap_zip_0 fnv4 (uint4s (dataset_row c o))), Hlen.
    rewrite flat_fnv4, (flat_uint4s 8) by done.
    unfold hashimoto_round. rewrite <-Ho, <-Hrow, Hflat. by apply zip_fnv. }
  split; [by rewrite length_imap|]. split; [|exact E].
  rewrite <-E, (imap_zip_0 fnv4 (uint4s (dataset_row c o))), Hlen, flat_fnv4, (flat_uint4s 8) by done.
  by apply zip_fnv_in_word.
Qed.

(** The four hashes a pass works on. *)
Definition pass_step (init0 : list Z) (wss : list (list Z)) (j : nat) : list (list Z) :=
  zip_with (fun s0 ws => spec_round s0 ws j) init0 wss.

Lemma pass_step_spec init0 k b mix wss :
  (k < 16)%nat -> (b < 4)%nat -> length init0 = 4%nat -> length wss = 4%nat ->
  Forall2 mix_rel mix wss ->
  exists mix',
    mfold (fun mix p => m ← mix !! p; i0 ← init0 !! p; m ← mix_access dev i0 (4 * k) b m;
      Some (<[p := m]> mix)) (seq 0 PARALLEL_HASH) mix = Some mix' /\
    Forall2 mix_rel mix' (pass_step init0 wss (4 * k + b)).
Proof.
  intros Hk Hb Hi Hw H.
  destruct init0 as [|i0 [|i1 [|i2 [|i3 [|]]]]]; try discriminate Hi.
  destruct wss as [|w0 [|w1 [|w2 [|w3 [|]]]]]; try discriminate Hw.
  apply Forall2_cons_inv_r in H as (m0 & ? & H0 & H & ->).
  apply Forall2_cons_inv_r in H as (m1 & ? & H1 & H & ->).
  apply Forall2_cons_inv_r in H as (m2 & ? & H2 & H & ->).
  apply Forall2_cons_inv_r in H as (m3 & ? & H3 & H & ->).
  apply Forall2_nil_inv_r in H as ->.
  destruct (mix_access_spec i0 k b m0 w0) as (m0' & E0 & R0); [done..|].
  destruct (mix_access_spec i1 k b m1 w1) as (m1' & E1 & R1); [done..|].
  destruct (mix_access_spec i2 k b m2 w2) as (m2' & E2 & R2); [done..|].
  destruct (mix_access_spec i3 k b m3 w3) as (m3' & E3 & R3); [done..|].
  exists [m0'; m1'; m2'; m3']. split; [|by repeat (constructor; [assumption|])].
  cbn [seq PARALLEL_HASH mfold lookup list_lookup mbind option_bind].
  rewrite E0. cbn [mbind option_bind insert list_insert lookup list_lookup].
  rewrite E1. cbn [mbind option_bind insert list_insert lookup list_lookup].
  rewrite E2. cbn [mbind option_bind insert list_insert lookup list_lookup].
  rewrite E3. reflexivity.
Qed.

Lemma pass_fold init0 wss l :
  length init0 = length wss ->
  fold_left (pass_step init0) l wss =
  zip_with (fun s0 ws => fold_left (spec_round s0) l ws) init0 wss.
Proof. apply (fold_left_zip (fun s0 ws j => spec_round s0 ws j)). Qed.

Lemma mix_loop_spec init0 mix wss :
  length init0 = 4%nat -> length wss = 4%nat -> Forall2 mix_rel mix wss ->
  exists mix', mix_loop dev init0 mix = Some mix' /\
    Forall2 mix_rel mix' (zip_with (fun s0 ws => fold_left (spec_round s0) (seq 0 64) ws) init0 wss).
Proof.
  intros Hi Hw H. rewrite <-pass_fold by lia.
  set (R := fun mix wss => length wss = 4%nat /\ Forall2 mix_rel mix wss).
  destruct (mfold_rel R
    (fun mix a => mfold (fun mix b => mfold (fun mix p => m ← mix !! p; i0 ← init0 !! p;
      m ← mix_access dev i0 a b m; Some (<[p := m]> mix)) (seq 0 PARALLEL_HASH) mix) (seq 0 4) mix)
    (fun wss a => fold_left (fun wss b => pass_step init0 wss (a + b)) (seq 0 4) wss)
    ((fun k => 4 * k)%nat <$> seq 0 (ACCESSES / 4)) mix wss) as (mix' & E & R'); [done| |].
  - intros mix1 wss1 a Ha HR.
    apply list_elem_of_fmap in Ha as (k & -> & Hk). apply elem_of_seq in Hk.
    change (ACCESSES / 4)%nat with 16%nat in Hk.
    apply (mfold_rel R _ (fun wss b => pass_step init0 wss (4 * k + b))); [done|].
    intros mix2 wss2 b Hb [Hw2 HR2]. apply elem_of_seq in Hb.
    destruct (pass_step_spec init0 k b mix2 wss2) as (mix3 & E3 & R3); [lia|lia|done..|].
    exists mix3. split; [exact E3|]. split; [|done]. unfold pass_step. rewrite length_zip_with. lia.
  - exists mix'. split; [exact E|]. exact (proj2 R').
Qed.
End Mixing.

(** ** Lanes, words and bytes *)

Lemma le_words_step n k l : (0 < n)%nat -> length l = (n * S k)%nat ->
  le_words n l = le_word (take n l) :: le_words n (drop n l).
Proof.
  intros Hn Hlen. unfold words. rewrite length_drop, Hlen.
  replace (n * S k - n)%nat with (k * n)%nat by lia. rewrite (Nat.mul_comm n), !Nat.div_mul by lia.
  done.
Qed.

Lemma node_words_lanes k l lanes :
  length l = (8 * k)%nat -> bytes_ok l -> reps lanes (le_words 8 l) -> node_words lanes = le_words 4 l.
Proof.
  revert l lanes. induction k as [|k IH]; intros l lanes Hlen Hok H.
  { apply nil_length_inv in Hlen as ->. apply Forall2_nil_inv_r in H as ->. done. }
  rewrite (le_words_step 8 k) in H by (done || lia).
  apply Forall2_cons_inv_r in H as (a & lanes' & [_ Ha] & H & ->).
  rewrite (le_words_step 4 (2 * k + 1)), (le_words_step 4 (2 * k)) by (rewrite ?length_drop; lia).
  rewrite drop_drop. change (4 + 4)%nat with 8%nat.
  change (node_words (a :: lanes')) with ([x2 a; y2 a] ++ node_words lanes').
  rewrite (IH (drop 8 l)); [|rewrite length_drop; lia|by apply Forall_drop|done].
  rewrite <-(take_drop 4 (take 8 l)), take_take, skipn_firstn_comm, vectorize_bytes in Ha.
  - rewrite Ha. done.
  - split; [rewrite length_take; lia|by apply Forall_take].
  - split; [rewrite length_take, length_drop; lia|by apply Forall_take, Forall_drop].
Qed.

Lemma le_words_pairs a b ws :
  in_word 32 a -> in_word 32 b ->
  le_words 8 (of_le_words 4 (a :: b :: ws)) = (a + 2 ^ 32 * b) :: le_words 8 (of_le_words 4 ws).
Proof.
  intros Ha Hb. change (of_le_words 4 (a :: b :: ws)) with
    (le_bytes 4 a ++ le_bytes 4 b ++ of_le_words 4 ws).
  unfold words. rewrite !length_app, !length_le_bytes, length_of_words.
  replace ((4 + (4 + 4 * length ws)) / 8)%nat with (S ((4 * length ws) / 8)).
  2:{ replace (4 + (4 + 4 * length ws))%nat with (4 * length ws + 1 * 8)%nat by lia.
      rewrite Nat.div_add by lia. lia. }
  cbn [chunks fmap list_fmap]. rewrite app_assoc.
  rewrite take_app_length', drop_app_length' by by rewrite length_app, !length_le_bytes.
  f_equal. change (@load plain_host) with le_word.
  rewrite le_word_app, length_le_bytes, !le_word_bytes by done. done.
Qed.

(** ** The hash of a group *)

Section Group.
Context {arch : Arch} (dev : device) (c : epoch_context).
Context (Hpages : 0 < full_dataset_num_items c) (Hdag : dag_ok dev c).
Context (Hheader : hash256_wf (d_header dev)).

Abbreviation seed nonce := (seed_of (d_header dev) nonce).

(** A thread whose first eight lanes hold the seed hash of its nonce. *)
Definition seeded (nonce : Z) (st : list uint2) : Prop :=
  length st = 12%nat /\ reps (take 8 st) (le_words 8 (seed nonce)).

(** A thread whose state also holds the mix hash. *)
Definition mixed (nonce : Z) (st : list uint2) : Prop :=
  length st = 12%nat /\ reps st (le_words 8 (seed nonce ++ spec_mix c (seed nonce))).

Lemma seed_of_wf nonce : hash512_wf (seed nonce).
Proof. apply sha3_512_wf. Qed.

Lemma init_mix_rel nonce st :
  seeded nonce st ->
  mix_rel (init_mix (take 8 st) <$> seq 0 THREADS_PER_HASH)
    (le_words 4 (seed nonce) ++ le_words 4 (seed nonce)) /\
  x2 (nth 0 (take 8 st) u2zero) = nth 0 (le_words 4 (seed nonce)) 0.
Proof.
  intros [Hlen Hst]. destruct (seed_of_wf nonce) as [Hl Hok].
  pose proof (node_words_lanes 8 _ _ Hl Hok Hst) as Hw. rewrite <-Hw.
  assert (Hr : Forall (in_word 32) (node_words (take 8 st))).
  { rewrite Hw. apply (words_in_word (host := plain_host) 4 16); [lia|done|done]. }
  do 12 (destruct st as [|? st]; [discriminate Hlen|]). clear Hw Hst.
  split; [|reflexivity]. split; [done|]. split; [by apply Forall_app|reflexivity].
Qed.

Lemma thread_mix_compress m ws k :
  mix_rel m ws -> (k < 8)%nat ->
  fnv_reduce (nth k m (make_uint4 0 0 0 0)) = nth k (compress ws) 0.
Proof.
  intros (Hlen & Hws & <-) Hk. unfold compress.
  rewrite (nth_fmap_seq _ 8 k) by done.
  rewrite !fnv_fnv1 by by apply nth_in_word.
  rewrite <-(Nat.add_0_r (4 * k)) at 1. rewrite !nth_flat by lia. reflexivity.
Qed.

Abbreviation spec_mixing nonce :=
  (fold_left (hashimoto_round (light_cache c) (full_dataset_num_items c)
      (nth 0 (le_words 4 (seed nonce)) 0)) (seq 0 64)
      (le_words 4 (seed nonce) ++ le_words 4 (seed nonce))).

Lemma move_mix_mixed nonce st m :
  seeded nonce st -> mix_rel m (spec_mixing nonce) -> mixed nonce (move_mix m st).
Proof.
  intros [Hlen Hst] Hm. set (ws := spec_mixing nonce) in *.
  assert (E : le_words 8 (seed nonce ++ spec_mix c (seed nonce)) =
    le_words 8 (seed nonce) ++ le_words 8 (of_le_words 4 (compress ws))).
  { apply (words_app 8 _ _ 8 4); [lia|apply seed_of_wf|apply spec_mix_wf]. }
  unfold mixed, move_mix. rewrite !(thread_mix_compress m ws) by (done || lia).
  rewrite drop_ge, app_nil_r by lia. split; [rewrite length_app, length_take, Hlen; done|].
  rewrite E. apply Forall2_app; [done|].
  pose proof (compress_in_word ws) as Hc.
  destruct (compress ws) as [|c0 [|c1 [|c2 [|c3 [|c4 [|c5 [|c6 [|c7 [|]]]]]]]]] eqn:Ec;
    try discriminate Ec.
  rewrite !Forall_cons in Hc. rewrite !le_words_pairs by tauto. cbn [nth].
  repeat (constructor; [apply make_uint2_rep; tauto|]). constructor.
Qed.

Lemma mixed_seeded nonce st : mixed nonce st -> seeded nonce st.
Proof.
  intros [Hlen Hst]. split; [done|]. apply (Forall2_take _ _ _ 8) in Hst.
  rewrite (words_app 8 _ _ 8 4) in Hst; [|lia|apply seed_of_wf|apply spec_mix_wf].
  rewrite take_app_length' in Hst; [done|].
  rewrite length_words. by rewrite (proj1 (seed_of_wf nonce)).
Qed.

Lemma imap_same {A} (f : nat -> A -> A) (l : list A) :
  (forall i x, l !! i = Some x -> f i x = x) -> imap f l = l.
Proof.
  intros Hf. apply list_eq. intros i. rewrite list_lookup_imap.
  destruct (l !! i) as [x|] eqn:Hx; [|done]. cbn. by rewrite (Hf i x Hx).
Qed.

Lemma store_mix_app m l1 st l2 :
  store_mix (length l1) m (l1 ++ st :: l2) = l1 ++ move_mix m st :: l2.
Proof.
  unfold store_mix. rewrite imap_app. f_equal.
  - apply imap_same. intros i x Hx. apply lookup_lt_Some in Hx.
    by destruct (Nat.eqb_spec (length l1) i); [lia|].
  - cbn. rewrite Nat.add_0_r, Nat.eqb_refl. f_equal.
    apply imap_same. intros i x Hx. cbn.
    by destruct (Nat.eqb_spec (length l1) (length l1 + S i)); [lia|].
Qed.

(** A pass mixes the four threads it works for and leaves the others alone. *)
Lemma parallel_hash_spec pre post n0 n1 n2 n3 s0 s1 s2 s3 :
  seeded n0 s0 -> seeded n1 s1 -> seeded n2 s2 -> seeded n3 s3 ->
  exists t0 t1 t2 t3,
    parallel_hash dev (pre ++ s0 :: s1 :: s2 :: s3 :: post) (length pre) =
      Some (pre ++ t0 :: t1 :: t2 :: t3 :: post) /\
    mixed n0 t0 /\ mixed n1 t1 /\ mixed n2 t2 /\ mixed n3 t3.
Proof.
  intros H0 H1 H2 H3. set (states := pre ++ _).
  assert (Hnth : forall p, nth (length pre + p) states [] = nth p (s0 :: s1 :: s2 :: s3 :: post) []).
  { intros p. unfold states. rewrite app_nth2 by lia. f_equal. lia. }
  unfold parallel_hash. cbv zeta.
  assert (Hs : (fun p => init_mix (take 8 (nth (length pre + p) states [])) <$> seq 0 THREADS_PER_HASH) <$>
      seq 0 PARALLEL_HASH =
    (fun st => init_mix (take 8 st) <$> seq 0 THREADS_PER_HASH) <$> [s0; s1; s2; s3]).
  { cbn [seq PARALLEL_HASH fmap list_fmap]. by rewrite !Hnth. }
  assert (Hi : (fun p => x2 (nth 0 (take 8 (nth (length pre + p) states [])) u2zero)) <$> seq 0 PARALLEL_HASH =
    (fun n => nth 0 (le_words 4 (seed n)) 0) <$> [n0; n1; n2; n3]).
  { cbn [seq PARALLEL_HASH fmap list_fmap]. rewrite !Hnth. cbn [nth].
    by rewrite (proj2 (init_mix_rel _ _ H0)), (proj2 (init_mix_rel _ _ H1)),
      (proj2 (init_mix_rel _ _ H2)), (proj2 (init_mix_rel _ _ H3)). }
  rewrite Hs, Hi.
  destruct (mix_loop_spec dev c Hpages Hdag ((fun n => nth 0 (le_words 4 (seed n)) 0) <$> [n0; n1; n2; n3])
    ((fun st => init_mix (take 8 st) <$> seq 0 THREADS_PER_HASH) <$> [s0; s1; s2; s3])
    ((fun n => le_words 4 (seed n) ++ le_words 4 (seed n)) <$> [n0; n1; n2; n3]))
    as (mix & -> & Hmix); 
    [done|done|repeat (constructor; [by apply init_mix_rel|]); constructor|].
  cbn [fmap list_fmap zip_with] in Hmix.
  apply Forall2_cons_inv_r in Hmix as (m0 & ? & M0 & Hmix & ->).
  apply Forall2_cons_inv_r in Hmix as (m1 & ? & M1 & Hmix & ->).
  apply Forall2_cons_inv_r in Hmix as (m2 & ? & M2 & Hmix & ->).
  apply Forall2_cons_inv_r in Hmix as (m3 & ? & M3 & Hmix & ->).
  apply Forall2_nil_inv_r in Hmix as ->.
  cbn [mbind option_bind seq PARALLEL_HASH fold_left nth]. unfold states.
  exists (move_mix m0 s0), (move_mix m1 s1), (move_mix m2 s2), (move_mix m3 s3).
  split; [|exact (conj (move_mix_mixed _ _ _ H0 M0) (conj (move_mix_mixed _ _ _ H1 M1)
    (conj (move_mix_mixed _ _ _ H2 M2) (move_mix_mixed _ _ _ H3 M3))))].
  f_equal.
  rewrite Nat.add_0_r, store_mix_app.
  pose proof (store_mix_app m1 (pre ++ [move_mix m0 s0]) s1 (s2 :: s3 :: post)) as E1.
  pose proof (store_mix_app m2 (pre ++ [move_mix m0 s0; move_mix m1 s1]) s2 (s3 :: post)) as E2.
  pose proof (store_mix_app m3 (pre ++ [move_mix m0 s0; move_mix m1 s1; move_mix m2 s2]) s3 post) as E3.
  rewrite <-!app_assoc, length_app in E1, E2, E3. cbn [app length] in E1, E2, E3.
  by rewrite E1, E2, E3.
Qed.

Lemma initial_state nonce :
  in_word 64 nonce ->
  seeded nonce (keccak_f1600_init (hash32_uint4s (d_header dev))
    (<[4%nat := vectorize nonce]> (replicate 12 u2zero))).
Proof.
  intros Hn. pose proof (keccak_f1600_init_rep (d_header dev) nonce
    (<[4%nat := vectorize nonce]> (replicate 12 u2zero)) Hheader Hn eq_refl) as H.
  split; [exact (proj2 H)|exact (proj1 H)].
Qed.

(** The leading word of the final hash, read big-endian as the host does. *)
Lemma final_word nonce st :
  mixed nonce st ->
  cuda_swab64 (keccak_f1600_final st) = be_number (take 8 (sha3_256 (seed nonce ++ spec_mix c (seed nonce)))).
Proof.
  intros [Hlen Hst]. set (data := seed nonce ++ spec_mix c (seed nonce)) in *.
  assert (Hdata : hash_wf 96 data).
  { destruct (seed_of_wf nonce) as [Hl1 Ho1]. destruct (spec_mix_wf c (seed nonce)) as [Hl2 Ho2].
    split; [unfold data; by rewrite length_app, Hl1, Hl2|by apply Forall_app]. }
  rewrite (keccak_f1600_final_eq st data Hdata) by by rewrite take_ge by lia.
  destruct (sha3_256_wf data) as [Hl Hok].
  rewrite (le_words_step 8 3) by (done || lia). cbn [nth].
  assert (Hlen8 : length (take 8 (sha3_256 data)) = 8%nat) by (rewrite length_take; lia).
  assert (Hok8 : bytes_ok (take 8 (sha3_256 data))) by by apply Forall_take.
  rewrite cuda_swab64_bswap.
  - unfold bswap64, be_number. by rewrite (le_bytes_word _ 8).
  - pose proof (le_word_in_word _ Hok8) as H. by rewrite Hlen8 in H.
Qed.

(** What the threads of a group return. *)
Definition above_target (nonce : Z) : bool :=
  d_target dev <? be_number (take 8 (final_hash (spec_result c (d_header dev) nonce))).

Lemma compute_hash_spec nonces :
  length nonces = 8%nat -> Forall (in_word 64) nonces ->
  compute_hash dev nonces = Some (above_target <$> nonces).
Proof.
  intros Hlen Hn.
  destruct nonces as [|n0 [|n1 [|n2 [|n3 [|n4 [|n5 [|n6 [|n7 [|]]]]]]]]]; try discriminate Hlen.
  rewrite !Forall_cons in Hn. destruct Hn as (N0 & N1 & N2 & N3 & N4 & N5 & N6 & N7 & _).
  unfold compute_hash.
  set (st := fun nonce => keccak_f1600_init (hash32_uint4s (d_header dev))
    (<[4%nat := vectorize nonce]> (replicate 12 u2zero))).
  cbn [fmap list_fmap mfold].
  destruct (parallel_hash_spec [] (st n4 :: st n5 :: st n6 :: st n7 :: []) n0 n1 n2 n3 (st n0) (st n1) (st n2) (st n3))
    as (t0 & t1 & t2 & t3 & E1 & M0 & M1 & M2 & M3); [by apply initial_state..|].
  cbn [app length] in E1. rewrite E1. cbn [mbind option_bind].
  destruct (parallel_hash_spec [t0; t1; t2; t3] [] n4 n5 n6 n7 (st n4) (st n5) (st n6) (st n7))
    as (t4 & t5 & t6 & t7 & E2 & M4 & M5 & M6 & M7); [by apply initial_state..|].
  cbn [app length] in E2. change PARALLEL_HASH with 4%nat. rewrite E2. cbn [mbind option_bind map].
  unfold above_target.
  rewrite (final_word n0 t0 M0), (final_word n1 t1 M1), (final_word n2 t2 M2), (final_word n3 t3 M3),
    (final_word n4 t4 M4), (final_word n5 t5 M5), (final_word n6 t6 M6), (final_word n7 t7 M7).
  rewrite !spec_result_eq. reflexivity.
Qed.
End Group.

(** A nonce whose hash, cut to its leading 64 bits, does not exceed the target. *)
Definition candidate {host : Host} (dev : device) (c : epoch_context) (nonce : Z) : Prop :=
  exists r, ethash_hash c (d_header dev) nonce = Some r /\
    be_number (take 8 (final_hash r)) <= d_target dev.

Lemma above_target_candidate {host : Host} dev c nonce :
  context_ok c -> hash256_wf (d_header dev) -> in_word 64 nonce ->
  above_target dev c nonce = false <-> candidate dev c nonce.
Proof.
  intros Hc Hh Hn. unfold above_target, candidate. rewrite ethash_hash_spec by done.
  rewrite Z.ltb_ge. split.
  - intros H. eexists. split; [reflexivity|exact H].
  - intros (r & Hr & H). injection Hr as <-. exact H.
Qed.

(** A group of eight threads computes, for its eight nonces at once and without
    undefined behaviour, whether the leading 64 bits of the hash that the
    host's [ethash_hash] gives exceed the target. *)
Theorem cuda_compute_hash_correct (arch : Arch) (host : Host) (dev : device) (c : epoch_context)
    (nonces : list Z) :
  context_ok c -> dag_ok dev c -> hash256_wf (d_header dev) ->
  length nonces = 8%nat -> Forall (in_word 64) nonces ->
  exists rs, compute_hash dev nonces = Some rs /\
    Forall2 (fun nonce r => r = false <-> candidate dev c nonce) nonces rs.
Proof.
  intros Hc Hdag Hh Hlen Hn. eexists. split.
  - apply (compute_hash_spec dev c); [apply Hc|done..].
  - apply Forall2_fmap_r, Forall_Forall2_diag. apply (Forall_impl _ _ _ Hn).
    intros n Hin. by apply above_target_candidate.
Qed.

(** A device whose DAG is the dataset of the small context. *)
Definition tiny_device (target : Z) : device :=
  mk_device 5
    (list_to_map ((fun k => (Z.of_nat k, calc_dataset_item (light_cache tiny_context) (Z.of_nat k)))
      <$> seq 0 10)) 3 (light_cache tiny_context) (zero_hash 32) target.

Lemma tiny_device_ok target : dag_ok (tiny_device target) tiny_context.
Proof.
  split; [done|]. intros k Hk. apply elem_of_list_to_map_1.
  - rewrite <-list_fmap_compose. unfold compose. cbn [fst].
    apply NoDup_fmap_2; [apply _|apply NoDup_seq].
  - apply list_elem_of_fmap. exists (Z.to_nat k). cbn [full_dataset_num_items tiny_context] in Hk.
    rewrite elem_of_seq, Z2Nat.id by lia. split; [done|lia].
Qed.

Lemma cuda_compute_hash_correct_witness :
  let nonces := Z.of_nat <$> seq 100 8 in
  exists rs, @compute_hash (mk_arch 300 7000) (tiny_device 5) nonces = Some rs /\
    Forall2 (fun nonce r => r = false <-> @candidate plain_host (tiny_device 5) tiny_context nonce) nonces rs.
Proof.
  intros nonces. apply (cuda_compute_hash_correct (mk_arch 300 7000) plain_host (tiny_device 5) tiny_context nonces).
  - exact tiny_context_ok.
  - apply tiny_device_ok.
  - split; [reflexivity|apply zeros_ok].
  - reflexivity.
  - apply Forall_fmap, Forall_forall. intros k Hk. apply elem_of_seq in Hk. unfold in_word, compose. lia.
Defined.
