(* ===== verification/CudaSearch.v ===== *)
(** * The CUDA search kernel

    [ethash_search] and [run_ethash_search] of
    [libcuda/ethash_cuda_miner_kernel.cu] as a transition system: the device
    starts groups of threads and completes threads in any order, and the host
    may set [done] while they run. *)

From stdpp Require Import base numbers list gmap.
From Stdlib Require Import ZArith Lia Bool.
From S2P Require Import Prelude Words KeccakSpec KeccakF Keccak EthashSpec Ethash EthashHash.
From S2P Require Import CudaHelper CudaKeccak CudaKernel.

Local Open Scope Z_scope.
Local Open Scope word_scope.
#[local] Opaque calc_dataset_item item_seed sha3_512 sha3_256.

Record Search_results := mk_Search_results {
  solCount : Z;
  hashCount : Z;
  done_ : Z;
  gid : list Z
}.

Definition MAX_SEARCH_RESULTS : Z := 4.

Section Threads.
Context {arch : Arch} (dev : device).

(** [atomicInc] with bound [0xffffffff]. *)
Definition atomicInc (old : Z) : Z := if 0xffffffff <=? old then 0 else old + 1.

(** The end of [ethash_search] for one thread, once its hash is computed. *)
Definition ethash_search_thread (g_output : Search_results) (thread : Z * Z * bool) : Search_results :=
  let '(gid_, threadIdx, r) := thread in
  let hashCount' := if threadIdx =? 0 then atomicInc (hashCount g_output) else hashCount g_output in
  if r then mk_Search_results (solCount g_output) hashCount' (done_ g_output) (gid g_output) else
  let index := solCount g_output in
  let solCount' := atomicInc index in
  if MAX_SEARCH_RESULTS <=? index then
    mk_Search_results solCount' hashCount' (done_ g_output) (gid g_output)
  else mk_Search_results solCount' hashCount' 1 (<[Z.to_nat index := gid_]> (gid g_output)).

(** The threads [8 * group] to [8 * group + 7] of block [blockIdx] that pass the
    test of [done]: their global index, index in the block and hash result. *)
Definition group_threads (blockDim start_nonce : Z) (block_group : Z * Z)
  : option (list (Z * Z * bool)) :=
  let '(blockIdx, group) := block_group in
  let threads : list Z := (fun k => 8 * group + Z.of_nat k) <$> seq 0 THREADS_PER_HASH in
  let gids : list Z := (fun t => u32 (u32 (blockIdx * blockDim) + t)) <$> threads in
  rs ← compute_hash dev ((fun g => u64 (start_nonce + g)) <$> gids);
  Some (zip (zip gids threads) rs).
End Threads.

(** The grid: groups that have not started, threads that have computed their
    hash, the result buffer, and whether the host has set [done].  The device
    starts groups and completes threads in any order. *)
Record grid := mk_grid {
  g_waiting : list (Z * Z);
  g_pending : list (Z * Z * bool);
  g_output : Search_results;
  g_kicked : bool
}.

(** [kick_miner] overwrites [done] while the kernel runs. *)
Definition kick_output (out : Search_results) : Search_results :=
  mk_Search_results (solCount out) (hashCount out) 1 (gid out).

Inductive grid_step {arch : Arch} (dev : device) (blockDim start_nonce : Z) : grid -> grid -> Prop :=
  | group_skipped w1 bg w2 p out k :
      done_ out <> 0 ->
      grid_step dev blockDim start_nonce (mk_grid (w1 ++ bg :: w2) p out k) (mk_grid (w1 ++ w2) p out k)
  | group_started w1 bg w2 p out k ths :
      done_ out = 0 -> group_threads dev blockDim start_nonce bg = Some ths ->
      grid_step dev blockDim start_nonce (mk_grid (w1 ++ bg :: w2) p out k)
        (mk_grid (w1 ++ w2) (p ++ ths) out k)
  | thread_finished w p1 th p2 out k :
      grid_step dev blockDim start_nonce (mk_grid w (p1 ++ th :: p2) out k)
        (mk_grid w (p1 ++ p2) (ethash_search_thread out th) k)
  | host_kick w p out :
      grid_step dev blockDim start_nonce (mk_grid w p out false) (mk_grid w p (kick_output out) true).

(** The launch of [run_ethash_search] on a cleared buffer. *)
Definition launch (gridSize blockSize : Z) (out : Search_results) : grid :=
  mk_grid
    (blk ← Z.of_nat <$> seq 0 (Z.to_nat gridSize);
     grp ← Z.of_nat <$> seq 0 (Z.to_nat (blockSize / 8));
     [(blk, grp)]) [] out false.

(** ** The search kernel under every schedule *)

Section Grid.
Context {arch : Arch} (dev : device) (c : epoch_context).
Context (Hpages : 0 < full_dataset_num_items c) (Hdag : dag_ok dev c).
Context (Hheader : hash256_wf (d_header dev)).
Context (gridSize groups start_nonce : Z).
Context (Hgrid : 0 <= gridSize) (Hgroups : 0 <= groups) (Hsize : gridSize * (8 * groups) < 2 ^ 32).

Abbreviation blockSize := (8 * groups).
Abbreviation total := (gridSize * blockSize).

(** The nonce a thread hashes, and whether its hash misses the target. *)
Definition nonce_of (g : Z) : Z := u64 (start_nonce + g).
Definition misses (g : Z) : bool := above_target dev c (nonce_of g).

Definition thread_ok (th : Z * Z * bool) : Prop :=
  let '(g, t, r) := th in
  exists blk, 0 <= blk < gridSize /\ 0 <= t < blockSize /\ g = blk * blockSize + t /\ r = misses g.

Definition group_ok (bg : Z * Z) : Prop := 0 <= bg.1 < gridSize /\ 0 <= bg.2 < groups.

Definition group_list (bg : Z * Z) : list (Z * Z * bool) :=
  (fun k => let t := 8 * bg.2 + Z.of_nat k in
    (bg.1 * blockSize + t, t, misses (bg.1 * blockSize + t))) <$> seq 0 8.

Lemma group_threads_spec bg :
  group_ok bg -> group_threads dev blockSize start_nonce bg = Some (group_list bg).
Proof.
  destruct bg as [blk grp]. intros [Hb Hg]. cbn [fst snd] in *.
  unfold group_threads, group_list. cbn [fst snd].
  assert (Hgid : (fun t => u32 (u32 (blk * blockSize) + t)) <$>
      ((fun k => 8 * grp + Z.of_nat k) <$> seq 0 THREADS_PER_HASH) =
    (fun k => blk * blockSize + (8 * grp + Z.of_nat k)) <$> seq 0 8).
  { rewrite <-list_fmap_compose. apply list_fmap_ext. intros i k Hk.
    apply lookup_seq in Hk as [-> Hk]. unfold compose.
    assert (0 <= blk * blockSize + (8 * grp + Z.of_nat (0 + i)) < 2 ^ 32) by nia.
    rewrite (wrap_id 32 (blk * blockSize)), wrap_id; unfold in_word; nia. }
  cbv zeta. rewrite Hgid.
  rewrite (compute_hash_spec dev c Hpages Hdag Hheader).
  - reflexivity.
  - done.
  - apply Forall_fmap, Forall_true. intros. by apply wrap_in_word.
Qed.

Lemma group_list_ok bg : group_ok bg -> Forall thread_ok (group_list bg).
Proof.
  destruct bg as [blk grp]. intros [Hb Hg]. cbn [fst snd] in *.
  unfold group_list. apply Forall_fmap, Forall_forall. intros k Hk. apply elem_of_seq in Hk.
  cbn. exists blk. split_and!; [lia..|done|done].
Qed.

(** The group a thread belongs to. *)
Definition group_of (x : Z) : Z * Z := (x / blockSize, x mod blockSize / 8).

Lemma group_of_thread x :
  0 <= x < total -> exists th, th ∈ group_list (group_of x) /\ th.1.1 = x.
Proof.
  intros Hx. assert (Hb : 0 < blockSize) by nia.
  pose proof (Z.div_mod x blockSize) as H1. pose proof (Z.mod_pos_bound x blockSize Hb).
  pose proof (Z.div_mod (x mod blockSize) 8) as H2. pose proof (Z.mod_pos_bound (x mod blockSize) 8).
  eexists. split.
  - unfold group_list, group_of. cbn [fst snd]. apply list_elem_of_fmap.
    exists (Z.to_nat ((x mod blockSize) mod 8)). split; [reflexivity|]. apply elem_of_seq. lia.
  - cbn. rewrite Z2Nat.id by lia. lia.
Qed.

(** How many entries are zero: threads with index 0, groups with index 0. *)
Definition zeros (l : list Z) : Z := Z.of_nat (length (filter (fun t => t = 0) l)).

Lemma zeros_app l1 l2 : zeros (l1 ++ l2) = zeros l1 + zeros l2.
Proof. unfold zeros. rewrite filter_app, length_app. lia. Qed.

Lemma zeros_cons t l : zeros (t :: l) = (if t =? 0 then 1 else 0) + zeros l.
Proof.
  unfold zeros. rewrite filter_cons. destruct (Z.eqb_spec t 0); case_decide; try done.
  cbn [length]. lia.
Qed.

Lemma zeros_none l : Forall (fun t => t <> 0) l -> zeros l = 0.
Proof.
  intros H. induction H as [|t l Ht _ IH]; [done|].
  rewrite zeros_cons, IH, (proj2 (Z.eqb_neq t 0)) by done. done.
Qed.

Lemma zeros_group bg :
  group_ok bg -> zeros ((fun th => th.1.2) <$> group_list bg) = if bg.2 =? 0 then 1 else 0.
Proof.
  intros [_ Hg]. unfold group_list. rewrite <-list_fmap_compose. unfold compose. cbn [fst snd].
  cbn [seq fmap list_fmap]. rewrite !zeros_cons. change (zeros []) with 0.
  repeat match goal with |- context [?x =? 0] => destruct (Z.eqb_spec x 0); try lia end.
Qed.

Record grid_ok (g : grid) : Prop := {
  ok_waiting : Forall group_ok (g_waiting g);
  ok_pending : Forall thread_ok (g_pending g);
  ok_hashcount : 0 <= hashCount (g_output g);
  ok_gid : length (gid (g_output g)) = 4%nat;
  ok_count : 0 <= solCount (g_output g) /\
    solCount (g_output g) + Z.of_nat (length (g_pending g)) +
      8 * Z.of_nat (length (g_waiting g)) <= total;
  ok_done : done_ (g_output g) = if (solCount (g_output g) =? 0) && negb (g_kicked g) then 0 else 1;
  ok_sound : forall i x, Z.of_nat i < solCount (g_output g) -> gid (g_output g) !! i = Some x ->
    0 <= x < total /\ misses x = false;
  ok_complete : solCount (g_output g) = 0 -> g_kicked g = false -> forall x, 0 <= x < total ->
    misses x = true \/ (exists th, th ∈ g_pending g /\ th.1.1 = x) \/ group_of x ∈ g_waiting g;
  ok_hashes : solCount (g_output g) = 0 -> g_kicked g = false ->
    hashCount (g_output g) + zeros ((fun th => th.1.2) <$> g_pending g) +
      zeros (snd <$> g_waiting g) = if groups =? 0 then 0 else gridSize
}.

Lemma atomicInc_small x : 0 <= x < 2 ^ 32 - 1 -> atomicInc x = x + 1.
Proof. intros Hx. unfold atomicInc. destruct (Z.leb_spec 0xffffffff x); lia. Qed.

Lemma atomicInc_nonneg x : 0 <= x -> 0 <= atomicInc x.
Proof. intros Hx. unfold atomicInc. case_match; lia. Qed.

Lemma thread_ok_range g t r : thread_ok (g, t, r) -> 0 <= g < total /\ r = misses g.
Proof. intros (blk & Hb & Ht & -> & ->). split; [nia|done]. Qed.

#[local] Opaque misses.

Lemma skipped_ok w1 bg w2 p out k :
  done_ out <> 0 -> grid_ok (mk_grid (w1 ++ bg :: w2) p out k) -> grid_ok (mk_grid (w1 ++ w2) p out k).
Proof.
  intros Hd [Hw Hp Hhc Hg Hc Hdone Hs _ _]. cbn [g_waiting g_pending g_output g_kicked] in *.
  assert (Hne : ~ (solCount out = 0 /\ k = false)) by (intros [E ->]; rewrite E in Hdone; done).
  apply Forall_app in Hw as [Hw1 [Hbg Hw2]%Forall_cons]. rewrite length_app in Hc. cbn [length] in Hc.
  constructor; cbn [g_waiting g_pending g_output g_kicked]; try done;
    [by apply Forall_app|rewrite length_app; clear -Hc; lia|by intros H1 H2; destruct Hne..].
Qed.

Lemma started_ok w1 bg w2 p out k :
  group_ok bg -> grid_ok (mk_grid (w1 ++ bg :: w2) p out k) ->
  grid_ok (mk_grid (w1 ++ w2) (p ++ group_list bg) out k).
Proof.
  intros Hbg [Hw Hp Hhc Hg Hc Hdone Hs Hcomp Hh]. cbn [g_waiting g_pending g_output g_kicked] in *.
  apply Forall_app in Hw as [Hw1 [_ Hw2]%Forall_cons]. rewrite length_app in Hc. cbn [length] in Hc.
  constructor; cbn [g_waiting g_pending g_output g_kicked solCount hashCount done_ gid]; try done.
  - by apply Forall_app.
  - apply Forall_app. split; [done|by apply group_list_ok].
  - rewrite !length_app. change (length (group_list bg)) with 8%nat. lia.
  - intros H0 Hk x Hx. destruct (Hcomp H0 Hk x Hx) as [?|[(th & Hth & <-)|Hin]]; [by left|right..].
    + left. exists th. split; [|done]. apply elem_of_app. by left.
    + apply elem_of_app in Hin. rewrite elem_of_cons in Hin.
      destruct Hin as [Hin|[<-|Hin]]; [right; apply elem_of_app; by left| |right; apply elem_of_app; by right].
      left. destruct (group_of_thread x Hx) as (th & Hth & Hx'). exists th.
      split; [|done]. apply elem_of_app. by right.
  - intros H0 Hk. specialize (Hh H0 Hk). rewrite (fmap_app snd), zeros_app, fmap_cons, zeros_cons in Hh.
    rewrite !fmap_app, !zeros_app, zeros_group by done. lia.
Qed.

Lemma finished_ok w p1 th p2 out kk :
  grid_ok (mk_grid w (p1 ++ th :: p2) out kk) ->
  grid_ok (mk_grid w (p1 ++ p2) (ethash_search_thread out th) kk).
Proof.
  destruct th as [[g t] r]. intros [Hw Hp Hhc Hg Hc Hdone Hs Hcomp Hh]. cbn [g_waiting g_pending g_output g_kicked] in *.
  apply Forall_app in Hp as [Hp1 [Hth Hp2]%Forall_cons].
  destruct (thread_ok_range g t r Hth) as [Hrange ->].
  rewrite length_app in Hc. cbn [length] in Hc.
  assert (Hinc : atomicInc (solCount out) = solCount out + 1) by (apply atomicInc_small; lia).
  assert (Hhc' : 0 <= if t =? 0 then atomicInc (hashCount out) else hashCount out)
    by (destruct (t =? 0); [by apply atomicInc_nonneg|done]).
  unfold ethash_search_thread. destruct (misses g) eqn:Hm.
  - constructor; cbn [g_waiting g_pending g_output g_kicked solCount hashCount done_ gid]; try done; [by apply Forall_app|rewrite length_app; lia| |].
    + intros H0 Hk x Hx. destruct (Hcomp H0 Hk x Hx) as [?|[(th & Hth' & <-)|Hin]]; [by left| |by right; right].
      apply elem_of_app in Hth'. rewrite elem_of_cons in Hth'.
      destruct Hth' as [Hin|[->|Hin]]; [|by left|]; right; left; exists th;
        (split; [apply elem_of_app; by auto|done]).
    + intros H0 Hk. specialize (Hh H0 Hk). rewrite fmap_app, zeros_app, fmap_cons, zeros_cons in Hh.
      rewrite fmap_app, zeros_app. cbn [fst snd] in Hh. destruct (Z.eqb_spec t 0); [|lia].
      assert (Hz : forall l, 0 <= zeros l) by (intros; unfold zeros; lia).
      pose proof (Hz ((fun th => th.1.2) <$> p1)). pose proof (Hz ((fun th => th.1.2) <$> p2)).
      pose proof (Hz (snd <$> w)).
      assert (Hgr : 0 < groups) by (destruct Hth as (blk & ? & ? & _); lia).
      rewrite (proj2 (Z.eqb_neq groups 0)) in * by lia.
      rewrite atomicInc_small; [lia|]. nia.
  - destruct (Z.leb_spec MAX_SEARCH_RESULTS (solCount out)) as [Hmax|Hmax]; unfold MAX_SEARCH_RESULTS in Hmax.
    + constructor; cbn [g_waiting g_pending g_output g_kicked solCount hashCount done_ gid]; rewrite ?Hinc.
      * exact Hw.
      * by apply Forall_app.
      * exact Hhc'.
      * exact Hg.
      * rewrite length_app. lia.
      * rewrite Hdone. by rewrite !(proj2 (Z.eqb_neq _ _)) by lia.
      * intros i x Hi Hx. apply (Hs i); [|exact Hx]. apply lookup_lt_Some in Hx. lia.
      * intros H0. lia.
      * intros H0. lia.
    + constructor; cbn [g_waiting g_pending g_output g_kicked solCount hashCount done_ gid]; rewrite ?Hinc.
      * exact Hw.
      * by apply Forall_app.
      * exact Hhc'.
      * by rewrite length_insert.
      * rewrite length_app. lia.
      * by rewrite (proj2 (Z.eqb_neq _ _)) by lia.
      * intros i x Hi Hx. destruct (decide (i = Z.to_nat (solCount out))) as [->|Hne].
        -- rewrite list_lookup_insert_eq in Hx by lia. injection Hx as <-. exact (conj Hrange Hm).
        -- rewrite list_lookup_insert_ne in Hx by done. apply (Hs i); [lia|exact Hx].
      * intros H0. lia.
      * intros H0. lia.
Qed.

Lemma kicked_ok w p out : grid_ok (mk_grid w p out false) -> grid_ok (mk_grid w p (kick_output out) true).
Proof.
  intros [Hw Hp Hhc Hg Hc Hdone Hs _ _]. cbn [g_waiting g_pending g_output g_kicked] in *.
  constructor; cbn [g_waiting g_pending g_output g_kicked kick_output solCount hashCount done_ gid]; try done.
  by rewrite andb_false_r.
Qed.

Lemma grid_step_ok g g' :
  grid_ok g -> grid_step dev blockSize start_nonce g g' -> grid_ok g'.
Proof.
  intros Hg Hstep. destruct Hstep as [w1 bg w2 p out k Hd|w1 bg w2 p out k ths Hd Hths|w p1 th p2 out k|w p out].
  - by apply (skipped_ok w1 bg).
  - assert (Hbg : group_ok bg).
    { destruct Hg as [Hw _ _ _ _ _ _ _ _]. cbn in Hw. by apply Forall_app in Hw as [_ [? _]%Forall_cons]. }
    rewrite group_threads_spec in Hths by exact Hbg. injection Hths as <-. by apply started_ok.
  - by apply finished_ok.
  - by apply kicked_ok.
Qed.

Definition cleared (out : Search_results) : Prop :=
  solCount out = 0 /\ hashCount out = 0 /\ done_ out = 0 /\ length (gid out) = 4%nat.

Abbreviation launched out := (launch gridSize blockSize out).

Lemma launch_waiting out bg :
  bg ∈ g_waiting (launched out) <-> group_ok bg.
Proof.
  unfold launch. cbn [g_waiting]. destruct bg as [blk grp].
  replace (blockSize / 8) with groups by (rewrite Z.mul_comm, Z.div_mul; lia).
  rewrite list_elem_of_bind. unfold group_ok. cbn [fst snd]. split.
  - intros (b & Hin & Hb). apply list_elem_of_bind in Hin as (g & Hin & Hg).
    apply list_elem_of_singleton in Hin as [= -> ->].
    apply list_elem_of_fmap in Hb as (b' & -> & Hb). apply list_elem_of_fmap in Hg as (g' & -> & Hg).
    apply elem_of_seq in Hb, Hg. lia.
  - intros [Hb Hg]. exists blk. split; [|apply list_elem_of_fmap; exists (Z.to_nat blk); rewrite elem_of_seq; lia].
    apply list_elem_of_bind. exists grp. split; [by apply list_elem_of_singleton|].
    apply list_elem_of_fmap. exists (Z.to_nat grp). rewrite elem_of_seq. lia.
Qed.

Lemma launch_counts out :
  Z.of_nat (length (g_waiting (launched out))) = gridSize * groups /\
  zeros (snd <$> g_waiting (launched out)) = if groups =? 0 then 0 else gridSize.
Proof.
  unfold launch. cbn [g_waiting].
  replace (blockSize / 8) with groups by (rewrite Z.mul_comm, Z.div_mul; lia).
  set (row := fun blk : Z => (Z.of_nat <$> seq 0 (Z.to_nat groups)) ≫= (fun grp => [(blk, grp)])).
  assert (Hrow : forall blk, Z.of_nat (length (row blk)) = groups /\
    zeros (snd <$> row blk) = if groups =? 0 then 0 else 1).
  { intros blk. assert (E : row blk = (fun k => (blk, Z.of_nat k)) <$> seq 0 (Z.to_nat groups)).
    { unfold row. generalize (seq 0 (Z.to_nat groups)). intros l. induction l as [|k l IH]; [done|].
      cbn. f_equal. exact IH. }
    rewrite E. split; [rewrite length_fmap, length_seq; lia|].
    rewrite <-list_fmap_compose. unfold compose. cbn [snd].
    destruct (Z.to_nat groups) as [|n] eqn:En.
    - destruct (Z.eqb_spec groups 0); [done|lia].
    - destruct (Z.eqb_spec groups 0); [lia|]. cbn [seq]. rewrite fmap_cons, zeros_cons. cbn [Z.of_nat Z.eqb].
      rewrite zeros_none; [done|]. apply Forall_fmap, Forall_forall. intros k Hk.
      apply elem_of_seq in Hk. cbn. lia. }
  assert (Hall : forall n, let w := (Z.of_nat <$> seq 0 n) ≫= row in
    Z.of_nat (length w) = Z.of_nat n * groups /\
    zeros (snd <$> w) = if groups =? 0 then 0 else Z.of_nat n).
  { induction n as [|n [IH1 IH2]]; [by destruct (groups =? 0)|]. cbv zeta.
    rewrite seq_S, fmap_app, bind_app, fmap_app, zeros_app, length_app.
    destruct (Hrow (Z.of_nat (0 + n))) as [H1 H2].
    cbn [fmap list_fmap]. cbn [mbind list_bind]. rewrite app_nil_r.
    rewrite H2. cbv zeta in IH1, IH2. rewrite IH2. split; [lia|]. destruct (groups =? 0); lia. }
  destruct (Hall (Z.to_nat gridSize)) as [H1 H2]. cbv zeta in H1, H2.
  rewrite Z2Nat.id in H1, H2 by lia. split; [exact H1|exact H2].
Qed.

Lemma launch_ok out : cleared out -> grid_ok (launched out).
Proof.
  intros (H1 & H2 & H3 & H4). destruct (launch_counts out) as [Hlen Hz].
  constructor; change (g_output (launched out)) with out;
    change (g_pending (launched out)) with (@nil (Z * Z * bool)).
  - apply Forall_forall. intros bg. apply launch_waiting.
  - constructor.
  - lia.
  - exact H4.
  - cbn [length]. rewrite Hlen, H1. lia.
  - by rewrite H1, H3.
  - intros i x Hi. lia.
  - intros _ _ x Hx. right. right. apply launch_waiting.
    assert (Hb : 0 < blockSize) by nia. unfold group_of, group_ok. cbn [fst snd].
    pose proof (Z.mod_pos_bound x blockSize Hb).
    split; split; [apply Z.div_pos; lia|apply Z.div_lt_upper_bound; lia|apply Z.div_pos; lia|].
    apply Z.div_lt_upper_bound; lia.
  - intros _ _. rewrite H2, Hz. reflexivity.
Qed.

Lemma grid_reachable_ok out g :
  cleared out -> rtc (grid_step dev blockSize start_nonce) (launched out) g -> grid_ok g.
Proof.
  intros Hout Hrtc. pose proof (launch_ok out Hout) as Hok. revert Hok.
  induction Hrtc as [|g1 g2 g3 Hstep _ IH]; [done|].
  intros Hok. apply IH. by apply (grid_step_ok g1).
Qed.

(** Every step shrinks the work left, and a grid with work left can move. *)
Definition work_left (g : grid) : nat := (9 * length (g_waiting g) + length (g_pending g))%nat.

Lemma grid_step_decreases g g' :
  grid_ok g -> grid_step dev blockSize start_nonce g g' ->
  (work_left g' < work_left g)%nat \/
  (work_left g' = work_left g /\ g_kicked g = false /\ g_kicked g' = true).
Proof.
  intros Hg Hstep.
  destruct Hstep as [w1 bg w2 p out k Hd|w1 bg w2 p out k ths Hd Hths|w p1 th p2 out k|w p out];
    unfold work_left; cbn [g_waiting g_pending]; rewrite ?length_app; cbn [length]; [left; lia| |left; lia|by right].
  assert (Hbg : group_ok bg).
  { destruct Hg as [Hw _ _ _ _ _ _ _ _]. cbn in Hw. by apply Forall_app in Hw as [_ [? _]%Forall_cons]. }
  rewrite group_threads_spec in Hths by exact Hbg. injection Hths as <-.
  change (length (group_list bg)) with 8%nat. left. lia.
Qed.

Lemma grid_progress g :
  grid_ok g -> work_left g <> 0%nat -> exists g', grid_step dev blockSize start_nonce g g'.
Proof.
  intros Hg Hw. destruct g as [[|bg w] [|th p] out k].
  - done.
  - eexists. apply (thread_finished _ _ _ [] [] th p).
  - destruct (decide (done_ out = 0)) as [Hd|Hd].
    + eexists. apply (group_started _ _ _ [] bg w); [done|]. apply group_threads_spec.
      destruct Hg as [Hw' _ _ _ _ _ _ _ _]. cbn in Hw'. by apply Forall_cons in Hw' as [? _].
    + eexists. by apply (group_skipped _ _ _ [] bg w).
  - eexists. apply (thread_finished _ _ _ (bg :: w) [] th p).
Qed.

(** A finished grid that the host did not stop: no solution was in range, or one
    is reported. *)
Lemma grid_final out g :
  cleared out -> rtc (grid_step dev blockSize start_nonce) (launched out) g -> work_left g = 0%nat ->
  g_kicked g = false ->
  ((exists x, 0 <= x < total /\ misses x = false) ->
    done_ (g_output g) = 1 /\ 1 <= solCount (g_output g)) /\
  ((forall x, 0 <= x < total -> misses x = true) ->
    solCount (g_output g) = 0 /\ hashCount (g_output g) = if groups =? 0 then 0 else gridSize).
Proof.
  intros Hout Hrtc Hw Hk. pose proof (grid_reachable_ok out g Hout Hrtc) as Hok.
  destruct g as [w p o k]. unfold work_left in Hw. cbn [g_waiting g_pending g_kicked] in Hw, Hk. subst k.
  destruct w; [|cbn in Hw; lia]. destruct p; [|cbn in Hw; lia].
  destruct Hok as [_ _ Hhc Hg Hc Hdone Hs Hcomp Hh]. cbn [g_waiting g_pending g_output g_kicked] in *.
  rewrite andb_true_r in Hdone. split.
  - intros (x & Hx & Hm). destruct (Z.eqb_spec (solCount o) 0) as [H0|H0]; [|split; [done|clear -Hc H0; lia]].
    destruct (Hcomp H0 eq_refl x Hx) as [Hm'|[(th & Hin & _)|Hin]]; [congruence|by apply elem_of_nil in Hin..].
  - intros Hall. assert (H0 : solCount o = 0).
    { destruct (decide (solCount o = 0)) as [|Hne]; [done|exfalso].
      destruct (lookup_lt_is_Some_2 (gid o) 0) as [x Hx]; [lia|].
      destruct (Hs 0%nat x) as [Hr Hm]; [lia|done|]. rewrite (Hall x Hr) in Hm. discriminate Hm. }
    split; [done|]. specialize (Hh H0 eq_refl).
    change (hashCount o + 0 + 0 = if groups =? 0 then 0 else gridSize) in Hh. lia.
Qed.
End Grid.

(** The facts the host relies on, for a grid of [gridSize] blocks of
    [8 * groups] threads. *)
Section Reports.
Context {arch : Arch} {host : Host} (dev : device) (c : epoch_context) (gridSize groups start_nonce : Z).
Context (Hc : context_ok c) (Hdag : dag_ok dev c) (Hheader : hash256_wf (d_header dev)).
Context (Hgrid : 0 <= gridSize) (Hgroups : 0 < groups) (Hsize : gridSize * (8 * groups) < 2 ^ 32).
Context (out : Search_results) (g : grid) (Hout : cleared out).
Context (Hrun : rtc (grid_step dev (8 * groups) start_nonce) (launch gridSize (8 * groups) out) g).

Lemma misses_candidate x :
  misses dev c start_nonce x = false <-> candidate dev c (u64 (start_nonce + x)).
Proof. apply above_target_candidate; [exact Hc|exact Hheader|by apply wrap_in_word]. Qed.

Lemma reports_candidates i x :
  Z.of_nat i < solCount (g_output g) -> gid (g_output g) !! i = Some x ->
  0 <= x < gridSize * (8 * groups) /\ candidate dev c (u64 (start_nonce + x)).
Proof.
  intros Hi Hx. pose proof (grid_reachable_ok dev c (proj1 (proj2 (proj2 Hc))) Hdag Hheader gridSize groups
    start_nonce Hgrid ltac:(lia) Hsize out g Hout Hrun) as Hok.
  destruct (ok_sound _ _ _ _ _ _ Hok i x Hi Hx) as [Hr Hm]. split; [exact Hr|by apply misses_candidate].
Qed.

Lemma finished_reports :
  work_left g = 0%nat -> g_kicked g = false ->
  ((exists x, 0 <= x < gridSize * (8 * groups) /\ candidate dev c (u64 (start_nonce + x))) ->
    done_ (g_output g) = 1 /\ 1 <= solCount (g_output g)) /\
  (~ (exists x, 0 <= x < gridSize * (8 * groups) /\ candidate dev c (u64 (start_nonce + x))) ->
    solCount (g_output g) = 0 /\ hashCount (g_output g) = gridSize).
Proof.
  intros Hw Hk. destruct (grid_final dev c (proj1 (proj2 (proj2 Hc))) Hdag Hheader gridSize groups start_nonce
    Hgrid ltac:(lia) Hsize out g Hout Hrun Hw Hk) as [H1 H2]. split.
  - intros (x & Hx & Hcand). apply H1. exists x. split; [exact Hx|by apply misses_candidate].
  - intros Hno. rewrite (proj2 (Z.eqb_neq groups 0)) in H2 by lia. apply H2. intros x Hx.
    destruct (misses dev c start_nonce x) eqn:E; [done|]. exfalso. apply Hno. exists x.
    split; [exact Hx|by apply misses_candidate].
Qed.

Lemma gid_length : length (gid (g_output g)) = 4%nat.
Proof.
  exact (ok_gid _ _ _ _ _ _ (grid_reachable_ok dev c (proj1 (proj2 (proj2 Hc))) Hdag Hheader gridSize groups
    start_nonce Hgrid ltac:(lia) Hsize out g Hout Hrun)).
Qed.
End Reports.


