(* ===== verification/CudaDag.v ===== *)
(** * Generation of the DAG on the device

    [ethash_calculate_dag_item] and [ethash_generate_dag] of
    [libcuda/ethash_cuda_miner_kernel.cu]: groups of four threads compute the
    items of the dataset from the light cache. *)

From stdpp Require Import base numbers list gmap.
From Stdlib Require Import ZArith Lia Bool.
From S2P Require Import Prelude Words KeccakSpec KeccakF Keccak EthashSpec Ethash EthashHash.
From S2P Require Import CudaHelper CudaKeccak CudaKernel.

Local Open Scope Z_scope.
Local Open Scope word_scope.
#[local] Opaque calc_dataset_item item_seed sha3_512 sha3_256.

Definition ETHASH_DATASET_PARENTS : nat := 256.
Definition NODE_WORDS : nat := 16.

Section Dag.
Context {arch : Arch} (dev : device).

(** The node buffer is the first eight lanes of [sha3_buf]. *)
Definition node_uint4 (buf : list uint2) (w : nat) : uint4 :=
  vectorize2 (nth (2 * w)%nat buf u2zero) (nth (2 * w + 1)%nat buf u2zero).
Definition node_set (buf : list uint2) (w : nat) (v : uint4) : list uint2 :=
  let '(lo, hi) := devectorize2 v in <[(2 * w)%nat := lo]> (<[(2 * w + 1)%nat := hi]> buf).

(** [copy(dag_node.uint4s, d_light[..].uint4s, 4)] and the xor of word 0. *)
Definition node_init (row : list Z) (node_index : Z) : list uint2 :=
  let buf := fold_left (fun buf w => node_set buf w (uint4s row w)) (seq 0 4) (replicate 8 u2zero) in
  match buf with
  | l :: rest => make_uint2 (x2 l .^ node_index) (y2 l) :: rest
  | [] => []
  end.

(** One round of the parents loop for a group of four threads. *)
Definition parents_round (nodes : list Z) (bufs : list (list uint2)) (i : nat)
  : option (list (list uint2)) :=
  if d_light_size dev =? 0 then None else
  let parent_index : list Z :=
    zip_with (fun node_index buf =>
      fnv (node_index .^ Z.of_nat i) (nth (i mod NODE_WORDS) (node_words buf) 0) mod d_light_size dev)
      nodes bufs in
  mfold (fun bufs t =>
    shuffle_index ← parent_index !! t;
    row ← array_get (d_light dev) shuffle_index;
    let p4 : list uint4 := uint4s row <$> seq 0 4 in
    Some (fold_left (fun bufs w =>
      let s4 := nth w p4 (make_uint4 0 0 0 0) in
      imap (fun thread_id buf =>
        if (t =? thread_id)%nat then node_set buf w (fnv4 (node_uint4 buf w) s4) else buf) bufs)
      (seq 0 4) bufs)) (seq 0 4) bufs.

(** [ethash_calculate_dag_item] for the four threads from [node_index]; a group
    returns early as a whole, since the test drops the two low bits. *)
Definition dag_guard (node_index : Z) : bool :=
  d_dag_size dev <=? (node_index .> 1) .& wnot 32 1.

Definition calculate_dag_items (first : Z) (dag : gmap Z (list Z)) : option (gmap Z (list Z)) :=
  let nodes : list Z := (fun k => u32 (first + Z.of_nat k)) <$> seq 0 4 in
  if forallb dag_guard nodes then Some dag else
  if existsb dag_guard nodes then None else
  if d_light_size dev =? 0 then None else
  bufs ← mapM (fun node_index =>
    row ← array_get (d_light dev) (node_index mod d_light_size dev);
    Some (SHA3_512 (node_init row node_index))) nodes;
  bufs ← mfold (parents_round nodes) (seq 0 ETHASH_DATASET_PARENTS) (map (take 8) bufs);
  let bufs := map SHA3_512 bufs in
  Some (fold_left (fun dag '(node_index, buf) =>
    <[node_index := of_le_words 4 (node_words (take 8 buf))]> dag) (zip nodes bufs) dag).

(** A launch of [blocks * blockSize] threads from node [start]. *)
Definition dag_launch (blocks blockSize start : Z) (dag : gmap Z (list Z)) : option (gmap Z (list Z)) :=
  mfold (fun dag g => calculate_dag_items (u32 (start + 4 * Z.of_nat g)) dag)
    (seq 0 (Z.to_nat (blocks * blockSize / 4))) dag.

(** [ethash_generate_dag]; [work - run] is unsigned. *)
Definition generate_step (work run gridSize blockSize : Z) (st : Z * gmap Z (list Z))
  : (Z * gmap Z (list Z)) + option (Z * gmap Z (list Z)) :=
  let '(base, dag) := st in
  if base <=? u32 (work - run) then
    match dag_launch gridSize blockSize base dag with
    | Some dag => inl (u32 (base + run), dag)
    | None => inr None
    end
  else inr (Some (base, dag)).

Definition ethash_generate_dag (dag_size gridSize blockSize : Z) (dag : gmap Z (list Z))
  : option (gmap Z (list Z)) :=
  let work := u32 (dag_size / 64) in
  let run := u32 (gridSize * blockSize) in
  match loop (generate_step work run gridSize blockSize) fuel64 (0, dag) with
  | inr (Some (base, dag)) =>
      if base <? work then
        let lastGrid := u32 (work - base) in
        if blockSize =? 0 then None else
        let lastGrid := u32 (u32 (lastGrid + blockSize) - 1) / blockSize in
        dag_launch lastGrid blockSize base dag
      else Some dag
  | _ => None
  end.
End Dag.

(** ** Correctness *)

Section Generate.
Context {arch : Arch} (dev : device) (c : epoch_context) (Hc : context_ok c).
Context (Hlight : d_light dev = light_cache c) (Hlsize : d_light_size dev = light_cache_num_items c).
Context (Hdsize : d_dag_size dev = full_dataset_num_items c).

Abbreviation cache := (light_cache c).

(** A node buffer that holds the 16 words [ws]. *)
Definition node_rel (buf : list uint2) (ws : list Z) : Prop :=
  length buf = 8%nat /\ Forall (in_word 32) ws /\ node_words buf = ws.

(** The eight lanes of a buffer. *)
Ltac lanes_8 H buf :=
  destruct buf as [|l0 [|l1 [|l2 [|l3 [|l4 [|l5 [|l6 [|l7 [|]]]]]]]]]; try discriminate H.

Lemma node_rel_lanes buf ws :
  node_rel buf ws -> reps buf (le_words 8 (of_le_words 4 ws)) /\ hash512_wf (of_le_words 4 ws).
Proof.
  intros (Hlen & Hws & <-). lanes_8 Hlen buf. split.
  - change (node_words _) with [x2 l0; y2 l0; x2 l1; y2 l1; x2 l2; y2 l2; x2 l3; y2 l3;
      x2 l4; y2 l4; x2 l5; y2 l5; x2 l6; y2 l6; x2 l7; y2 l7] in *.
    rewrite !Forall_cons in Hws. rewrite !le_words_pairs by tauto.
    assert (Hrep : forall l, in_word 32 (x2 l) -> in_word 32 (y2 l) -> rep l (x2 l + 2 ^ 32 * y2 l))
      by (intros [a b]; apply make_uint2_rep).
    repeat (constructor; [apply Hrep; tauto|]). constructor.
  - split; [by rewrite length_of_words|apply of_words_ok].
Qed.

(** [SHA3_512] of a node. *)
Lemma node_sha3 buf ws :
  node_rel buf ws ->
  node_rel (take 8 (SHA3_512 buf)) (le_words 4 (sha3_512 (of_le_words 4 ws))).
Proof.
  intros H. destruct (node_rel_lanes buf ws H) as [Hr Hwf].
  destruct (SHA3_512_rep buf (of_le_words 4 ws) Hwf) as [Hsha Hlen].
  { rewrite take_ge by (rewrite (proj1 H); lia). exact Hr. }
  destruct (sha3_512_wf (of_le_words 4 ws)) as [Hl Hok].
  split; [rewrite length_take, Hlen; done|]. split.
  - apply (words_in_word (host := plain_host) 4 16); [lia|done|done].
  - by apply (node_words_lanes 8).
Qed.

Lemma node_init_rel row n :
  hash512_wf row -> in_word 32 n ->
  node_rel (node_init row n) (alter (fun x => x .^ n) 0%nat (le_words 4 row)).
Proof.
  intros [Hl Hok] Hn. rewrite <-(flat_uint4s 4 row) by done.
  assert (Hw : Forall (in_word 32) (flat (uint4s row <$> seq 0 4))).
  { rewrite flat_uint4s by done. apply (words_in_word (host := plain_host) 4 16); [lia|done|done]. }
  split; [reflexivity|]. split; [|reflexivity].
  change (flat (uint4s row <$> seq 0 4)) with
    (x4 (uint4s row 0) :: tail (flat (uint4s row <$> seq 0 4))) in *.
  apply Forall_cons in Hw as [H0 Hw]. apply Forall_cons.
  split; [by apply lxor_in_word|exact Hw].
Qed.

(** The four updates of one thread in a round of the parents loop. *)
Definition node_mix (row : list Z) (buf : list uint2) : list uint2 :=
  fold_left (fun buf w => node_set buf w (fnv4 (node_uint4 buf w) (uint4s row w))) (seq 0 4) buf.

Lemma node_mix_rel row buf ws :
  hash512_wf row -> node_rel buf ws ->
  node_rel (node_mix row buf) (zip_with EthashSpec.fnv ws (le_words 4 row)).
Proof.
  intros [Hl Hok] (Hlen & Hws & <-). lanes_8 Hlen buf.
  assert (Hw : Forall (in_word 32) (le_words 4 row))
    by (apply (words_in_word (host := plain_host) 4 16); [lia|done|done]).
  rewrite <-zip_fnv by exact Hw. split; [reflexivity|].
  split; [by apply zip_fnv_in_word|]. rewrite <-(flat_uint4s 4 row) by done. reflexivity.
Qed.

Lemma light_row k :
  exists row, array_get (d_light dev) (k mod d_light_size dev) = Some row /\ hash512_wf row /\
    row = nth (Z.to_nat (k mod Z.of_nat (length cache))) cache [].
Proof.
  destruct Hc as (Hn & [Hlen Hwf] & _).
  assert (El : Z.of_nat (length cache) = light_cache_num_items c) by (rewrite Hlen; lia).
  rewrite Hlight, Hlsize, El. pose proof (Z.mod_pos_bound k (light_cache_num_items c) ltac:(lia)) as Hm.
  eexists. split; [apply (array_get_nth []); lia|]. split; [|done].
  apply (Forall_nth_lt hash512_wf); [done|lia].
Qed.

(** In iteration [t] only thread [t] changes its node. *)
Lemma thread_update row t (b0 b1 b2 b3 : list uint2) :
  (t < 4)%nat ->
  fold_left (fun bufs w =>
      imap (fun thread_id buf =>
        if (t =? thread_id)%nat
        then node_set buf w (fnv4 (node_uint4 buf w) (nth w (uint4s row <$> seq 0 4) (make_uint4 0 0 0 0)))
        else buf) bufs) (seq 0 4) [b0; b1; b2; b3] =
  alter (node_mix row) t [b0; b1; b2; b3].
Proof. intros Ht. do 4 (destruct t as [|t]; [reflexivity|]). lia. Qed.

Lemma parents_round_spec n0 n1 n2 n3 b0 b1 b2 b3 w0 w1 w2 w3 i :
  node_rel b0 w0 -> node_rel b1 w1 -> node_rel b2 w2 -> node_rel b3 w3 ->
  exists b0' b1' b2' b3',
    parents_round dev [n0; n1; n2; n3] [b0; b1; b2; b3] i = Some [b0'; b1'; b2'; b3'] /\
    node_rel b0' (item_round cache n0 w0 i) /\ node_rel b1' (item_round cache n1 w1 i) /\
    node_rel b2' (item_round cache n2 w2 i) /\ node_rel b3' (item_round cache n3 w3 i).
Proof.
  intros H0 H1 H2 H3. unfold parents_round.
  assert (Hne : d_light_size dev <> 0) by (rewrite Hlsize; destruct Hc; lia).
  rewrite (proj2 (Z.eqb_neq _ _)) by exact Hne.
  set (idx := fun n w => EthashSpec.fnv (n .^ Z.of_nat i) (nth (i mod 16) w 0)).
  assert (Hidx : forall n b w, node_rel b w ->
    fnv (n .^ Z.of_nat i) (nth (i mod NODE_WORDS) (node_words b) 0) = idx n w).
  { intros n b w (_ & Hw & <-). unfold idx. by rewrite fnv_fnv1 by by apply nth_in_word. }
  cbn [zip_with]. rewrite (Hidx n0 b0 w0), (Hidx n1 b1 w1), (Hidx n2 b2 w2), (Hidx n3 b3 w3) by done.
  destruct (light_row (idx n0 w0)) as (r0 & E0 & W0 & R0).
  destruct (light_row (idx n1 w1)) as (r1 & E1 & W1 & R1).
  destruct (light_row (idx n2 w2)) as (r2 & E2 & W2 & R2).
  destruct (light_row (idx n3 w3)) as (r3 & E3 & W3 & R3).
  exists (node_mix r0 b0), (node_mix r1 b1), (node_mix r2 b2), (node_mix r3 b3).
  split.
  - cbn [seq mfold lookup list_lookup mbind option_bind].
    rewrite E0. cbn [mbind option_bind]. rewrite (thread_update r0 0) by lia. cbn [alter list_alter].
    rewrite E1. cbn [mbind option_bind]. rewrite (thread_update r1 1) by lia. cbn [alter list_alter].
    rewrite E2. cbn [mbind option_bind]. rewrite (thread_update r2 2) by lia. cbn [alter list_alter].
    rewrite E3. cbn [mbind option_bind]. rewrite (thread_update r3 3) by lia. reflexivity.
  - unfold item_round. fold (idx n0 w0) (idx n1 w1) (idx n2 w2) (idx n3 w3).
    rewrite <-R0, <-R1, <-R2, <-R3.
    split; [by apply node_mix_rel|]. split; [by apply node_mix_rel|].
    split; by apply node_mix_rel.
Qed.

Lemma clear_low_bit x : in_word 32 x -> x .& wnot 32 1 = 2 * (x / 2).
Proof.
  intros Hx. unfold in_word in Hx. apply (word_ext 32); [lia|by apply land_in_word_l| |].
  - pose proof (Z.mul_div_le x 2). pose proof (Z.div_pos x 2). unfold in_word. lia.
  - intros i Hi. rewrite Z.land_spec, wnot_testbit by lia.
    destruct (decide (i = 0)) as [->|Hne]; [by rewrite Z.testbit_even_0, andb_false_r|].
    replace i with (Z.succ (i - 1)) by lia.
    rewrite Z.double_bits_succ, Z.div2_bits by lia.
    change 1 with (2 ^ 0) at 2. rewrite Z.pow2_bits_false by lia. apply andb_true_r.
Qed.

Lemma dag_guard_spec g k :
  0 <= g -> 0 <= k < 4 -> 4 * g + k < 2 ^ 32 ->
  dag_guard dev (4 * g + k) = (full_dataset_num_items c <=? 2 * g).
Proof.
  intros Hg Hk Hr. unfold dag_guard. rewrite Hdsize, Z.shiftr_div_pow2 by lia. change (2 ^ 1) with 2.
  assert (Hd : (4 * g + k) / 2 / 2 = g).
  { rewrite Z.div_div by lia. change (2 * 2) with 4. rewrite Z.mul_comm, Z.div_add_l by lia.
    rewrite Z.div_small by lia. lia. }
  rewrite clear_low_bit, Hd; [done|].
  unfold in_word. split; [apply Z.div_pos; lia|apply Z.div_lt_upper_bound; lia].
Qed.

Lemma item_words_eq n ws buf :
  ws = fold_left (item_round cache n) (seq 0 256) (item_seed cache n) -> node_rel buf ws ->
  of_le_words 4 (node_words (take 8 (SHA3_512 buf))) = calc_dataset_item cache n.
Proof.
  intros Hws H. pose proof (node_sha3 buf ws H) as (_ & _ & ->).
  destruct (sha3_512_wf (of_le_words 4 ws)) as [Hl Hok].
  rewrite (of_words_words 4 16) by (done || lia). by rewrite calc_dataset_item_eq, <-Hws.
Qed.

#[local] Opaque item_round.

Lemma node_start n :
  in_word 32 n ->
  exists row, array_get (d_light dev) (n mod d_light_size dev) = Some row /\
    node_rel (take 8 (SHA3_512 (node_init row n))) (item_seed cache n).
Proof.
  intros Hn. destruct (light_row n) as (row & E & Hwf & Hrow). exists row. split; [done|].
  rewrite item_seed_eq, <-Hrow. apply node_sha3. by apply node_init_rel.
Qed.

Definition quad (dag : gmap Z (list Z)) (n : Z) : gmap Z (list Z) :=
  fold_left (fun dag k => <[n + Z.of_nat k := calc_dataset_item cache (n + Z.of_nat k)]> dag)
    (seq 0 4) dag.

Lemma parents_loop_spec n0 n1 n2 n3 b0 b1 b2 b3 w0 w1 w2 w3 l :
  node_rel b0 w0 -> node_rel b1 w1 -> node_rel b2 w2 -> node_rel b3 w3 ->
  exists b0' b1' b2' b3',
    mfold (parents_round dev [n0; n1; n2; n3]) l [b0; b1; b2; b3] = Some [b0'; b1'; b2'; b3'] /\
    node_rel b0' (fold_left (item_round cache n0) l w0) /\ node_rel b1' (fold_left (item_round cache n1) l w1) /\
    node_rel b2' (fold_left (item_round cache n2) l w2) /\ node_rel b3' (fold_left (item_round cache n3) l w3).
Proof.
  revert b0 b1 b2 b3 w0 w1 w2 w3. induction l as [|i l IH]; intros * H0 H1 H2 H3.
  - exists b0, b1, b2, b3. auto.
  - destruct (parents_round_spec n0 n1 n2 n3 b0 b1 b2 b3 w0 w1 w2 w3 i H0 H1 H2 H3)
      as (c0 & c1 & c2 & c3 & E & R0 & R1 & R2 & R3).
    cbn [mfold fold_left]. rewrite E. cbn [mbind option_bind]. by apply IH.
Qed.

Lemma calculate_dag_items_spec g dag :
  0 <= g -> 4 * g + 3 < 2 ^ 32 ->
  calculate_dag_items dev (4 * g) dag =
    Some (if full_dataset_num_items c <=? 2 * g then dag else quad dag (4 * g)).
Proof.
  intros Hg Hr. unfold calculate_dag_items.
  assert (Hnodes : (fun k => u32 (4 * g + Z.of_nat k)) <$> seq 0 4 =
    [4 * g + 0; 4 * g + 1; 4 * g + 2; 4 * g + 3]).
  { cbn [seq fmap list_fmap]. rewrite !wrap_id by (unfold in_word; lia). done. }
  cbv zeta. rewrite Hnodes. cbn [forallb existsb]. rewrite !dag_guard_spec by lia.
  destruct (full_dataset_num_items c <=? 2 * g) eqn:Hguard; [reflexivity|]. cbn [andb orb].
  rewrite (proj2 (Z.eqb_neq _ 0)) by (rewrite Hlsize; destruct Hc; lia).
  destruct (node_start (4 * g + 0)) as (r0 & E0 & S0); [unfold in_word; lia|].
  destruct (node_start (4 * g + 1)) as (r1 & E1 & S1); [unfold in_word; lia|].
  destruct (node_start (4 * g + 2)) as (r2 & E2 & S2); [unfold in_word; lia|].
  destruct (node_start (4 * g + 3)) as (r3 & E3 & S3); [unfold in_word; lia|].
  cbn [mapM]. rewrite E0, E1, E2, E3. cbn [mbind option_bind mret option_ret map].
  destruct (parents_loop_spec (4 * g + 0) (4 * g + 1) (4 * g + 2) (4 * g + 3) _ _ _ _ _ _ _ _
    (seq 0 ETHASH_DATASET_PARENTS) S0 S1 S2 S3) as (b0 & b1 & b2 & b3 & E & R0 & R1 & R2 & R3).
  rewrite E. cbn [mbind option_bind map zip zip_with fold_left].
  rewrite (item_words_eq (4 * g + 0) _ b0 eq_refl R0), (item_words_eq (4 * g + 1) _ b1 eq_refl R1),
    (item_words_eq (4 * g + 2) _ b2 eq_refl R2), (item_words_eq (4 * g + 3) _ b3 eq_refl R3).
  reflexivity.
Qed.

(** The nodes the kernels write: the guard stops at a multiple of four. *)
Definition dag_limit : Z := 4 * ((full_dataset_num_items c + 1) / 2).

(** Memory in which the first [m] nodes have been generated. *)
Definition filled (dag0 : gmap Z (list Z)) (m : Z) (dag : gmap Z (list Z)) : Prop :=
  forall k, dag !! k = if decide (0 <= k < m) then Some (calc_dataset_item cache k) else dag0 !! k.

Lemma filled_0 dag0 : filled dag0 0 dag0.
Proof. intros k. by rewrite decide_False by lia. Qed.

Lemma filled_insert dag0 m dag :
  0 <= m -> filled dag0 m dag -> filled dag0 (m + 1) (<[m := calc_dataset_item cache m]> dag).
Proof.
  intros Hm Hf k. destruct (decide (k = m)) as [->|Hne].
  - rewrite lookup_insert_eq, decide_True by lia. done.
  - rewrite lookup_insert_ne, Hf by done. repeat case_decide; done || lia.
Qed.

Lemma filled_quad dag0 n dag : 0 <= n -> filled dag0 n dag -> filled dag0 (n + 4) (quad dag n).
Proof.
  intros Hn Hf. unfold quad. cbn [seq fold_left]. rewrite Z.add_0_r.
  replace (n + 4) with (n + Z.of_nat 3 + 1) by lia. apply filled_insert; [lia|].
  replace (n + Z.of_nat 3) with (n + Z.of_nat 2 + 1) by lia. apply filled_insert; [lia|].
  replace (n + Z.of_nat 2) with (n + Z.of_nat 1 + 1) by lia. apply filled_insert; [lia|].
  replace (n + Z.of_nat 1) with (n + 1) by lia. by apply filled_insert.
Qed.

Lemma group_fills dag0 g dag :
  0 <= g -> filled dag0 (Z.min (4 * g) dag_limit) dag ->
  filled dag0 (Z.min (4 * (g + 1)) dag_limit)
    (if full_dataset_num_items c <=? 2 * g then dag else quad dag (4 * g)).
Proof.
  intros Hg Hf. unfold dag_limit in *. set (h := (full_dataset_num_items c + 1) / 2) in *.
  assert (Hh : 2 * h <= full_dataset_num_items c + 1 < 2 * h + 2).
  { pose proof (Z.div_mod (full_dataset_num_items c + 1) 2) as H.
    pose proof (Z.mod_pos_bound (full_dataset_num_items c + 1) 2). fold h in H. lia. }
  destruct (Z.leb_spec (full_dataset_num_items c) (2 * g)).
  - rewrite Z.min_r in Hf by lia. by rewrite Z.min_r by lia.
  - rewrite Z.min_l in Hf by lia. rewrite Z.min_l by lia.
    replace (4 * (g + 1)) with (4 * g + 4) by lia. apply filled_quad; [lia|done].
Qed.

Lemma dag_launch_fills dag0 blocks blockSize s n dag :
  0 <= s -> blocks * blockSize = 4 * n -> 0 <= n -> 4 * (s + n) <= 2 ^ 32 ->
  filled dag0 (Z.min (4 * s) dag_limit) dag ->
  exists dag', dag_launch dev blocks blockSize (4 * s) dag = Some dag' /\
    filled dag0 (Z.min (4 * (s + n)) dag_limit) dag'.
Proof.
  intros Hs Hn Hn0 Hr Hf. unfold dag_launch.
  rewrite Hn. replace (4 * n / 4) with n by (rewrite Z.mul_comm, Z.div_mul; lia).
  assert (Hm : forall m, (m <= Z.to_nat n)%nat -> exists dag',
    mfold (fun dag g => calculate_dag_items dev (u32 (4 * s + 4 * Z.of_nat g)) dag) (seq 0 m) dag = Some dag' /\
    filled dag0 (Z.min (4 * (s + Z.of_nat m)) dag_limit) dag').
  { induction m as [|m IH]; intros Hle.
    - exists dag. split; [done|]. by rewrite Z.add_0_r.
    - destruct IH as (dag1 & E1 & F1); [lia|]. rewrite seq_S, mfold_app, E1.
      cbn [mbind option_bind mfold]. rewrite wrap_id by (unfold in_word; lia).
      replace (4 * s + 4 * Z.of_nat (0 + m)) with (4 * (s + Z.of_nat m)) by lia.
      rewrite calculate_dag_items_spec by lia. cbn [mbind option_bind]. eexists. split; [reflexivity|].
      replace (s + Z.of_nat (S m)) with (s + Z.of_nat m + 1) by lia. apply group_fills; [lia|done]. }
  destruct (Hm (Z.to_nat n)) as (dag' & E & F); [lia|]. rewrite Z2Nat.id in F by lia.
  exists dag'. split; [|done]. rewrite <-E. reflexivity.
Qed.

(** One iteration of the loop of [ethash_generate_dag]. *)
Definition generate_inv (dag0 : gmap Z (list Z)) (work : Z) (st : Z * gmap Z (list Z)) : Prop :=
  exists s, 0 <= s /\ st.1 = 4 * s /\ st.1 <= work /\ filled dag0 (Z.min st.1 dag_limit) st.2.

Lemma generate_loop dag0 work gridSize b :
  let blockSize := 4 * b in let run := gridSize * blockSize in
  0 < run <= work -> work < 2 ^ 32 ->
  exists st, loop (generate_step dev work run gridSize blockSize) fuel64 (0, dag0) = inr (Some st) /\
    generate_inv dag0 work st /\ work - run < st.1.
Proof.
  intros blockSize run Hrun Hwork.
  destruct (loop_total (generate_step dev work run gridSize blockSize) (generate_inv dag0 work)
    (fun st => work - st.1)
    (fun r => exists st, r = Some st /\ generate_inv dag0 work st /\ work - run < st.1)
    fuel64 (0, dag0)) as (r & E & (st & -> & Hst)).
  - intros st (s & _ & _ & H & _). lia.
  - intros [base dag] (s & Hs & Hb & Hle & Hf). cbn [fst snd] in *. unfold generate_step.
    rewrite (wrap_id 32 (work - run)) by (unfold in_word; lia).
    destruct (Z.leb_spec base (work - run)).
    + destruct (dag_launch_fills dag0 gridSize blockSize s (gridSize * b) dag) as (dag' & E & F);
        [done|unfold blockSize; lia|unfold run, blockSize in *; nia|unfold run, blockSize in *; lia|by rewrite <-Hb|].
      rewrite Hb. rewrite E. rewrite wrap_id by (unfold in_word; lia). split; [|cbn [fst]; lia].
      exists (s + gridSize * b). cbn [fst snd].
      replace (4 * s + run) with (4 * (s + gridSize * b)) by (unfold run, blockSize; lia).
      split_and!; [unfold run, blockSize in *; nia|done|unfold run, blockSize in *; lia|done].
    + eexists. split; [reflexivity|]. split; [|cbn [fst]; lia]. by exists s.
  - exists 0. cbn [fst snd]. split_and!; [lia|lia|lia|]. rewrite Z.min_l; [apply filled_0|].
    unfold dag_limit. pose proof (Z.div_pos (full_dataset_num_items c + 1) 2).
    destruct Hc as (_ & _ & ?). lia.
  - cbn [fst]. unfold fuel64. lia.
  - by exists st.
Qed.

Lemma dag_limit_covers s : full_dataset_num_items c <= 2 * s -> dag_limit <= 4 * s.
Proof.
  intros Hs. unfold dag_limit. pose proof (Z.div_lt_upper_bound (full_dataset_num_items c + 1) 2 (s + 1)). lia.
Qed.

Lemma generate_dag_fills dag0 gridSize b :
  let blockSize := 4 * b in let run := gridSize * blockSize in
  0 < b -> 0 < run <= 2 * full_dataset_num_items c ->
  2 * full_dataset_num_items c + blockSize <= 2 ^ 32 ->
  exists dag', ethash_generate_dag dev (128 * full_dataset_num_items c) gridSize blockSize dag0 = Some dag' /\
    filled dag0 dag_limit dag'.
Proof.
  intros blockSize run Hb Hrun Hfit. assert (Hbs : 0 < blockSize) by (unfold blockSize; lia).
  unfold ethash_generate_dag.
  replace (128 * full_dataset_num_items c / 64) with (2 * full_dataset_num_items c)
    by (replace (128 * full_dataset_num_items c) with (2 * full_dataset_num_items c * 64) by lia;
        rewrite Z.div_mul; lia).
  fold run. rewrite (wrap_id 32 (2 * _)), (wrap_id 32 run) by (unfold in_word; lia).
  destruct (generate_loop dag0 (2 * full_dataset_num_items c) gridSize b) as ([base dag] & E & Hinv & Hbase);
    [exact Hrun|lia|].
  cbv zeta in E. fold blockSize run in E. rewrite E.
  destruct Hinv as (s & Hs & Hs4 & Hle & Hf). cbn [fst snd] in *.
  destruct (Z.ltb_spec base (2 * full_dataset_num_items c)).
  - rewrite (proj2 (Z.eqb_neq blockSize 0)) by (unfold blockSize; lia).
    set (w := 2 * full_dataset_num_items c - base) in *.
    assert (Hw : 0 < w /\ w + blockSize <= 2 ^ 32) by (unfold w; lia).
    rewrite (wrap_id 32 w), (wrap_id 32 (w + blockSize)) by (unfold in_word; lia).
    rewrite wrap_id by (unfold in_word; lia).
    set (last := (w + blockSize - 1) / blockSize).
    assert (Hlast : w <= last * blockSize < w + blockSize).
    { pose proof (Z.div_mod (w + blockSize - 1) blockSize ltac:(lia)) as H1.
      pose proof (Z.mod_pos_bound (w + blockSize - 1) blockSize ltac:(lia)). fold last in H1. lia. }
    destruct (dag_launch_fills dag0 last blockSize s (last * b) dag) as (dag' & E' & F);
      [done|unfold blockSize; lia|unfold blockSize in *; nia|unfold blockSize in *; lia|by rewrite <-Hs4|].
    rewrite Hs4. exists dag'. split; [exact E'|]. rewrite Z.min_r in F; [done|].
    apply dag_limit_covers. unfold blockSize in *. lia.
  - exists dag. split; [done|]. rewrite Z.min_r in Hf; [done|].
    rewrite Hs4. apply dag_limit_covers. lia.
Qed.
End Generate.

Definition with_dag (dev : device) (dag : gmap Z (list Z)) : device :=
  mk_device (d_dag_size dev) dag (d_light_size dev) (d_light dev) (d_header dev) (d_target dev).

Lemma dag_limit_rows c :
  dag_limit c = 2 * (full_dataset_num_items c + full_dataset_num_items c mod 2).
Proof.
  unfold dag_limit. pose proof (Z.div_mod (full_dataset_num_items c) 2) as H.
  pose proof (Z.mod_pos_bound (full_dataset_num_items c) 2).
  assert (Hm : full_dataset_num_items c mod 2 = 0 \/ full_dataset_num_items c mod 2 = 1) by lia.
  assert (Hq : (full_dataset_num_items c + 1) / 2 =
    full_dataset_num_items c / 2 + full_dataset_num_items c mod 2).
  { symmetry. destruct Hm as [Hm|Hm]; rewrite Hm in *;
      [apply (Z.div_unique _ _ _ 1)|apply (Z.div_unique _ _ _ 0)]; lia. }
  lia.
Qed.

(** The device memory after the last launch. *)
Lemma generate_dag_contents {arch : Arch} (dev : device) (c : epoch_context)
    (gridSize blockSize : Z) (dag : gmap Z (list Z)) :
  context_ok c -> d_light dev = light_cache c -> d_light_size dev = light_cache_num_items c ->
  d_dag_size dev = full_dataset_num_items c ->
  (4 | blockSize) -> 0 < blockSize -> 0 < gridSize * blockSize <= 2 * full_dataset_num_items c ->
  2 * full_dataset_num_items c + blockSize <= 2 ^ 32 ->
  exists dag', ethash_generate_dag dev (128 * full_dataset_num_items c) gridSize blockSize dag = Some dag' /\
    dag_ok (with_dag dev dag') c /\
    (forall k, 0 <= k < dag_limit c -> dag' !! k <> None) /\
    (forall k, dag' !! k <> dag !! k -> 0 <= k < dag_limit c).
Proof.
  intros Hc Hl Hls Hds [b ->] Hb Hrun Hfit.
  destruct (generate_dag_fills dev c Hc Hl Hls Hds dag gridSize b) as (dag' & E & F).
  { lia. }
  { by rewrite (Z.mul_comm 4). }
  { by rewrite (Z.mul_comm 4). }
  rewrite (Z.mul_comm 4) in E. exists dag'. split; [exact E|].
  pose proof (dag_limit_rows c) as HL. pose proof (Z.mod_pos_bound (full_dataset_num_items c) 2).
  split; [split; [exact Hds|]|split].
  - intros k Hk. cbn [d_dag with_dag]. rewrite (F k), decide_True by lia. done.
  - intros k Hk. rewrite (F k), decide_True by lia. done.
  - intros k Hk. rewrite (F k) in Hk. case_decide; [lia|done].
Qed.

(** C25: [ethash_generate_dag] with the light cache of a context in device memory
    terminates and fills the DAG with the dataset of the specification, as the
    search kernel requires, whatever the memory held before; apart from that it
    writes only the row after the last one, and only when the number of rows
    is odd. *)
Theorem cuda_generate_dag_correct (arch : Arch) (dev : device) (c : epoch_context)
    (gridSize blockSize : Z) (dag : gmap Z (list Z)) :
  context_ok c -> d_light dev = light_cache c -> d_light_size dev = light_cache_num_items c ->
  d_dag_size dev = full_dataset_num_items c ->
  (4 | blockSize) -> 0 < blockSize -> 0 < gridSize * blockSize <= 2 * full_dataset_num_items c ->
  2 * full_dataset_num_items c + blockSize <= 2 ^ 32 ->
  exists dag', ethash_generate_dag dev (128 * full_dataset_num_items c) gridSize blockSize dag = Some dag' /\
    dag_ok (with_dag dev dag') c /\
    (forall k, dag' !! k <> dag !! k ->
      0 <= k < 2 * (full_dataset_num_items c + full_dataset_num_items c mod 2)).
Proof.
  intros Hc Hl Hls Hds H4 Hb Hrun Hfit. rewrite <-dag_limit_rows.
  destruct (generate_dag_contents dev c gridSize blockSize dag Hc Hl Hls Hds H4 Hb Hrun Hfit)
    as (dag' & E & Hok & _ & Hw).
  exists dag'. auto.
Qed.

Lemma cuda_generate_dag_correct_witness :
  exists dag', @ethash_generate_dag (mk_arch 700 11000) (tiny_device 5) 640 1 8 ∅ = Some dag' /\
    dag_ok (with_dag (tiny_device 5) dag') tiny_context.
Proof.
  destruct (cuda_generate_dag_correct (mk_arch 700 11000) (tiny_device 5) tiny_context 1 8 ∅ tiny_context_ok
    eq_refl eq_refl eq_refl) as (dag' & E & H & _).
  - exists 2. reflexivity.
  - reflexivity.
  - split; [reflexivity|discriminate].
  - discriminate.
  - exists dag'. exact (conj E H).
Defined.

(** The number of rows of the dataset is an odd prime, so the last group of the
    last launch straddles the end of the allocation and writes the two nodes
    behind it. *)
Theorem dag_write_past_end (arch : Arch) (dev : device) (c : epoch_context) (gridSize blockSize : Z) :
  context_ok c -> d_light dev = light_cache c -> d_light_size dev = light_cache_num_items c ->
  d_dag_size dev = full_dataset_num_items c -> Z.odd (full_dataset_num_items c) = true ->
  (4 | blockSize) -> 0 < blockSize -> 0 < gridSize * blockSize <= 2 * full_dataset_num_items c ->
  2 * full_dataset_num_items c + blockSize <= 2 ^ 32 ->
  exists dag', ethash_generate_dag dev (128 * full_dataset_num_items c) gridSize blockSize ∅ = Some dag' /\
    dag' !! (2 * full_dataset_num_items c) <> None /\ dag' !! (2 * full_dataset_num_items c + 1) <> None.
Proof.
  intros Hc Hl Hls Hds Hodd H4 Hb Hrun Hfit.
  destruct (generate_dag_contents dev c gridSize blockSize ∅ Hc Hl Hls Hds H4 Hb Hrun Hfit)
    as (dag' & E & _ & Hin & _).
  exists dag'. split; [exact E|]. pose proof (dag_limit_rows c) as HL.
  rewrite Zodd_mod in Hodd. apply Zeq_bool_eq in Hodd.
  split; apply Hin; lia.
Qed.

(** With more threads in a launch than nodes to generate, [work - run] wraps
    around: a launch past the end of the DAG follows the one that covers it. *)
Theorem generate_dag_underflow (arch : Arch) (dev : device) (work gridSize blockSize : Z)
    (dag dag' : gmap Z (list Z)) :
  let run := gridSize * blockSize in
  0 < work < run -> 2 * run <= 2 ^ 32 ->
  dag_launch dev gridSize blockSize run dag = Some dag' ->
  generate_step dev work run gridSize blockSize (run, dag) = inl (u32 (2 * run), dag').
Proof.
  intros run Hwork Hrun Hl. unfold generate_step.
  assert (Hu : u32 (work - run) = work - run + 2 ^ 32).
  { unfold wrap. symmetry. apply (Z.mod_unique_pos _ _ (-1)); lia. }
  rewrite Hu, (proj2 (Z.leb_le _ _)), Hl by lia. do 3 f_equal. lia.
Qed.
