(* ===== verification/Managed.v ===== *)
(** * Shared epoch contexts ([ethash/lib/ethash/managed.cpp], [libeth/EthashAux.cpp])

    A context is kept alive by reference counts: one shared pointer under a
    mutex and one pointer per thread.  The state holds the heap of contexts,
    the shared pointer, the pointers of the threads and the threads that wait
    for the mutex; a step is what a thread does between two points at which
    another thread may run.  The light and the full variants of the source have
    the same text; both are instances of the same definitions. *)

From stdpp Require Import base numbers list gmap fin_maps.
From Stdlib Require Import ZArith Lia Bool.
From S2P Require Import Prelude Words Keccak EthashSpec Ethash EthashHash.

Local Open Scope Z_scope.

Section Contexts.
(** The type of contexts, their epoch, and the creation function: it depends on
    the state [a] of the allocator at the time; [None] is undefined behaviour,
    [Some None] a failed allocation. *)
Context {ctx alloc : Type} (ctx_epoch : ctx -> Z) (create : alloc -> Z -> option (option ctx)).

Definition loc := nat.
Definition thread := nat.

Record managed := mk_managed {
  heap : gmap loc ctx;
  next_loc : loc;
  shared_context : option loc;
  thread_local_context : gmap thread loc;
  waiting : gmap thread Z
}.

Definition managed_init : managed := mk_managed ∅ 0%nat None ∅ ∅.

(** Whether a shared pointer to [l] is left. *)
Definition referenced (g : managed) (l : loc) : bool :=
  bool_decide (shared_context g = Some l) ||
  bool_decide (Exists (fun p : thread * loc => p.2 = l) (map_to_list (thread_local_context g))).

(** The last pointer to [l], if any, has just been released. *)
Definition release (o : option loc) (g : managed) : managed :=
  match o with
  | Some l =>
      if referenced g l then g
      else mk_managed (delete l (heap g)) (next_loc g) (shared_context g)
             (thread_local_context g) (waiting g)
  | None => g
  end.

(** [thread_local_context.reset()]. *)
Definition reset_local (t : thread) (g : managed) : managed :=
  release (thread_local_context g !! t)
    (mk_managed (heap g) (next_loc g) (shared_context g)
       (delete t (thread_local_context g)) (waiting g)).

(** [shared_context.reset()]. *)
Definition reset_shared (g : managed) : managed :=
  release (shared_context g)
    (mk_managed (heap g) (next_loc g) None (thread_local_context g) (waiting g)).

(** [shared_context = create_epoch_context(epoch_number)]. *)
Definition make_shared (a : alloc) (epoch_number : Z) (g : managed) : option managed :=
  match create a epoch_number with
  | None => None
  | Some None => Some (mk_managed (heap g) (next_loc g) None (thread_local_context g) (waiting g))
  | Some (Some c) =>
      Some (mk_managed (<[next_loc g := c]> (heap g)) (S (next_loc g)) (Some (next_loc g))
              (thread_local_context g) (waiting g))
  end.

(** [!p || p->epoch_number != epoch_number]; [None] on a dangling pointer. *)
Definition mismatch (g : managed) (p : option loc) (epoch_number : Z) : option bool :=
  match p with
  | None => Some true
  | Some l => c ← heap g !! l; Some (negb (ctx_epoch c =? epoch_number))
  end.

(** The body of [update_local_context] under the lock. *)
Definition update_locked (a : alloc) (t : thread) (epoch_number : Z) (g : managed)
  : option managed :=
  b ← mismatch g (shared_context g) epoch_number;
  g ← (if b : bool then make_shared a epoch_number (reset_shared g) else Some g);
  Some (mk_managed (heap g) (next_loc g) (shared_context g)
    (match shared_context g with
     | Some l => <[t := l]> (thread_local_context g)
     | None => delete t (thread_local_context g)
     end) (delete t (waiting g))).

(** What a call of [ethash_get_global_epoch_context] does up to the mutex: it
    returns the local pointer, or releases it and waits. *)
Inductive call_result :=
  | Returned (p : option loc)
  | Waiting.

Definition get_global_enter (t : thread) (epoch_number : Z) (g : managed)
  : option (call_result * managed) :=
  b ← mismatch g (thread_local_context g !! t) epoch_number;
  Some (if b : bool then
          let g := reset_local t g in
          (Waiting, mk_managed (heap g) (next_loc g) (shared_context g)
             (thread_local_context g) (<[t := epoch_number]> (waiting g)))
        else (Returned (thread_local_context g !! t), g)).

(** The rest of the call, when the mutex is free. *)
Definition get_global_locked (a : alloc) (t : thread) (g : managed) : option (call_result * managed) :=
  epoch_number ← waiting g !! t;
  g ← update_locked a t epoch_number g;
  Some (Returned (thread_local_context g !! t), g).

(** A call with no other thread in between. *)
Definition get_global (a : alloc) (t : thread) (epoch_number : Z) (g : managed)
  : option (option loc * managed) :=
  '(r, g) ← get_global_enter t epoch_number g;
  match r with
  | Returned p => Some (p, g)
  | Waiting =>
      '(r, g) ← get_global_locked a t g;
      match r with Returned p => Some (p, g) | Waiting => None end
  end.

(** Steps of the threads; a thread that waits does not start another call. *)
Inductive step : managed -> thread -> managed -> Prop :=
  | step_enter g t e r g' :
      waiting g !! t = None -> get_global_enter t e g = Some (r, g') -> step g t g'
  | step_locked g a t r g' :
      get_global_locked a t g = Some (r, g') -> step g t g'.

Inductive steps : managed -> list thread -> managed -> Prop :=
  | steps_nil g : steps g [] g
  | steps_cons g t g' ts g'' : step g t g' -> steps g' ts g'' -> steps g (t :: ts) g''.

(** ** The invariant *)

(** A context that [create] made. *)
Definition created (c : ctx) : Prop := exists a, create a (ctx_epoch c) = Some (Some c).

Record managed_ok (g : managed) : Prop := {
  ok_shared : forall l, shared_context g = Some l -> is_Some (heap g !! l);
  ok_local : forall t l, thread_local_context g !! t = Some l -> is_Some (heap g !! l);
  ok_referenced : forall l, is_Some (heap g !! l) -> referenced g l = true;
  ok_fresh : forall l, is_Some (heap g !! l) -> (l < next_loc g)%nat;
  ok_created : forall l c, heap g !! l = Some c -> created c;
  ok_waiting : forall t e, waiting g !! t = Some e -> thread_local_context g !! t = None
}.

Lemma referenced_spec g l :
  referenced g l = true <->
  shared_context g = Some l \/ exists t, thread_local_context g !! t = Some l.
Proof.
  unfold referenced. rewrite orb_true_iff, !bool_decide_eq_true, Exists_exists. split.
  - intros [H|([t l'] & Hin & Hl)]; [by left|right]. simpl in Hl. subst l'.
    exists t. by apply elem_of_map_to_list.
  - intros [H|[t Ht]]; [by left|right]. exists (t, l). split; [|done].
    by apply elem_of_map_to_list.
Qed.

Lemma managed_init_ok : managed_ok managed_init.
Proof. split; intros *; cbn; rewrite ?lookup_empty; (done || by intros [? ?]). Qed.

(** After a pointer to [o] was dropped, [o] alone may be unreferenced. *)
Record dropped_ok (o : option loc) (g : managed) : Prop := {
  dr_shared : forall l, shared_context g = Some l -> is_Some (heap g !! l);
  dr_local : forall t l, thread_local_context g !! t = Some l -> is_Some (heap g !! l);
  dr_referenced : forall l, is_Some (heap g !! l) -> o <> Some l -> referenced g l = true;
  dr_fresh : forall l, is_Some (heap g !! l) -> (l < next_loc g)%nat;
  dr_created : forall l c, heap g !! l = Some c -> created c;
  dr_waiting : forall t e, waiting g !! t = Some e -> thread_local_context g !! t = None
}.

Lemma release_ok o g : dropped_ok o g -> managed_ok (release o g).
Proof.
  intros [H1 H2 H3 H4 H5 H6]. unfold release. destruct o as [l0|]; [|split; eauto].
  destruct (referenced g l0) eqn:Hr.
  { split; try assumption. intros l Hl. destruct (decide (l = l0)) as [->|]; [done|].
    apply H3; congruence. }
  assert (Hnot : ~ (shared_context g = Some l0 \/ exists t, thread_local_context g !! t = Some l0)).
  { rewrite <-referenced_spec. congruence. }
  split; cbn [heap next_loc shared_context thread_local_context waiting].
  - intros l Hl. rewrite lookup_delete_ne; [eauto|]. intros <-. auto.
  - intros t l Hl. rewrite lookup_delete_ne; [eauto|]. intros <-. eauto.
  - intros l [c Hl]. apply lookup_delete_Some in Hl as [Hne Hl]. apply H3; [eauto|congruence].
  - intros l [c Hl]. apply lookup_delete_Some in Hl as [Hne Hl]. eauto.
  - intros l c Hl. apply lookup_delete_Some in Hl as [Hne Hl]. eauto.
  - exact H6.
Qed.

Lemma release_fields o g :
  shared_context (release o g) = shared_context g /\
  thread_local_context (release o g) = thread_local_context g /\
  waiting (release o g) = waiting g /\ next_loc (release o g) = next_loc g.
Proof. unfold release. destruct o as [l|]; [|done]. by destruct (referenced g l). Qed.

(** Releasing a pointer keeps everything that is still referenced. *)
Lemma release_keeps o g l c :
  heap g !! l = Some c -> referenced g l = true -> heap (release o g) !! l = Some c.
Proof.
  intros Hl Hr. unfold release. destruct o as [l0|]; [|done].
  destruct (referenced g l0) eqn:H0; [done|]. cbn [heap].
  rewrite lookup_delete_ne; [done|]. congruence.
Qed.

Lemma reset_local_ok t g : managed_ok g -> managed_ok (reset_local t g).
Proof.
  intros [H1 H2 H3 H4 H5 H6]. apply release_ok.
  split; cbn [heap next_loc shared_context thread_local_context waiting]; try assumption.
  - intros t' l [_ Hl]%lookup_delete_Some. eauto.
  - intros l Hl Hne. apply referenced_spec. cbn [shared_context thread_local_context].
    apply H3, referenced_spec in Hl as [?|[t' Ht']]; [by left|right]. exists t'.
    rewrite lookup_delete_ne; [done|congruence].
  - intros t' e He. apply lookup_delete_None. eauto.
Qed.

Lemma reset_shared_ok g : managed_ok g -> managed_ok (reset_shared g).
Proof.
  intros [H1 H2 H3 H4 H5 H6]. apply release_ok.
  split; cbn [heap next_loc shared_context thread_local_context waiting]; try assumption; [done|].
  intros l Hl Hne. apply referenced_spec. cbn [shared_context thread_local_context].
  apply H3, referenced_spec in Hl as [?|?]; [congruence|by right].
Qed.
(** ** Calls *)

(** What [create] promises: the context it makes is of the epoch asked for. *)
Context (create_epoch : forall a e c, create a e = Some (Some c) -> ctx_epoch c = e).

(** A good answer to a call: a live context of the epoch, made by [create]. *)
Definition answers (g : managed) (p : option loc) (e : Z) : Prop :=
  exists l c, p = Some l /\ heap g !! l = Some c /\ ctx_epoch c = e /\ created c.

Lemma mismatch_spec g p e :
  managed_ok g -> (forall l, p = Some l -> is_Some (heap g !! l)) ->
  exists b, mismatch g p e = Some b /\ (b = false -> answers g p e).
Proof.
  intros Hg Hp. unfold mismatch. destruct p as [l|]; [|by exists true].
  destruct (Hp l eq_refl) as [c Hc]. rewrite Hc. cbn [mbind option_bind].
  eexists. split; [done|]. intros Heq. apply negb_false_iff, Z.eqb_eq in Heq.
  exists l, c. eauto using ok_created.
Qed.

Lemma make_shared_ok a e g g' :
  managed_ok g -> shared_context g = None -> make_shared a e g = Some g' ->
  managed_ok g' /\ thread_local_context g' = thread_local_context g /\ waiting g' = waiting g /\
  (shared_context g' = None /\ create a e = Some None \/ answers g' (shared_context g') e).
Proof.
  intros [H1 H2 H3 H4 H5 H6] Hnone Hm. unfold make_shared in Hm.
  destruct (create a e) as [[c|]|] eqn:Hc; simplify_eq; cbn [heap next_loc shared_context
    thread_local_context waiting].
  - assert (Hnew : heap g !! next_loc g = None).
    { apply eq_None_not_Some. intros Hs. specialize (H4 _ Hs). lia. }
    pose proof (create_epoch _ _ _ Hc) as He.
    split; [|split; [done|split; [done|right; exists (next_loc g), c]]].
    + split; cbn [heap next_loc shared_context thread_local_context waiting].
      * intros l [= <-]. rewrite lookup_insert_eq. eauto.
      * intros t l Hl. apply H2 in Hl. rewrite lookup_insert_ne; [done|].
        intros <-. rewrite Hnew in Hl. by destruct Hl.
      * intros l [c' Hl]. apply referenced_spec. cbn [shared_context thread_local_context].
        apply lookup_insert_Some in Hl as [[-> _]|[Hne Hl]]; [by left|].
        assert (Hs : is_Some (heap g !! l)) by eauto.
        apply H3, referenced_spec in Hs as [?|?]; [congruence|by right].
      * intros l [c' Hl]. apply lookup_insert_Some in Hl as [[-> _]|[Hne Hl]]; [lia|].
        assert (Hs : is_Some (heap g !! l)) by eauto. specialize (H4 _ Hs). lia.
      * intros l c' Hl. apply lookup_insert_Some in Hl as [[_ ->]|[Hne Hl]]; [|eauto].
        exists a. by rewrite He.
      * exact H6.
    + split; [done|]. cbn [heap]. rewrite lookup_insert_eq. split; [done|]. split; [done|].
      exists a. by rewrite He.
  - split; [|auto]. split; cbn [heap next_loc shared_context thread_local_context waiting]; try assumption.
    + done.
    + intros l Hs. apply referenced_spec. cbn [shared_context thread_local_context].
      apply H3, referenced_spec in Hs as [?|?]; [congruence|by right].
Qed.

(** The assignment [thread_local_context = shared_context] that ends an update. *)
Lemma assign_local_ok t g :
  managed_ok g -> thread_local_context g !! t = None ->
  managed_ok (mk_managed (heap g) (next_loc g) (shared_context g)
    (match shared_context g with
     | Some l => <[t := l]> (thread_local_context g)
     | None => delete t (thread_local_context g)
     end) (delete t (waiting g))).
Proof.
  intros [H1 H2 H3 H4 H5 H6] Ht.
  split; cbn [heap next_loc shared_context thread_local_context waiting]; try assumption.
  - intros t' l. destruct (shared_context g) as [s|].
    + intros [[_ <-]|[_ Hl]]%lookup_insert_Some; eauto.
    + intros [_ Hl]%lookup_delete_Some. eauto.
  - intros l Hs. apply referenced_spec. cbn [shared_context thread_local_context].
    apply H3, referenced_spec in Hs as [?|[t' Ht']]; [by left|right]. exists t'.
    assert (t' <> t) by congruence.
    destruct (shared_context g); [by rewrite lookup_insert_ne|by rewrite lookup_delete_ne].
  - intros t' e [Hne He]%lookup_delete_Some.
    destruct (shared_context g); [rewrite lookup_insert_ne|rewrite lookup_delete_ne]; eauto.
Qed.

Lemma update_locked_ok a t e g g' :
  managed_ok g -> thread_local_context g !! t = None -> update_locked a t e g = Some g' ->
  managed_ok g' /\
  (thread_local_context g' !! t = None /\ create a e = Some None \/
   answers g' (thread_local_context g' !! t) e).
Proof.
  intros Hg Ht Hu. unfold update_locked in Hu.
  destruct (mismatch_spec g (shared_context g) e Hg (ok_shared g Hg)) as (b & Hb & Hans).
  rewrite Hb in Hu. cbn [mbind option_bind] in Hu.
  assert (Hmid : exists g1, (if b then make_shared a e (reset_shared g) else Some g) = Some g1 /\
    managed_ok g1 /\ thread_local_context g1 !! t = None /\
    (shared_context g1 = None /\ create a e = Some None \/ answers g1 (shared_context g1) e)).
  { destruct b; [|by exists g; split_and!; [done|done|done|right; apply Hans]].
    destruct (make_shared a e (reset_shared g)) as [g1|] eqn:Hm; [|done].
    destruct (release_fields (shared_context g) (mk_managed (heap g) (next_loc g) None
      (thread_local_context g) (waiting g))) as (Hs & Hl & _).
    apply make_shared_ok in Hm as (? & Hloc & _ & ?); [|by apply reset_shared_ok|exact Hs].
    exists g1. split; [done|]. split; [done|]. split; [|done].
    rewrite Hloc. unfold reset_shared. by rewrite Hl. }
  destruct Hmid as (g1 & Hg1 & Hok1 & Ht1 & Hcase). rewrite Hg1 in Hu. cbn in Hu. simplify_eq.
  split; [by apply assign_local_ok|]. cbn [thread_local_context].
  destruct Hcase as [[Hs Hc]|(l & c & Hs & Hrest)]; rewrite Hs.
  - left. by rewrite lookup_delete_eq.
  - right. exists l, c. by rewrite lookup_insert_eq.
Qed.

Lemma enter_ok t e g r g' :
  managed_ok g -> get_global_enter t e g = Some (r, g') ->
  managed_ok g' /\
  (r = Waiting /\ waiting g' !! t = Some e \/ exists p, r = Returned p /\ answers g' p e).
Proof.
  intros Hg He. unfold get_global_enter in He.
  destruct (mismatch_spec g (thread_local_context g !! t) e Hg (ok_local g Hg t)) as (b & Hb & Hans).
  rewrite Hb in He. cbn in He. destruct b; simplify_eq.
  - split; [|left; split; [done|]; apply lookup_insert_eq].
    pose proof (reset_local_ok t g Hg) as [H1 H2 H3 H4 H5 H6].
    split; cbn [heap next_loc shared_context thread_local_context waiting]; try assumption.
    intros t' e' [[<- _]|[_ Hw]]%lookup_insert_Some; [|by eapply H6].
    unfold reset_local. destruct (release_fields (thread_local_context g !! t)
      (mk_managed (heap g) (next_loc g) (shared_context g)
         (delete t (thread_local_context g)) (waiting g))) as (_ & -> & _).
    apply lookup_delete_eq.
  - split; [done|]. right. eexists. split; [done|]. by apply Hans.
Qed.

Lemma locked_ok a t g r g' :
  managed_ok g -> get_global_locked a t g = Some (r, g') ->
  managed_ok g' /\ exists e p, waiting g !! t = Some e /\ r = Returned p /\
    (p = None /\ create a e = Some None \/ answers g' p e).
Proof.
  intros Hg Hl. unfold get_global_locked in Hl.
  destruct (waiting g !! t) as [e|] eqn:Hw; [|done]. cbn in Hl.
  destruct (update_locked a t e g) as [g1|] eqn:Hu; [|done]. cbn in Hl. simplify_eq.
  apply update_locked_ok in Hu as [Hok Hcase]; [|done|by eapply ok_waiting].
  split; [done|]. eauto 6.
Qed.

Lemma step_ok g t g' : managed_ok g -> step g t g' -> managed_ok g'.
Proof.
  intros Hg Hs. inversion Hs; subst; [by eapply enter_ok|by eapply locked_ok].
Qed.

Lemma steps_ok g ts g' : managed_ok g -> steps g ts g' -> managed_ok g'.
Proof. intros Hg Hs. induction Hs; eauto using step_ok. Qed.

(** A thread's pointer, and what it points to, is not affected by other threads. *)
Definition holds (g : managed) (t : thread) (l : loc) (c : ctx) : Prop :=
  thread_local_context g !! t = Some l /\ heap g !! l = Some c.

Lemma holds_referenced g t l c : holds g t l c -> referenced g l = true.
Proof. intros [Ht _]. apply referenced_spec. eauto. Qed.

Lemma release_holds o g t l c : holds g t l c -> holds (release o g) t l c.
Proof.
  intros H. destruct (release_fields o g) as (_ & Hl & _). destruct H as [Ht Hl'] eqn:E.
  split; [by rewrite Hl|]. apply release_keeps; [done|]. by eapply holds_referenced.
Qed.

Lemma enter_holds t t' e g r g' l c :
  t' <> t -> holds g t l c -> get_global_enter t' e g = Some (r, g') -> holds g' t l c.
Proof.
  intros Hne Hh He. unfold get_global_enter in He.
  destruct (mismatch g _ e) as [[]|]; cbn in He; simplify_eq; [|done].
  assert (H : holds (reset_local t' g) t l c).
  { apply release_holds. destruct Hh. split; [|done]. cbn. by rewrite lookup_delete_ne. }
  exact H.
Qed.

Lemma make_shared_holds a e g g' t l c :
  managed_ok g -> holds g t l c -> make_shared a e g = Some g' -> holds g' t l c.
Proof.
  intros Hg [Ht Hl] Hm. unfold make_shared in Hm.
  destruct (create a e) as [[c'|]|]; simplify_eq; split; cbn; try done.
  rewrite lookup_insert_ne; [done|]. intros <-.
  pose proof (ok_fresh g Hg (next_loc g) ltac:(eauto)). lia.
Qed.

Lemma locked_holds a t t' g r g' l c :
  managed_ok g -> t' <> t -> holds g t l c -> get_global_locked a t' g = Some (r, g') ->
  holds g' t l c.
Proof.
  intros Hg Hne Hh Hl. unfold get_global_locked in Hl.
  destruct (waiting g !! t') as [e|]; [|done]. cbn in Hl.
  destruct (update_locked a t' e g) as [g1|] eqn:Hu; [|done]. cbn in Hl. simplify_eq.
  unfold update_locked in Hu. destruct (mismatch g _ e) as [b|]; [|done]. cbn in Hu.
  destruct (if b then _ else _) as [g2|] eqn:Hm; [|done]. cbn in Hu. simplify_eq.
  assert (H2 : holds g2 t l c).
  { destruct b; [|by simplify_eq].
    apply (make_shared_holds a e (reset_shared g)); [by apply reset_shared_ok| |done].
    by apply release_holds. }
  destruct H2 as [Ht Hc]. split; [|done]. cbn.
  destruct (shared_context g2); [by rewrite lookup_insert_ne|by rewrite lookup_delete_ne].
Qed.

Lemma steps_holds ts g g' t l c :
  managed_ok g -> holds g t l c -> t ∉ ts -> steps g ts g' -> holds g' t l c.
Proof.
  intros Hg Hh Hnin Hs. revert Hg Hh Hnin. induction Hs as [|g t' g1 ts g2 H1 Hs IH]; [done|].
  intros Hg Hh [Hne Hnin]%not_elem_of_cons. apply IH; [by eapply step_ok| |done].
  inversion H1; subst; [by eapply enter_holds|by eapply locked_holds].
Qed.

(** No call is undefined: entering never is, and the locked part is as defined
    as the creation of the context. *)
Lemma enter_defined t e g : managed_ok g -> exists r g', get_global_enter t e g = Some (r, g').
Proof.
  intros Hg. unfold get_global_enter.
  destruct (mismatch_spec g (thread_local_context g !! t) e Hg (ok_local g Hg t)) as (b & -> & _).
  cbn. destruct b; eauto.
Qed.

Lemma locked_defined a t e g :
  managed_ok g -> waiting g !! t = Some e -> is_Some (create a e) ->
  exists r g', get_global_locked a t g = Some (r, g').
Proof.
  intros Hg Hw [o Ho]. unfold get_global_locked. rewrite Hw. cbn. unfold update_locked.
  destruct (mismatch_spec g (shared_context g) e Hg (ok_shared g Hg)) as (b & -> & _). cbn.
  unfold make_shared. rewrite Ho. destruct b; [destruct o|]; cbn; eauto.
Qed.

Lemma get_global_correct a t e g :
  managed_ok g -> waiting g !! t = None -> is_Some (create a e) ->
  exists p g', get_global a t e g = Some (p, g') /\ managed_ok g' /\
    (p = None /\ create a e = Some None \/ answers g' p e).
Proof.
  intros Hg Hw Hc. unfold get_global. destruct (enter_defined t e g Hg) as (r & g1 & He). rewrite He.
  apply enter_ok in He as [Hok [[-> Hw1]|(p & -> & Hans)]]; [| |done]; cbn; [|eauto 6].
  destruct (locked_defined a t e g1 Hok Hw1 Hc) as (r & g2 & Hl). rewrite Hl.
  apply locked_ok in Hl as [Hok2 (e' & p & Hw' & -> & Hcase)]; [|done].
  assert (e' = e) as -> by congruence. cbn. eauto 6.
Qed.

End Contexts.

Arguments managed : clear implicits.

(** ** The two variants of the source *)

Section Instances.
Context {host : Host}.

Definition update_local_context := update_locked epoch_number ethash_create_epoch_context.
Definition ethash_get_global_epoch_context := get_global epoch_number ethash_create_epoch_context.

Definition full_epoch (c : epoch_context_full) : Z := epoch_number (base c).
Definition update_local_context_full := update_locked full_epoch ethash_create_epoch_context_full.
Definition ethash_get_global_epoch_context_full :=
  get_global full_epoch ethash_create_epoch_context_full.

(** [EthashAux::eval]: the final hash and the mix hash; dereferencing a null
    context is undefined. *)
Definition eval (a : allocator) (t : thread) (epoch : Z) (headerHash : list Z) (nonce : Z)
    (g : managed epoch_context) : option ((list Z * list Z) * managed epoch_context) :=
  '(p, g) ← ethash_get_global_epoch_context a t epoch g;
  l ← p;
  context ← heap g !! l;
  result ← ethash_hash context (take 32 headerHash) nonce;
  Some ((final_hash result, mix_hash result), g).

Lemma generic_create_epoch a e full c :
  generic_create_epoch_context build_light_cache a e full = Some (Some c) ->
  epoch_number (base c) = e.
Proof.
  unfold generic_create_epoch_context. intros H.
  destruct (ethash_calculate_light_cache_num_items _) as [ln|]; [|discriminate H].
  cbn [mbind option_bind] in H.
  destruct (ethash_calculate_full_dataset_num_items _) as [fn|]; [|discriminate H].
  cbn [mbind option_bind] in H.
  destruct (negb _); [discriminate H|].
  destruct (build_light_cache _ _ _) as [lc|]; [|discriminate H].
  cbn [mbind option_bind] in H. by injection H as <-.
Qed.

Lemma create_light_epoch a e c :
  ethash_create_epoch_context a e = Some (Some c) -> epoch_number c = e.
Proof.
  unfold ethash_create_epoch_context. intros H.
  destruct (generic_create_epoch_context _ _ _ _) as [[c'|]|] eqn:Hc; simplify_eq/=.
  exact (generic_create_epoch _ _ _ _ Hc).
Qed.

Lemma create_full_epoch a e c :
  ethash_create_epoch_context_full a e = Some (Some c) -> full_epoch c = e.
Proof. apply generic_create_epoch. Qed.

(** A context made for an epoch in range is the one of the specification. *)
Lemma created_spec c :
  0 <= epoch_number c <= 2 * max_epoch + 1 -> created epoch_number ethash_create_epoch_context c ->
  exists ln fn, c = spec_context (epoch_number c) ln fn /\ context_ok c /\
    ethash_calculate_light_cache_num_items (epoch_ecip1099 (epoch_number c)) = Some ln /\
    ethash_calculate_full_dataset_num_items (epoch_ecip1099 (epoch_number c)) = Some fn.
Proof.
  intros He [a Ha]. unfold ethash_create_epoch_context in Ha.
  destruct (create_epoch_context_spec a _ false He) as (ln & fn & Hln & Hfn & Hok & Hc).
  rewrite Hc in Ha. destruct (a _); [|discriminate Ha]. cbn [option_map base] in Ha.
  do 2 apply Some_inj in Ha. exists ln, fn. split; [done|]. rewrite Ha in Hok. auto.
Qed.

End Instances.

(** C8: calls of [ethash_get_global_epoch_context] and of its full variant are
    right under every interleaving.  From any state reached by steps of any
    threads: a call that returns at once returns a live context of the epoch
    asked for; a call that had to take the mutex returns one too, or null when
    the allocation failed.  No step meets a dangling pointer. *)
Theorem managed_calls_correct {ctx alloc : Type} (ctx_epoch : ctx -> Z)
    (create : alloc -> Z -> option (option ctx)) (ts : list thread) (g : managed ctx) :
  (forall a e c, create a e = Some (Some c) -> ctx_epoch c = e) ->
  steps ctx_epoch create managed_init ts g ->
  (forall t e, exists r g', get_global_enter ctx_epoch t e g = Some (r, g') /\
     (r = Waiting /\ waiting g' !! t = Some e \/
      exists p, r = Returned p /\ answers ctx_epoch create g' p e)) /\
  (forall a t e, waiting g !! t = Some e -> is_Some (create a e) ->
     exists p g', get_global_locked ctx_epoch create a t g = Some (Returned p, g') /\
       (p = None /\ create a e = Some None \/ answers ctx_epoch create g' p e)).
Proof.
  intros Hcreate Hs. assert (Hg : managed_ok ctx_epoch create g)
    by (eapply steps_ok; [done|apply managed_init_ok|done]).
  split.
  - intros t e. destruct (enter_defined ctx_epoch create t e g Hg) as (r & g' & He).
    apply (enter_ok ctx_epoch create) in He as He'; [|done..]. exists r, g'. split; [done|]. apply He'.
  - intros a t e Hw Hc. destruct (locked_defined ctx_epoch create a t e g Hg Hw Hc) as (r & g' & Hl).
    rewrite Hl. apply locked_ok in Hl as [_ (e' & p & Hw' & -> & Hcase)]; [|done..].
    exists p, g'. split; [done|]. by replace e with e' by congruence.
Qed.

(** A toy context: its epoch. *)
Definition toy_create (a : bool) (e : Z) : option (option Z) := Some (if a then Some e else None).

Lemma managed_calls_correct_witness :
  exists r g', get_global_enter (fun c => c) 1%nat 5 (@managed_init Z) = Some (r, g') /\
    (r = Waiting \/ exists p, r = Returned p).
Proof.
  assert (Hcreate : forall a e c, toy_create a e = Some (Some c) -> c = e).
  { intros [] e c H; [injection H as <-; reflexivity|discriminate H]. }
  destruct (proj1 (managed_calls_correct (fun c => c) toy_create [] managed_init Hcreate
    (steps_nil _ _ _)) 1%nat 5) as (r & g' & H & [[Hr _]|(p & Hr & _)]);
    exists r, g'; split; [exact H|left; exact Hr|exact H|right; exists p; exact Hr].
Defined.

(** The pointer a thread got stays valid, and what it points to unchanged,
    whatever the other threads do, until the thread's own next call; and no
    context leaks: every allocated context is referenced, so that there is at
    most one context more than there are threads holding one. *)
Theorem managed_pointers_stable {ctx alloc : Type} (ctx_epoch : ctx -> Z)
    (create : alloc -> Z -> option (option ctx)) (ts ts' : list thread) (g g' : managed ctx)
    (t : thread) (l : loc) (c : ctx) :
  (forall a e c, create a e = Some (Some c) -> ctx_epoch c = e) ->
  steps ctx_epoch create managed_init ts g -> holds g t l c ->
  t ∉ ts' -> steps ctx_epoch create g ts' g' ->
  holds g' t l c /\
  (forall l', is_Some (heap g' !! l') ->
     shared_context g' = Some l' \/ exists t', thread_local_context g' !! t' = Some l').
Proof.
  intros Hcreate Hs Hh Hnin Hs'. assert (Hg : managed_ok ctx_epoch create g)
    by (eapply steps_ok; [done|apply managed_init_ok|done]).
  split; [by eapply steps_holds|]. intros l' Hl'. apply referenced_spec.
  eapply ok_referenced; [by eapply steps_ok|done].
Qed.

(** The states of the toy contexts after a thread entered a call, and after it
    got the mutex. *)
Definition toy_enter (t : thread) (e : Z) (g : managed Z) : managed Z :=
  match get_global_enter (fun c => c) t e g with Some (_, g) => g | None => g end.
Definition toy_locked (t : thread) (g : managed Z) : managed Z :=
  match get_global_locked (fun c => c) toy_create true t g with Some (_, g) => g | None => g end.
Definition toy_state1 : managed Z := toy_locked 1%nat (toy_enter 1%nat 5 managed_init).
Definition toy_state2 : managed Z := toy_locked 2%nat (toy_enter 2%nat 6 toy_state1).

Lemma managed_pointers_stable_witness :
  steps (fun c => c) toy_create managed_init [1%nat; 1%nat] toy_state1 /\
  steps (fun c => c) toy_create toy_state1 [2%nat; 2%nat] toy_state2 /\
  holds toy_state2 1%nat 0%nat 5.
Proof.
  assert (Hcreate : forall a e c, toy_create a e = Some (Some c) -> c = e).
  { intros [] e c H; [injection H as <-; reflexivity|discriminate H]. }
  assert (H1 : steps (fun c => c) toy_create managed_init [1%nat; 1%nat] toy_state1).
  { eapply steps_cons; [apply (step_enter _ _ managed_init 1%nat 5 Waiting); reflexivity|].
    eapply steps_cons; [eapply (step_locked _ _ _ true 1%nat (Returned (Some 0%nat)));
      vm_compute; reflexivity|].
    apply steps_nil. }
  assert (H2 : steps (fun c => c) toy_create toy_state1 [2%nat; 2%nat] toy_state2).
  { eapply steps_cons; [apply (step_enter _ _ toy_state1 2%nat 6 Waiting); reflexivity|].
    eapply steps_cons; [eapply (step_locked _ _ _ true 2%nat (Returned (Some 1%nat)));
      vm_compute; reflexivity|].
    apply steps_nil. }
  split; [exact H1|]. split; [exact H2|].
  refine (proj1 (managed_pointers_stable (fun c => c) toy_create [1%nat; 1%nat] [2%nat; 2%nat]
    toy_state1 toy_state2 1%nat 0%nat 5 Hcreate H1 _ _ H2)).
  - split; vm_compute; reflexivity.
  - apply (bool_decide_unpack _). vm_compute. exact I.
Defined.

Lemma eval_spec {host : Host} (ts : list thread) (g : managed epoch_context)
    (t : thread) (e : Z) (header : list Z) (nonce : Z) :
  steps epoch_number ethash_create_epoch_context managed_init ts g -> waiting g !! t = None ->
  0 <= e <= 2 * max_epoch + 1 -> hash256_wf header -> in_word 64 nonce ->
  exists ln fn g',
    ethash_calculate_light_cache_num_items (epoch_ecip1099 e) = Some ln /\
    ethash_calculate_full_dataset_num_items (epoch_ecip1099 e) = Some fn /\
    eval (fun _ => true) t e header nonce g =
      Some (hashimoto (mkcache (Z.to_nat ln) (epoch_seed (Z.to_nat e))) fn header nonce, g').
Proof.
  intros Hs Hw He Hh Hn.
  assert (Hg : managed_ok epoch_number ethash_create_epoch_context g)
    by (eapply steps_ok; [apply create_light_epoch|apply managed_init_ok|done]).
  destruct (create_epoch_context_spec (fun _ => true) e false He) as (ln & fn & _ & _ & _ & Hc).
  assert (Hcreate : ethash_create_epoch_context (fun _ => true) e = Some (Some (spec_context e ln fn)))
    by (unfold ethash_create_epoch_context; rewrite Hc; reflexivity).
  destruct (get_global_correct epoch_number ethash_create_epoch_context create_light_epoch
    (fun _ => true) t e g Hg Hw) as (p & g' & Hget & _ & [[_ Hnull]|(l & c & -> & Hl & Hce & Hcr)]);
    [by rewrite Hcreate|congruence|].
  subst e. destruct (created_spec c He Hcr) as (ln' & fn' & Hceq & Hcok & Hln & Hfn).
  exists ln', fn', g'. split; [done|]. split; [done|].
  unfold eval, ethash_get_global_epoch_context. rewrite Hget. cbn [mbind option_bind].
  rewrite Hl. cbn [mbind option_bind]. rewrite take_ge by (destruct Hh; lia).
  rewrite ethash_hash_spec by done. cbn [mbind option_bind].
  rewrite Hceq at 1 2. reflexivity.
Qed.

(** [EthashAux::eval] of an epoch up to 65279, in any state the threads may
    have reached, is hashimoto of the specification for the cache of the epoch
    when the context can be allocated. *)
Theorem eval_correct (host : Host) (ts : list thread) (g : managed epoch_context)
    (t : thread) (e : Z) (header : list Z) (nonce : Z) :
  steps epoch_number ethash_create_epoch_context managed_init ts g -> waiting g !! t = None ->
  0 <= e <= 2 * max_epoch + 1 -> hash256_wf header -> in_word 64 nonce ->
  exists ln fn g',
    ethash_calculate_light_cache_num_items (epoch_ecip1099 e) = Some ln /\
    ethash_calculate_full_dataset_num_items (epoch_ecip1099 e) = Some fn /\
    eval (fun _ => true) t e header nonce g =
      Some (hashimoto (mkcache (Z.to_nat ln) (epoch_seed (Z.to_nat e))) fn header nonce, g').
Proof. apply eval_spec. Qed.

Lemma eval_correct_witness :
  exists ln fn g', @eval plain_host (fun _ => true) 1%nat 10 (zero_hash 32) 42 managed_init =
    Some (hashimoto (mkcache (Z.to_nat ln) (epoch_seed 10)) fn (zero_hash 32) 42, g').
Proof.
  destruct (eval_correct plain_host [] managed_init 1%nat 10 (zero_hash 32) 42
    (steps_nil _ _ _) eq_refl) as (ln & fn & g' & _ & _ & H).
  - unfold max_epoch; lia.
  - split; [reflexivity|apply zeros_ok].
  - unfold in_word; lia.
  - exists ln, fn, g'. exact H.
Defined.
