(* ===== verification/Outcome.v ===== *)
(** * Exceptions

    Code that may throw returns an [outcome]: a value or the exception.  The
    exceptions are those the sources throw or let through from the standard
    library; [ThrownPointer] is a pointer that was thrown, which a handler for
    references to exceptions does not catch. *)

From stdpp Require Import base option strings.

Inductive exn :=
  | BadHexCharacter
  | OutOfRange
  | InvalidArgument
  | JsonError
  | ThrownPointer
  | RuntimeError (what : string)
  | StdException (what : string).

Inductive outcome (A : Type) :=
  | Ok (a : A)
  | Throw (e : exn).
Arguments Ok {A} a.
Arguments Throw {A} e.

#[export] Instance outcome_ret : MRet outcome := fun A a => Ok a.
#[export] Instance outcome_bind : MBind outcome := fun A B f o =>
  match o with Ok a => f a | Throw e => Throw e end.
#[export] Instance outcome_fmap : FMap outcome := fun A B f o =>
  match o with Ok a => Ok (f a) | Throw e => Throw e end.

#[export] Instance exn_eq_dec : EqDecision exn.
Proof. solve_decision. Defined.

(** [try { ... } catch (...)]. *)
Definition catch {A} (o : outcome A) (handler : exn -> A) : A :=
  match o with Ok a => a | Throw e => handler e end.

Definition is_ok {A} (o : outcome A) : bool := match o with Ok _ => true | Throw _ => false end.
