(* ===== verification/CommonData.v ===== *)
(** * Bytes, hexadecimal strings and big-endian numbers ([libdev/CommonData])

    Strings are [String.string]; bytes are numbers below 256.  [ostringstream]
    output is modelled by the digits it prints. *)

From Stdlib Require Import ZArith Lia Bool Ascii String.
From stdpp Require Import base numbers list strings.
From S2P Require Import Prelude Words Outcome.

Local Open Scope Z_scope.
Local Open Scope word_scope.

Inductive WhenError := DontThrow | ThrowOnError.
Inductive HexPrefix := DontAdd | Add.

(** ** Characters *)

Definition chars (s : string) : list ascii := list_ascii_of_string s.
Definition code (c : ascii) : Z := Z.of_N (N_of_ascii c).
Definition char_of (z : Z) : ascii := ascii_of_N (Z.to_N z).

(** [_i >= lo && _i <= hi]. *)
Definition between (lo hi c : ascii) : bool := (code lo <=? code c) && (code c <=? code hi).

(** [fromHex(char, DontThrow)]: the digit, or -1. *)
Definition fromHex_char (i : ascii) : Z :=
  if between "0" "9" i then code i - code "0"
  else if between "a" "f" i then code i - code "a" + 10
  else if between "A" "F" i then code i - code "A" + 10
  else -1.

(** [fromHex(char, _throw)]. *)
Definition fromHex_digit (i : ascii) (_throw : WhenError) : outcome Z :=
  if fromHex_char i =? -1 then
    match _throw with ThrowOnError => Throw BadHexCharacter | DontThrow => Ok (-1) end
  else Ok (fromHex_char i).

(** ** [fromHex(string)] *)

(** The result of a bad digit: an exception, or the empty byte string. *)
Definition bad_hex (_throw : WhenError) : outcome (list Z) :=
  match _throw with ThrowOnError => Throw BadHexCharacter | DontThrow => Ok [] end.

(** The loop on pairs of digits; [ret] is what was pushed so far. *)
Fixpoint fromHex_pairs (_throw : WhenError) (ret : list Z) (s : list ascii) : outcome (list Z) :=
  match s with
  | c :: d :: s =>
      let h := fromHex_char c in
      let l := fromHex_char d in
      if (negb (h =? -1)) && (negb (l =? -1)) then
        fromHex_pairs _throw (ret ++ [u8 (h * 16 + l)]) s
      else bad_hex _throw
  | [c] =>
      (* the second digit is the terminating NUL of the string *)
      bad_hex _throw
  | [] => Ok ret
  end.

(** [_s[0] == '0' && _s[1] == 'x']. *)
Definition has_0x (s : list ascii) : bool :=
  match s with c :: d :: _ => (code c =? code "0") && (code d =? code "x") | _ => false end.

Definition fromHex_list (s : list ascii) (_throw : WhenError) : outcome (list Z) :=
  let rest := if has_0x s then drop 2 s else s in
  if Nat.odd (length s) then
    match rest with
    | c :: rest =>
        let h := fromHex_char c in
        if negb (h =? -1) then fromHex_pairs _throw [u8 h] rest else bad_hex _throw
    | [] => bad_hex _throw
    end
  else fromHex_pairs _throw [] rest.

Definition fromHex (s : string) (_throw : WhenError) : outcome (list Z) :=
  fromHex_list (chars s) _throw.

(** ** Printing *)

(** A digit as [std::hex] prints it. *)
Definition hex_digit (d : Z) : ascii := if d <? 10 then char_of (48 + d) else char_of (87 + d).

(** [n] hexadecimal digits of [x], most significant first. *)
Fixpoint hex_digits (n : nat) (x : Z) : list ascii :=
  match n with O => [] | S n => hex_digits n (x / 16) ++ [hex_digit (x mod 16)] end.

(** Number of digits that [std::hex << x] prints, for nonnegative [x]. *)
Definition hex_length (x : Z) : nat := Z.to_nat (Z.log2 x / 4 + 1).

(** [std::hex << std::setfill('0') << std::setw(w) << x]. *)
Definition put_hex (w : nat) (x : Z) : list ascii := hex_digits (Nat.max w (hex_length x)) x.

Definition add_prefix (p : HexPrefix) (s : list ascii) : list ascii :=
  match p with Add => "0"%char :: "x"%char :: s | DontAdd => s end.

Definition text (l : list ascii) : string := string_of_list_ascii l.

(** [toHex(data, w, prefix)]: the width of the first byte is a parameter. *)
Definition toHex_list (data : list Z) (w : nat) (prefix : HexPrefix) : list ascii :=
  add_prefix prefix
    (concat (imap (fun i b => put_hex (if (i =? 0)%nat then w else 2) b) data)).

Definition toHex (data : list Z) (w : nat) (prefix : HexPrefix) : string :=
  text (toHex_list data w prefix).

(** The overloads on integers. *)
Definition toHex64 (n : Z) (prefix : HexPrefix) (width : nat) : string :=
  text (add_prefix prefix (put_hex width n)).
Definition toHex32 (n : Z) (prefix : HexPrefix) (width : nat) : string :=
  text (add_prefix prefix (put_hex width n)).
Definition toCompactHex (n : Z) (prefix : HexPrefix) : string :=
  text (add_prefix prefix (put_hex 0 n)).

(** ** Big-endian numbers *)

(** [toBigEndian(val, out)] on a container of [n] bytes. *)
Fixpoint toBigEndian (n : nat) (val : Z) : list Z :=
  match n with O => [] | S n => toBigEndian n (val .> 8) ++ [val .& 0xff] end.

(** [fromBigEndian<T>(bytes)] for a [w]-bit type. *)
Definition fromBigEndian (w : Z) (bytes : list Z) : Z :=
  fold_left (fun ret i => wrap w (shl w ret 8 .| i)) bytes 0.

Definition bytesRequired_step (p : Z * Z) : (Z * Z) + Z :=
  let '(v, i) := p in if v =? 0 then inr i else inl (v .> 8, i + 1).

(** [for (; _i != 0; ++i, _i >>= 8)], for a type of at most 2048 bits. *)
Definition bytesRequired (v : Z) : option Z :=
  match loop bytesRequired_step 257 (v, 0) with inr i => Some i | inl _ => None end.

Definition toCompactBigEndian (val _min : Z) : option (list Z) :=
  i ← bytesRequired val; Some (toBigEndian (Z.to_nat (Z.max _min i)) val).

(** [toHex(u256, prefix)]. *)
Definition toHex256 (val : Z) (prefix : HexPrefix) : string :=
  text (add_prefix prefix (toHex_list (toBigEndian 32 val) 2 DontAdd)).

(** ** Strings *)

Definition padLeft (value : string) (len : nat) (fillChar : ascii) : string :=
  if (String.length value <? len)%nat then
    text (replicate (len - String.length value) fillChar ++ chars value)
  else value.

Definition padRight (value : string) (len : nat) (fillChar : ascii) : string :=
  if (String.length value <? len)%nat then
    text (chars value ++ replicate (len - String.length value) fillChar)
  else value.

(** ** Hexadecimal digits *)

(** A property of the sixteen digits, by enumeration. *)
Lemma digit_cases (P : Z -> Prop) :
  Forall P [0; 1; 2; 3; 4; 5; 6; 7; 8; 9; 10; 11; 12; 13; 14; 15] -> forall d, 0 <= d < 16 -> P d.
Proof.
  intros HP d Hd. rewrite Forall_forall in HP. apply HP.
  assert (Hn : d ∈ Z.of_nat <$> seq 0 16); [|exact Hn].
  apply list_elem_of_fmap. exists (Z.to_nat d). split; [lia|].
  apply list_elem_of_In, in_seq. lia.
Qed.

Lemma fromHex_hex_digit d : 0 <= d < 16 -> fromHex_char (hex_digit d) = d.
Proof. revert d. apply digit_cases. repeat (constructor; [reflexivity|]). constructor. Qed.

Lemma hex_digit_not_x d : 0 <= d < 16 -> (code (hex_digit d) =? code "x") = false.
Proof. revert d. apply digit_cases. repeat (constructor; [reflexivity|]). constructor. Qed.

Lemma fromHex_char_range c : fromHex_char c = -1 \/ 0 <= fromHex_char c < 16.
Proof.
  unfold fromHex_char, between. change (code "0") with 48. change (code "9") with 57.
  change (code "a") with 97. change (code "f") with 102.
  change (code "A") with 65. change (code "F") with 70.
  repeat (match goal with |- context [?a <=? ?b] => destruct (Z.leb_spec a b) end; simpl); lia.
Qed.

(** The hexadecimal value of a string of digits. *)
Definition hex_value (l : list ascii) : Z := fold_left (fun v c => 16 * v + fromHex_char c) l 0.

Definition is_hex (c : ascii) : Prop := fromHex_char c <> -1.
#[export] Instance is_hex_dec c : Decision (is_hex c).
Proof. unfold is_hex. apply _. Defined.

Lemma is_hex_range c : is_hex c -> 0 <= fromHex_char c < 16.
Proof. intros Hc. destruct (fromHex_char_range c); [done|lia]. Qed.

Lemma hex_test c : negb (fromHex_char c =? -1) = bool_decide (is_hex c).
Proof.
  destruct (Z.eqb_spec (fromHex_char c) (-1)) as [H|H]; simpl; symmetry.
  - apply bool_decide_eq_false_2. intros Hn. exact (Hn H).
  - apply bool_decide_eq_true_2. exact H.
Qed.

(** ** [fromHex] *)

Lemma list_pair_ind {A} (P : list A -> Prop) :
  P [] -> (forall x, P [x]) -> (forall x y l, P l -> P (x :: y :: l)) -> forall l, P l.
Proof.
  intros H0 H1 H2 l. assert (Hb : P l /\ forall x, P (x :: l)); [|apply Hb].
  induction l as [|y l [IH1 IH2]]; split; auto.
Qed.

Definition even_length {A} (l : list A) : Prop := Nat.even (length l) = true.

Lemma hex_fold_app v l c d :
  fold_left (fun v c => 16 * v + fromHex_char c) (c :: d :: l) v =
  fold_left (fun v c => 16 * v + fromHex_char c) l
    (256 * v + (fromHex_char c * 16 + fromHex_char d)).
Proof. simpl. f_equal. lia. Qed.

Lemma be_number_snoc l b : be_number (l ++ [b]) = 256 * be_number l + b.
Proof. rewrite be_number_app. simpl. unfold be_number. simpl. lia. Qed.

Lemma fromHex_pairs_ok t ret l :
  even_length l -> Forall is_hex l -> bytes_ok ret ->
  exists bs, fromHex_pairs t ret l = Ok bs /\ bytes_ok bs /\
    Z.of_nat (length bs) = Z.of_nat (length ret) + Z.of_nat (length l) / 2 /\
    be_number bs = fold_left (fun v c => 16 * v + fromHex_char c) l (be_number ret).
Proof.
  revert ret. induction l as [|x|x y l IH] using list_pair_ind; intros ret Hev Hl Hret.
  - exists ret. split_and!; [done|done|simpl; by rewrite Z.add_0_r|done].
  - done.
  - inversion_clear Hl as [|?? Hx Hl']. inversion_clear Hl' as [|?? Hy Hl].
    cbn [fromHex_pairs]. rewrite !hex_test, !bool_decide_eq_true_2 by done. cbn [andb].
    apply is_hex_range in Hx, Hy.
    rewrite (wrap_id 8) by (unfold in_word; lia).
    destruct (IH (ret ++ [fromHex_char x * 16 + fromHex_char y])) as (bs & -> & Hok & Hlen & Hval);
      [done|done| |].
    { apply Forall_app. split; [done|]. constructor; [|done]. unfold is_byte, in_word. lia. }
    exists bs. split; [done|]. split; [done|]. split.
    + rewrite Hlen, length_app. simpl length.
      replace (Z.of_nat (S (S (length l)))) with (Z.of_nat (length l) + 1 * 2) by lia.
      rewrite Z.div_add by lia. lia.
    + by rewrite Hval, hex_fold_app, be_number_snoc.
Qed.

Lemma fromHex_pairs_bad t ret l :
  even_length l -> ~ Forall is_hex l -> fromHex_pairs t ret l = bad_hex t.
Proof.
  revert ret. induction l as [|x|x y l IH] using list_pair_ind; intros ret Hev Hl; [|done|].
  - destruct Hl. constructor.
  - cbn [fromHex_pairs]. rewrite !hex_test.
    destruct (decide (is_hex x)); [|by rewrite bool_decide_eq_false_2].
    destruct (decide (is_hex y)); [|by rewrite andb_comm, bool_decide_eq_false_2].
    rewrite !bool_decide_eq_true_2 by done. apply IH; [done|].
    intros Hall. apply Hl. by repeat constructor.
Qed.

(** What follows the optional [0x]. *)
Definition hex_rest (s : list ascii) : list ascii := if has_0x s then drop 2 s else s.

Lemma hex_rest_parity s : Nat.odd (length (hex_rest s)) = Nat.odd (length s).
Proof.
  unfold hex_rest. destruct (has_0x s) eqn:H; [|done].
  destruct s as [|c [|d s]]; try done.
Qed.

Lemma fromHex_list_ok t s :
  Forall is_hex (hex_rest s) ->
  exists bs, fromHex_list s t = Ok bs /\ bytes_ok bs /\
    Z.of_nat (length bs) = (Z.of_nat (length (hex_rest s)) + 1) / 2 /\
    be_number bs = hex_value (hex_rest s).
Proof.
  intros Hall. unfold fromHex_list. fold (hex_rest s). pose proof (hex_rest_parity s) as Hpar.
  destruct (Nat.odd (length s)) eqn:Hodd.
  - destruct (hex_rest s) as [|c l]; [done|]. inversion_clear Hall as [|?? Hc Hl].
    rewrite hex_test, bool_decide_eq_true_2 by done. apply is_hex_range in Hc.
    rewrite (wrap_id 8) by (unfold in_word; lia).
    destruct (fromHex_pairs_ok t [fromHex_char c] l) as (bs & -> & Hok & Hlen & Hval).
    { unfold even_length. simpl in Hpar. by rewrite <-Nat.odd_succ. }
    { done. } { constructor; [|done]. unfold is_byte, in_word. lia. }
    exists bs. split; [done|]. split; [done|]. split.
    + rewrite Hlen. simpl length.
      replace (Z.of_nat (S (length l)) + 1) with (Z.of_nat (length l) + 1 * 2) by lia.
      rewrite Z.div_add by lia. lia.
    + rewrite Hval. unfold hex_value. cbn [fold_left]. f_equal. unfold be_number. simpl. lia.
  - destruct (fromHex_pairs_ok t [] (hex_rest s)) as (bs & -> & Hok & Hlen & Hval);
      [|done|constructor|].
    { unfold even_length. by rewrite <-Nat.negb_odd, Hpar. }
    exists bs. split; [done|]. split; [done|]. split; [|done].
    rewrite Hlen. simpl length. rewrite <-Nat.negb_even in Hpar. apply negb_false_iff in Hpar.
    apply Nat.even_spec in Hpar as [k ->].
    rewrite !Nat2Z.inj_mul. change (Z.of_nat 2) with 2.
    rewrite (Z.mul_comm 2), Z.div_mul, Z.div_add_l by lia. change (1 / 2) with 0. lia.
Qed.

Lemma fromHex_list_bad t s : ~ Forall is_hex (hex_rest s) -> fromHex_list s t = bad_hex t.
Proof.
  intros Hall. unfold fromHex_list. fold (hex_rest s). pose proof (hex_rest_parity s) as Hpar.
  destruct (Nat.odd (length s)) eqn:Hodd.
  - destruct (hex_rest s) as [|c l]; [done|]. rewrite hex_test.
    destruct (decide (is_hex c)); [|by rewrite bool_decide_eq_false_2].
    rewrite bool_decide_eq_true_2 by done. apply fromHex_pairs_bad.
    + unfold even_length. simpl in Hpar. by rewrite <-Nat.odd_succ.
    + intros Hl. apply Hall. by constructor.
  - apply fromHex_pairs_bad; [|done]. unfold even_length. by rewrite <-Nat.negb_odd, Hpar.
Qed.

(** ** Printing and parsing back *)

Definition hex2 (b : Z) : list ascii := [hex_digit (b / 16); hex_digit (b mod 16)].

Lemma byte_digits b : is_byte b -> 0 <= b / 16 < 16 /\ 0 <= b mod 16 < 16 /\ b = b / 16 * 16 + b mod 16.
Proof.
  unfold is_byte, in_word. intros Hb. pose proof (Z.div_mod b 16 ltac:(lia)).
  split; [|split; [apply Z.mod_pos_bound; lia|lia]].
  split; [apply Z.div_pos; lia|apply Z.div_lt_upper_bound; lia].
Qed.

Lemma put_hex_byte b : is_byte b -> put_hex 2 b = hex2 b.
Proof.
  intros Hb. unfold put_hex. assert (Hlen : (hex_length b <= 2)%nat).
  { unfold hex_length, is_byte, in_word in *. destruct (Z.eq_dec b 0) as [->|]; [by apply Nat.leb_le|].
    assert (Z.log2 b < 8) by (apply Z.log2_lt_pow2; lia).
    assert (Z.log2 b / 4 < 2) by (apply Z.div_lt_upper_bound; lia). lia. }
  rewrite Nat.max_l by done. destruct (byte_digits b Hb) as (Hd & _ & _).
  simpl. by rewrite (Z.mod_small (b / 16)).
Qed.

Lemma toHex_list_pairs data p :
  bytes_ok data -> toHex_list data 2 p = add_prefix p (concat (hex2 <$> data)).
Proof.
  intros Hok. unfold toHex_list. do 2 f_equal.
  apply list_eq. intros i. rewrite list_lookup_imap, list_lookup_fmap.
  destruct (data !! i) as [b|] eqn:Hb; simpl; [|done]. f_equal.
  rewrite <-put_hex_byte; [by destruct (i =? 0)%nat|].
  exact (Forall_lookup_1 _ _ _ _ Hok Hb).
Qed.

Lemma hex2_is_hex data : bytes_ok data -> Forall is_hex (concat (hex2 <$> data)).
Proof.
  induction 1 as [|b data Hb Hd IH]; csimpl; [constructor|].
  destruct (byte_digits b Hb) as (H1 & H2 & _).
  constructor; [|constructor; [|done]]; unfold is_hex; rewrite fromHex_hex_digit by done; lia.
Qed.

Lemma hex2_no_prefix data : bytes_ok data -> has_0x (concat (hex2 <$> data)) = false.
Proof.
  intros Hok. destruct Hok as [|b data Hb Hd]; [done|]. csimpl.
  destruct (byte_digits b Hb) as (_ & H2 & _). by rewrite hex_digit_not_x, andb_false_r.
Qed.

Lemma fromHex_pairs_hex2 t ret data :
  bytes_ok data -> fromHex_pairs t ret (concat (hex2 <$> data)) = Ok (ret ++ data).
Proof.
  intros Hok. revert ret. induction Hok as [|b data Hb Hd IH]; intros ret; csimpl.
  { by rewrite app_nil_r. }
  destruct (byte_digits b Hb) as (H1 & H2 & H3). rewrite !fromHex_hex_digit by done.
  destruct (Z.eqb_spec (b / 16) (-1)); [lia|]. destruct (Z.eqb_spec (b mod 16) (-1)); [lia|].
  cbn [negb andb]. rewrite <-H3, (wrap_id 8) by done. by rewrite IH, <-app_assoc.
Qed.

Lemma length_hex2 data : Nat.odd (length (concat (hex2 <$> data))) = false.
Proof. induction data; csimpl; [done|]. by rewrite Nat.odd_succ_succ. Qed.

Lemma chars_text l : chars (text l) = l.
Proof. apply list_ascii_of_string_of_list_ascii. Qed.

Lemma length_text l : String.length (text l) = length l.
Proof. induction l as [|c l IH]; simpl; [done|]. by f_equal. Qed.

Lemma fromHex_toHex_bytes data p t : bytes_ok data -> fromHex (toHex data 2 p) t = Ok data.
Proof.
  intros Hok. unfold fromHex, toHex. rewrite chars_text, toHex_list_pairs by done.
  unfold fromHex_list. destruct p; cbn [add_prefix].
  - rewrite hex2_no_prefix, length_hex2 by done. by apply (fromHex_pairs_hex2 t []).
  - cbn [has_0x]. change ((code "0" =? code "0") && (code "x" =? code "x")) with true.
    cbn [drop]. set (l := concat _).
    change (Nat.odd (length ("0"%char :: "x"%char :: l))) with (Nat.odd (length l)). subst l.
    rewrite length_hex2. by apply (fromHex_pairs_hex2 t []).
Qed.

(** ** Integers as hexadecimal strings *)

Lemma hex_digits_spec k x :
  0 <= x ->
  Forall is_hex (hex_digits k x) /\ length (hex_digits k x) = k /\
  forall v, fold_left (fun v c => 16 * v + fromHex_char c) (hex_digits k x) v =
    v * 16 ^ Z.of_nat k + x mod 16 ^ Z.of_nat k.
Proof.
  revert x. induction k as [|k IH]; intros x Hx; simpl hex_digits.
  { split; [constructor|]. split; [done|]. intros v. simpl. rewrite Z.mod_1_r. lia. }
  destruct (IH (x / 16) (Z.div_pos x 16 Hx ltac:(lia))) as (Hh & Hl & Hv).
  pose proof (Z.mod_pos_bound x 16 ltac:(lia)).
  split; [|split].
  - apply Forall_app. split; [done|]. constructor; [|constructor].
    unfold is_hex. rewrite fromHex_hex_digit; lia.
  - rewrite length_app, Hl. simpl. lia.
  - intros v. rewrite fold_left_app, Hv. cbn [fold_left]. rewrite fromHex_hex_digit by done.
    rewrite Nat2Z.inj_succ, Z.pow_succ_r by lia.
    rewrite (Z.rem_mul_r x 16) by (try apply Z.pow_nonzero; lia). lia.
Qed.

Lemma hex_length_bound x w : 0 <= x < 16 ^ Z.of_nat w -> (0 < w)%nat -> (hex_length x <= w)%nat.
Proof.
  intros Hx Hw. unfold hex_length. destruct (Z.eq_dec x 0) as [->|]; [change (Z.log2 0 / 4) with 0; lia|].
  change 16 with (2 ^ 4) in Hx. rewrite <-Z.pow_mul_r in Hx by lia.
  assert (Z.log2 x < 4 * Z.of_nat w) by (apply Z.log2_lt_pow2; lia).
  assert (Z.log2 x / 4 < Z.of_nat w) by (apply Z.div_lt_upper_bound; lia). lia.
Qed.

Lemma hex_length_enough x : 0 <= x -> x < 16 ^ Z.of_nat (hex_length x).
Proof.
  intros Hx. unfold hex_length. destruct (Z.eq_dec x 0) as [->|]; [done|].
  rewrite Z2Nat.id by (pose proof (Z.div_pos (Z.log2 x) 4 (Z.log2_nonneg x)); lia).
  change 16 with (2 ^ 4). rewrite <-Z.pow_mul_r
    by (pose proof (Z.div_pos (Z.log2 x) 4 (Z.log2_nonneg x)); lia).
  apply Z.log2_lt_pow2; [lia|]. pose proof (Z.mul_succ_div_gt (Z.log2 x) 4 ltac:(lia)). lia.
Qed.

Lemma put_hex_spec w x :
  0 <= x ->
  Forall is_hex (put_hex w x) /\ hex_value (put_hex w x) = x /\
  length (put_hex w x) = Nat.max w (hex_length x).
Proof.
  intros Hx. unfold put_hex. set (k := Nat.max w (hex_length x)).
  destruct (hex_digits_spec k x Hx) as (Hh & Hl & Hv). split; [done|]. split; [|done].
  unfold hex_value. rewrite Hv, Z.mul_0_l, Z.add_0_l. apply Z.mod_small. split; [done|].
  eapply Z.lt_le_trans; [by apply hex_length_enough|]. apply Z.pow_le_mono_r; lia.
Qed.

Lemma hex_no_prefix l : Forall is_hex l -> has_0x l = false.
Proof.
  intros Hl. destruct Hl as [|c l Hc Hl]; [done|]. destruct Hl as [|d l Hd Hl]; [done|].
  simpl. apply andb_false_iff. right. apply Z.eqb_neq. intros Hx.
  apply Hd. unfold fromHex_char, between. rewrite Hx. reflexivity.
Qed.

(** What [fromHex] makes of printed digits, with or without the prefix. *)
Lemma fromHex_add_prefix t p l :
  Forall is_hex l -> (0 < length l)%nat ->
  exists bs, fromHex_list (add_prefix p l) t = Ok bs /\ bytes_ok bs /\ be_number bs = hex_value l /\
    Z.of_nat (length bs) = (Z.of_nat (length l) + 1) / 2.
Proof.
  intros Hl Hlen.
  assert (Hrest : hex_rest (add_prefix p l) = l).
  { unfold hex_rest. destruct p; cbn [add_prefix]; [by rewrite hex_no_prefix|].
    cbn [has_0x]. done. }
  destruct (fromHex_list_ok t (add_prefix p l)) as (bs & Hbs & Hok & Hn & Hv);
    rewrite Hrest in *; [done|]. exists bs. auto.
Qed.

(** ** Big-endian numbers *)

Lemma toBigEndian_le n v : toBigEndian n v = reverse (le_bytes n v).
Proof.
  revert v. induction n as [|n IH]; intros v; [done|]. simpl. rewrite reverse_cons, IH.
  rewrite Z.shiftr_div_pow2 by lia. change 255 with (Z.ones 8). by rewrite Z.land_ones by lia.
Qed.

Lemma toBigEndian_ok n v : bytes_ok (toBigEndian n v) /\ length (toBigEndian n v) = n.
Proof.
  rewrite toBigEndian_le. split; [apply Forall_reverse, le_bytes_ok|].
  by rewrite length_reverse, length_le_bytes.
Qed.

Lemma be_number_toBigEndian n v :
  in_word (8 * Z.of_nat n) v -> be_number (toBigEndian n v) = v.
Proof.
  intros Hv. unfold be_number. rewrite toBigEndian_le, reverse_involutive. by apply le_word_bytes.
Qed.

Lemma shiftl_add_byte x b : is_byte b -> 256 * x + b = Z.shiftl x 8 .| b.
Proof.
  intros Hb. assert (Hland : Z.shiftl x 8 .& b = 0).
  { apply Z.bits_inj'. intros i Hi. rewrite Z.land_spec, Z.bits_0, Z.shiftl_spec by lia.
    destruct (Z.lt_ge_cases i 8).
    - rewrite Z.testbit_neg_r by lia. done.
    - rewrite (in_word_testbit 8 ltac:(lia) b) by done. apply andb_false_r. }
  rewrite <-Z.lxor_lor, <-Z.add_nocarry_lxor, Z.shiftl_mul_pow2 by (done || lia). lia.
Qed.

Lemma shl_lor_byte w x b :
  8 <= w -> is_byte b -> wrap w (shl w x 8 .| b) = wrap w (256 * x + b).
Proof.
  intros Hw Hb. rewrite shiftl_add_byte by done.
  apply (word_ext w); [lia|apply wrap_in_word; lia|apply wrap_in_word; lia|].
  intros i Hi. unfold wrap at 1 2. rewrite !Z.mod_pow2_bits_low, !Z.lor_spec by lia.
  f_equal. unfold shl, wrap. by rewrite Z.mod_pow2_bits_low by lia.
Qed.

Lemma fromBigEndian_fold w l v :
  8 <= w -> bytes_ok l ->
  fold_left (fun ret i => wrap w (shl w ret 8 .| i)) l (wrap w v) =
  wrap w (v * 2 ^ (8 * Z.of_nat (length l)) + be_number l).
Proof.
  intros Hw Hok. revert v. induction Hok as [|b l Hb Hl IH]; intros v.
  - cbn [fold_left length]. change (8 * Z.of_nat 0) with 0.
    unfold be_number. simpl. f_equal. lia.
  - cbn [fold_left]. rewrite shl_lor_byte by done.
    assert (Hred : wrap w (256 * wrap w v + b) = wrap w (256 * v + b)).
    { unfold wrap. rewrite <-Zplus_mod_idemp_l, Zmult_mod_idemp_r, Zplus_mod_idemp_l. done. }
    rewrite Hred, IH. f_equal. change (b :: l) with ([b] ++ l). rewrite be_number_app, length_app.
    change (be_number [b]) with (b + 256 * 0). simpl length.
    replace (8 * Z.of_nat (1 + length l)) with (8 + 8 * Z.of_nat (length l)) by lia.
    rewrite Z.pow_add_r by lia. lia.
Qed.

Lemma fromBigEndian_spec w l : 8 <= w -> bytes_ok l -> fromBigEndian w l = wrap w (be_number l).
Proof.
  intros Hw Hok. unfold fromBigEndian. replace 0 with (wrap w 0) by (apply wrap_id; apply in_word_0; lia).
  by rewrite fromBigEndian_fold.
Qed.

Lemma bytesRequired_spec v :
  in_word 2048 v ->
  exists n, bytesRequired v = Some n /\ 0 <= n <= 256 /\ v < 2 ^ (8 * n) /\
    (0 < n -> 2 ^ (8 * (n - 1)) <= v).
Proof.
  intros Hv. unfold bytesRequired, in_word in *.
  destruct (loop_total bytesRequired_step
    (fun p => 0 <= p.2 <= 256 /\ p.1 = v / 2 ^ (8 * p.2) /\ (0 < p.2 -> 2 ^ (8 * (p.2 - 1)) <= v))
    (fun p => 256 - p.2)
    (fun n => 0 <= n <= 256 /\ v < 2 ^ (8 * n) /\ (0 < n -> 2 ^ (8 * (n - 1)) <= v))
    257 (v, 0)) as (n & -> & Hn); [| | | |eauto].
  - intros [x i] (Hi & _). simpl in *. lia.
  - intros [x i] (Hi & Hx & Hlow). cbn [fst snd] in *. subst x. unfold bytesRequired_step.
    assert (Hpos : 0 < 2 ^ (8 * i)) by (apply Z.pow_pos_nonneg; lia).
    destruct (Z.eqb_spec (v / 2 ^ (8 * i)) 0) as [H0|H0].
    + split; [lia|]. split; [|done]. apply Z.div_small_iff in H0; lia.
    + assert (Hle : 2 ^ (8 * i) <= v).
      { destruct (Z.le_gt_cases (2 ^ (8 * i)) v); [done|]. rewrite Z.div_small in H0; lia. }
      assert (i < 256).
      { destruct (Z.lt_ge_cases i 256); [done|]. assert (i = 256) as -> by lia. lia. }
      cbn [fst snd]. split; [|lia]. split; [lia|]. split.
      * rewrite Z.shiftr_div_pow2, Z.div_div by lia. rewrite <-Z.pow_add_r by lia. do 2 f_equal. lia.
      * intros _. replace (i + 1 - 1) with i by lia. done.
  - cbn [fst snd]. split; [lia|]. split; [|lia]. by rewrite Z.div_1_r.
  - cbn [fst snd]. lia.
Qed.

(** Printing bytes with [toHex], with or without the prefix, and parsing
    them with [fromHex], in either error mode, gives the bytes back. *)
Theorem hex_bytes_roundtrip (data : list Z) (p : HexPrefix) (t : WhenError) :
  bytes_ok data -> fromHex (toHex data 2 p) t = Ok data.
Proof. apply fromHex_toHex_bytes. Qed.

Lemma hex_bytes_roundtrip_witness :
  bytes_ok [0; 255; 16] /\ toHex [0; 255; 16] 2 Add = "0x00ff10"%string /\
  fromHex (toHex [0; 255; 16] 2 Add) DontThrow = Ok [0; 255; 16].
Proof.
  assert (Hok : bytes_ok [0; 255; 16])
    by (repeat (constructor; [unfold is_byte, in_word; lia|]); constructor).
  split; [exact Hok|]. split; [reflexivity|].
  exact (hex_bytes_roundtrip [0; 255; 16] Add DontThrow Hok).
Defined.

(** [fromHex] on every string.  If every character after the optional [0x]
    is a hexadecimal digit, the result is the number the digits denote, in
    big-endian order, in the least number of bytes that holds the digits (an odd
    number of digits is padded on the left); otherwise it throws, or gives the
    empty byte string, whatever was read before the bad character. *)
Theorem fromHex_correct (s : string) (t : WhenError) :
  (Forall is_hex (hex_rest (chars s)) ->
   exists bs, fromHex s t = Ok bs /\ bytes_ok bs /\
     Z.of_nat (length bs) = (Z.of_nat (length (hex_rest (chars s))) + 1) / 2 /\
     be_number bs = hex_value (hex_rest (chars s))) /\
  (~ Forall is_hex (hex_rest (chars s)) ->
   fromHex s t = match t with ThrowOnError => Throw BadHexCharacter | DontThrow => Ok [] end).
Proof. split; [apply fromHex_list_ok|apply fromHex_list_bad]. Qed.

(** The integer overloads print a number that parses back to it: [toHex] of
    a 64-bit (32-bit) number has exactly the asked number of digits when it is
    at least 16 (8), and [toCompactHex] has no leading zero. *)
Theorem hex_integers_roundtrip (n : Z) (p : HexPrefix) (t : WhenError) (w : nat) :
  0 <= n -> (0 < w)%nat -> n < 16 ^ Z.of_nat w ->
  (exists bs, fromHex (toHex64 n p w) t = Ok bs /\ be_number bs = n) /\
  (exists bs, fromHex (toCompactHex n p) t = Ok bs /\ be_number bs = n) /\
  String.length (toHex64 n p w) = (w + match p with Add => 2 | DontAdd => 0 end)%nat /\
  String.length (toCompactHex n p) = (hex_length n + match p with Add => 2 | DontAdd => 0 end)%nat.
Proof.
  intros Hn Hw Hlt.
  assert (Hlen : forall k, (0 < length (put_hex k n))%nat).
  { intros k. destruct (put_hex_spec k n Hn) as (_ & _ & ->). unfold hex_length.
    pose proof (Z.div_pos (Z.log2 n) 4 (Z.log2_nonneg n)). lia. }
  assert (Hparse : forall k, exists bs, fromHex_list (add_prefix p (put_hex k n)) t = Ok bs /\
    be_number bs = n).
  { intros k. destruct (put_hex_spec k n Hn) as (Hh & Hv & _).
    destruct (fromHex_add_prefix t p _ Hh (Hlen k)) as (bs & Hbs & _ & Hbe & _).
    exists bs. split; [done|congruence]. }
  assert (Hstr : forall k, String.length (text (add_prefix p (put_hex k n))) =
    (Nat.max k (hex_length n) + match p with Add => 2 | DontAdd => 0 end)%nat).
  { intros k. destruct (put_hex_spec k n Hn) as (_ & _ & Hl). rewrite <-Hl.
    rewrite length_text. destruct p; simpl; lia. }
  unfold fromHex, toHex64, toCompactHex. rewrite !Hstr, !chars_text.
  rewrite (Nat.max_l w) by (apply hex_length_bound; lia). auto.
Qed.

Lemma hex_integers_roundtrip_witness :
  toHex64 48879 Add 16 = "0x000000000000beef"%string /\
  exists bs, fromHex (toHex64 48879 Add 16) ThrowOnError = Ok bs /\ be_number bs = 48879.
Proof.
  split; [reflexivity|].
  exact (proj1 (hex_integers_roundtrip 48879 Add ThrowOnError 16 ltac:(lia) ltac:(lia) ltac:(lia))).
Defined.

(** [toBigEndian] and [fromBigEndian] are inverse on numbers that fit and on
    byte strings; [toCompactBigEndian] uses the fewest bytes (at least the
    minimum) and denotes the number; [bytesRequired] stops on every number of
    up to 2048 bits. *)
Theorem big_endian_roundtrip (n : nat) (v : Z) (l : list Z) (m : Z) :
  (0 < n)%nat -> in_word (8 * Z.of_nat n) v -> bytes_ok l -> length l = n ->
  in_word 2048 v -> 0 <= m ->
  fromBigEndian (8 * Z.of_nat n) (toBigEndian n v) = v /\
  toBigEndian n (fromBigEndian (8 * Z.of_nat n) l) = l /\
  exists k c, bytesRequired v = Some k /\ v < 2 ^ (8 * k) /\ (0 < k -> 2 ^ (8 * (k - 1)) <= v) /\
    toCompactBigEndian v m = Some c /\ Z.of_nat (length c) = Z.max m k /\ be_number c = v.
Proof.
  intros Hn Hv Hl Hlen Hv' Hm.
  split; [|split].
  - destruct (toBigEndian_ok n v). rewrite fromBigEndian_spec, be_number_toBigEndian by (done || lia).
    by apply wrap_id.
  - pose proof (be_number_range l Hl) as Hr. rewrite Hlen in Hr.
    rewrite fromBigEndian_spec, wrap_id by (done || lia).
    destruct (toBigEndian_ok n (be_number l)). apply be_number_inj; [done|done|congruence|].
    by apply be_number_toBigEndian.
  - destruct (bytesRequired_spec v Hv') as (k & Hk & Hkr & Hlt & Hlow).
    unfold toCompactBigEndian. rewrite Hk. cbn [mbind option_bind]. eexists k, _.
    split; [done|]. split; [done|]. split; [done|]. split; [done|].
    destruct (toBigEndian_ok (Z.to_nat (Z.max m k)) v) as [_ ->]. split; [lia|].
    apply be_number_toBigEndian. split; [apply Hv|]. rewrite Z2Nat.id by lia.
    eapply Z.lt_le_trans; [done|]. apply Z.pow_le_mono_r; lia.
Qed.

Lemma big_endian_roundtrip_witness :
  toBigEndian 2 258 = [1; 2] /\ fromBigEndian 16 (toBigEndian 2 258) = 258 /\
  exists k, bytesRequired 258 = Some k /\ 258 < 2 ^ (8 * k).
Proof.
  split; [reflexivity|].
  destruct (big_endian_roundtrip 2 258 [0; 7] 0) as (H1 & _ & k & c & H2 & H3 & _).
  - lia.
  - unfold in_word; simpl; lia.
  - repeat (constructor; [unfold is_byte, in_word; lia|]); constructor.
  - reflexivity.
  - split; [lia|]. apply (Z.lt_le_trans _ (2 ^ 9)); [lia|]. apply Z.pow_le_mono_r; lia.
  - lia.
  - split; [exact H1|]. exists k. exact (conj H2 H3).
Defined.
