(* ===== verification/FixedHash.v ===== *)
(** * Fixed-size hashes ([libdev/FixedHash.h]) and views ([libdev/vector_ref.h])

    A [FixedHash<N>] is its array of [N] bytes.  The theorems relate every
    operation to the big-endian number the bytes denote. *)

From Stdlib Require Import ZArith Lia Bool Ascii String.
From stdpp Require Import base numbers list strings.
From S2P Require Import Prelude Words Outcome CommonData.

Local Open Scope Z_scope.
Local Open Scope word_scope.

Inductive ConstructFromHashType := AlignLeft | AlignRight | FailIfDifferent.

(** ** Constructors *)

Definition h_zero (N : nat) : list Z := replicate N 0.

(** The copying loop of the constructors. *)
Definition copy_step (N : nat) (t : ConstructFromHashType) (b : list Z) (d : list Z) (i : nat)
  : list Z :=
  match t with
  | AlignRight => <[(N - 1 - i)%nat := nth (length b - 1 - i) b 0]> d
  | _ => <[i := nth i b 0]> d
  end.

Definition h_copy (N : nat) (t : ConstructFromHashType) (b : list Z) : list Z :=
  fold_left (copy_step N t b) (seq 0 (Nat.min (length b) N)) (h_zero N).

(** From another hash. *)
Definition h_of_hash (N : nat) (h : list Z) (t : ConstructFromHashType) : list Z := h_copy N t h.

(** From bytes ([bytes] or [bytesConstRef]). *)
Definition h_of_bytes (N : nat) (b : list Z) (t : ConstructFromHashType) : list Z :=
  if (length b =? N)%nat then take N b
  else match t with FailIfDifferent => h_zero N | _ => h_copy N t b end.

Definition h_of_arith (N : nat) (arith : Z) : list Z := toBigEndian N arith.
Definition h_of_unsigned (N : nat) (u : Z) : list Z := toBigEndian N u.
Definition h_of_pointer (N : nat) (bs : list Z) : list Z := take N bs.

Definition h_of_string (N : nat) (s : string) : outcome (list Z) :=
  b ← fromHex s ThrowOnError; Ok (h_of_bytes N b FailIfDifferent).

(** ** Conversions and comparisons *)

Definition h_to_arith (h : list Z) : Z := fromBigEndian (8 * Z.of_nat (length h)) h.
Definition h_to_bool (h : list Z) : bool := existsb (fun b => negb (b =? 0)) h.

Definition h_eq (a b : list Z) : bool := bool_decide (a = b).

Fixpoint h_lt (a b : list Z) : bool :=
  match a, b with
  | x :: a, y :: b => if x <? y then true else if y <? x then false else h_lt a b
  | _, _ => false
  end.

Definition h_ge (a b : list Z) : bool := negb (h_lt a b).
Definition h_le (a b : list Z) : bool := h_eq a b || h_lt a b.
Definition h_gt (a b : list Z) : bool := negb (h_le a b).

(** The specialisation of [==] to [h256]: four 64-bit words. *)
Definition h256_eq {host : Host} (a b : list Z) : bool :=
  let w l i := nth i (word64s l) 0 in
  (w a 0%nat =? w b 0%nat) && (w a 1%nat =? w b 1%nat) &&
  (w a 2%nat =? w b 2%nat) && (w a 3%nat =? w b 3%nat).

(** ** Operators *)

Definition h_xor (a b : list Z) : list Z := zip_with Z.lxor a b.
Definition h_or (a b : list Z) : list Z := zip_with Z.lor a b.
Definition h_and (a b : list Z) : list Z := zip_with Z.land a b.
Definition h_not (a : list Z) : list Z := wnot 8 <$> a.

(** [for (i = size; i > 0 && !++m_data[--i];)], from the last byte. *)
Fixpoint incr_bytes (l : list Z) : list Z :=
  match l with
  | [] => []
  | b :: l => let b := u8 (b + 1) in if b =? 0 then b :: incr_bytes l else b :: l
  end.

Definition h_incr (h : list Z) : list Z := reverse (incr_bytes (reverse h)).

Definition h_hex (h : list Z) (p : HexPrefix) : string := toHex h 2 p.

(** ** [vector_ref]: an address (or null) and a count *)

Record vector_ref := mk_vector_ref { vr_data : option Z; vr_count : Z }.

Definition vr_null : vector_ref := mk_vector_ref None 0.
Definition vr_bool (v : vector_ref) : bool :=
  match vr_data v with Some _ => negb (vr_count v =? 0) | None => false end.

Definition size_max : Z := 2 ^ 64 - 1.

Definition vr_cropped (v : vector_ref) (_begin _count : Z) : vector_ref :=
  match vr_data v with
  | Some d =>
      if (_begin <=? vr_count v) && (_count <=? vr_count v) &&
         (u64 (_begin + _count) <=? vr_count v)
      then mk_vector_ref (Some (d + _begin))
             (if _count =? size_max then vr_count v - _begin else _count)
      else vr_null
  | None => vr_null
  end.

Definition vr_cropped_from (v : vector_ref) (_begin : Z) : vector_ref :=
  match vr_data v with
  | Some d =>
      if _begin <=? vr_count v then mk_vector_ref (Some (d + _begin)) (vr_count v - _begin)
      else vr_null
  | None => vr_null
  end.

Definition vr_next (v : vector_ref) : vector_ref :=
  match vr_data v with
  | Some d => mk_vector_ref (Some (d + vr_count v)) (vr_count v)
  | None => v
  end.

(** The elements of a view into memory that starts at address 0. *)
Definition vr_read (mem : list Z) (v : vector_ref) : list Z :=
  match vr_data v with
  | Some d => take (Z.to_nat (vr_count v)) (drop (Z.to_nat d) mem)
  | None => []
  end.

(** [abridged()]: the first four bytes. *)
Definition h_abridged (h : list Z) : string :=
  toHex (vr_read h (vr_cropped (mk_vector_ref (Some 0) (Z.of_nat (length h))) 0 4)) 2 DontAdd.

(** ** Constructors *)

Lemma copy_left N b k :
  (k <= Nat.min (length b) N)%nat ->
  fold_left (copy_step N AlignLeft b) (seq 0 k) (h_zero N) = take k b ++ replicate (N - k) 0.
Proof.
  induction k as [|k IH]; intros Hk.
  - by rewrite Nat.sub_0_r.
  - rewrite seq_S, fold_left_app, IH by lia. cbn [fold_left]. unfold copy_step.
    rewrite Nat.add_0_l.
    replace (N - k)%nat with (S (N - S k)) by lia. cbn [replicate].
    rewrite insert_app_r_alt by (rewrite length_take; lia).
    rewrite length_take, Nat.min_l, Nat.sub_diag by lia. cbn [insert list_insert].
    rewrite (take_S_r b k (nth k b 0)) by (apply lookup_nth_lt; lia). by rewrite <-app_assoc.
Qed.

Lemma copy_right N b k :
  (k <= Nat.min (length b) N)%nat ->
  fold_left (copy_step N AlignRight b) (seq 0 k) (h_zero N) =
  replicate (N - k) 0 ++ drop (length b - k) b.
Proof.
  induction k as [|k IH]; intros Hk.
  - cbn [seq fold_left]. rewrite !Nat.sub_0_r, drop_ge by lia. by rewrite app_nil_r.
  - rewrite seq_S, fold_left_app, IH by lia. cbn [fold_left]. unfold copy_step.
    rewrite Nat.add_0_l.
    rewrite insert_app_l by (rewrite length_replicate; lia).
    replace (N - k)%nat with (N - S k + 1)%nat by lia. rewrite replicate_add.
    rewrite insert_app_r_alt by (rewrite length_replicate; lia).
    rewrite length_replicate. replace (N - 1 - k - (N - S k))%nat with 0%nat by lia.
    cbn [replicate insert list_insert]. rewrite <-app_assoc. f_equal. cbn [app].
    replace (length b - 1 - k)%nat with (length b - S k)%nat by lia.
    rewrite (drop_S b (nth (length b - S k) b 0) (length b - S k)) by (apply lookup_nth_lt; lia).
    do 2 f_equal. lia.
Qed.

Lemma h_copy_left N b : h_copy N AlignLeft b = take N b ++ replicate (N - length b) 0.
Proof.
  unfold h_copy. rewrite copy_left by done.
  destruct (Nat.le_gt_cases (length b) N).
  - rewrite Nat.min_l by done. by rewrite !take_ge by lia.
  - rewrite Nat.min_r by lia. do 2 f_equal. lia.
Qed.

Lemma h_copy_right N b :
  h_copy N AlignRight b = replicate (N - length b) 0 ++ drop (length b - N) b.
Proof.
  unfold h_copy. rewrite copy_right by done.
  destruct (Nat.le_gt_cases (length b) N).
  - rewrite Nat.min_l by done. do 2 f_equal. lia.
  - rewrite Nat.min_r by lia. do 2 f_equal. lia.
Qed.

Lemma le_word_app_mod l1 l2 :
  bytes_ok l1 -> le_word (l1 ++ l2) mod 2 ^ (8 * Z.of_nat (length l1)) = le_word l1.
Proof.
  intros Hl. rewrite le_word_app. pose proof (le_word_in_word l1 Hl) as Hr. unfold in_word in Hr.
  rewrite Z.mul_comm, Z_mod_plus_full. by apply Z.mod_small.
Qed.

(** Keeping the last [N] bytes, padded with zeros, is the number modulo [2^(8N)]. *)
Lemma be_number_crop N b :
  bytes_ok b ->
  be_number (replicate (N - length b) 0 ++ drop (length b - N) b) =
  be_number b mod 2 ^ (8 * Z.of_nat N).
Proof.
  intros Hb. rewrite be_number_app.
  assert (Hz : forall k, be_number (replicate k 0) = 0).
  { intros k. unfold be_number. rewrite reverse_replicate. apply le_word_zeros. }
  rewrite Hz, Z.mul_0_l, Z.add_0_l.
  pose proof (be_number_range b Hb) as Hr.
  destruct (Nat.le_gt_cases (length b) N) as [Hle|Hgt].
  - replace (length b - N)%nat with 0%nat by lia. rewrite drop_0, Z.mod_small; [done|].
    split; [apply Hr|]. eapply Z.lt_le_trans; [apply Hr|]. apply Z.pow_le_mono_r; lia.
  - set (k := (length b - N)%nat).
    transitivity (be_number (take k b ++ drop k b) mod 2 ^ (8 * Z.of_nat N)); [|by rewrite take_drop].
    assert (Hlen : N = length (reverse (drop k b))) by (rewrite length_reverse, length_drop; lia).
    unfold be_number. rewrite reverse_app, Hlen. symmetry.
    apply le_word_app_mod. by apply Forall_reverse, Forall_drop.
Qed.

(** ** Comparisons *)

Lemma be_number_cons b l :
  be_number (b :: l) = b * 2 ^ (8 * Z.of_nat (length l)) + be_number l.
Proof.
  change (b :: l) with ([b] ++ l). rewrite be_number_app. f_equal. unfold be_number. simpl. lia.
Qed.

Lemma h_lt_spec a b :
  bytes_ok a -> bytes_ok b -> length a = length b -> h_lt a b = (be_number a <? be_number b).
Proof.
  intros Ha. revert b. induction Ha as [|x a Hx Ha IH]; intros b Hb Hl.
  { by destruct b. }
  destruct Hb as [|y b Hy Hb]; [done|]. injection Hl as Hl. simpl.
  pose proof (be_number_range a Ha). pose proof (be_number_range b Hb).
  rewrite IH by done. rewrite !be_number_cons, Hl in *. set (M := 2 ^ _) in *.
  destruct (Z.ltb_spec x y); [symmetry; apply Z.ltb_lt; nia|].
  destruct (Z.ltb_spec y x); [symmetry; apply Z.ltb_ge; nia|].
  assert (x = y) as -> by lia.
  destruct (Z.ltb_spec (be_number a) (be_number b)); symmetry; [apply Z.ltb_lt|apply Z.ltb_ge]; lia.
Qed.

Lemma h_eq_spec a b :
  bytes_ok a -> bytes_ok b -> length a = length b -> h_eq a b = (be_number a =? be_number b).
Proof.
  intros Ha Hb Hl. unfold h_eq. destruct (Z.eqb_spec (be_number a) (be_number b)).
  - apply bool_decide_eq_true_2. by apply be_number_inj.
  - apply bool_decide_eq_false_2. congruence.
Qed.

Lemma h_to_bool_spec h : bytes_ok h -> h_to_bool h = negb (be_number h =? 0).
Proof.
  induction 1 as [|b l Hb Hl IH]; [done|]. simpl. rewrite IH, be_number_cons.
  pose proof (be_number_range l Hl). unfold is_byte, in_word in Hb.
  assert (0 < 2 ^ (8 * Z.of_nat (length l))) by (apply Z.pow_pos_nonneg; lia).
  destruct (Z.eqb_spec b 0) as [->|]; [by rewrite Z.mul_0_l, Z.add_0_l|].
  cbn [negb orb]. symmetry. apply negb_true_iff, Z.eqb_neq. nia.
Qed.

Lemma list_eq_4 {A} (d : A) l1 l2 :
  length l1 = 4%nat -> length l2 = 4%nat ->
  (l1 = l2 <-> nth 0 l1 d = nth 0 l2 d /\ nth 1 l1 d = nth 1 l2 d /\
              nth 2 l1 d = nth 2 l2 d /\ nth 3 l1 d = nth 3 l2 d).
Proof.
  destruct l1 as [|a0 [|a1 [|a2 [|a3 []]]]]; try done.
  destruct l2 as [|b0 [|b1 [|b2 [|b3 []]]]]; try done. simpl. intros _ _.
  split; [by intros [= -> -> -> ->]|by intros (-> & -> & -> & ->)].
Qed.

Lemma h256_eq_spec {host : Host} a b : hash256_wf a -> hash256_wf b -> h256_eq a b = h_eq a b.
Proof.
  intros [Hla Ha] [Hlb Hb]. unfold h256_eq, h_eq. apply eq_bool_prop_intro.
  rewrite !andb_True, bool_decide_spec, !Is_true_true, !Z.eqb_eq.
  assert (Hw : word64s a = word64s b <-> a = b).
  { split; [|congruence]. intros Heq.
    rewrite <-(of_words_words 8 4 a), <-(of_words_words 8 4 b) by (done || lia). congruence. }
  rewrite <-Hw, (list_eq_4 0) by (rewrite length_words, ?Hla, ?Hlb; done). tauto.
Qed.

(** ** Bitwise operators and increment *)

Lemma le_word_cons_bits b l i :
  is_byte b -> 0 <= i ->
  Z.testbit (le_word (b :: l)) i =
  if decide (i < 8) then Z.testbit b i else Z.testbit (le_word l) (i - 8).
Proof.
  intros Hb Hi. cbn [le_word]. rewrite Z.add_comm, shiftl_add_byte, Z.lor_spec, Z.shiftl_spec by done.
  case_decide; [by rewrite (Z.testbit_neg_r _ (i - 8)) by lia|].
  rewrite (in_word_testbit 8 ltac:(lia) b i) by (done || lia). apply orb_false_r.
Qed.

Lemma le_word_nonneg l : bytes_ok l -> 0 <= le_word l.
Proof. intros Hl. apply le_word_in_word in Hl as [H _]. exact H. Qed.

Section Bitwise.
Context (F : Z -> Z -> Z) (op : bool -> bool -> bool).
Context (HF : forall a b i, Z.testbit (F a b) i = op (Z.testbit a i) (Z.testbit b i)).
Context (Hrange : forall a b, is_byte a -> is_byte b -> is_byte (F a b)).
Context (H0 : F 0 0 = 0).

Lemma le_word_zip_bits l1 l2 :
  bytes_ok l1 -> bytes_ok l2 -> length l1 = length l2 ->
  le_word (zip_with F l1 l2) = F (le_word l1) (le_word l2).
Proof.
  intros H1. revert l2. induction H1 as [|a l1 Ha H1 IH]; intros l2 H2 Hl.
  { by destruct l2. }
  destruct H2 as [|b l2 Hb H2]; [done|]. injection Hl as Hl. cbn [zip_with].
  apply Z.bits_inj'. intros i Hi. rewrite HF, !le_word_cons_bits by auto.
  case_decide; [by rewrite HF|]. by rewrite IH, HF.
Qed.

Lemma be_number_zip_bits a b :
  bytes_ok a -> bytes_ok b -> length a = length b ->
  be_number (zip_with F a b) = F (be_number a) (be_number b).
Proof.
  intros Ha Hb Hl. unfold be_number. rewrite reverse_zip_with by done.
  apply le_word_zip_bits; [by apply Forall_reverse..|by rewrite !length_reverse].
Qed.
End Bitwise.

Lemma be_number_xor a b :
  bytes_ok a -> bytes_ok b -> length a = length b ->
  be_number (h_xor a b) = be_number a .^ be_number b.
Proof.
  apply (be_number_zip_bits Z.lxor xorb); [apply Z.lxor_spec| |done].
  intros. by apply lxor_in_word.
Qed.

Lemma be_number_or a b :
  bytes_ok a -> bytes_ok b -> length a = length b ->
  be_number (h_or a b) = be_number a .| be_number b.
Proof.
  apply (be_number_zip_bits Z.lor orb); [apply Z.lor_spec| |done].
  intros. by apply lor_in_word.
Qed.

Lemma be_number_and a b :
  bytes_ok a -> bytes_ok b -> length a = length b ->
  be_number (h_and a b) = be_number a .& be_number b.
Proof.
  apply (be_number_zip_bits Z.land andb); [apply Z.land_spec| |done].
  intros. by apply land_in_word_r.
Qed.

Lemma wnot_byte b : is_byte b -> wnot 8 b = 255 - b.
Proof.
  unfold is_byte, in_word. intros Hb.
  assert (Hall : forallb (fun n => wnot 8 (Z.of_nat n) =? 255 - Z.of_nat n) (seq 0 256) = true)
    by (vm_compute; reflexivity).
  rewrite forallb_forall in Hall. specialize (Hall (Z.to_nat b)).
  rewrite Z2Nat.id in Hall by lia. apply Z.eqb_eq, Hall, in_seq. lia.
Qed.

Lemma be_number_not h :
  bytes_ok h -> be_number (h_not h) = 2 ^ (8 * Z.of_nat (length h)) - 1 - be_number h.
Proof.
  induction 1 as [|b l Hb Hl IH]; [done|].
  change (h_not (b :: l)) with (wnot 8 b :: h_not l).
  rewrite !be_number_cons, IH, wnot_byte by done. unfold h_not. rewrite length_fmap.
  assert (Hp : 2 ^ (8 * Z.of_nat (length (b :: l))) = 256 * 2 ^ (8 * Z.of_nat (length l)))
    by apply pow256_succ.
  rewrite Hp. lia.
Qed.

Lemma incr_bytes_spec l :
  bytes_ok l ->
  bytes_ok (incr_bytes l) /\ length (incr_bytes l) = length l /\
  le_word (incr_bytes l) = (le_word l + 1) mod 2 ^ (8 * Z.of_nat (length l)).
Proof.
  induction 1 as [|b l Hb Hl (IH1 & IH2 & IH3)]; [done|]. cbn [incr_bytes].
  pose proof (le_word_in_word l Hl) as Hr. unfold is_byte, in_word in *.
  assert (Hp : 2 ^ (8 * Z.of_nat (length (b :: l))) = 256 * 2 ^ (8 * Z.of_nat (length l)))
    by apply pow256_succ.
  destruct (Z.eq_dec b 255) as [->|Hne].
  - change (u8 (255 + 1)) with 0. cbn [Z.eqb le_word]. rewrite IH3, Hp.
    split; [by constructor|]. split; [by simpl; rewrite IH2|].
    set (M := 2 ^ (8 * Z.of_nat (length l))) in *.
    replace (255 + 256 * le_word l + 1) with (256 * (le_word l + 1)) by lia.
    by rewrite Zmult_mod_distr_l.
  - rewrite (wrap_id 8) by (unfold in_word; lia). destruct (Z.eqb_spec (b + 1) 0); [lia|].
    cbn [le_word]. split; [constructor; [unfold is_byte, in_word; lia|done]|].
    split; [done|]. rewrite Hp, Z.mod_small; [lia|].
    set (M := 2 ^ (8 * Z.of_nat (length l))) in *. nia.
Qed.

Lemma h_incr_spec h :
  bytes_ok h ->
  bytes_ok (h_incr h) /\ length (h_incr h) = length h /\
  be_number (h_incr h) = (be_number h + 1) mod 2 ^ (8 * Z.of_nat (length h)).
Proof.
  intros Hh. unfold h_incr, be_number. destruct (incr_bytes_spec (reverse h)) as (H1 & H2 & H3).
  { by apply Forall_reverse. }
  split; [by apply Forall_reverse|]. rewrite length_reverse in *. split; [done|].
  by rewrite reverse_involutive.
Qed.

Lemma h_gt_spec a b :
  bytes_ok a -> bytes_ok b -> length a = length b -> h_gt a b = (be_number b <? be_number a).
Proof.
  intros Ha Hb Hl. unfold h_gt, h_le. rewrite h_lt_spec, h_eq_spec by done.
  destruct (Z.ltb_spec (be_number a) (be_number b)), (Z.eqb_spec (be_number a) (be_number b)),
    (Z.ltb_spec (be_number b) (be_number a)); simpl; try done; lia.
Qed.

(** The comparison operators of hashes of equal size are the comparisons of
    the big-endian numbers, the conversion to [bool] tells zero, and the fast
    [==] of [h256] on 64-bit words agrees with the general one on every host. *)
Theorem hash_order_correct (host : Host) (a b c d : list Z) :
  bytes_ok a -> bytes_ok b -> length a = length b -> hash256_wf c -> hash256_wf d ->
  h_lt a b = (be_number a <? be_number b) /\ h_ge a b = (be_number b <=? be_number a) /\
  h_le a b = (be_number a <=? be_number b) /\ h_gt a b = (be_number b <? be_number a) /\
  h_eq a b = (be_number a =? be_number b) /\ h_to_bool a = negb (be_number a =? 0) /\
  h256_eq c d = h_eq c d.
Proof.
  intros Ha Hb Hl Hc Hd. unfold h_gt, h_le, h_ge.
  rewrite h_lt_spec, h_eq_spec, h_to_bool_spec, h256_eq_spec by done.
  set (x := be_number a). set (y := be_number b).
  repeat split; destruct (Z.ltb_spec x y), (Z.eqb_spec x y), (Z.leb_spec y x), (Z.leb_spec x y),
    (Z.ltb_spec y x); simpl; try done; lia.
Qed.

Lemma hash_order_correct_witness :
  h_lt [1; 255] [2; 0] = (be_number [1; 255] <? be_number [2; 0]) /\ h_lt [1; 255] [2; 0] = true.
Proof.
  split; [|reflexivity].
  assert (Hz : hash256_wf (h_zero 32)) by (split; [reflexivity|apply zeros_ok]).
  refine (proj1 (hash_order_correct plain_host [1; 255] [2; 0] (h_zero 32) (h_zero 32) _ _ _ Hz Hz)).
  - repeat (constructor; [unfold is_byte, in_word; lia|]); constructor.
  - repeat (constructor; [unfold is_byte, in_word; lia|]); constructor.
  - reflexivity.
Defined.

(** The constructors of a hash of [N] bytes: a byte string of that length is
    kept; otherwise it is rejected (zero), or aligned left or right with zero
    padding and cropping; aligning right keeps the number modulo [2^(8N)]; a
    string of digits of the right length gives the number they denote, and a bad
    digit throws. *)
Theorem hash_construction_correct (N : nat) (b : list Z) (s : string) :
  bytes_ok b ->
  h_of_bytes N b FailIfDifferent = (if decide (length b = N) then b else h_zero N) /\
  h_of_bytes N b AlignLeft = take N b ++ replicate (N - length b) 0 /\
  h_of_bytes N b AlignRight = replicate (N - length b) 0 ++ drop (length b - N) b /\
  be_number (h_of_bytes N b AlignRight) = be_number b mod 2 ^ (8 * Z.of_nat N) /\
  (Forall is_hex (hex_rest (chars s)) -> length (hex_rest (chars s)) = (2 * N)%nat ->
   exists h, h_of_string N s = Ok h /\ hash_wf N h /\ be_number h = hex_value (hex_rest (chars s))) /\
  (~ Forall is_hex (hex_rest (chars s)) -> h_of_string N s = Throw BadHexCharacter).
Proof.
  intros Hb.
  assert (Hleft : h_of_bytes N b AlignLeft = take N b ++ replicate (N - length b) 0).
  { unfold h_of_bytes. destruct (Nat.eqb_spec (length b) N) as [<-|]; [|apply h_copy_left].
    by rewrite Nat.sub_diag, app_nil_r. }
  assert (Hright : h_of_bytes N b AlignRight = replicate (N - length b) 0 ++ drop (length b - N) b).
  { unfold h_of_bytes. destruct (Nat.eqb_spec (length b) N) as [<-|]; [|apply h_copy_right].
    by rewrite Nat.sub_diag, take_ge, drop_0. }
  split; [|split; [done|split; [done|split; [|split]]]].
  - unfold h_of_bytes. destruct (Nat.eqb_spec (length b) N); case_decide; try done. by rewrite take_ge by lia.
  - rewrite Hright. apply be_number_crop. done.
  - intros Hhex Hlen. unfold h_of_string, fromHex.
    destruct (fromHex_list_ok ThrowOnError (chars s) Hhex) as (bs & -> & Hok & Hl & Hv).
    cbn. eexists. split; [done|].
    assert (Hbs : length bs = N).
    { rewrite Hlen, Nat2Z.inj_mul in Hl. change (Z.of_nat 2) with 2 in Hl.
      rewrite (Z.mul_comm 2), Z.div_add_l in Hl by lia. change (1 / 2) with 0 in Hl. lia. }
    unfold h_of_bytes. rewrite Hbs, Nat.eqb_refl, take_ge by lia.
    exact (conj (conj Hbs Hok) Hv).
  - intros Hbad. unfold h_of_string, fromHex. by rewrite fromHex_list_bad.
Qed.

Lemma hash_construction_correct_witness :
  bytes_ok [1; 2; 3] /\ h_of_bytes 2 [1; 2; 3] AlignRight = [2; 3].
Proof.
  assert (Hok : bytes_ok [1; 2; 3])
    by (repeat (constructor; [unfold is_byte, in_word; lia|]); constructor).
  split; [exact Hok|].
  exact (proj1 (proj2 (proj2 (hash_construction_correct 2 [1; 2; 3] EmptyString Hok)))).
Defined.

(** The operators of hashes are the operations on the numbers: exclusive or,
    or, and, complement, and increment modulo [2^(8N)] with its carry. *)
Theorem hash_operators_correct (a b : list Z) :
  bytes_ok a -> bytes_ok b -> length a = length b ->
  be_number (h_xor a b) = be_number a .^ be_number b /\
  be_number (h_or a b) = be_number a .| be_number b /\
  be_number (h_and a b) = be_number a .& be_number b /\
  be_number (h_not a) = 2 ^ (8 * Z.of_nat (length a)) - 1 - be_number a /\
  be_number (h_incr a) = (be_number a + 1) mod 2 ^ (8 * Z.of_nat (length a)).
Proof.
  intros Ha Hb Hl. split; [by apply be_number_xor|]. split; [by apply be_number_or|].
  split; [by apply be_number_and|]. split; [by apply be_number_not|]. by apply h_incr_spec.
Qed.

Lemma hash_operators_correct_witness :
  h_incr [7; 255; 255] = [8; 0; 0] /\
  be_number (h_incr [7; 255; 255]) = (be_number [7; 255; 255] + 1) mod 2 ^ 24.
Proof.
  assert (Hok : bytes_ok [7; 255; 255])
    by (repeat (constructor; [unfold is_byte, in_word; lia|]); constructor).
  split; [reflexivity|].
  apply (hash_operators_correct [7; 255; 255] [7; 255; 255] Hok Hok eq_refl).
Defined.

(** A cropped view stays within the view it comes from, and is empty when the
    asked part does not fit (for views of less than 2^63 elements); in particular asking for [~size_t(0)] elements gives
    the empty view, not the rest of the data. *)
Theorem cropped_correct (v : vector_ref) (d n _begin _count : Z) :
  v = mk_vector_ref (Some d) n -> in_word 63 n -> in_word 64 _begin -> in_word 64 _count ->
  vr_cropped v _begin _count =
    (if _begin + _count <=? n then mk_vector_ref (Some (d + _begin)) _count else vr_null) /\
  vr_cropped v _begin size_max = vr_null /\
  vr_cropped_from v _begin =
    (if _begin <=? n then mk_vector_ref (Some (d + _begin)) (n - _begin) else vr_null).
Proof.
  intros -> Hn Hb Hc. unfold vr_cropped, vr_cropped_from, in_word, size_max in *.
  cbn [vr_data vr_count]. split; [|split; [|done]].
  - destruct (Z.leb_spec _begin n), (Z.leb_spec _count n), (Z.leb_spec (_begin + _count) n);
      cbn [andb]; try lia; try done.
    + rewrite wrap_id by (unfold in_word; lia). destruct (Z.leb_spec (_begin + _count) n); [|lia].
      by destruct (Z.eqb_spec _count (2 ^ 64 - 1)); [lia|].
    + rewrite wrap_id by (unfold in_word; lia). by destruct (Z.leb_spec (_begin + _count) n); [lia|].
  - destruct (Z.leb_spec (2 ^ 64 - 1) n); [lia|]. by rewrite andb_false_r.
Qed.

Lemma cropped_correct_witness :
  vr_cropped (mk_vector_ref (Some 100) 32) 0 4 = mk_vector_ref (Some 100) 4.
Proof.
  exact (proj1 (cropped_correct _ 100 32 0 4 eq_refl ltac:(unfold in_word; lia)
    ltac:(unfold in_word; lia) ltac:(unfold in_word; lia))).
Defined.
