(* ===== verification/Worker.v ===== *)
(** * The worker thread ([libdev/Worker])

    The state machine of [Worker]: the atomic [m_state], the thread it owns and
    the call of the owner that is in progress (calls hold [workerWorkMutex], so
    there is one at a time).  A step is one access to [m_state]; the steps of
    the thread and of the owner interleave freely. *)

From stdpp Require Import base list option.
From Stdlib Require Import Lia Arith Bool.
From S2P Require Import Prelude.

Inductive WorkerState := Starting | Started | Stopping | Stopped | Killing.

#[export] Instance WorkerState_eq_dec : EqDecision WorkerState.
Proof. solve_decision. Defined.

(** Where the thread function is. *)
Inductive thread_pc :=
  | TCheck                        (* while (m_state != Killing) *)
  | TSetStarted                   (* compare_exchange_strong(Starting, Started) *)
  | TWorkLoop                     (* workLoop(), until it returns or throws *)
  | TSetStopped                   (* ex = m_state.exchange(Stopped) *)
  | TRestore (ex : WorkerState)   (* if (ex == Killing || ex == Starting) m_state.exchange(ex) *)
  | TWait                         (* while (m_state == Stopped) sleep *)
  | TExit.

(** Where the owner is. *)
Inductive owner_pc :=
  | OIdle
  | OStartWait      (* while (m_state == Starting) sleep, in startWorking *)
  | OStopWait       (* while (m_state != Stopped) sleep, in stopWorking *)
  | OJoin           (* m_work->join(), in the destructor *)
  | ODestroyed.

Record worker := mk_worker {
  m_state : WorkerState;
  m_work : option thread_pc;
  owner : owner_pc
}.

Definition worker_init : worker := mk_worker Starting None OIdle.

Definition shouldStop (w : worker) : bool := bool_decide (m_state w <> Started).

Definition compare_exchange (w : worker) (expected desired : WorkerState) : worker :=
  if decide (m_state w = expected) then mk_worker desired (m_work w) (owner w) else w.

Definition set_thread (w : worker) (t : thread_pc) : worker :=
  mk_worker (m_state w) (Some t) (owner w).
Definition set_owner (w : worker) (o : owner_pc) : worker := mk_worker (m_state w) (m_work w) o.

(** One step of the thread. *)
Definition thread_step (w : worker) : option worker :=
  match m_work w with
  | None | Some TExit => None
  | Some TCheck =>
      Some (set_thread w (if decide (m_state w = Killing) then TExit else TSetStarted))
  | Some TSetStarted => Some (set_thread (compare_exchange w Starting Started) TWorkLoop)
  | Some TWorkLoop => Some (set_thread w TSetStopped)
  | Some TSetStopped => Some (mk_worker Stopped (Some (TRestore (m_state w))) (owner w))
  | Some (TRestore ex) =>
      Some (mk_worker
        (if decide (ex = Killing \/ ex = Starting) then ex else m_state w) (Some TWait) (owner w))
  | Some TWait => if decide (m_state w = Stopped) then Some w else Some (set_thread w TCheck)
  end.

(** The calls, up to the point where they wait. *)
Definition startWorking (w : worker) : option worker :=
  match owner w with
  | OIdle =>
      Some (set_owner
        (match m_work w with
         | Some _ => compare_exchange w Stopped Starting
         | None => mk_worker Starting (Some TCheck) (owner w)
         end) OStartWait)
  | _ => None
  end.

Definition triggerStopWorking (w : worker) : option worker :=
  match owner w with
  | OIdle =>
      Some (match m_work w with Some _ => compare_exchange w Started Stopping | None => w end)
  | _ => None
  end.

Definition stopWorking (w : worker) : option worker :=
  match owner w with
  | OIdle =>
      Some (match m_work w with
            | Some _ => set_owner (compare_exchange w Started Stopping) OStopWait
            | None => w
            end)
  | _ => None
  end.

Definition destructor (w : worker) : option worker :=
  match owner w with
  | OIdle =>
      Some (match m_work w with
            | Some t => mk_worker Killing (Some t) OJoin
            | None => set_owner w ODestroyed
            end)
  | _ => None
  end.

(** The owner looks whether its wait is over. *)
Definition owner_poll (w : worker) : option worker :=
  match owner w with
  | OStartWait => Some (if decide (m_state w = Starting) then w else set_owner w OIdle)
  | OStopWait => Some (if decide (m_state w = Stopped) then set_owner w OIdle else w)
  | OJoin =>
      match m_work w with
      | Some TExit => Some (mk_worker (m_state w) None ODestroyed)
      | _ => Some w
      end
  | _ => None
  end.

Inductive action := AThread | AStart | ATriggerStop | AStop | ADestroy | APoll.

Definition worker_step (w : worker) (a : action) : option worker :=
  match a with
  | AThread => thread_step w
  | AStart => startWorking w
  | ATriggerStop => triggerStopWorking w
  | AStop => stopWorking w
  | ADestroy => destructor w
  | APoll => owner_poll w
  end.

Definition run (l : list action) (w : worker) : option worker := mfold worker_step l w.

(** ** The invariant *)

(** Which states the thread can meet at each point: [m_state] [s], owner [o]. *)
Definition killed (s : WorkerState) (o : owner_pc) : bool :=
  match s, o with Killing, OJoin => true | _, _ => false end.
Definition being_started (s : WorkerState) (o : owner_pc) : bool :=
  match s, o with Starting, OStartWait => true | _, _ => false end.
Definition running (s : WorkerState) (o : owner_pc) : bool :=
  match s, o with
  | (Started | Stopping), (OIdle | OStartWait | OStopWait) => true
  | _, _ => false
  end.
Definition at_rest (s : WorkerState) (o : owner_pc) : bool :=
  match s, o with Stopped, (OIdle | OStartWait | OStopWait) => true | _, _ => false end.

Definition thread_ok (s : WorkerState) (o : owner_pc) (t : thread_pc) : bool :=
  match t with
  | TCheck => being_started s o || killed s o
  | TSetStarted => being_started s o
  | TWorkLoop | TSetStopped => running s o || killed s o
  | TRestore (Started | Stopping) => at_rest s o || being_started s o || killed s o
  | TRestore Killing => match s, o with Stopped, OJoin => true | _, _ => false end
  | TRestore _ => false
  | TWait => at_rest s o || being_started s o || killed s o
  | TExit => killed s o
  end.

Definition worker_ok (w : worker) : bool :=
  match m_work w with
  | Some t => thread_ok (m_state w) (owner w) t
  | None => match owner w with OIdle | ODestroyed => true | _ => false end
  end.

(** The state space is finite: every step from every state is evaluated. *)
Lemma worker_step_ok w a w' : worker_ok w = true -> worker_step w a = Some w' -> worker_ok w' = true.
Proof.
  destruct w as [s t o]. intros Hok Hs.
  destruct a, s, o, t as [[| | | |[]| |]|]; vm_compute in Hok; try discriminate Hok;
    vm_compute in Hs; try discriminate Hs; injection Hs as <-; reflexivity.
Qed.

Lemma run_ok l w w' : worker_ok w = true -> run l w = Some w' -> worker_ok w' = true.
Proof.
  revert w. induction l as [|a l IH]; intros w Hw Hr; unfold run in Hr; simpl in Hr;
    [by simplify_eq|].
  destruct (worker_step w a) as [w1|] eqn:Hs; [|done]. simpl in Hr.
  eapply IH; [by eapply worker_step_ok|done].
Qed.

(** Steps the thread still takes before it exits, once it is being killed. *)
Definition to_exit (t : thread_pc) : nat :=
  match t with
  | TWorkLoop => 5 | TSetStopped => 4 | TRestore _ => 3 | TWait => 2 | TCheck => 1
  | TSetStarted => 6 | TExit => 0
  end.

Lemma killed_progress w t :
  worker_ok w = true -> owner w = OJoin -> m_work w = Some t -> to_exit t <> 0 ->
  exists w' t', thread_step w = Some w' /\ m_work w' = Some t' /\ owner w' = OJoin /\
    to_exit t' < to_exit t.
Proof.
  destruct w as [s t0 o]. simpl. intros Hok -> -> Ht.
  destruct s, t as [| | | |[]| |]; try discriminate Hok; try done;
    eexists _, _; (split; [reflexivity|]);
    (split; [reflexivity|]); (split; [reflexivity|]); simpl; lia.
Qed.

Lemma killed_exits n w t :
  worker_ok w = true -> owner w = OJoin -> m_work w = Some t -> to_exit t <= n ->
  exists k w', k <= n /\ run (replicate k AThread) w = Some w' /\ m_work w' = Some TExit.
Proof.
  revert w t. induction n as [|n IH]; intros w t Hok Ho Ht Hn.
  - exists 0, w. split; [done|]. split; [done|]. destruct t; simpl in *; try lia. done.
  - destruct (decide (to_exit t = 0)) as [H0|H0].
    { exists 0, w. split; [lia|]. split; [done|]. by destruct t. }
    destruct (killed_progress w t Hok Ho Ht H0) as (w1 & t1 & Hs & Ht1 & Ho1 & Hlt).
    destruct (IH w1 t1) as (k & w' & Hk & Hr & Hw'); [by apply (worker_step_ok w AThread)|done..|lia|].
    exists (S k), w'. split; [lia|]. split; [|done]. unfold run in *. simpl. by rewrite Hs.
Qed.

(** In every interleaving of the owner's calls and the thread, the thread
    never finds [Starting] when it sets [Stopped] (that branch is dead), and a
    kill is never lost: once the destructor ran, [m_state] is [Killing] or about
    to be restored to it. *)
Theorem worker_kill_not_lost (l : list action) (w : worker) :
  run l worker_init = Some w ->
  m_work w <> Some (TRestore Starting) /\
  (owner w = OJoin -> m_state w = Killing \/ m_work w = Some (TRestore Killing)).
Proof.
  intros Hr. apply run_ok in Hr; [|reflexivity]. destruct w as [s t o]. unfold worker_ok in Hr.
  simpl in *. destruct s, o, t as [[| | | |[]| |]|]; try discriminate Hr; naive_solver.
Qed.

Lemma worker_kill_not_lost_witness :
  exists w, run [AStart; AThread; AThread; APoll; AThread; AThread; ADestroy] worker_init = Some w /\
    owner w = OJoin /\ m_state w = Killing.
Proof.
  eexists. split; [reflexivity|]. split; [reflexivity|].
  destruct (worker_kill_not_lost
    [AStart; AThread; AThread; APoll; AThread; AThread; ADestroy] _ eq_refl) as [_ [H|H]];
    [reflexivity|exact H|discriminate H].
Defined.

(** C40: The destructor terminates: from every reachable state in which it
    joins the thread, the thread exits within five of its steps (given that
    [workLoop] returns), after which the join returns. *)
Theorem worker_destructor_terminates (l : list action) (w : worker) :
  run l worker_init = Some w -> owner w = OJoin ->
  exists k w', k <= 5 /\ run (replicate k AThread) w = Some w' /\ m_work w' = Some TExit /\
    exists w'', owner_poll w' = Some w'' /\ owner w'' = ODestroyed.
Proof.
  intros Hr Ho. apply run_ok in Hr as Hok; [|reflexivity].
  destruct (m_work w) as [t|] eqn:Ht.
  - assert (Hle : to_exit t <= 5).
    { destruct t; simpl; try lia. destruct w as [s t0 o]. simpl in *. subst. by destruct s. }
    destruct (killed_exits 5 w t Hok Ho Ht Hle) as (k & w' & Hk & Hrun & Hex).
    exists k, w'. split; [done|]. split; [done|]. split; [done|].
    apply run_ok in Hrun; [|done]. destruct w' as [s' t' o']. simpl in *. subst t'.
    destruct s', o'; try discriminate Hrun. eexists. split; reflexivity.
  - destruct w as [s t o]. simpl in *. subst. discriminate Hok.
Qed.

Lemma worker_destructor_terminates_witness :
  exists w k w', run [AStart; AThread; AThread; APoll; ADestroy] worker_init = Some w /\
    run (replicate k AThread) w = Some w' /\ m_work w' = Some TExit.
Proof.
  destruct (worker_destructor_terminates [AStart; AThread; AThread; APoll; ADestroy] _
    eq_refl eq_refl) as (k & w' & _ & H1 & H2 & _).
  eexists _, k, w'. split; [reflexivity|]. split; [exact H1|exact H2].
Defined.

(** A start requested while the worker is still stopping is lost: the
    [compare_exchange] from [Stopped] fails, [startWorking] returns at once, and
    the thread then rests in [Stopped] for good. *)
Theorem start_lost_while_stopping :
  exists w w', run [AStart; AThread; AThread; APoll; ATriggerStop] worker_init = Some w /\
    m_state w = Stopping /\
    run [AStart; APoll; AThread; AThread; AThread] w = Some w' /\
    owner w' = OIdle /\ m_state w' = Stopped /\ thread_step w' = Some w'.
Proof.
  exists (mk_worker Stopping (Some TWorkLoop) OIdle), (mk_worker Stopped (Some TWait) OIdle).
  repeat split; vm_compute; reflexivity.
Qed.
