(* ===== verification/Floats.v ===== *)
(** * Floating point numbers and decimal output

    [float] and [double] are the IEEE formats of the Standard Library's
    [SpecFloat]; [std::fixed << std::setprecision(p)] prints the exact value
    rounded to [p] decimals, ties to even.  Includes the scaling of sizes of
    [libdev/CommonData.cpp]. *)

From Stdlib Require Import ZArith Lia Bool Ascii String Floats.SpecFloat.
From stdpp Require Import base numbers list strings.
From S2P Require Import Prelude Words Outcome CommonData.

Local Open Scope Z_scope.

Definition float := spec_float.
Definition double := spec_float.

(** Conversions from integers, and from [double] to [float]. *)
Definition float_of_Z (z : Z) : float := binary_normalize 24 128 z 0 false.
Definition double_of_Z (z : Z) : double := binary_normalize 53 1024 z 0 false.
Definition float_of_double (x : double) : float :=
  match x with
  | S754_finite s m e => binary_normalize 24 128 (if s then Zneg m else Zpos m) e s
  | _ => x
  end.

Definition fzero : float := S754_zero false.
Definition fadd : float -> float -> float := SFadd 24 128.
Definition fdiv : float -> float -> float := SFdiv 24 128.
Definition dmul : double -> double -> double := SFmul 53 1024.
Definition ddiv : double -> double -> double := SFdiv 53 1024.
Definition fgt (x y : spec_float) : bool := SFltb y x.

(** ** Decimal output *)

(** Decimal digits of a nonnegative number, most significant first. *)
Fixpoint dec_digits (fuel : nat) (n : Z) : list ascii :=
  match fuel with
  | O => []
  | S fuel =>
      (if n <? 10 then [] else dec_digits fuel (n / 10)) ++ [char_of (48 + n mod 10)]
  end.

Definition dec_list (n : Z) : list ascii := dec_digits (S (Z.to_nat (Z.log2 n))) n.

(** [std::to_string] of an integer. *)
Definition to_string (z : Z) : string :=
  text (if z <? 0 then "-"%char :: dec_list (- z) else dec_list z).

(** [num / den] rounded to an integer, ties to even; [den > 0]. *)
Definition round_even (num den : Z) : Z :=
  let q := num / den in
  let r := num mod den in
  match (2 * r) ?= den with
  | Lt => q
  | Gt => q + 1
  | Eq => if Z.even q then q else q + 1
  end.

(** The digits of [n], at least [p + 1] of them, with a point before the last [p]. *)
Definition point_digits (p : nat) (n : Z) : list ascii :=
  let l := dec_list n in
  let l := replicate (S p - length l) "0"%char ++ l in
  if (p =? 0)%nat then l
  else take (length l - p) l ++ ["."%char] ++ drop (length l - p) l.

Definition fixed_string (p : nat) (x : spec_float) : string :=
  match x with
  | S754_zero s => text ((if s then ["-"%char] else []) ++ point_digits p 0)
  | S754_infinity s => (if s then "-inf" else "inf")%string
  | S754_nan => "nan"%string
  | S754_finite s m e =>
      let scaled := Zpos m * 10 ^ Z.of_nat p in
      let n := if 0 <=? e then scaled * 2 ^ e else round_even scaled (2 ^ (- e)) in
      text ((if s then ["-"%char] else []) ++ point_digits p n)
  end.

Example fixed_string_ex :
  fixed_string 2 (ddiv (double_of_Z 31415) (double_of_Z 10000)) = "3.14"%string /\
  to_string (-120) = "-120"%string.
Proof. vm_compute. auto. Qed.

(** ** [getScaledSize] and its callers *)

(** [while (_newvalue > _divisor && i <= (_numsizes - 1))], whose number of
    iterations is at most [_numsizes]. *)
Fixpoint scale_loop (fuel : nat) (divisor : double) (newvalue : double) (i numsizes : Z)
  : double * Z :=
  match fuel with
  | O => (newvalue, i)
  | S fuel =>
      if fgt newvalue divisor && (i <=? u64 (numsizes - 1)) then
        scale_loop fuel divisor (ddiv newvalue divisor) (i + 1) numsizes
      else (newvalue, i)
  end.

(** [None] when [_sizes] is read out of bounds. *)
Definition getScaledSize (value divisor : double) (precision : nat) (sizes : list string)
    (add_suffix : bool) : option string :=
  let numsizes := Z.of_nat (length sizes) in
  let '(newvalue, i) := scale_loop (S (length sizes)) divisor value 0 numsizes in
  let ret := fixed_string precision newvalue in
  if add_suffix then
    s ← array_get sizes i; Some (ret +:+ " " +:+ s)%string
  else Some ret.

Definition hash_suffixes : list string := ["h"; "Kh"; "Mh"; "Gh"; "Th"; "Ph"]%string.
Definition memory_suffixes : list string := ["B"; "KB"; "MB"; "GB"]%string.

Definition getFormattedHashes (hr : double) (suffix : bool) (precision : nat) : option string :=
  getScaledSize hr (double_of_Z 1000) precision hash_suffixes suffix.

Definition getFormattedMemory (mem : double) (suffix : bool) (precision : nat) : option string :=
  getScaledSize mem (double_of_Z 1024) precision memory_suffixes suffix.

(** [TelemetryType::strvec]: the magnitude of the farm's hash rate, whose suffix
    is then looked up in the same six suffixes. *)
Fixpoint magnitude_loop (fuel : nat) (hr : float) (magnitude : Z) : float * Z :=
  match fuel with
  | O => (hr, magnitude)
  | S fuel =>
      if fgt hr (float_of_Z 1000) && (magnitude <=? 5) then
        magnitude_loop fuel (fdiv hr (float_of_Z 1000)) (magnitude + 1)
      else (hr, magnitude)
  end.

Definition farm_speed (hashrate : float) : option string :=
  let '(hr, magnitude) := magnitude_loop 7 hashrate 0 in
  s ← array_get hash_suffixes magnitude; Some (fixed_string 2 hr +:+ " " +:+ s)%string.

Lemma scale_loop_bound fuel divisor v i n :
  0 <= i <= n -> 0 < n < 2 ^ 64 -> (Z.to_nat (n - i) < fuel)%nat ->
  0 <= (scale_loop fuel divisor v i n).2 <= n /\
  (fgt (scale_loop fuel divisor v i n).1 divisor = true -> (scale_loop fuel divisor v i n).2 = n).
Proof.
  revert v i. induction fuel as [|fuel IH]; intros v i Hi Hn Hf; [lia|]. cbn [scale_loop].
  rewrite (wrap_id 64) by (unfold in_word; lia).
  destruct (fgt v divisor) eqn:Hgt; cbn [andb]; [|simpl; split; [lia|congruence]].
  destruct (Z.leb_spec i (n - 1)); [apply IH; lia|]. simpl. split; [lia|]. intros _. lia.
Qed.

(** [getScaledSize] stops after at most [_numsizes] divisions; its index is
    within the table of suffixes or one past its end, and exactly in the latter
    case the suffix is read out of bounds, as for 10^21 hashes per second. *)
Theorem getScaledSize_index (value divisor : double) (precision : nat) (sizes : list string) :
  0 < Z.of_nat (length sizes) < 2 ^ 64 ->
  let '(v, i) := scale_loop (S (length sizes)) divisor value 0 (Z.of_nat (length sizes)) in
  0 <= i <= Z.of_nat (length sizes) /\
  (getScaledSize value divisor precision sizes true = None <-> i = Z.of_nat (length sizes)) /\
  getFormattedHashes (double_of_Z (10 ^ 21)) true 2 = None.
Proof.
  intros Hn. destruct (scale_loop (S (length sizes)) divisor value 0 (Z.of_nat (length sizes)))
    as [v i] eqn:Hs.
  pose proof (scale_loop_bound (S (length sizes)) divisor value 0 (Z.of_nat (length sizes))) as Hb.
  rewrite Hs in Hb. cbn [fst snd] in Hb. destruct Hb as [Hb _]; [lia|lia|lia|].
  split; [done|]. split; [|vm_compute; reflexivity].
  unfold getScaledSize. rewrite Hs. unfold array_get. destruct (Z.leb_spec 0 i); [|lia].
  destruct (sizes !! Z.to_nat i) as [s|] eqn:Hl; cbn [mbind option_bind].
  - apply lookup_lt_Some in Hl. split; [done|lia].
  - apply lookup_ge_None in Hl. split; [lia|done].
Qed.

Lemma getScaledSize_index_witness :
  getScaledSize (double_of_Z 2048) (double_of_Z 1024) 2 memory_suffixes true = Some "2.00 KB"%string /\
  0 <= (scale_loop 5 (double_of_Z 1024) (double_of_Z 2048) 0 4).2 <= 4.
Proof.
  split; [vm_compute; reflexivity|].
  pose proof (getScaledSize_index (double_of_Z 2048) (double_of_Z 1024) 2 memory_suffixes) as H.
  change (Z.of_nat (length memory_suffixes)) with 4 in H.
  change (S (length memory_suffixes)) with 5%nat in H. specialize (H ltac:(lia)).
  destruct (scale_loop 5 (double_of_Z 1024) (double_of_Z 2048) 0 4) as [v i]. exact (proj1 H).
Defined.
