(* ===== verification/Miner.v ===== *)
(** * Miners ([libeth/Miner], the types of [libeth/EthashAux.h])

    The part of a miner that is the same for every device: its work, the
    reasons for which it is paused and its hash rate.  [kick_miner] belongs to
    the device; what the model keeps of it is that it was called. *)

From Stdlib Require Import ZArith Lia Bool Ascii String Floats.SpecFloat.
From stdpp Require Import base numbers list strings.
From S2P Require Import Prelude Words Ethash Outcome CommonData FixedHash Floats.

Local Open Scope Z_scope.

(** ** Work and solutions (EthashAux.h) *)

Record WorkPackage := mk_WorkPackage {
  job : string;
  boundary : list Z;
  header : list Z;
  wp_seed : list Z;
  epoch : Z;
  block : Z;
  startNonce : Z;
  exSizeBytes : Z;
  difficulty : double
}.

Definition WorkPackage_default : WorkPackage :=
  mk_WorkPackage "" (h_zero 32) (h_zero 32) (h_zero 32) (-1) (-1) 0 0 (S754_zero false).

(** [operator bool]: a zero header means "no work". *)
Definition wp_bool (w : WorkPackage) : bool := negb (h_eq (header w) (h_zero 32)).

Definition set_header (w : WorkPackage) (h : list Z) : WorkPackage :=
  mk_WorkPackage (job w) (boundary w) h (wp_seed w) (epoch w) (block w) (startNonce w)
    (exSizeBytes w) (difficulty w).

Definition set_startNonce (w : WorkPackage) (n : Z) : WorkPackage :=
  mk_WorkPackage (job w) (boundary w) (header w) (wp_seed w) (epoch w) (block w) n
    (exSizeBytes w) (difficulty w).

Record Solution := mk_Solution {
  s_nonce : Z;
  s_mixHash : list Z;
  s_work : WorkPackage;
  s_tstamp : Z;
  s_midx : Z
}.

(** [EpochContext]: the light cache as the array that was copied, if any. *)
Record EpochContext := mk_EpochContext {
  epochNumber : Z;
  lightNumItems : Z;
  lightSize : Z;
  lightCache : option (list (list Z));
  dagNumItems : Z;
  dagSize : Z
}.

(** ** Accounts (Miner.h) *)

Inductive SolutionAccountingEnum := Accepted | Rejected | Wasted | Failed.

Record SolutionAccountType := mk_SolutionAccount {
  accepted : Z;
  rejected : Z;
  wasted : Z;
  failed : Z;
  collectAcceptd : Z;
  sa_tstamp : Z
}.

Definition SolutionAccount_default (now : Z) : SolutionAccountType :=
  mk_SolutionAccount 0 0 0 0 0 now.

(** [SolutionAccountType::str]. *)
Definition solutions_str (a : SolutionAccountType) : string :=
  ("A" +:+ to_string (accepted a) +:+
   (if (wasted a =? 0)%Z then "" else ":W" +:+ to_string (wasted a)) +:+
   (if (rejected a =? 0)%Z then "" else ":R" +:+ to_string (rejected a)) +:+
   (if (failed a =? 0)%Z then "" else ":F" +:+ to_string (failed a)))%string.

(** ** Pausing *)

Inductive MinerPauseEnum :=
  | PauseDueToOverHeating
  | PauseDueToAPIRequest
  | PauseDueToFarmPaused
  | PauseDueToInsufficientMemory
  | PauseDueToInitEpochError.

#[export] Instance MinerPauseEnum_eq_dec : EqDecision MinerPauseEnum.
Proof. solve_decision. Defined.

Definition pause_index (p : MinerPauseEnum) : Z :=
  match p with
  | PauseDueToOverHeating => 0
  | PauseDueToAPIRequest => 1
  | PauseDueToFarmPaused => 2
  | PauseDueToInsufficientMemory => 3
  | PauseDueToInitEpochError => 4
  end.

(** In the order of the enumeration. *)
Definition all_pauses : list MinerPauseEnum :=
  [PauseDueToOverHeating; PauseDueToAPIRequest; PauseDueToFarmPaused;
   PauseDueToInsufficientMemory; PauseDueToInitEpochError].

Definition pause_text (p : MinerPauseEnum) : string :=
  match p with
  | PauseDueToOverHeating => "Overheating"
  | PauseDueToAPIRequest => "Api request"
  | PauseDueToFarmPaused => "Farm suspended"
  | PauseDueToInsufficientMemory => "Insufficient GPU memory"
  | PauseDueToInitEpochError => "Epoch initialization error"
  end.

Inductive HwMonitorInfoType := HwUNKNOWN | NVIDIA | AMD.

Record HwMonitorInfo := mk_HwMonitorInfo {
  deviceType : HwMonitorInfoType;
  devicePciId : string;
  deviceIndex : Z
}.

(** The members of [Miner]; [m_pauseFlags] is the bit set as a number, and
    [m_kicks] counts the calls of [kick_miner]. *)
Record Miner := mk_Miner {
  m_index : Z;
  m_pauseFlags : Z;
  m_work : WorkPackage;
  m_hung_miner : bool;
  m_initialized : bool;
  m_hwmoninfo : HwMonitorInfo;
  m_hashTime : Z;
  m_hashRate : float;
  m_hashRateUpdate : bool;
  m_groupCount : Z;
  m_epochContext : EpochContext;
  m_kicks : nat
}.

Definition Miner_new (index now : Z) (hw : HwMonitorInfo) : Miner :=
  mk_Miner index 0 WorkPackage_default false false hw now fzero false 0
    (mk_EpochContext 0 0 0 None 0 0) 0%nat.

Definition kick_miner (m : Miner) : Miner :=
  mk_Miner (m_index m) (m_pauseFlags m) (m_work m) (m_hung_miner m) (m_initialized m)
    (m_hwmoninfo m) (m_hashTime m) (m_hashRate m) (m_hashRateUpdate m) (m_groupCount m)
    (m_epochContext m) (S (m_kicks m)).

Definition set_work_field (m : Miner) (w : WorkPackage) : Miner :=
  mk_Miner (m_index m) (m_pauseFlags m) w (m_hung_miner m) (m_initialized m)
    (m_hwmoninfo m) (m_hashTime m) (m_hashRate m) (m_hashRateUpdate m) (m_groupCount m)
    (m_epochContext m) (m_kicks m).

Definition set_flags (m : Miner) (f : Z) : Miner :=
  mk_Miner (m_index m) f (m_work m) (m_hung_miner m) (m_initialized m)
    (m_hwmoninfo m) (m_hashTime m) (m_hashRate m) (m_hashRateUpdate m) (m_groupCount m)
    (m_epochContext m) (m_kicks m).

Definition set_hung (m : Miner) (b : bool) : Miner :=
  mk_Miner (m_index m) (m_pauseFlags m) (m_work m) b (m_initialized m)
    (m_hwmoninfo m) (m_hashTime m) (m_hashRate m) (m_hashRateUpdate m) (m_groupCount m)
    (m_epochContext m) (m_kicks m).

Definition setHwmonDeviceIndex (m : Miner) (i : Z) : Miner :=
  mk_Miner (m_index m) (m_pauseFlags m) (m_work m) (m_hung_miner m) (m_initialized m)
    (mk_HwMonitorInfo (deviceType (m_hwmoninfo m)) (devicePciId (m_hwmoninfo m)) i)
    (m_hashTime m) (m_hashRate m) (m_hashRateUpdate m) (m_groupCount m)
    (m_epochContext m) (m_kicks m).

Definition set_rate (m : Miner) (time : Z) (rate : float) (upd : bool) (count : Z) : Miner :=
  mk_Miner (m_index m) (m_pauseFlags m) (m_work m) (m_hung_miner m) (m_initialized m)
    (m_hwmoninfo m) time rate upd count (m_epochContext m) (m_kicks m).

Definition set_epochContext (m : Miner) (c : EpochContext) : Miner :=
  mk_Miner (m_index m) (m_pauseFlags m) (m_work m) (m_hung_miner m) (m_initialized m)
    (m_hwmoninfo m) (m_hashTime m) (m_hashRate m) (m_hashRateUpdate m) (m_groupCount m)
    c (m_kicks m).

Definition paused (m : Miner) : bool := negb (m_pauseFlags m =? 0).
Definition pauseTest (m : Miner) (what : MinerPauseEnum) : bool :=
  Z.testbit (m_pauseFlags m) (pause_index what).

Definition pause (m : Miner) (what : MinerPauseEnum) : Miner :=
  let m := set_flags m (Z.setbit (m_pauseFlags m) (pause_index what)) in
  let m := set_work_field m (set_header (m_work m) (h_zero 32)) in
  kick_miner m.

Definition resume (m : Miner) (fromwhat : MinerPauseEnum) : Miner :=
  set_flags m (Z.clearbit (m_pauseFlags m) (pause_index fromwhat)).

Definition pausedString_step (m : Miner) (retVar : string) (p : MinerPauseEnum) : string :=
  if pauseTest m p then
    ((if String.eqb retVar "" then retVar else retVar +:+ "; ") +:+ pause_text p)%string
  else retVar.

Definition pausedString (m : Miner) : string :=
  if paused m then fold_left (pausedString_step m) all_pauses ""%string else ""%string.

Definition setWork (m : Miner) (_work : WorkPackage) : Miner :=
  let m :=
    if paused m then set_work_field m (set_header (m_work m) (h_zero 32))
    else set_work_field m _work in
  kick_miner m.

(** [ReportGPUNoMemoryAndPause], without its message. *)
Definition ReportGPUNoMemoryAndPause (m : Miner) : Miner := pause m PauseDueToInsufficientMemory.

(** ** Hash rate *)

(** [compare_exchange_weak] may fail although the value is the expected one:
    [spurious]. *)
Definition TriggerHashRateUpdate (m : Miner) (spurious : bool) : Miner :=
  if negb (m_hashRateUpdate m) && negb spurious then
    set_rate m (m_hashTime m) (m_hashRate m) true (m_groupCount m)
  else set_rate m (m_hashTime m) fzero (m_hashRateUpdate m) (m_groupCount m).

(** [now] in microseconds of the steady clock. *)
Definition updateHashRate (m : Miner) (_groupSize _increment now : Z) (spurious : bool) : Miner :=
  let count := u64 (m_groupCount m + u32 (_increment * _groupSize)) in
  if m_hashRateUpdate m && negb spurious then
    let us := now - m_hashTime m in
    let rate :=
      if us =? 0 then fzero
      else fdiv (float_of_double (dmul (double_of_Z count) (double_of_Z 1000000))) (float_of_Z us) in
    set_rate m now rate false 0
  else set_rate m (m_hashTime m) (m_hashRate m) (m_hashRateUpdate m) count.

(** ** The epoch *)

(** [setEpoch] with the context it got from [get_global_epoch_context]. *)
Definition setEpoch (m : Miner) (ec : epoch_context) (w_epoch : Z) : Miner :=
  set_epochContext m (mk_EpochContext w_epoch (light_cache_num_items ec)
    (get_light_cache_size (light_cache_num_items ec))
    (Some (take (Z.to_nat (get_light_cache_size (light_cache_num_items ec) / 64)) (light_cache ec)))
    (full_dataset_num_items ec) (get_full_dataset_size (full_dataset_num_items ec))).

Definition freeCache (m : Miner) : Miner :=
  let c := m_epochContext m in
  match lightCache c with
  | Some _ => set_epochContext m (mk_EpochContext (epochNumber c) (lightNumItems c) (lightSize c)
                None (dagNumItems c) (dagSize c))
  | None => m
  end.

(** ** Pausing *)

Definition flags_ok (m : Miner) : Prop := 0 <= m_pauseFlags m < 2 ^ 5.

Lemma pause_index_range p : 0 <= pause_index p < 5.
Proof. destruct p; simpl; lia. Qed.

Lemma pause_index_inj p q : pause_index p = pause_index q -> p = q.
Proof. by destruct p, q. Qed.

Lemma index_pause i : 0 <= i < 5 -> exists p, pause_index p = i.
Proof.
  intros Hi. assert (H : i = 0 \/ i = 1 \/ i = 2 \/ i = 3 \/ i = 4) by lia.
  destruct H as [->|[->|[->|[->| ->]]]];
    [exists PauseDueToOverHeating|exists PauseDueToAPIRequest|exists PauseDueToFarmPaused
    |exists PauseDueToInsufficientMemory|exists PauseDueToInitEpochError]; done.
Qed.

Lemma paused_spec m :
  flags_ok m -> paused m = true <-> existsb (pauseTest m) all_pauses = true.
Proof.
  intros Hf. unfold paused. rewrite negb_true_iff, Z.eqb_neq, existsb_exists. split.
  - intros Hne. destruct (existsb (pauseTest m) all_pauses) eqn:He.
    { by apply existsb_exists. }
    exfalso. apply Hne. apply (word_ext 5); [lia|done|by apply in_word_0|].
    intros i Hi. rewrite Z.bits_0. destruct (index_pause i Hi) as [p <-].
    destruct (Z.testbit (m_pauseFlags m) (pause_index p)) eqn:Hb; [|done].
    rewrite <-He. symmetry. apply existsb_exists. exists p. split; [|done].
    destruct p; simpl; tauto.
  - intros (p & _ & Hp) H0. unfold pauseTest in Hp. by rewrite H0, Z.bits_0 in Hp.
Qed.

Lemma pauseTest_pause m p q : pauseTest (pause m p) q = bool_decide (p = q) || pauseTest m q.
Proof.
  unfold pauseTest, pause. simpl. pose proof (pause_index_range p). pose proof (pause_index_range q).
  rewrite Z.setbit_eqb by lia. f_equal. destruct (Z.eqb_spec (pause_index p) (pause_index q)) as [Heq|Hne].
  - apply pause_index_inj in Heq. by rewrite bool_decide_eq_true_2.
  - rewrite bool_decide_eq_false_2; [done|congruence].
Qed.

Lemma pauseTest_resume m p q : pauseTest (resume m p) q = pauseTest m q && negb (bool_decide (p = q)).
Proof.
  unfold pauseTest, resume. simpl. rewrite Z.clearbit_eqb.
  destruct (Z.eqb_spec (pause_index p) (pause_index q)) as [Heq|Hne].
  - apply pause_index_inj in Heq. by rewrite bool_decide_eq_true_2.
  - rewrite bool_decide_eq_false_2; [done|congruence].
Qed.

(** A paused miner has no work. *)
Definition miner_ok (m : Miner) : Prop :=
  flags_ok m /\ (paused m = true -> header (m_work m) = h_zero 32).

Lemma pause_flags_ok m p : flags_ok m -> flags_ok (pause m p).
Proof.
  unfold flags_ok, pause. simpl. intros Hf. pose proof (pause_index_range p).
  apply (in_word_bits 5); [lia| |].
  { rewrite Z.setbit_spec', Z.lor_nonneg. split; [lia|]. apply Z.pow_nonneg. lia. }
  intros i Hi. rewrite Z.setbit_eqb, (in_word_testbit 5 ltac:(lia)) by (done || lia).
  destruct (Z.eqb_spec (pause_index p) i); [lia|done].
Qed.

Lemma resume_flags_ok m p : flags_ok m -> flags_ok (resume m p).
Proof.
  unfold flags_ok, resume. simpl. intros Hf.
  apply (in_word_bits 5); [lia| |].
  { rewrite Z.clearbit_spec', Z.ldiff_nonneg. lia. }
  intros i Hi. by rewrite Z.clearbit_eqb, (in_word_testbit 5 ltac:(lia)) by (done || lia).
Qed.

Lemma pause_ok m p : miner_ok m -> miner_ok (pause m p).
Proof. intros [Hf _]. split; [by apply pause_flags_ok|done]. Qed.

Lemma resume_paused m p : paused (resume m p) = true -> paused m = true.
Proof.
  unfold paused, resume. simpl. rewrite !negb_true_iff, !Z.eqb_neq. intros H H0. apply H.
  rewrite H0. apply Z.bits_inj'. intros i Hi. by rewrite Z.clearbit_eqb, Z.bits_0.
Qed.

Lemma resume_ok m p : miner_ok m -> miner_ok (resume m p).
Proof.
  intros [Hf Hh]. split; [by apply resume_flags_ok|]. intros Hp%resume_paused. by apply Hh.
Qed.

Lemma setWork_ok m w : miner_ok m -> miner_ok (setWork m w).
Proof.
  intros [Hf Hh]. unfold setWork. destruct (paused m) eqn:Hp; split; try done.
  intros Hp'. unfold paused in *. simpl in *. congruence.
Qed.

(** Each reason for a pause is set and cleared on its own, the miner is
    paused exactly when there is a reason, [setWork] gives work exactly when it
    is not, and the invariant that a paused miner has no work (its header is
    zero) is kept by every operation. *)
Theorem miner_pause_correct (m : Miner) (p q : MinerPauseEnum) (w : WorkPackage) :
  miner_ok m ->
  pauseTest (pause m p) q = bool_decide (p = q) || pauseTest m q /\
  pauseTest (resume m p) q = pauseTest m q && negb (bool_decide (p = q)) /\
  (paused m = true <-> existsb (pauseTest m) all_pauses = true) /\
  m_work (setWork m w) = (if paused m then m_work m else w) /\
  miner_ok (pause m p) /\ miner_ok (resume m p) /\ miner_ok (setWork m w).
Proof.
  intros Hm. split; [apply pauseTest_pause|]. split; [apply pauseTest_resume|].
  split; [apply paused_spec, Hm|]. split; [|auto using pause_ok, resume_ok, setWork_ok].
  unfold setWork. destruct Hm as [_ Hh]. destruct (paused m); [|done].
  simpl. unfold set_header. rewrite <-(Hh eq_refl). by destruct (m_work m).
Qed.

Definition sample_hw : HwMonitorInfo := mk_HwMonitorInfo HwUNKNOWN ""%string (-1).

Lemma miner_pause_correct_witness :
  miner_ok (Miner_new 0 0 sample_hw) /\
  miner_ok (pause (Miner_new 0 0 sample_hw) PauseDueToAPIRequest) /\
  pausedString (pause (pause (Miner_new 0 0 sample_hw) PauseDueToFarmPaused) PauseDueToOverHeating)
    = "Overheating; Farm suspended"%string.
Proof.
  assert (Hok : miner_ok (Miner_new 0 0 sample_hw)).
  { split; [unfold flags_ok; simpl; lia|]. intros H. discriminate H. }
  split; [exact Hok|]. split; [|vm_compute; reflexivity].
  apply (miner_pause_correct (Miner_new 0 0 sample_hw) PauseDueToAPIRequest PauseDueToAPIRequest
    WorkPackage_default Hok).
Defined.

(** [setWork] in two steps: it asks whether the miner is paused, which takes and
    releases [x_pause], then writes under [miner_work_mutex], which [pause] does
    not take. *)
Definition setWork_write (was_paused : bool) (m : Miner) (_work : WorkPackage) : Miner :=
  kick_miner
    (if was_paused then set_work_field m (set_header (m_work m) (h_zero 32))
     else set_work_field m _work).

(** With a [pause] between the two steps of [setWork], the miner ends up
    paused and with work: the invariant of the sequential operations is lost. *)
Theorem setWork_pause_race (m : Miner) (p : MinerPauseEnum) (w : WorkPackage) :
  flags_ok m -> paused m = false ->
  setWork m w = setWork_write (paused m) m w /\
  let m' := setWork_write (paused m) (pause m p) w in
  paused m' = true /\ m_work m' = w.
Proof.
  intros Hf Hp. unfold setWork, setWork_write. rewrite Hp. split; [done|]. split; [|done].
  change (paused (kick_miner (set_work_field (pause m p) w))) with (paused (pause m p)).
  apply paused_spec; [by apply pause_flags_ok|]. apply existsb_exists. exists p.
  split; [destruct p; simpl; tauto|]. by rewrite pauseTest_pause, bool_decide_eq_true_2.
Qed.

Lemma setWork_pause_race_witness :
  let m := Miner_new 0 0 sample_hw in
  let w := set_header WorkPackage_default (toBigEndian 32 5) in
  paused (setWork_write (paused m) (pause m PauseDueToFarmPaused) w) = true /\
  wp_bool (m_work (setWork_write (paused m) (pause m PauseDueToFarmPaused) w)) = true.
Proof.
  intros m w.
  destruct (setWork_pause_race m PauseDueToFarmPaused w) as [_ [H1 H2]].
  - unfold flags_ok; simpl; lia.
  - reflexivity.
  - split; [exact H1|]. rewrite H2. vm_compute. reflexivity.
Defined.
