(* ===== verification/CudaMiner.v ===== *)
(** * The CUDA miner ([libcuda/CUDAMiner])

    The host side of the CUDA miner: initialisation of an epoch, the loop that
    keeps the streams of the device busy and turns their results into
    solutions, and the work loop.  Calls of the CUDA runtime are inputs: an
    environment says which of them succeed and what the device leaves in a
    result buffer. *)

From Stdlib Require Import ZArith Lia Bool Floats.SpecFloat.
From stdpp Require Import base numbers list gmap.
From S2P Require Import Prelude Words Keccak EthashSpec Ethash EthashHash Managed Outcome.
From S2P Require Import CommonData FixedHash Floats Miner CudaHelper CudaKeccak CudaKernel CudaSearch CudaDag.

Local Open Scope Z_scope.
Local Open Scope word_scope.

(** ** State *)

(** The miner, the members of the class and the device's constants. *)
Record CUDAMiner := mk_CUDAMiner {
  cu_miner : Miner;
  cu_current_target : Z;
  cu_done : bool;
  cu_block_multiple : Z;
  cu_device : device;
  cuBlockSize : Z;
  cuStreamSize : nat;
  totalMemory : Z
}.

Definition MAX_STREAMS : nat := 4.
Definition CU_TARGET_BATCH_TIME : float := S754_finite false 15099494 (-24).

Definition set_cu_miner (m : CUDAMiner) (x : Miner) : CUDAMiner :=
  mk_CUDAMiner x (cu_current_target m) (cu_done m) (cu_block_multiple m) (cu_device m)
    (cuBlockSize m) (cuStreamSize m) (totalMemory m).
Definition set_cu_target (m : CUDAMiner) (x : Z) : CUDAMiner :=
  mk_CUDAMiner (cu_miner m) x (cu_done m) (cu_block_multiple m) (cu_device m)
    (cuBlockSize m) (cuStreamSize m) (totalMemory m).
Definition set_cu_done (m : CUDAMiner) (x : bool) : CUDAMiner :=
  mk_CUDAMiner (cu_miner m) (cu_current_target m) x (cu_block_multiple m) (cu_device m)
    (cuBlockSize m) (cuStreamSize m) (totalMemory m).
Definition set_cu_multiple (m : CUDAMiner) (x : Z) : CUDAMiner :=
  mk_CUDAMiner (cu_miner m) (cu_current_target m) (cu_done m) x (cu_device m)
    (cuBlockSize m) (cuStreamSize m) (totalMemory m).
Definition set_cu_device (m : CUDAMiner) (x : device) : CUDAMiner :=
  mk_CUDAMiner (cu_miner m) (cu_current_target m) (cu_done m) (cu_block_multiple m) x
    (cuBlockSize m) (cuStreamSize m) (totalMemory m).

(** [set_constants], [set_header] and [set_target] of the kernel file. *)
Definition dev_set_constants (d : device) (dag_size : Z) (light : list (list Z)) (light_size : Z) : device :=
  mk_device dag_size (d_dag d) light_size light (d_header d) (d_target d).
Definition dev_set_header (d : device) (h : list Z) : device :=
  mk_device (d_dag_size d) (d_dag d) (d_light_size d) (d_light d) h (d_target d).
Definition dev_set_target (d : device) (t : Z) : device :=
  mk_device (d_dag_size d) (d_dag d) (d_light_size d) (d_light d) (d_header d) t.

(** [cudaDeviceReset] frees the memory and reloads the constants. *)
Definition device_reset : device := mk_device 0 ∅ 0 [] (h_zero 32) 0.

(** The constructor. *)
Definition CUDAMiner_new (miner : Miner) (blockSize : Z) (streams : nat) (memory : Z) : CUDAMiner :=
  mk_CUDAMiner miner 0 true 1000 device_reset blockSize streams memory.

(** [kick_miner] of the device: [m_done] and the [done] word of every stream's
    buffer; gives the streams whose buffer was written. *)
Definition cu_kick_miner (m : CUDAMiner) : CUDAMiner * list nat :=
  if cu_done m then (m, []) else (set_cu_done m true, seq 0 (cuStreamSize m)).

(** ** initEpoch *)

(** Which calls of the runtime succeed, in the order of the function; the
    contents of freshly allocated memory. *)
Record init_env := mk_init_env {
  e_reset : bool;
  e_light : bool;
  e_dag : bool;
  e_buffers : list (bool * bool);
  e_copy : bool;
  e_generate : bool;
  e_memory : gmap Z (list Z)
}.

(** The search buffers and streams: [inl] names the failure that paused. *)
Fixpoint create_buffers (l : list (bool * bool)) : option MinerPauseEnum :=
  match l with
  | [] => None
  | (malloc, stream) :: l =>
      if negb malloc then Some PauseDueToInsufficientMemory
      else if negb stream then Some PauseDueToInitEpochError
      else create_buffers l
  end.

Definition sizeof_Search_results : Z := 28.

Definition cu_pause (m : CUDAMiner) (what : MinerPauseEnum) : CUDAMiner :=
  fst (cu_kick_miner (set_cu_miner m (pause (cu_miner m) what))).
Definition cu_resume (m : CUDAMiner) (what : MinerPauseEnum) : CUDAMiner :=
  set_cu_miner m (resume (cu_miner m) what).

Definition set_initialized (m : Miner) (b : bool) : Miner :=
  mk_Miner (m_index m) (m_pauseFlags m) (m_work m) (m_hung_miner m) b
    (m_hwmoninfo m) (m_hashTime m) (m_hashRate m) (m_hashRateUpdate m) (m_groupCount m)
    (m_epochContext m) (m_kicks m).

Section Host.
Context {arch : Arch}.

Definition initEpoch (env : init_env) (m : CUDAMiner) : option (CUDAMiner * bool) :=
  let m := set_cu_miner m (set_initialized (cu_miner m) false) in
  let m := set_cu_target m 0 in
  let ec := m_epochContext (cu_miner m) in
  let RequiredTotalMemory :=
    u64 (u64 (dagSize ec + lightSize ec) + u64 (Z.of_nat (cuStreamSize m) * sizeof_Search_results)) in
  if negb (e_reset env) then Some (cu_pause m PauseDueToInitEpochError, false) else
  let m := set_cu_device m device_reset in
  if totalMemory m <? RequiredTotalMemory then Some (cu_pause m PauseDueToInsufficientMemory, false) else
  if negb (e_light env) then Some (cu_pause m PauseDueToInsufficientMemory, false) else
  if negb (e_dag env) then Some (cu_pause m PauseDueToInsufficientMemory, false) else
  match create_buffers (take (cuStreamSize m) (e_buffers env)) with
  | Some why => Some (cu_pause m why, false)
  | None =>
      let m := cu_resume m PauseDueToInsufficientMemory in
      let m := cu_resume m PauseDueToInitEpochError in
      if negb (e_copy env) then Some (cu_pause m PauseDueToInitEpochError, false) else
      light ← lightCache ec;
      let dev := dev_set_constants (cu_device m) (u32 (dagNumItems ec)) light (u32 (lightNumItems ec)) in
      if negb (e_generate env) then
        Some (cu_pause (set_cu_device m dev) PauseDueToInitEpochError, false) else
      dag ← ethash_generate_dag dev (dagSize ec) (cu_block_multiple m) (cuBlockSize m) (e_memory env);
      let m := set_cu_device m (with_dag dev dag) in
      Some (set_cu_miner m (set_initialized (cu_miner m) true), true)
  end.
End Host.

(** ** search *)

(** The loop's variables; [ss_pending] is the first nonce of the launch each
    stream runs, and the rest records what the loop did: nonces submitted,
    first nonces launched, buffers read (with the launch they belong to) and
    the counts given to [updateHashRate]. *)
Record search_st := mk_search_st {
  ss_nonce : Z;
  ss_pending : list Z;
  ss_busy : Z;
  ss_done : bool;
  ss_submitted : list Z;
  ss_launches : list Z;
  ss_reads : list (Z * Search_results);
  ss_batches : list Z
}.

(** One visit of a stream: whether [m_done] was set since it was last looked
    at, the buffer read, and the answer of [shouldStop]. *)
Record visit_env := mk_visit_env {
  v_kicked : bool;
  v_results : Search_results;
  v_stop : bool
}.

Section Loop.
Context (batch_blocks stream_blocks : Z).

(** [run_ethash_search] in stream [idx] from the current nonce. *)
Definition launch_stream (st : search_st) (idx : nat) : search_st :=
  mk_search_st (ss_nonce st) (<[idx := ss_nonce st]> (ss_pending st)) (ss_busy st) (ss_done st)
    (ss_submitted st) (ss_launches st ++ [ss_nonce st]) (ss_reads st) (ss_batches st).

(** [start_nonce += batch_blocks]. *)
Definition advance (st : search_st) : search_st :=
  mk_search_st (u64 (ss_nonce st + batch_blocks)) (ss_pending st) (ss_busy st) (ss_done st)
    (ss_submitted st) (ss_launches st) (ss_reads st) (ss_batches st).

Definition set_ss_busy (st : search_st) (b : Z) : search_st :=
  mk_search_st (ss_nonce st) (ss_pending st) b (ss_done st) (ss_submitted st) (ss_launches st)
    (ss_reads st) (ss_batches st).
Definition set_ss_done (st : search_st) (b : bool) : search_st :=
  mk_search_st (ss_nonce st) (ss_pending st) (ss_busy st) b (ss_submitted st) (ss_launches st)
    (ss_reads st) (ss_batches st).

Definition stream_visit (p : search_st * Z) (v : nat * visit_env) : search_st * Z :=
  let '(st, batchCount) := p in
  let '(streamIdx, env) := v in
  let stream_mask := shl 32 1 (Z.of_nat streamIdx) in
  if ss_busy st .& stream_mask =? 0 then (advance st, batchCount) else
  let r := v_results env in
  let done := ss_done st || v_kicked env in
  let st := set_ss_done st done in
  let st := mk_search_st (ss_nonce st) (ss_pending st) (ss_busy st) (ss_done st) (ss_submitted st)
    (ss_launches st) (ss_reads st ++ [(nth streamIdx (ss_pending st) 0, r)]) (ss_batches st) in
  let st :=
    if done then set_ss_busy st (ss_busy st .& wnot 32 stream_mask) else launch_stream st streamIdx in
  let count := if MAX_SEARCH_RESULTS <? solCount r then MAX_SEARCH_RESULTS else solCount r in
  let batchCount := u32 (batchCount + hashCount r) in
  let nonces := (fun g => u64 (u64 (ss_nonce st - stream_blocks) + g)) <$> take (Z.to_nat count) (gid r) in
  let st := mk_search_st (ss_nonce st) (ss_pending st) (ss_busy st) (ss_done st)
    (ss_submitted st ++ nonces) (ss_launches st) (ss_reads st) (ss_batches st) in
  let st := set_ss_done st (ss_done st || v_stop env) in
  (advance st, batchCount).

(** The body of [while (streams_bsy)]. *)
Definition search_round (st : search_st) (r : bool * list visit_env) : search_st :=
  let '(is_paused, visits) := r in
  let st := set_ss_done st (ss_done st || is_paused) in
  let '(st, batchCount) := fold_left stream_visit (imap pair visits) (st, 0) in
  mk_search_st (ss_nonce st) (ss_pending st) (ss_busy st) (ss_done st) (ss_submitted st)
    (ss_launches st) (ss_reads st) (ss_batches st ++ [batchCount]).

(** The loop over as many rounds as inputs are given. *)
Fixpoint search_loop (rounds : list (bool * list visit_env)) (st : search_st) : search_st :=
  match rounds with
  | [] => st
  | r :: rounds => if ss_busy st =? 0 then st else search_loop rounds (search_round st r)
  end.

(** Priming every stream. *)
Definition search_prime (streams : nat) (start_nonce : Z) : search_st :=
  let st := mk_search_st start_nonce (replicate streams 0) 0 false [] [] [] [] in
  let st := fold_left (fun st idx => advance (launch_stream st idx)) (seq 0 streams) st in
  set_ss_busy st (shl 32 1 (Z.of_nat streams) - 1).
End Loop.

(** [search], up to the loop: the constants, then the streams. *)
Definition search_setup (m : CUDAMiner) (header : list Z) (target : Z) : CUDAMiner :=
  let m := set_cu_device m (dev_set_header (cu_device m) header) in
  let m :=
    if cu_current_target m =? target then m
    else set_cu_target (set_cu_device m (dev_set_target (cu_device m) target)) target in
  set_cu_done m false.

Definition cu_search (m : CUDAMiner) (header : list Z) (target start_nonce : Z)
    (rounds : list (bool * list visit_env)) : CUDAMiner * search_st :=
  let m := search_setup m header target in
  let batch_blocks := u32 (cu_block_multiple m * cuBlockSize m) in
  let stream_blocks := u32 (batch_blocks * Z.of_nat (cuStreamSize m)) in
  let st := search_loop batch_blocks stream_blocks rounds
    (search_prime batch_blocks (cuStreamSize m) start_nonce) in
  (set_cu_done m (ss_done st), st).

(** ** workLoop *)

(** Conversion of a nonnegative [float] to [uint32_t]; undefined out of range. *)
Definition uint32_of_float (x : float) : option Z :=
  match x with
  | S754_zero _ => Some 0
  | S754_finite false m e =>
      let z := if 0 <=? e then Zpos m * 2 ^ e else Zpos m / 2 ^ (- e) in
      if z <? 2 ^ 32 then Some z else None
  | _ => None
  end.

(** The multiplier for the next batches. *)
Definition block_multiple (m : CUDAMiner) : option Z :=
  let hr := m_hashRate (cu_miner m) in
  if SFleb (double_of_Z 10000000) hr then
    uint32_of_float (fdiv (SFmul 24 128 hr CU_TARGET_BATCH_TIME)
      (float_of_Z (u32 (Z.of_nat (cuStreamSize m) * cuBlockSize m))))
  else Some (cu_block_multiple m).

(** What one iteration meets: the context of the epoch, the runtime's answers
    and the rounds of the search. *)
Record loop_env := mk_loop_env {
  l_context : epoch_context;
  l_init : init_env;
  l_rounds : list (bool * list visit_env)
}.

Inductive iteration :=
  | Idle (m : CUDAMiner)
  | EpochReady (m : CUDAMiner) (last : WorkPackage)
  | Searched (m : CUDAMiner) (last : WorkPackage) (st : search_st)
  | LoopExit (m : CUDAMiner).

(** One iteration of [while (!shouldStop())]; [None] is undefined behaviour. *)
Definition workLoop_step {arch : Arch} (env : loop_env) (m : CUDAMiner) (last : WorkPackage)
  : option iteration :=
  let current := m_work (cu_miner m) in
  if negb (wp_bool current) then Some (Idle (set_cu_miner m (set_hung (cu_miner m) false))) else
  if negb (epoch current =? epoch last) then
    let m := set_cu_miner m (setEpoch (cu_miner m) (l_context env) (epoch current)) in
    '(m, b) ← initEpoch (l_init env) m;
    if (b : bool) then Some (EpochReady (set_cu_miner m (freeCache (cu_miner m))) current)
    else Some (LoopExit m)
  else
    let upper64OfBoundary := be_number (take 8 (boundary current)) in
    mult ← block_multiple m;
    let m := set_cu_multiple m mult in
    let '(m, st) := cu_search m (header current) upper64OfBoundary (startNonce current) (l_rounds env) in
    Some (Searched m current st).

(** ** The search loop is correct *)

Lemma filter_all {A} (P : A -> Prop) `{forall x, Decision (P x)} (l : list A) :
  (forall x, x ∈ l -> P x) -> filter P l = l.
Proof.
  induction l as [|x l IH]; intros HP; [done|]. rewrite filter_cons, decide_True.
  - f_equal. apply IH. intros y Hy. apply HP. by apply list_elem_of_further.
  - apply HP. apply list_elem_of_here.
Qed.

Section SearchLoop.
Context (B start : Z) (n : nat).
Context (HB : 0 <= B) (Hn : (0 < n <= MAX_STREAMS)%nat) (Hfit : B * Z.of_nat n < 2 ^ 32).

Abbreviation SB := (B * Z.of_nat n).

Definition busy (st : search_st) (j : nat) : bool := Z.testbit (ss_busy st) (Z.of_nat j).

(** The launches whose results have not been read. *)
Definition outstanding (st : search_st) : list Z :=
  (fun j => nth j (ss_pending st) 0) <$> filter (fun j => busy st j = true) (seq 0 n).

(** What the reads should have submitted. *)
Definition reported (br : Z * Search_results) : list Z :=
  (fun g => u64 (br.1 + g)) <$> take (Z.to_nat (Z.min MAX_SEARCH_RESULTS (solCount br.2))) (gid br.2).

(** Before the visit of stream [i]. *)
Record search_inv (i : nat) (st : search_st) : Prop := {
  si_nonce : in_word 64 (ss_nonce st);
  si_pending : length (ss_pending st) = n;
  si_busy : 0 <= ss_busy st < 2 ^ Z.of_nat n;
  si_base : forall j, (j < n)%nat -> busy st j = true ->
    nth j (ss_pending st) 0 =
    u64 (ss_nonce st + (Z.of_nat j - Z.of_nat i) * B - (if decide (j < i)%nat then 0 else SB));
  si_running : ss_done st = false ->
    ss_busy st = 2 ^ Z.of_nat n - 1 /\
    ss_nonce st = u64 (start + Z.of_nat (length (ss_launches st)) * B);
  si_launches : ss_launches st =
    (fun k => u64 (start + Z.of_nat k * B)) <$> seq 0 (length (ss_launches st));
  si_submitted : ss_submitted st = ss_reads st ≫= reported;
  si_reads : (ss_reads st).*1 ++ outstanding st ≡ₚ ss_launches st
}.

Lemma mask_testbit i : (i < n)%nat -> shl 32 1 (Z.of_nat i) = 2 ^ Z.of_nat i.
Proof.
  intros Hi. unfold shl. rewrite Z.shiftl_1_l, wrap_id; [done|].
  unfold in_word, MAX_STREAMS in *. split; [lia|]. apply Z.pow_lt_mono_r; lia.
Qed.

Lemma mask_test b i : (i < n)%nat ->
  (b .& shl 32 1 (Z.of_nat i) =? 0) = negb (Z.testbit b (Z.of_nat i)).
Proof.
  intros Hi. rewrite mask_testbit by done. destruct (Z.testbit b (Z.of_nat i)) eqn:E.
  - apply Z.eqb_neq. intros H0. assert (Z.testbit (b .& 2 ^ Z.of_nat i) (Z.of_nat i) = true).
    { rewrite Z.land_spec, E, Z.pow2_bits_true by lia. done. }
    rewrite H0, Z.bits_0 in H. discriminate H.
  - apply Z.eqb_eq, Z.bits_inj'. intros k Hk. rewrite Z.land_spec, Z.bits_0.
    destruct (decide (k = Z.of_nat i)) as [->|Hne]; [by rewrite E|].
    rewrite Z.pow2_bits_false by lia. apply andb_false_r.
Qed.

Lemma clear_testbit b i j :
  0 <= b < 2 ^ Z.of_nat n -> (i < n)%nat -> (j < n)%nat ->
  Z.testbit (b .& wnot 32 (shl 32 1 (Z.of_nat i))) (Z.of_nat j) =
  Z.testbit b (Z.of_nat j) && negb (j =? i)%nat.
Proof.
  intros Hb Hi Hj. rewrite mask_testbit, Z.land_spec, wnot_testbit by (done || unfold MAX_STREAMS in *; lia).
  f_equal. f_equal. destruct (Nat.eqb_spec j i) as [->|Hne]; [by rewrite Z.pow2_bits_true by lia|].
  by rewrite Z.pow2_bits_false by lia.
Qed.

(** The outstanding launches around stream [i]. *)
Lemma outstanding_split st i :
  (i < n)%nat ->
  outstanding st =
    ((fun j => nth j (ss_pending st) 0) <$> filter (fun j => busy st j = true) (seq 0 i)) ++
    (if busy st i then [nth i (ss_pending st) 0] else []) ++
    ((fun j => nth j (ss_pending st) 0) <$> filter (fun j => busy st j = true) (seq (S i) (n - S i))).
Proof.
  intros Hi. unfold outstanding. replace n with (i + S (n - S i))%nat at 1 by lia.
  rewrite seq_app, filter_app, fmap_app. f_equal. cbn [seq Nat.add]. rewrite filter_cons.
  destruct (busy st i); case_decide; done.
Qed.

(** Streams other than [i] keep what they have outstanding. *)
Lemma outstanding_other st st' i (l : list nat) :
  (forall j, j ∈ l -> j <> i) ->
  (forall j, j <> i -> (j < n)%nat -> busy st' j = busy st j /\ nth j (ss_pending st') 0 = nth j (ss_pending st) 0) ->
  (forall j, j ∈ l -> (j < n)%nat) ->
  ((fun j => nth j (ss_pending st') 0) <$> filter (fun j => busy st' j = true) l) =
  ((fun j => nth j (ss_pending st) 0) <$> filter (fun j => busy st j = true) l).
Proof.
  intros Hne Hsame Hlt. induction l as [|j l IH]; [done|].
  assert (Hj : j <> i) by (apply Hne; apply list_elem_of_here).
  assert (Hjn : (j < n)%nat) by (apply Hlt; apply list_elem_of_here).
  destruct (Hsame j Hj Hjn) as [H1 H2]. rewrite !filter_cons, H1.
  assert (E := IH (fun k Hk => Hne k (list_elem_of_further _ _ _ Hk)) (fun k Hk => Hlt k (list_elem_of_further _ _ _ Hk))).
  case_decide; [|exact E]. rewrite !fmap_cons, H2, E. done.
Qed.

Lemma wrap_add_l a b : u64 (u64 a + b) = u64 (a + b).
Proof. unfold wrap. apply Zplus_mod_idemp_l. Qed.

Lemma busy_full st j : (j < n)%nat -> ss_busy st = 2 ^ Z.of_nat n - 1 -> busy st j = true.
Proof.
  intros Hj Hb. unfold busy. replace (ss_busy st) with (Z.ones (Z.of_nat n)) by (rewrite Z.ones_equiv; lia).
  apply Z.ones_spec_low. lia.
Qed.

(** The bases seen from the next stream. *)
Lemma base_shift nonce j i c :
  u64 (u64 (nonce + B) + (Z.of_nat j - Z.of_nat (S i)) * B - c) = u64 (nonce + (Z.of_nat j - Z.of_nat i) * B - c).
Proof.
  replace (u64 (nonce + B) + (Z.of_nat j - Z.of_nat (S i)) * B - c) with
    (u64 (nonce + B) + ((Z.of_nat j - Z.of_nat (S i)) * B - c)) by lia.
  rewrite wrap_add_l. f_equal. lia.
Qed.

Lemma visit_idle_ok i st :
  (i < n)%nat -> busy st i = false -> search_inv i st -> search_inv (S i) (advance B st).
Proof.
  intros Hi Hb [Hno Hp Hbu Hbase Hrun Hl Hs Hr].
  constructor; cbn [advance ss_nonce ss_pending ss_busy ss_done ss_submitted ss_launches ss_reads]; try done.
  - by apply wrap_in_word.
  - intros j Hj Hbj. change (busy st j = true) in Hbj. rewrite base_shift, (Hbase j Hj Hbj).
    destruct (decide (j = i)) as [->|Hne]; [congruence|].
    destruct (decide (j < i)%nat), (decide (j < S i)%nat); done || lia.
  - intros Hd. destruct (Hrun Hd) as [Hfull _]. rewrite (busy_full st i Hi Hfull) in Hb. discriminate Hb.
Qed.

(** The count of solutions read from a buffer. *)
Lemma clipped_count c :
  (if MAX_SEARCH_RESULTS <? c then MAX_SEARCH_RESULTS else c) = Z.min MAX_SEARCH_RESULTS c.
Proof. destruct (Z.ltb_spec MAX_SEARCH_RESULTS c); lia. Qed.

(** A visit after [m_done] was set: the stream becomes idle. *)
Definition visit_stop (st : search_st) (i : nat) (r : Search_results) : search_st :=
  mk_search_st (u64 (ss_nonce st + B)) (ss_pending st)
    (ss_busy st .& wnot 32 (shl 32 1 (Z.of_nat i))) true
    (ss_submitted st ++ ((fun g => u64 (u64 (ss_nonce st - SB) + g)) <$>
      take (Z.to_nat (Z.min MAX_SEARCH_RESULTS (solCount r))) (gid r)))
    (ss_launches st) (ss_reads st ++ [(nth i (ss_pending st) 0, r)]) (ss_batches st).

(** A visit before that: the stream is launched again. *)
Definition visit_again (st : search_st) (i : nat) (r : Search_results) (stop : bool) : search_st :=
  mk_search_st (u64 (ss_nonce st + B)) (<[i := ss_nonce st]> (ss_pending st)) (ss_busy st) stop
    (ss_submitted st ++ ((fun g => u64 (u64 (ss_nonce st - SB) + g)) <$>
      take (Z.to_nat (Z.min MAX_SEARCH_RESULTS (solCount r))) (gid r)))
    (ss_launches st ++ [ss_nonce st]) (ss_reads st ++ [(nth i (ss_pending st) 0, r)]) (ss_batches st).

Lemma stream_visit_cases i st bc env :
  (i < n)%nat ->
  fst (stream_visit B SB (st, bc) (i, env)) =
  if busy st i then
    if ss_done st || v_kicked env then visit_stop st i (v_results env)
    else visit_again st i (v_results env) (v_stop env)
  else advance B st.
Proof.
  intros Hi. unfold stream_visit. rewrite mask_test by done. unfold busy.
  destruct (Z.testbit (ss_busy st) (Z.of_nat i)); [|reflexivity]. cbn [negb].
  destruct (ss_done st || v_kicked env) eqn:Hd; rewrite clipped_count; reflexivity.
Qed.

(** The base of the launch a busy stream reports. *)
Lemma visit_base i st :
  (i < n)%nat -> search_inv i st -> busy st i = true ->
  nth i (ss_pending st) 0 = u64 (ss_nonce st - SB).
Proof.
  intros Hi Hinv Hb. rewrite (si_base _ _ Hinv i Hi Hb), decide_False by lia. f_equal. lia.
Qed.

Lemma submitted_read i st r :
  (i < n)%nat -> search_inv i st -> busy st i = true ->
  ss_submitted st ++ ((fun g => u64 (u64 (ss_nonce st - SB) + g)) <$>
      take (Z.to_nat (Z.min MAX_SEARCH_RESULTS (solCount r))) (gid r)) =
  (ss_reads st ++ [(nth i (ss_pending st) 0, r)]) ≫= reported.
Proof.
  intros Hi Hinv Hb. rewrite bind_app, (si_submitted _ _ Hinv). f_equal.
  cbn [mbind list_bind]. rewrite app_nil_r. unfold reported. cbn [fst snd].
  by rewrite (visit_base i st).
Qed.

Lemma visit_stop_ok i st r :
  (i < n)%nat -> search_inv i st -> busy st i = true -> search_inv (S i) (visit_stop st i r).
Proof.
  intros Hi Hinv Hb. pose proof (submitted_read i st r Hi Hinv Hb) as Hsub.
  destruct Hinv as [Hno Hp Hbu Hbase Hrun Hl Hs Hr].
  assert (Hclear : forall j, (j < n)%nat -> busy (visit_stop st i r) j = busy st j && negb (j =? i)%nat).
  { intros j Hj. apply clear_testbit; done. }
  constructor; cbn [visit_stop ss_nonce ss_pending ss_busy ss_done ss_submitted ss_launches ss_reads].
  - by apply wrap_in_word.
  - done.
  - exact (land_in_word_l (Z.of_nat n) ltac:(lia) _ _ Hbu).
  - intros j Hj Hbj. rewrite (Hclear j Hj) in Hbj. apply andb_true_iff in Hbj as [Hbj Hne].
    apply negb_true_iff, Nat.eqb_neq in Hne. rewrite base_shift, (Hbase j Hj Hbj).
    destruct (decide (j < i)%nat), (decide (j < S i)%nat); done || lia.
  - done.
  - done.
  - exact Hsub.
  - rewrite <-Hr. rewrite (outstanding_split _ i Hi), (outstanding_split st i Hi), Hb.
    rewrite (Hclear i Hi), Nat.eqb_refl, andb_false_r, fmap_app. cbn [fmap list_fmap fst app].
    assert (Hother : forall j, j <> i -> (j < n)%nat ->
      busy (visit_stop st i r) j = busy st j /\ nth j (ss_pending (visit_stop st i r)) 0 = nth j (ss_pending st) 0).
    { intros j Hne Hj. rewrite (Hclear j Hj), (proj2 (Nat.eqb_neq j i)), andb_true_r by done. done. }
    rewrite !(outstanding_other st (visit_stop st i r) i) by
      (try exact Hother; intros j Hj; apply elem_of_seq in Hj; lia).
    solve_Permutation.
Qed.

Lemma visit_again_ok i st r stop :
  (i < n)%nat -> search_inv i st -> busy st i = true -> ss_done st = false ->
  search_inv (S i) (visit_again st i r stop).
Proof.
  intros Hi Hinv Hb Hd. pose proof (submitted_read i st r Hi Hinv Hb) as Hsub.
  destruct Hinv as [Hno Hp Hbu Hbase Hrun Hl Hs Hr]. destruct (Hrun Hd) as [Hfull Hnonce].
  constructor; cbn [visit_again ss_nonce ss_pending ss_busy ss_done ss_submitted ss_launches ss_reads].
  - by apply wrap_in_word.
  - by rewrite length_insert.
  - done.
  - intros j Hj Hbj. rewrite base_shift. destruct (decide (j = i)) as [->|Hne].
    + rewrite nth_lookup, list_lookup_insert_eq by lia. cbn [default from_option].
      rewrite decide_True by lia. rewrite Z.sub_diag, Z.mul_0_l, Z.add_0_r, Z.sub_0_r. symmetry. by apply wrap_id.
    + rewrite nth_lookup, list_lookup_insert_ne, <-nth_lookup by done. rewrite (Hbase j Hj Hbj).
      destruct (decide (j < i)%nat), (decide (j < S i)%nat); done || lia.
  - intros _. split; [done|]. rewrite Hnonce, wrap_add_l, length_app. f_equal. cbn [length]. lia.
  - rewrite length_app, Nat.add_1_r, seq_S, fmap_app, <-Hl. cbn [fmap list_fmap]. by rewrite Hnonce.
  - exact Hsub.
  - rewrite <-Hr. rewrite (outstanding_split _ i Hi), (outstanding_split st i Hi), Hb.
    change (busy (visit_again st i r stop) i) with (busy st i). rewrite Hb, fmap_app.
    cbn [fmap list_fmap fst app].
    assert (Hother : forall j, j <> i -> (j < n)%nat ->
      busy (visit_again st i r stop) j = busy st j /\
      nth j (ss_pending (visit_again st i r stop)) 0 = nth j (ss_pending st) 0).
    { intros j Hne Hj. split; [done|]. cbn [visit_again ss_pending].
      by rewrite !nth_lookup, list_lookup_insert_ne. }
    rewrite !(outstanding_other st (visit_again st i r stop) i) by
      (try exact Hother; intros j Hj; apply elem_of_seq in Hj; lia).
    assert (E : nth i (ss_pending (visit_again st i r stop)) 0 = ss_nonce st).
    { cbn [visit_again ss_pending]. by rewrite nth_lookup, list_lookup_insert_eq by lia. }
    rewrite E. solve_Permutation.
Qed.

Lemma stream_visit_ok i st bc env :
  (i < n)%nat -> search_inv i st -> search_inv (S i) (fst (stream_visit B SB (st, bc) (i, env))).
Proof.
  intros Hi Hinv. rewrite stream_visit_cases by done. destruct (busy st i) eqn:Hb; [|by apply visit_idle_ok].
  destruct (ss_done st || v_kicked env) eqn:Hd; [by apply visit_stop_ok|].
  apply orb_false_iff in Hd as [Hd _]. by apply visit_again_ok.
Qed.

Lemma visits_ok l i st bc :
  (i + length l <= n)%nat -> search_inv i st ->
  search_inv (i + length l)
    (fst (fold_left (stream_visit B SB) (imap (fun k v => ((i + k)%nat, v)) l) (st, bc))).
Proof.
  revert i st bc. induction l as [|v l IH]; intros i st bc Hi Hinv; cbn [length] in *.
  - by rewrite Nat.add_0_r.
  - rewrite imap_cons. cbn [fold_left]. rewrite Nat.add_0_r.
    destruct (stream_visit B SB (st, bc) (i, v)) as [st1 bc1] eqn:E.
    assert (H1 : search_inv (S i) st1).
    { change st1 with (fst (st1, bc1)). rewrite <-E. apply stream_visit_ok; [lia|done]. }
    replace (i + S (length l))%nat with (S i + length l)%nat by lia.
    replace (imap _ l) with (imap (fun k v => ((S i + k)%nat, v)) l); [apply IH; [lia|done]|].
    apply imap_ext. intros k x _. cbn. f_equal. lia.
Qed.

Lemma search_inv_done st b : search_inv 0 st -> search_inv 0 (set_ss_done st (ss_done st || b)).
Proof.
  intros [Hno Hp Hbu Hbase Hrun Hl Hs Hr]. constructor; try done.
  cbn [set_ss_done ss_done ss_busy ss_nonce ss_launches]. intros Hd.
  apply orb_false_iff in Hd as [Hd _]. by apply Hrun.
Qed.

Lemma search_round_ok st p visits :
  length visits = n -> search_inv 0 st -> search_inv 0 (search_round B SB st (p, visits)).
Proof.
  intros Hlen Hinv. unfold search_round.
  pose proof (visits_ok visits 0 (set_ss_done st (ss_done st || p)) 0 ltac:(lia) (search_inv_done st p Hinv)) as H.
  change (imap pair visits) with (imap (fun k v => ((0 + k)%nat, v)) visits).
  destruct (fold_left _ _ _) as [st1 bc1]. cbn [fst] in H. rewrite Nat.add_0_l, Hlen in H.
  destruct H as [Hno Hp Hbu Hbase Hrun Hl Hs Hr]. constructor; try done.
  intros j Hj Hb. cbn [ss_pending ss_nonce]. rewrite (Hbase j Hj Hb), decide_True, decide_False by lia.
  f_equal. lia.
Qed.

Lemma search_loop_ok rounds st :
  Forall (fun r => length r.2 = n) rounds -> search_inv 0 st -> search_inv 0 (search_loop B SB rounds st).
Proof.
  intros Hr. revert st. induction Hr as [|[p visits] rounds Hlen _ IH]; intros st Hinv; [done|].
  cbn [search_loop]. destruct (ss_busy st =? 0); [done|]. apply IH. by apply search_round_ok.
Qed.

Lemma prime_fold k :
  in_word 64 start -> (k <= n)%nat ->
  let st := fold_left (fun st idx => advance B (launch_stream st idx)) (seq 0 k)
    (mk_search_st start (replicate n 0) 0 false [] [] [] []) in
  st = mk_search_st (u64 (start + Z.of_nat k * B))
    (((fun j => u64 (start + Z.of_nat j * B)) <$> seq 0 k) ++ replicate (n - k) 0) 0 false []
    ((fun j => u64 (start + Z.of_nat j * B)) <$> seq 0 k) [] [].
Proof.
  intros Hs. induction k as [|k IH]; intros Hk; cbv zeta.
  - cbn. rewrite Z.add_0_r, wrap_id, Nat.sub_0_r by done. done.
  - rewrite seq_S, fold_left_app. cbv zeta in IH. rewrite IH by lia. cbn [fold_left Nat.add].
    unfold advance, launch_stream. cbn [ss_nonce ss_pending ss_busy ss_done ss_submitted ss_launches ss_reads ss_batches].
    rewrite fmap_app. cbn [fmap list_fmap]. f_equal.
    + rewrite wrap_add_l. f_equal. lia.
    + replace (n - k)%nat with (S (n - S k)) by lia. cbn [replicate].
      rewrite insert_app_r_alt by (rewrite length_fmap, length_seq; lia).
      rewrite length_fmap, length_seq, Nat.sub_diag. cbn. by rewrite <-app_assoc.
Qed.

Lemma search_prime_ok : in_word 64 start -> search_inv 0 (search_prime B n start).
Proof.
  intros Hs. unfold search_prime. rewrite (prime_fold n Hs) by lia.
  rewrite Nat.sub_diag, app_nil_r. cbn [replicate]. unfold set_ss_busy.
  cbn [ss_nonce ss_pending ss_busy ss_done ss_submitted ss_launches ss_reads ss_batches].
  set (ls := (fun j => u64 (start + Z.of_nat j * B)) <$> seq 0 n).
  assert (Hshl : shl 32 1 (Z.of_nat n) = 2 ^ Z.of_nat n).
  { unfold shl. rewrite Z.shiftl_1_l, wrap_id; [done|]. unfold in_word, MAX_STREAMS in *.
    split; [lia|]. apply Z.pow_lt_mono_r; lia. }
  assert (Hlen : length ls = n) by (unfold ls; by rewrite length_fmap, length_seq).
  assert (Hnth : forall j, (j < n)%nat -> nth j ls 0 = u64 (start + Z.of_nat j * B)).
  { intros j Hj. unfold ls. rewrite nth_lookup, list_lookup_fmap, lookup_seq_lt by done. done. }
  rewrite Hshl. constructor; cbn [ss_nonce ss_pending ss_busy ss_done ss_submitted ss_launches ss_reads ss_batches].
  - by apply wrap_in_word.
  - done.
  - lia.
  - intros j Hj _. rewrite Hnth, decide_False by lia.
    rewrite <-Z.add_sub_assoc, wrap_add_l. f_equal. lia.
  - intros _. by rewrite Hlen.
  - by rewrite Hlen.
  - done.
  - cbn [app fmap list_fmap]. unfold outstanding. cbn [ss_pending].
    rewrite filter_all.
    + apply Permutation_refl'. transitivity ((fun j => u64 (start + Z.of_nat j * B)) <$> seq 0 n); [|done].
      apply list_fmap_ext. intros i j Hj. apply lookup_seq in Hj as [-> Hj]. by apply Hnth.
    + intros j Hj. apply elem_of_seq in Hj. by apply busy_full; [lia|].
Qed.
End SearchLoop.

(** For every search, however many rounds it runs and whenever it is paused,
    kicked or stopped: the launches cover consecutive batches from the start
    nonce, without a gap or an overlap; every buffer is read for the launch that
    filled it, and the nonces submitted are those the buffers report, counted
    from the first nonce of that launch; and once no stream is busy, the
    results of all launches have been read. *)
Theorem cuda_search_loop_correct (B start : Z) (streams : nat) (rounds : list (bool * list visit_env)) :
  0 <= B -> (0 < streams <= MAX_STREAMS)%nat -> B * Z.of_nat streams < 2 ^ 32 -> in_word 64 start ->
  Forall (fun r => length r.2 = streams) rounds ->
  let st := search_loop B (B * Z.of_nat streams) rounds (search_prime B streams start) in
  ss_launches st = (fun k => u64 (start + Z.of_nat k * B)) <$> seq 0 (length (ss_launches st)) /\
  ss_submitted st = ss_reads st ≫= reported /\
  (forall b, b ∈ (ss_reads st).*1 -> b ∈ ss_launches st) /\
  (ss_busy st = 0 -> (ss_reads st).*1 ≡ₚ ss_launches st).
Proof.
  intros HB Hn Hfit Hs Hr st.
  assert (Hinv : search_inv B start streams 0 st).
  { apply search_loop_ok; [done..|]. by apply search_prime_ok. }
  destruct Hinv as [Hno Hp Hbu Hbase Hrun Hl Hsub Hperm]. split; [exact Hl|]. split; [exact Hsub|]. split.
  - intros b Hb. rewrite <-Hperm. apply elem_of_app. by left.
  - intros H0. rewrite <-Hperm. unfold outstanding, busy. rewrite H0.
    replace (filter _ (seq 0 streams)) with (@nil nat); [by rewrite app_nil_r|].
    symmetry. induction (seq 0 streams) as [|j l IH]; [done|].
    rewrite filter_cons, Z.bits_0. by case_decide.
Qed.

Definition one_result (g : Z) : Search_results := mk_Search_results 1 3 1 [g; 0; 0; 0].

Lemma cuda_search_loop_correct_witness :
  let rounds := [(false, [mk_visit_env false (one_result 5) false; mk_visit_env false (one_result 6) true]);
                 (false, [mk_visit_env false (one_result 7) false; mk_visit_env false (one_result 8) false])] in
  let st := search_loop 100 200 rounds (search_prime 100 2 1000) in
  ss_submitted st = ss_reads st ≫= reported /\ ss_submitted st = [1005; 1106; 1207; 1308] /\ ss_busy st = 0.
Proof.
  intros rounds st. split; [|split; reflexivity].
  refine (proj1 (proj2 (cuda_search_loop_correct 100 1000 2 rounds _ _ _ _ _))).
  - lia.
  - unfold MAX_STREAMS. lia.
  - reflexivity.
  - unfold in_word. lia.
  - repeat constructor.
Defined.

(** ** From the device to the solutions *)

#[local] Opaque ethash_hash sha3_512 sha3_256.

(** The target a search compares with is the leading part of the boundary, so a
    hash within the boundary is a candidate. *)
Lemma be_number_prefix a b :
  hash256_wf a -> hash256_wf b -> be_number a <= be_number b -> be_number (take 8 a) <= be_number (take 8 b).
Proof.
  intros [Ha Hoa] [Hb Hob] H. rewrite <-(take_drop 8 a), <-(take_drop 8 b), !be_number_app in H.
  rewrite !length_drop, Ha, Hb in H.
  assert (Hr : forall l, length l = 32%nat -> bytes_ok l -> 0 <= be_number (drop 8 l) < 2 ^ 192).
  { intros l Hl Hol. pose proof (be_number_range (drop 8 l) (Forall_drop _ 8 _ Hol)) as R.
    by rewrite length_drop, Hl in R. }
  pose proof (Hr a Ha Hoa). pose proof (Hr b Hb Hob).
  change (8 * Z.of_nat (32 - 8)) with 192 in H. nia.
Qed.

(** The constants a search runs with. *)
Lemma search_setup_device m header target :
  cu_current_target m = d_target (cu_device m) ->
  let m' := search_setup m header target in
  d_header (cu_device m') = header /\ d_target (cu_device m') = target /\
  cu_current_target m' = target /\ d_dag (cu_device m') = d_dag (cu_device m) /\
  d_dag_size (cu_device m') = d_dag_size (cu_device m).
Proof.
  intros Ht. unfold search_setup. cbn [cu_current_target set_cu_device].
  destruct (Z.eqb_spec (cu_current_target m) target) as [E|E]; cbn; split_and!; congruence.
Qed.

(** The device filled a buffer read for the launch at [base]: the buffer is the
    output of a grid that ran to its end from a cleared one; [kicked] tells
    whether the host set [done] meanwhile. *)
Definition device_result {arch : Arch} (m : CUDAMiner) (kicked : bool) (br : Z * Search_results) : Prop :=
  exists out g, cleared out /\
    rtc (grid_step (cu_device m) (cuBlockSize m) br.1) (launch (cu_block_multiple m) (cuBlockSize m) out) g /\
    work_left g = 0%nat /\ g_kicked g = kicked /\ g_output g = br.2.

Lemma search_setup_sizes m header target :
  let m' := search_setup m header target in
  cu_block_multiple m' = cu_block_multiple m /\ cuBlockSize m' = cuBlockSize m /\ cuStreamSize m' = cuStreamSize m.
Proof. unfold search_setup. cbn [cu_current_target set_cu_device]. by destruct (cu_current_target m =? target). Qed.

Section Mining.
Context {arch : Arch} {host : Host} (m : CUDAMiner) (c : epoch_context) (groups : Z).
Context (Hc : context_ok c) (Hdag : dag_ok (cu_device m) c) (Hheader : hash256_wf (d_header (cu_device m))).
Context (Hblock : cuBlockSize m = 8 * groups) (Hgroups : 0 < groups) (Hmult : 0 <= cu_block_multiple m).
Context (Hsize : cu_block_multiple m * cuBlockSize m < 2 ^ 32).

Lemma device_result_sound kicked br :
  device_result m kicked br -> Forall (candidate (cu_device m) c) (reported br).
Proof.
  intros (out & g & Hout & Hrun & _ & _ & Hg). unfold reported. apply Forall_fmap, Forall_lookup.
  intros i x Hx. rewrite Hblock in Hrun, Hsize. unfold MAX_SEARCH_RESULTS in Hx.
  apply lookup_take_Some in Hx as [Hx Hi]. rewrite <-Hg in Hx, Hi.
  apply (reports_candidates (cu_device m) c (cu_block_multiple m) groups br.1 Hc Hdag Hheader Hmult Hgroups Hsize
    out g Hout Hrun i x); [lia|exact Hx].
Qed.

Lemma device_result_complete br :
  device_result m false br ->
  (exists x, 0 <= x < cu_block_multiple m * cuBlockSize m /\ candidate (cu_device m) c (u64 (br.1 + x))) ->
  reported br <> [].
Proof.
  intros (out & g & Hout & Hrun & Hw & Hk & Hg) Hx. rewrite Hblock in Hrun, Hsize, Hx.
  destruct (finished_reports (cu_device m) c (cu_block_multiple m) groups br.1 Hc Hdag Hheader Hmult Hgroups Hsize
    out g Hout Hrun Hw Hk) as [Hrep _]. destruct (Hrep Hx) as [_ Hcount].
  pose proof (gid_length (cu_device m) c (cu_block_multiple m) groups br.1 Hc Hdag Hheader Hmult Hgroups Hsize
    out g Hout Hrun) as Hlen.
  rewrite Hg in Hcount, Hlen. unfold reported, MAX_SEARCH_RESULTS. intros H0.
  apply fmap_nil_inv in H0. apply (f_equal length) in H0. rewrite length_take in H0. cbn in H0. lia.
Qed.
End Mining.

Lemma solves_candidate {host : Host} (dev : device) (c : epoch_context) (w : WorkPackage) (nonce : Z) :
  context_ok c -> hash256_wf (header w) -> hash256_wf (boundary w) -> in_word 64 nonce ->
  d_header dev = header w -> d_target dev = be_number (take 8 (boundary w)) ->
  solves c (header w) (boundary w) nonce -> candidate dev c nonce.
Proof.
  intros Hc Hh Hb Hn Hdh Hdt Hs. exists (spec_result c (header w) nonce).
  rewrite Hdh, Hdt. split; [by apply ethash_hash_spec|].
  apply be_number_prefix; [apply final_hash_wf|done|exact Hs].
Qed.

(** A launch can always be carried to its end. *)
Lemma device_result_exists {arch : Arch} (m : CUDAMiner) (c : epoch_context) (groups base : Z) :
  context_ok c -> dag_ok (cu_device m) c -> hash256_wf (d_header (cu_device m)) ->
  cuBlockSize m = 8 * groups -> 0 < groups -> 0 <= cu_block_multiple m ->
  cu_block_multiple m * cuBlockSize m < 2 ^ 32 ->
  exists kicked r, device_result m kicked (base, r).
Proof.
  intros Hc Hdag Hh Hblock Hgr Hmult Hsize. pose proof (proj1 (proj2 (proj2 Hc))) as Hp.
  assert (Hgr' : 0 <= groups) by lia. rewrite Hblock in Hsize.
  set (out := mk_Search_results 0 0 0 [0; 0; 0; 0]).
  assert (Hout : cleared out) by (repeat split).
  pose (rank g := (2 * work_left g + (if g_kicked g then 0 else 1))%nat).
  cut (forall k g, (rank g < k)%nat ->
    rtc (grid_step (cu_device m) (8 * groups) base) (launch (cu_block_multiple m) (8 * groups) out) g ->
    exists g', rtc (grid_step (cu_device m) (8 * groups) base) (launch (cu_block_multiple m) (8 * groups) out) g' /\
      work_left g' = 0%nat).
  { intros H. destruct (H _ _ (Nat.lt_succ_diag_r _) (rtc_refl _ _)) as (g' & Hrun & Hw).
    exists (g_kicked g'), (g_output g'), out, g'. rewrite Hblock. done. }
  induction k as [|k IH]; intros g Hk Hrun; [lia|].
  destruct (decide (work_left g = 0%nat)) as [Hw|Hw]; [by exists g|].
  pose proof (grid_reachable_ok _ c Hp Hdag Hh _ _ _ Hmult Hgr' Hsize out g Hout Hrun) as Hok.
  destruct (grid_progress _ c Hp Hdag Hh _ groups base Hmult Hgr' Hsize g Hok Hw) as [g' Hstep].
  apply (IH g'); [|exact (rtc_r _ _ _ Hrun Hstep)].
  pose proof (grid_step_decreases _ c Hp Hdag Hh _ groups base Hmult Hgr' Hsize g g' Hok Hstep) as Hd.
  unfold rank in *. destruct Hd as [Hd|(Hd & E1 & E2)]; [|rewrite E1 in Hk; rewrite E2; lia]. destruct (g_kicked g), (g_kicked g'); lia.
Qed.


(** A small miner, its device loaded with the dataset of the small context. *)
Definition tiny_miner : CUDAMiner :=
  mk_CUDAMiner (Miner_new 0 0 (mk_HwMonitorInfo HwUNKNOWN String.EmptyString (-1))) 5 true 1 (tiny_device 5) 8 1 0.

#[local] Instance tiny_arch : Arch := mk_arch 860 12000.

Lemma tiny_setup_device :
  let m := search_setup tiny_miner (zero_hash 32) 0 in
  dag_ok (cu_device m) tiny_context /\ hash256_wf (d_header (cu_device m)).
Proof.
  split; [exact (tiny_device_ok 0)|]. split; [reflexivity|apply zeros_ok].
Qed.


(** ** The epoch is initialised *)

(** What [search] needs of the device. *)
Definition device_ready (m : CUDAMiner) (c : epoch_context) : Prop :=
  dag_ok (cu_device m) c /\ cu_current_target m = d_target (cu_device m).

(** A failed initialisation leaves the miner paused, without work and stopped. *)
Definition init_failed (m : CUDAMiner) : Prop :=
  m_initialized (cu_miner m) = false /\ cu_done m = true /\ wp_bool (m_work (cu_miner m)) = false /\
  (pauseTest (cu_miner m) PauseDueToInsufficientMemory = true \/
   pauseTest (cu_miner m) PauseDueToInitEpochError = true).

Lemma cu_pause_failed m what :
  m_initialized (cu_miner m) = false ->
  what = PauseDueToInsufficientMemory \/ what = PauseDueToInitEpochError ->
  init_failed (cu_pause m what).
Proof.
  intros Hi Hw. unfold init_failed, cu_pause, cu_kick_miner.
  assert (Ht : pauseTest (pause (cu_miner m) what) what = true).
  { unfold pauseTest, pause. cbn. apply Z.setbit_eq. destruct what; cbn; lia. }
  cbn [cu_done set_cu_miner]. destruct (cu_done m) eqn:E; cbn [fst cu_miner cu_done set_cu_done set_cu_miner];
    (split; [exact Hi|]); (split; [first [exact E|reflexivity]|]); (split; [reflexivity|]);
    destruct Hw as [-> | ->]; auto.
Qed.

Lemma create_buffers_why l why :
  create_buffers l = Some why -> why = PauseDueToInsufficientMemory \/ why = PauseDueToInitEpochError.
Proof.
  induction l as [|[[] []] l IH]; cbn; [done|exact IH|intros [= <-]; auto..].
Qed.

Lemma setEpoch_cache c :
  context_ok c ->
  take (Z.to_nat (get_light_cache_size (light_cache_num_items c) / 64)) (light_cache c) = light_cache c.
Proof.
  intros (Hl & [Hlen _] & _). apply take_ge. rewrite Hlen.
  unfold get_light_cache_size, light_cache_item_size. rewrite (wrap_id _ (light_cache_num_items c)), wrap_id
    by (unfold in_word; lia). rewrite Z.div_mul by lia. lia.
Qed.

Definition init_done (m : CUDAMiner) (c : epoch_context) : Prop :=
  device_ready m c /\ m_initialized (cu_miner m) = true /\
  pauseTest (cu_miner m) PauseDueToInsufficientMemory = false /\
  pauseTest (cu_miner m) PauseDueToInitEpochError = false.

(** [initEpoch], after [setEpoch] with a context, always returns, whichever
    calls of the runtime fail.  When it reports success the DAG of the context
    is on the device, the target the miner remembers is the device's, and
    the two pauses an initialisation can cause are lifted; when it reports failure the miner
    is not initialised, is paused for one of them, has no work and its search is stopped. *)
Lemma initEpoch_outcome {arch : Arch} (env : init_env) (m : CUDAMiner) (c : epoch_context) (e : Z) :
  context_ok c -> (4 | cuBlockSize m) -> 0 < cuBlockSize m ->
  0 < cu_block_multiple m * cuBlockSize m <= 2 * full_dataset_num_items c ->
  2 * full_dataset_num_items c + cuBlockSize m <= 2 ^ 32 ->
  exists m' b, initEpoch env (set_cu_miner m (setEpoch (cu_miner m) c e)) = Some (m', b) /\
    (b = true -> init_done m' c) /\
    (b = false -> init_failed m').
Proof.
  intros Hc H4 Hb Hrun Hfit.
  assert (Hno : forall m0 what, m_initialized (cu_miner m0) = false ->
    what = PauseDueToInsufficientMemory \/ what = PauseDueToInitEpochError ->
    exists m' b, Some (cu_pause m0 what, false) = Some (m', b) /\
      (b = true -> init_done m' c) /\ (b = false -> init_failed m')).
  { intros m0 what H1 H2. eexists _, _. split; [reflexivity|]. split; [done|]. intros _. by apply cu_pause_failed. }
  unfold initEpoch. cbv zeta.
  destruct (e_reset env); cbn [negb]; [|by apply Hno; [|auto]].
  case_match; [by apply Hno; [|auto]|].
  destruct (e_light env); cbn [negb]; [|by apply Hno; [|auto]].
  destruct (e_dag env); cbn [negb]; [|by apply Hno; [|auto]].
  destruct (create_buffers _) as [why|] eqn:Ec; [by apply Hno; [|apply create_buffers_why in Ec]|].
  destruct (e_copy env); cbn [negb]; [|by apply Hno; [|auto]].
  cbn [lightCache m_epochContext cu_miner set_cu_miner set_cu_target set_cu_device set_initialized setEpoch
    set_epochContext dagSize dagNumItems lightNumItems mbind option_bind].
  destruct (e_generate env); cbn [negb]; [|by apply Hno; [|auto]].
  set (m1 := cu_resume (cu_resume _ _) _). set (dev := dev_set_constants _ _ _ _).
  assert (Hs : get_full_dataset_size (full_dataset_num_items c) = 128 * full_dataset_num_items c).
  { unfold get_full_dataset_size, full_dataset_item_size.
    rewrite (wrap_id _ (full_dataset_num_items c)), wrap_id by (unfold in_word; lia). lia. }
  rewrite Hs.
  destruct (generate_dag_contents dev c (cu_block_multiple m1) (cuBlockSize m1) (e_memory env) Hc)
    as (dag' & E & Hok & _); try done.
  { apply setEpoch_cache, Hc. }
  { apply wrap_id. unfold in_word. destruct Hc as (? & _). cbn. lia. }
  { apply wrap_id. unfold in_word. cbn. lia. }
  rewrite E. cbn [mbind option_bind]. eexists _, _. split; [reflexivity|]. split; [|done].
  intros _. split; [split; [exact Hok|reflexivity]|]. split; [reflexivity|].
  set (f := m_pauseFlags (cu_miner m)).
  change (Z.testbit (Z.clearbit (Z.clearbit f 3) 4) 3 = false /\ Z.testbit (Z.clearbit (Z.clearbit f 3) 4) 4 = false).
  split; [|apply Z.clearbit_eq]. rewrite Z.clearbit_neq by lia. apply Z.clearbit_eq.
Qed.

(** A search keeps the device ready. *)
Lemma cu_search_ready m c header target start rounds m' st :
  device_ready m c -> cu_search m header target start rounds = (m', st) -> device_ready m' c.
Proof.
  intros [[H1 H2] Ht] E. destruct (search_setup_device m header target Ht) as (D1 & D2 & D3 & D4 & D5).
  injection E as <- <-. split; [split|]; cbn [cu_device cu_current_target set_cu_done].
  - by rewrite D5.
  - by rewrite D4.
  - by rewrite D2, D3.
Qed.

(** The work loop: an iteration for work of a new epoch either leaves the device
    ready for the context or leaves the loop, so that a miner whose initialisation failed
    mines no more; an iteration for work of the epoch keeps the device ready. *)
Theorem cuda_workLoop_epoch (arch : Arch) (env : loop_env) (m : CUDAMiner) (last : WorkPackage) (it : iteration) :
  let c := l_context env in
  context_ok c -> (4 | cuBlockSize m) -> 0 < cuBlockSize m ->
  0 < cu_block_multiple m * cuBlockSize m <= 2 * full_dataset_num_items c ->
  2 * full_dataset_num_items c + cuBlockSize m <= 2 ^ 32 ->
  workLoop_step env m last = Some it ->
  match it with
  | Idle _ => wp_bool (m_work (cu_miner m)) = false
  | EpochReady m' w => w = m_work (cu_miner m) /\ epoch w <> epoch last /\ init_done m' c /\
      lightCache (m_epochContext (cu_miner m')) = None
  | Searched m' w _ => w = m_work (cu_miner m) /\ epoch w = epoch last /\ (device_ready m c -> device_ready m' c)
  | LoopExit m' => epoch (m_work (cu_miner m)) <> epoch last /\ init_failed m'
  end.
Proof.
  intros c Hc H4 Hb Hrun Hfit. unfold workLoop_step.
  destruct (wp_bool (m_work (cu_miner m))) eqn:Ew; cbn [negb]; [|by intros [= <-]].
  destruct (Z.eqb_spec (epoch (m_work (cu_miner m))) (epoch last)) as [He|He]; cbn [negb].
  - destruct (block_multiple m) as [mult|]; cbn [mbind option_bind]; [|done].
    destruct (cu_search _ _ _ _ _) as [m' st] eqn:E. intros [= <-]. split; [done|]. split; [done|].
    intros Hr. refine (cu_search_ready _ _ _ _ _ _ _ _ _ E). exact Hr.
  - destruct (initEpoch_outcome (l_init env) m c (epoch (m_work (cu_miner m))) Hc H4 Hb Hrun Hfit) as (m' & b & E & Ht & Hf).
    fold c. rewrite E. cbn [mbind option_bind]. destruct b; intros [= <-].
    + split; [done|]. split; [done|]. unfold freeCache. cbn [cu_miner set_cu_miner].
      destruct (lightCache (m_epochContext (cu_miner m'))) eqn:El; split; [exact (Ht eq_refl)|done|exact (Ht eq_refl)|exact El].
    + split; [done|]. by apply Hf.
Qed.

Lemma cuda_workLoop_epoch_witness :
  let env := mk_loop_env tiny_context (mk_init_env true true true [(false, true)] true true ∅) [] in
  let w := set_header WorkPackage_default (zero_hash 31 ++ [1]) in
  let m := set_cu_miner tiny_miner (set_work_field (cu_miner tiny_miner) w) in
  let last := mk_WorkPackage String.EmptyString [] [] [] 7 0 0 0 fzero in
  exists m', workLoop_step env m last = Some (LoopExit m') /\ init_failed m'.
Proof.
  intros env w m last. destruct (workLoop_step env m last) as [it|] eqn:E; [|discriminate E].
  assert (Hit : exists m', it = LoopExit m') by (injection E as <-; eexists; reflexivity).
  destruct Hit as [m' ->]. exists m'. split; [reflexivity|].
  refine (proj2 (cuda_workLoop_epoch tiny_arch env m last (LoopExit m') tiny_context_ok _ _ _ _ E)).
  - exists 2. reflexivity.
  - reflexivity.
  - split; [reflexivity|discriminate].
  - discriminate.
Defined.
