(* ===== verification/ClKeccak.v ===== *)
(** * The Keccak permutation of the OpenCL program

    The first half of [libcl/ethash.cl]: rotations of 64-bit lanes held as
    [uint2], for each set of device extensions the preprocessor distinguishes,
    the round [KECCAKF_1600_RND], which stops early in the last round of a
    hash, and [SHA3_512].  They are shown to be the permutation and the hash of
    the specification. *)

From stdpp Require Import base numbers list.
From Stdlib Require Import ZArith Lia Bool Btauto.
From S2P Require Import Prelude Words KeccakSpec KeccakF Keccak EthashSpec Ethash EthashHash.
From S2P Require Import CudaHelper CudaKeccak.

Local Open Scope Z_scope.
Local Open Scope word_scope.

(** How the program is compiled: whether the device defines
    [cl_amd_media_ops], and whether the host defined [SPLIT_DAG]. *)
Class ClBuild := mk_build { media_ops : bool; split_dag : bool }.

(** [(x).s10]. *)
Definition s10 (x : uint2) : uint2 := make_uint2 (y2 x) (x2 x).

(** [amd_bitalign] on [uint2]: the built-in function of the extension and, on
    Clover, the instruction [v_alignbit_b32] on each component. *)
Definition v_alignbit_b32 (src0 src1 src2 : Z) : Z :=
  u32 ((Z.shiftl src0 32 .| src1) .> (src2 .& 31)).

Definition amd_bitalign (src0 src1 : uint2) (src2 : Z) : uint2 :=
  make_uint2 (v_alignbit_b32 (x2 src0) (x2 src1) src2) (v_alignbit_b32 (y2 src0) (y2 src1) src2).

Definition Keccak_f1600_RC : list uint2 :=
  [make_uint2 0x00000001 0x00000000; make_uint2 0x00008082 0x00000000; make_uint2 0x0000808a 0x80000000;
   make_uint2 0x80008000 0x80000000; make_uint2 0x0000808b 0x00000000; make_uint2 0x80000001 0x00000000;
   make_uint2 0x80008081 0x80000000; make_uint2 0x00008009 0x80000000; make_uint2 0x0000008a 0x00000000;
   make_uint2 0x00000088 0x00000000; make_uint2 0x80008009 0x00000000; make_uint2 0x8000000a 0x00000000;
   make_uint2 0x8000808b 0x00000000; make_uint2 0x0000008b 0x80000000; make_uint2 0x00008089 0x80000000;
   make_uint2 0x00008003 0x80000000; make_uint2 0x00008002 0x80000000; make_uint2 0x00000080 0x80000000;
   make_uint2 0x0000800a 0x00000000; make_uint2 0x8000000a 0x80000000; make_uint2 0x80008081 0x80000000;
   make_uint2 0x00008080 0x80000000; make_uint2 0x80000001 0x00000000; make_uint2 0x80008008 0x80000000].

(** The built-in [bitselect]: a bit of [b] where [c] is set, of [a] elsewhere. *)
Definition bitselect (a b c : uint2) : uint2 :=
  make_uint2 ((x2 a .& wnot 32 (x2 c)) .| (x2 b .& x2 c)) ((y2 a .& wnot 32 (y2 c)) .| (y2 b .& y2 c)).

Section Program.
Context {build : ClBuild}.

(** [as_uint2(rotate(as_ulong(x), y))] where the extension is missing. *)
Definition ROTL64_1 (x : uint2) (y : Z) : uint2 :=
  if media_ops then amd_bitalign x (s10 x) (32 - y) else vectorize (rot 64 (devectorize x) y).

Definition ROTL64_2 (x : uint2) (y : Z) : uint2 :=
  if media_ops then amd_bitalign (s10 x) x (32 - y) else ROTL64_1 x (y + 32).

(** The first half of the macro [KECCAKF_1600_RND]: the parities of the columns,
    added to the lanes, and the rotation of the lanes into their new places. *)
Definition keccak_theta_rho_pi (a : list uint2) : list uint2 :=
  match a with
  | [a0; a1; a2; a3; a4; a5; a6; a7; a8; a9; a10; a11; a12; a13; a14; a15; a16; a17; a18; a19; a20;
     a21; a22; a23; a24] =>
      let m0 := a0 ^^ a5 ^^ a10 ^^ a15 ^^ a20 ^^ ROTL64_1 (a2 ^^ a7 ^^ a12 ^^ a17 ^^ a22) 1 in
      let m1 := a1 ^^ a6 ^^ a11 ^^ a16 ^^ a21 ^^ ROTL64_1 (a3 ^^ a8 ^^ a13 ^^ a18 ^^ a23) 1 in
      let m2 := a2 ^^ a7 ^^ a12 ^^ a17 ^^ a22 ^^ ROTL64_1 (a4 ^^ a9 ^^ a14 ^^ a19 ^^ a24) 1 in
      let m3 := a3 ^^ a8 ^^ a13 ^^ a18 ^^ a23 ^^ ROTL64_1 (a0 ^^ a5 ^^ a10 ^^ a15 ^^ a20) 1 in
      let m4 := a4 ^^ a9 ^^ a14 ^^ a19 ^^ a24 ^^ ROTL64_1 (a1 ^^ a6 ^^ a11 ^^ a16 ^^ a21) 1 in
      let tmp := a1 ^^ m0 in let a0 := a0 ^^ m4 in let a5 := a5 ^^ m4 in let a10 := a10 ^^ m4 in
      let a15 := a15 ^^ m4 in let a20 := a20 ^^ m4 in let a6 := a6 ^^ m0 in
      let a11 := a11 ^^ m0 in let a16 := a16 ^^ m0 in let a21 := a21 ^^ m0 in
      let a2 := a2 ^^ m1 in let a7 := a7 ^^ m1 in let a12 := a12 ^^ m1 in let a17 := a17 ^^ m1 in
      let a22 := a22 ^^ m1 in let a3 := a3 ^^ m2 in let a8 := a8 ^^ m2 in let a13 := a13 ^^ m2 in
      let a18 := a18 ^^ m2 in let a23 := a23 ^^ m2 in let a4 := a4 ^^ m3 in let a9 := a9 ^^ m3 in
      let a14 := a14 ^^ m3 in let a19 := a19 ^^ m3 in let a24 := a24 ^^ m3 in
      let a1 := ROTL64_2 a6 12 in let a6 := ROTL64_1 a9 20 in let a9 := ROTL64_2 a22 29 in
      let a22 := ROTL64_2 a14 7 in let a14 := ROTL64_1 a20 18 in let a20 := ROTL64_2 a2 30 in
      let a2 := ROTL64_2 a12 11 in let a12 := ROTL64_1 a13 25 in let a13 := ROTL64_1 a19 8 in
      let a19 := ROTL64_2 a23 24 in let a23 := ROTL64_2 a15 9 in let a15 := ROTL64_1 a4 27 in
      let a4 := ROTL64_1 a24 14 in let a24 := ROTL64_1 a21 2 in let a21 := ROTL64_2 a8 23 in
      let a8 := ROTL64_2 a16 13 in let a16 := ROTL64_2 a5 4 in let a5 := ROTL64_1 a3 28 in
      let a3 := ROTL64_1 a18 21 in let a18 := ROTL64_1 a17 15 in let a17 := ROTL64_1 a11 10 in
      let a11 := ROTL64_1 a7 6 in let a7 := ROTL64_1 a10 3 in let a10 := ROTL64_1 tmp 1 in
      [a0; a1; a2; a3; a4; a5; a6; a7; a8; a9; a10; a11; a12; a13; a14; a15; a16; a17; a18; a19; a20;
       a21; a22; a23; a24]
  | _ => a
  end.

(** A row of the second half, updated in place. *)
Definition keccak_row (a0 a1 a2 a3 a4 : uint2) : uint2 * uint2 * uint2 * uint2 * uint2 :=
  let m5 := a0 in let m6 := a1 in
  let a0 := bitselect (a0 ^^ a2) a0 a1 in let a1 := bitselect (a1 ^^ a3) a1 a2 in
  let a2 := bitselect (a2 ^^ a4) a2 a3 in let a3 := bitselect (a3 ^^ m5) a3 a4 in
  let a4 := bitselect (a4 ^^ m6) a4 m5 in (a0, a1, a2, a3, a4).

(** The whole macro; rows that [outsz] lanes of output do not need are left
    alone. *)
Definition KECCAKF_1600_RND (a : list uint2) (i : nat) (outsz : Z) : list uint2 :=
  match keccak_theta_rho_pi a with
  | [a0; a1; a2; a3; a4; a5; a6; a7; a8; a9; a10; a11; a12; a13; a14; a15; a16; a17; a18; a19; a20;
     a21; a22; a23; a24] =>
      let m5 := a0 in let m6 := a1 in
      let a0 := bitselect (a0 ^^ a2) a0 a1 in
      let a0 := a0 ^^ nth i Keccak_f1600_RC (make_uint2 0 0) in
      if outsz <=? 1 then
        [a0; a1; a2; a3; a4; a5; a6; a7; a8; a9; a10; a11; a12; a13; a14; a15; a16; a17; a18; a19; a20;
         a21; a22; a23; a24]
      else
      let a1 := bitselect (a1 ^^ a3) a1 a2 in let a2 := bitselect (a2 ^^ a4) a2 a3 in
      let a3 := bitselect (a3 ^^ m5) a3 a4 in let a4 := bitselect (a4 ^^ m6) a4 m5 in
      if outsz <=? 4 then
        [a0; a1; a2; a3; a4; a5; a6; a7; a8; a9; a10; a11; a12; a13; a14; a15; a16; a17; a18; a19; a20;
         a21; a22; a23; a24]
      else
      let '(a5, a6, a7, a8, a9) := keccak_row a5 a6 a7 a8 a9 in
      if outsz <=? 8 then
        [a0; a1; a2; a3; a4; a5; a6; a7; a8; a9; a10; a11; a12; a13; a14; a15; a16; a17; a18; a19; a20;
         a21; a22; a23; a24]
      else
      let '(a10, a11, a12, a13, a14) := keccak_row a10 a11 a12 a13 a14 in
      let '(a15, a16, a17, a18, a19) := keccak_row a15 a16 a17 a18 a19 in
      let '(a20, a21, a22, a23, a24) := keccak_row a20 a21 a22 a23 a24 in
      [a0; a1; a2; a3; a4; a5; a6; a7; a8; a9; a10; a11; a12; a13; a14; a15; a16; a17; a18; a19; a20;
       a21; a22; a23; a24]
  | st => st
  end.

(** [in_size] is not used by the macro. *)
Definition KECCAK_PROCESS (st : list uint2) (out_size : Z) : list uint2 :=
  fold_left (fun st r => KECCAKF_1600_RND st r (if (r <? 23)%nat then 25 else out_size)) (seq 0 24) st.

Definition SHA3_512 (s : list uint2) : list uint2 :=
  let st := take 8 s ++ [make_uint2 0x00000001 0x80000000] ++ replicate 16 u2zero in
  let st := KECCAK_PROCESS st 8 in
  take 8 st ++ drop 8 s.

(** ** Lanes *)

Lemma v_alignbit_shift hi lo n :
  0 < n < 32 -> in_word 32 hi -> in_word 32 lo ->
  v_alignbit_b32 hi lo (32 - n) = shl 32 hi n .| (lo .> (32 - n)).
Proof.
  intros Hn Hh Hl. unfold v_alignbit_b32. rewrite land_31, Z.mod_small by lia.
  apply (word_ext 32); [lia|by apply wrap_in_word|auto with words|]. intros i Hi.
  rewrite wrap_testbit, Z.lor_spec, shl_testbit, !Z.shiftr_spec, Z.lor_spec, Z.shiftl_spec by lia.
  case_decide.
  - by rewrite (Z.testbit_neg_r _ (i + (32 - n) - 32)) by lia.
  - f_equal. f_equal. lia.
Qed.

Lemma ROTL64_1_rep a x n : 0 < n < 32 -> rep a x -> rep (ROTL64_1 a n) (rot 64 x n).
Proof.
  intros Hn Ha. unfold ROTL64_1. destruct media_ops.
  - destruct Ha as [Hx ->]. split; [apply rot_in_word_64; [lia|done]|].
    unfold amd_bitalign, s10, vectorize. cbn [x2 y2]. rewrite !v_alignbit_shift by auto with words. f_equal.
    + apply (half_rotation x n 0 32); [lia|done|by left].
    + apply (half_rotation x n 32 0); [lia|done|by right].
  - rewrite (devectorize_rep a x Ha). apply vectorize_rep, rot_in_word_64; [lia|apply Ha].
Qed.

Lemma ROTL64_2_rep a x n : 0 < n < 32 -> rep a x -> rep (ROTL64_2 a n) (rot 64 x (n + 32)).
Proof.
  intros Hn Ha. unfold ROTL64_2, ROTL64_1. destruct media_ops.
  - destruct Ha as [Hx ->]. split; [apply rot_in_word_64; [lia|done]|].
    destruct (swapped_rotation x n Hn Hx) as [E1 E2].
    unfold amd_bitalign, s10, vectorize. cbn [x2 y2]. rewrite E1, E2.
    rewrite !v_alignbit_shift by auto with words. f_equal.
    + apply (half_rotation x n 32 0); [lia|done|by right].
    + apply (half_rotation x n 0 32); [lia|done|by left].
  - rewrite (devectorize_rep a x Ha). apply vectorize_rep, rot_in_word_64; [lia|apply Ha].
Qed.

Lemma bitselect_rep a b c x y z :
  rep a x -> rep b y -> rep c z -> rep (bitselect (a ^^ c) a b) (x .^ (wnot 64 y .& z)).
Proof.
  intros [Hx ->] [Hy ->] [Hz ->]. split; [auto with words|].
  unfold bitselect, xor_uint2, vectorize. cbn [x2 y2].
  f_equal; by_bits; btauto.
Qed.

#[local] Hint Resolve xor_rep bitselect_rep : lanes.
#[local] Hint Extern 2 (rep (ROTL64_1 _ _) _) => apply ROTL64_1_rep; [lia|] : lanes.
#[local] Hint Extern 2 (rep (ROTL64_2 _ ?n) _) => apply (ROTL64_2_rep _ _ n); [lia|] : lanes.

(** ** The rounds *)

Lemma theta_rho_pi_rep s zs :
  length zs = 25%nat -> reps s zs -> reps (keccak_theta_rho_pi s) (pi (rho 64 (theta 64 zs))).
Proof.
  intros Hlen H. lanes_of H. rewrite theta_lanes. cbv zeta. rewrite rho_lanes_64, pi_lanes.
  cbv zeta beta iota delta [keccak_theta_rho_pi].
  repeat (constructor; [auto 12 with lanes|]). constructor.
Qed.

Lemma RC_rep i : (i < 24)%nat -> rep (nth i Keccak_f1600_RC (make_uint2 0 0)) (round_constant 6 i).
Proof.
  intros Hi. pose proof keccak_round_constants_rep as Hrc.
  destruct (Forall2_lookup_r _ _ _ i (round_constant 6 i) Hrc) as (rc & Hi' & Hrep).
  { rewrite list_lookup_fmap, lookup_seq_lt by done. done. }
  change keccak_round_constants with Keccak_f1600_RC in Hi'.
  by rewrite nth_lookup, Hi'.
Qed.

#[local] Hint Resolve RC_rep : lanes.

(** The lanes a round leaves in place of the full round: the first row without
    its tail, one row, two rows, or all of them. *)
Definition lanes_done (outsz : Z) : nat :=
  if outsz <=? 1 then 1 else if outsz <=? 4 then 5 else if outsz <=? 8 then 10 else 25.

Lemma RND_rep i outsz s zs :
  (i < 24)%nat -> length zs = 25%nat -> reps s zs ->
  reps (take (lanes_done outsz) (KECCAKF_1600_RND s i outsz))
    (take (lanes_done outsz) (keccak_round 64 (round_constant 6 i) zs)) /\
  length (KECCAKF_1600_RND s i outsz) = 25%nat.
Proof.
  intros Hi Hlen H. apply theta_rho_pi_rep in H; [|done]. unfold KECCAKF_1600_RND, keccak_round, lanes_done.
  assert (Hlen' : length (pi (rho 64 (theta 64 zs))) = 25%nat) by reflexivity.
  revert H Hlen'. generalize (keccak_theta_rho_pi s), (pi (rho 64 (theta 64 zs))). clear s zs Hlen.
  intros s zs H Hlen. lanes_of H. rewrite chi_lanes, iota_lanes. cbv zeta beta iota delta [keccak_row].
  pose proof (RC_rep i Hi).
  destruct (outsz <=? 1), (outsz <=? 4), (outsz <=? 8); cbn [take]; (split; [|reflexivity]);
    repeat (constructor; [auto with lanes|]); constructor.
Qed.

Lemma rounds_rep_cl out_size n s zs :
  (n <= 23)%nat -> length zs = 25%nat -> reps s zs ->
  reps (fold_left (fun st r => KECCAKF_1600_RND st r (if (r <? 23)%nat then 25 else out_size)) (seq 0 n) s)
    (rounds 0 n zs).
Proof.
  induction n as [|n IH]; intros Hn Hlen Hs; [done|].
  unfold rounds. rewrite !seq_S, !fold_left_app. cbn [fold_left Nat.add].
  rewrite (proj2 (Nat.ltb_lt n 23)) by lia.
  destruct (RND_rep n 25 _ (rounds 0 n zs) ltac:(lia) (length_rounds 0 n zs Hlen) (IH ltac:(lia) Hlen Hs))
    as [H HL].
  change (lanes_done 25) with 25%nat in H.
  rewrite !take_ge in H by (rewrite ?length_keccak_round; lia). exact H.
Qed.

(** The permutation, as far as the output is read. *)
Lemma KECCAK_PROCESS_rep out_size s zs :
  length zs = 25%nat -> reps s zs ->
  reps (take (lanes_done out_size) (KECCAK_PROCESS s out_size)) (take (lanes_done out_size) (keccak_f 6 zs)) /\
  length (KECCAK_PROCESS s out_size) = 25%nat.
Proof.
  intros Hlen Hs. unfold KECCAK_PROCESS. change (seq 0 24) with (seq 0 23 ++ [23%nat]).
  rewrite fold_left_app, keccak_f_rounds. cbn [fold_left]. change (23 <? 23)%nat with false. cbv iota.
  apply RND_rep; [lia|by apply length_rounds|by apply rounds_rep_cl].
Qed.
Lemma lanes_done_enough out_size : 1 <= out_size <= 25 -> (Z.to_nat out_size <= lanes_done out_size <= 25)%nat.
Proof.
  intros H. unfold lanes_done.
  destruct (Z.leb_spec out_size 1), (Z.leb_spec out_size 4), (Z.leb_spec out_size 8); lia.
Qed.

Lemma KECCAK_PROCESS_output out_size s zs :
  1 <= out_size <= 25 -> length zs = 25%nat -> reps s zs ->
  reps (take (Z.to_nat out_size) (KECCAK_PROCESS s out_size)) (take (Z.to_nat out_size) (keccak_f 6 zs)).
Proof.
  intros Ho Hlen Hs. destruct (KECCAK_PROCESS_rep out_size s zs Hlen Hs) as [H _].
  apply (Forall2_take _ _ _ (Z.to_nat out_size)) in H.
  pose proof (lanes_done_enough out_size Ho). by rewrite !take_take, !Nat.min_l in H by lia.
Qed.

Lemma sha3_node_rep s data :
  length s = 8%nat -> hash512_wf data -> reps s (le_words 8 data) ->
  reps (SHA3_512 s) (le_words 8 (sha3_512 data)) /\ length (SHA3_512 s) = 8%nat.
Proof.
  intros Hl Hd Hs. unfold SHA3_512. rewrite (take_ge s), (drop_ge s), app_nil_r by lia.
  set (st := s ++ _). set (zs := le_words 8 data ++ [2 ^ 63 + 1] ++ replicate 16 0).
  assert (Hzs : length zs = 25%nat).
  { unfold zs. rewrite length_app, length_words, (proj1 Hd). done. }
  assert (H0 : reps st zs).
  { apply Forall2_app; [done|]. constructor; [apply one_top_rep|apply zeros_rep]. }
  rewrite node_hash_lanes by done. fold zs. split.
  - exact (KECCAK_PROCESS_output 8 st zs ltac:(lia) Hzs H0).
  - rewrite length_take, (proj2 (KECCAK_PROCESS_rep 8 st zs Hzs H0)). done.
Qed.
End Program.

(** However the program is compiled, [KECCAK_PROCESS] gives the first
    [out_size] lanes of the host's permutation, for every number of lanes a
    caller may ask for, and [SHA3_512] replaces a node by the hash the host
    computes of it. *)
Theorem cl_keccak_correct (build : ClBuild) (host : Host) (zs node : list Z) (out_size : Z) :
  length zs = 25%nat -> Forall (in_word 64) zs -> hash512_wf node -> 1 <= out_size <= 25 ->
  take (Z.to_nat out_size) (KECCAK_PROCESS (vectorize <$> zs) out_size) =
    vectorize <$> take (Z.to_nat out_size) (keccakf1600_best zs) /\
  SHA3_512 (vectorize <$> le_words 8 node) = vectorize <$> le_words 8 (ethash_keccak512 node).
Proof.
  intros Hlen Hzs Hn Ho. split.
  - rewrite keccakf1600_best_spec by done.
    apply reps_vectorize, KECCAK_PROCESS_output; [done|done|by apply vectorize_reps].
  - rewrite ethash_keccak512_sponge by apply Hn. destruct Hn as [Hl Hok].
    apply reps_vectorize, sha3_node_rep; [by rewrite length_fmap, length_words, Hl|done|].
    apply vectorize_reps, (words_in_word (host := plain_host) 8 8); [lia|done|done].
Qed.

Lemma cl_keccak_correct_witness :
  let zs := Z.of_nat <$> seq 1 25 in
  take 8 (@KECCAK_PROCESS (mk_build true false) (vectorize <$> zs) 8) =
    vectorize <$> take 8 (@keccakf1600_best plain_host zs).
Proof.
  intros zs. refine (proj1 (cl_keccak_correct (mk_build true false) plain_host zs (zero_hash 64) 8 _ _ _ _)).
  - reflexivity.
  - apply Forall_fmap, Forall_forall. intros k Hk. apply elem_of_seq in Hk. unfold in_word, compose. lia.
  - split; [reflexivity|apply zeros_ok].
  - split; discriminate.
Defined.
