(* ===== verification/ClKernel.v ===== *)
(** * The hash of the OpenCL program

    The work-items of the kernel [search] of [libcl/ethash.cl] up to the
    comparison with the target: four work-items hash their four nonces
    together, one after the other, through the local memory they share.

    The four work-items of a hash use [sharebuf[hash_id]] and the four entries
    of [buffer] from [4 * hash_id] only, so a variable of the kernel is the list
    of its values over the four.  Between two barriers they run in lockstep,
    which the macro [MIX] relies on: it reads the index another work-item has
    just stored without a barrier in between.  Device memory is little-endian.
    [None] stands for undefined behaviour (a division by zero or a read of
    memory that was never written). *)

From stdpp Require Import base numbers list gmap.
From Stdlib Require Import ZArith Lia Bool.
From S2P Require Import Prelude Words KeccakSpec KeccakF Keccak EthashSpec Ethash EthashHash.
From S2P Require Import CudaHelper CudaKeccak CudaKernel ClKeccak.

Local Open Scope Z_scope.
Local Open Scope word_scope.

Definition FNV_PRIME : Z := 0x01000193.
Definition fnv (x y : Z) : Z := u32 (x * FNV_PRIME) .^ y.

(** The macro [fnv] on the vector types. *)
Definition fnv_vector : list Z -> list Z -> list Z := zip_with fnv.

(** [fnv_reduce] of a [uint4]. *)
Definition fnv_reduce (v : list Z) : Z :=
  fnv (fnv (fnv (nth 0 v 0) (nth 1 v 0)) (nth 2 v 0)) (nth 3 v 0).

(** Member [k] of the [uint8s] of a union that holds the words [ws]. *)
Definition uint8s (ws : list Z) (k : nat) : list Z := take 8 (drop (8 * k) ws).

(** A buffer of device memory read as [uint2s]. *)
Definition uint2s (h : list Z) : list uint2 :=
  (fun b => make_uint2 (le_word (take 4 b)) (le_word (take 4 (drop 4 b)))) <$> chunks 8 (length h / 8) h.

(** The buffers of the DAG, keyed by the 64-byte node. *)
Record dag_buffers := mk_buffers { g_dag0 : gmap Z (list Z); g_dag1 : gmap Z (list Z) }.

(** [as_ulong(as_uchar8(a).s76543210)]. *)
Definition reversed_ulong (a : uint2) : Z := le_word (reverse (le_bytes 8 (devectorize a))).

Section Search.
Context {build : ClBuild} (dag : dag_buffers) (dag_size : Z).

(** The element [i] of a buffer of [hash128_t]. *)
Definition hash128 (g_dag : gmap Z (list Z)) (i : Z) : option (list Z) :=
  lo ← g_dag !! (2 * i);
  hi ← g_dag !! (2 * i + 1);
  Some (lo ++ hi).

Definition dag_page (idx : Z) : option (list Z) :=
  if split_dag then hash128 (if idx .& 1 =? 0 then g_dag0 dag else g_dag1 dag) (idx .> 1)
  else hash128 (g_dag0 dag) idx.

(** The macro [MIX(x)]: [buffer] holds what the four work-items computed. *)
Definition MIX (init0 : Z) (a x : nat) (mix : list (list Z)) : option (list (list Z)) :=
  if dag_size =? 0 then None else
  let buffer : list Z := (fun m => fnv (init0 .^ Z.of_nat (a + x)) (nth x m 0) mod dag_size) <$> mix in
  let lane_idx := (a / 8 mod 4)%nat in
  idx ← buffer !! lane_idx;
  page ← dag_page idx;
  Some (imap (fun thread_id m => fnv_vector m (uint8s (le_words 4 page) thread_id)) mix).

Definition ACCESSES : nat := 64.

Definition access_loop (init0 : Z) (mix : list (list Z)) : option (list (list Z)) :=
  mfold (fun mix a => mfold (fun mix x => MIX init0 a x mix) (seq 0 8) mix)
    ((fun k => 8 * k)%nat <$> seq 0 (ACCESSES / 8)) mix.

(** The state before the first pass. *)
Definition first_state (g_header : list Z) (nonce : Z) : list uint2 :=
  take 4 (uint2s g_header) ++
  [vectorize nonce; vectorize 0x0000000000000001; u2zero; u2zero; vectorize 0x8000000000000000] ++
  replicate 16 u2zero.

(** The lanes written after the mixing, before the second pass. *)
Definition second_state (state : list uint2) : list uint2 :=
  take 12 state ++
  [vectorize 0x0000000000000001; u2zero; u2zero; u2zero; vectorize 0x8000000000000000] ++
  replicate 8 u2zero.

(** The iteration [tid] of the loop: work-item [tid] shares its seed, all four
    mix, and it takes the compressed mix back. *)
Definition hash_turn (states : list (list uint2)) (tid : nat) : option (list (list uint2)) :=
  state ← states !! tid;
  let share := take 8 state in
  let mix : list (list Z) := (fun thread_id => uint8s (node_words share) (thread_id mod 2)) <$> seq 0 4 in
  let init0 := nth 0 (node_words share) 0 in
  mix ← access_loop init0 mix;
  let share : list uint2 := (fun m => make_uint2 (fnv_reduce (take 4 m)) (fnv_reduce (drop 4 m))) <$> mix in
  Some (<[tid := take 8 state ++ share ++ drop 12 state]> states).

(** The two passes for the four nonces: what each work-item compares with the
    target. *)
Definition hash_values (g_header : list Z) (nonces : list Z) : option (list Z) :=
  let states : list (list uint2) := (fun nonce => KECCAK_PROCESS (first_state g_header nonce) 8) <$> nonces in
  states ← mfold hash_turn (seq 0 4) states;
  Some (map (fun state => reversed_ulong (nth 0 (KECCAK_PROCESS (second_state state) 1) u2zero)) states).
End Search.

(** ** Vectors and words *)

Lemma fnv_fnv1_cl : fnv = Bits.fnv1.
Proof. reflexivity. Qed.

Lemma chunks_slices {A} n k (l : list A) : chunks n k l = (fun i => take n (drop (n * i) l)) <$> seq 0 k.
Proof.
  apply list_eq. intros i. rewrite list_lookup_fmap. destruct (decide (i < k)%nat).
  - by rewrite lookup_chunks, lookup_seq_lt by done.
  - rewrite !lookup_ge_None_2; [done|rewrite length_seq; lia|rewrite length_chunks; lia].
Qed.

Lemma uint8s_concat k ws : length ws = (8 * k)%nat -> concat (uint8s ws <$> seq 0 k) = ws.
Proof.
  intros Hlen. unfold uint8s. rewrite <-chunks_slices. by apply concat_chunks.
Qed.

Lemma zip_with_rows {A B C} (f : A -> B -> C) n ms rs :
  Forall (fun m => length m = n) ms -> Forall (fun r => length r = n) rs -> length ms = length rs ->
  Forall (fun m => length m = n) (zip_with (zip_with f) ms rs) /\
  concat (zip_with (zip_with f) ms rs) = zip_with f (concat ms) (concat rs).
Proof.
  intros Hm. revert rs. induction Hm as [|m ms Hm _ IH]; intros rs Hr Hlen.
  { by destruct rs. }
  destruct Hr as [|r rs Hr Hrs]; [discriminate Hlen|]. injection Hlen as Hlen.
  destruct (IH rs Hrs Hlen) as [H1 H2]. cbn. split.
  - constructor; [rewrite length_zip_with; lia|done].
  - rewrite H2. symmetry. apply zip_with_app. lia.
Qed.

Lemma nth_concat {A} n (ms : list (list A)) t x d :
  Forall (fun m => length m = n) ms -> (t < length ms)%nat -> (x < n)%nat ->
  nth (n * t + x) (concat ms) d = nth x (nth t ms []) d.
Proof.
  intros H. revert t. induction H as [|m ms Hm _ IH]; intros t Ht Hx; cbn [length] in Ht; [lia|].
  cbn [concat]. destruct t as [|t].
  - rewrite Nat.mul_0_r, app_nth1 by lia. done.
  - rewrite app_nth2 by lia. cbn [nth].
    replace (n * S t + x - length m)%nat with (n * t + x)%nat by lia. apply IH; lia.
Qed.

Lemma uint2s_reps h k : length h = (8 * k)%nat -> bytes_ok h -> reps (uint2s h) (le_words 8 h).
Proof.
  intros Hlen Hok. unfold uint2s, words. rewrite Hlen, Nat.mul_comm, Nat.div_mul by lia.
  apply Forall2_fmap, Forall_Forall2_diag.
  pose proof (chunks_lengths 8 k h Hlen) as Hl. pose proof (Forall_chunks _ 8 k h Hok) as Hb.
  apply Forall_forall. intros b Hin. rewrite Forall_forall in Hl, Hb.
  apply pair_words_rep. split; [by apply Hl|by apply Hb].
Qed.

#[local] Opaque calc_dataset_item item_seed sha3_512 sha3_256.

(** ** The main loop *)

(** The dataset the buffers hold, as far as the kernel reads them. *)
Definition dag_stored {build : ClBuild} (dag : dag_buffers) (c : epoch_context) : Prop :=
  forall i, 0 <= i < full_dataset_num_items c -> dag_page dag i = Some (dataset_row c i).

Section Mixing.
Context {build : ClBuild} (dag : dag_buffers) (c : epoch_context).
Context (Hpages : 0 < full_dataset_num_items c) (Hdag : dag_stored dag c).

(** The four vectors [mix] hold the mix [ws]. *)
Definition vectors (mix : list (list Z)) (ws : list Z) : Prop :=
  length mix = 4%nat /\ Forall (fun m => length m = 8%nat) mix /\ Forall (in_word 32) ws /\ concat mix = ws.

Abbreviation spec_round s0 := (hashimoto_round (light_cache c) (full_dataset_num_items c) s0).

Lemma mix_page mix ws o :
  vectors mix ws ->
  vectors (imap (fun thread_id m => fnv_vector m (uint8s (le_words 4 (dataset_row c o)) thread_id)) mix)
    (zip_with EthashSpec.fnv ws (le_words 4 (dataset_row c o))).
Proof.
  intros (Hlen & H8 & Hws & Hc). destruct (dataset_row_wf c o) as [Hrl Hrok].
  assert (Hrw : Forall (in_word 32) (le_words 4 (dataset_row c o)))
    by (apply (words_in_word (host := plain_host) 4 32); [lia|done|done]).
  assert (Hl32 : length (le_words 4 (dataset_row c o)) = 32%nat) by by rewrite length_words, Hrl.
  rewrite <-zip_fnv by done.
  rewrite (imap_zip_0 fnv_vector (uint8s (le_words 4 (dataset_row c o)))), Hlen.
  assert (Hrs : Forall (fun r => length r = 8%nat) (uint8s (le_words 4 (dataset_row c o)) <$> seq 0 4)).
  { unfold uint8s. rewrite <-chunks_slices. apply (chunks_lengths 8 4 _ Hl32). }
  destruct (zip_with_rows fnv 8 mix _ H8 Hrs) as [H1 H2]; [by rewrite length_fmap, length_seq|].
  split; [by rewrite length_zip_with, Hlen|]. split; [exact H1|]. split; [by apply zip_fnv_in_word|].
  unfold fnv_vector. by rewrite H2, Hc, (uint8s_concat 4), fnv_fnv1_cl.
Qed.

Lemma MIX_spec s0 k x mix ws :
  (k < 8)%nat -> (x < 8)%nat -> vectors mix ws ->
  exists mix', MIX dag (full_dataset_num_items c) s0 (8 * k) x mix = Some mix' /\
    vectors mix' (spec_round s0 ws (8 * k + x)).
Proof.
  intros Hk Hx Hm. pose proof Hm as (Hlen & H8 & Hws & Hc). unfold MIX.
  rewrite (proj2 (Z.eqb_neq _ _)) by lia. cbv zeta.
  assert (Ht : (8 * k / 8 mod 4 = k mod 4)%nat) by (rewrite Nat.mul_comm, Nat.div_mul by lia; done).
  assert (Hk4 : (k mod 4 < length mix)%nat) by (pose proof (Nat.mod_upper_bound k 4); lia).
  rewrite Ht, list_lookup_fmap, (lookup_nth_lt mix (k mod 4) []) by done.
  cbn [fmap option_fmap option_map mbind option_bind].
  match goal with |- context [dag_page dag ?e] => set (o := e) end. set (i := (8 * k + x)%nat).
  assert (Ho : o = EthashSpec.fnv (Z.of_nat i .^ s0) (nth (i mod 32) ws 0) mod full_dataset_num_items c).
  { unfold o. rewrite fnv_fnv1 by by apply nth_in_word. rewrite fnv_fnv1_cl, Z.lxor_comm.
    do 2 f_equal. rewrite <-(nth_concat 8) by done. rewrite Hc. f_equal. unfold i.
    replace (8 * k + x)%nat with (8 * (k mod 4) + x + (k / 4) * 32)%nat
      by (pose proof (Nat.div_mod_eq k 4); lia).
    rewrite Nat.Div0.mod_add, (Nat.mod_small (8 * (k mod 4) + x) 32)
      by (pose proof (Nat.mod_upper_bound k 4); lia). done. }
  rewrite Hdag by (rewrite Ho; apply Z.mod_pos_bound; lia). cbn [mbind option_bind].
  eexists. split; [reflexivity|]. unfold hashimoto_round. rewrite <-Ho.
  replace (le_words 4 (calc_dataset_item (light_cache c) (2 * o)) ++
    le_words 4 (calc_dataset_item (light_cache c) (2 * o + 1))) with (le_words 4 (dataset_row c o)).
  - by apply mix_page.
  - unfold dataset_row. rewrite (words_app 4 _ _ 16 16); [done|lia|apply calc_dataset_item_wf..].
Qed.

#[local] Opaque hashimoto_round.

Lemma access_loop_spec s0 mix ws :
  vectors mix ws ->
  exists mix', access_loop dag (full_dataset_num_items c) s0 mix = Some mix' /\
    vectors mix' (fold_left (spec_round s0) (seq 0 64) ws).
Proof.
  intros H.
  destruct (mfold_rel vectors
    (fun mix a => mfold (fun mix x => MIX dag (full_dataset_num_items c) s0 a x mix) (seq 0 8) mix)
    (fun ws a => fold_left (fun ws x => spec_round s0 ws (a + x)) (seq 0 8) ws)
    ((fun k => 8 * k)%nat <$> seq 0 (ACCESSES / 8)) mix ws) as (mix' & E & R); [done| |].
  - intros mix1 ws1 a Ha HR. apply list_elem_of_fmap in Ha as (k & -> & Hk). apply elem_of_seq in Hk.
    change (ACCESSES / 8)%nat with 8%nat in Hk.
    apply (mfold_rel vectors _ (fun ws x => spec_round s0 ws (8 * k + x))); [done|].
    intros mix2 ws2 x Hx HR2. apply elem_of_seq in Hx. apply MIX_spec; [lia|lia|done].
  - exists mix'. split; [exact E|exact R].
Qed.
End Mixing.

(** ** The hash of four work-items *)

Section Group.
Context {build : ClBuild} (dag : dag_buffers) (c : epoch_context) (header : list Z).
Context (Hpages : 0 < full_dataset_num_items c) (Hdag : dag_stored dag c) (Hheader : hash256_wf header).

Abbreviation seed nonce := (seed_of header nonce).

(** A work-item whose first eight lanes hold the seed hash of its nonce. *)
Definition holds_seed (nonce : Z) (st : list uint2) : Prop :=
  length st = 25%nat /\ reps (take 8 st) (le_words 8 (seed nonce)).

(** A work-item whose state also holds the mix hash. *)
Definition holds_mix (nonce : Z) (st : list uint2) : Prop :=
  length st = 25%nat /\ reps (take 12 st) (le_words 8 (seed nonce ++ spec_mix c (seed nonce))).

(** The lanes of the padding. *)
Ltac padding :=
  repeat (constructor; [split; [split; [discriminate|reflexivity]|reflexivity]|]); constructor.

Lemma first_pass nonce :
  in_word 64 nonce -> holds_seed nonce (KECCAK_PROCESS (first_state header nonce) 8).
Proof.
  intros Hn. destruct Hheader as [Hl Hok]. unfold holds_seed, first_state.
  pose proof (uint2s_reps header 4 Hl Hok) as Hr.
  rewrite take_ge by (rewrite (Forall2_length _ _ _ Hr), length_words, Hl; done).
  set (st := uint2s header ++ _). set (zs := le_words 8 header ++ [nonce; 1; 0; 0; 2 ^ 63] ++ replicate 16 0).
  assert (Hzs : length zs = 25%nat) by (unfold zs; by rewrite length_app, length_words, Hl).
  assert (H0 : reps st zs).
  { apply Forall2_app; [done|]. apply Forall2_app; [|apply zeros_rep].
    constructor; [by apply vectorize_rep|padding]. }
  split; [exact (proj2 (KECCAK_PROCESS_rep 8 st zs Hzs H0))|].
  unfold seed_of. rewrite seed_hash_lanes by done.
  exact (KECCAK_PROCESS_output 8 st zs ltac:(lia) Hzs H0).
Qed.

Lemma shared_vectors nonce st :
  holds_seed nonce st ->
  vectors ((fun thread_id => uint8s (node_words (take 8 st)) (thread_id mod 2)) <$> seq 0 4)
    (le_words 4 (seed nonce) ++ le_words 4 (seed nonce)) /\
  nth 0 (node_words (take 8 st)) 0 = nth 0 (le_words 4 (seed nonce)) 0.
Proof.
  intros [Hlen Hst]. destruct (seed_of_wf (mk_device 0 ∅ 0 [] header 0) nonce) as [Hl Hok].
  cbn [d_header] in Hl, Hok. rewrite (node_words_lanes 8 _ _ Hl Hok Hst). split; [|done].
  assert (Hw : Forall (in_word 32) (le_words 4 (seed nonce)))
    by (apply (words_in_word (host := plain_host) 4 16); [lia|done|done]).
  assert (H16 : length (le_words 4 (seed nonce)) = 16%nat) by by rewrite length_words, Hl.
  revert Hw H16. generalize (le_words 4 (seed nonce)). intros ws Hw H16.
  do 16 (destruct ws as [|? ws]; [discriminate H16|]). destruct ws; [|discriminate H16].
  split; [done|]. split; [by repeat constructor|]. split; [by apply Forall_app|reflexivity].
Qed.

Lemma fnv_reduce_spec a b d e :
  in_word 32 b -> in_word 32 d -> in_word 32 e ->
  fnv_reduce [a; b; d; e] = EthashSpec.fnv (EthashSpec.fnv (EthashSpec.fnv a b) d) e.
Proof. intros Hb Hd He. by rewrite !fnv_fnv1. Qed.

Lemma vector_8 m :
  length m = 8%nat -> Forall (in_word 32) m ->
  exists a b d e p q r s, m = [a; b; d; e; p; q; r; s] /\
    in_word 32 b /\ in_word 32 d /\ in_word 32 e /\ in_word 32 q /\ in_word 32 r /\ in_word 32 s.
Proof.
  intros Hm Hw. do 8 (destruct m as [|? m]; [discriminate Hm|]). destruct m; [|discriminate Hm].
  rewrite !Forall_cons in Hw. do 8 eexists. split; [reflexivity|]. tauto.
Qed.

Lemma reduced_lanes mix ws :
  vectors mix ws ->
  reps ((fun m => make_uint2 (fnv_reduce (take 4 m)) (fnv_reduce (drop 4 m))) <$> mix)
    (le_words 8 (of_le_words 4 (compress ws))).
Proof.
  intros (Hlen & H8 & Hws & <-). pose proof (compress_in_word (concat mix)) as Hc.
  destruct mix as [|m0 [|m1 [|m2 [|m3 [|]]]]]; try discriminate Hlen.
  rewrite Forall_concat, !Forall_cons in Hws. destruct Hws as (W0 & W1 & W2 & W3 & _).
  rewrite !Forall_cons in H8. destruct H8 as (L0 & L1 & L2 & L3 & _).
  destruct (vector_8 _ L0 W0) as (? & ? & ? & ? & ? & ? & ? & ? & -> & V0),
    (vector_8 _ L1 W1) as (? & ? & ? & ? & ? & ? & ? & ? & -> & V1),
    (vector_8 _ L2 W2) as (? & ? & ? & ? & ? & ? & ? & ? & -> & V2),
    (vector_8 _ L3 W3) as (? & ? & ? & ? & ? & ? & ? & ? & -> & V3).
  unfold compress in *. cbn [concat app] in *.
  cbn [seq fmap list_fmap Nat.mul Nat.add nth] in *.
  cbn [take drop]. rewrite !Forall_cons in Hc.
  rewrite !fnv_reduce_spec by tauto.
  rewrite !le_words_pairs by tauto. repeat (constructor; [apply make_uint2_rep; tauto|]). constructor.
Qed.

Lemma hash_turn_spec pre st post nonce :
  holds_seed nonce st ->
  exists st', hash_turn dag (full_dataset_num_items c) (pre ++ st :: post) (length pre) =
      Some (pre ++ st' :: post) /\ holds_mix nonce st'.
Proof.
  intros Hst. destruct (shared_vectors nonce st Hst) as [Hv Hi]. destruct Hst as [Hlen Hst].
  unfold hash_turn. rewrite list_lookup_middle by done. cbn [mbind option_bind]. cbv zeta. rewrite Hi.
  destruct (access_loop_spec dag c Hpages Hdag (nth 0 (le_words 4 (seed nonce)) 0) _ _ Hv) as (mix & -> & Hmix).
  cbn [mbind option_bind]. pose proof (reduced_lanes mix _ Hmix) as Hr.
  eexists. split; [by rewrite insert_app_r_alt, Nat.sub_diag by done|].
  assert (Hl : length mix = 4%nat) by apply Hmix. split.
  - rewrite !length_app, length_fmap, length_take, length_drop. lia.
  - rewrite app_assoc, take_app_length'.
    + rewrite (words_app 8 _ _ 8 4); [|lia|apply sha3_512_wf|apply spec_mix_wf].
      by apply Forall2_app.
    + rewrite length_app, length_fmap, length_take. lia.
Qed.

(** The value compared with the target: the leading word of the final hash,
    read big-endian. *)
Definition hash_value (nonce : Z) : Z := be_number (take 8 (final_hash (spec_result c header nonce))).

(** The first lane of a hash, its bytes reversed. *)
Lemma leading_word s zs h :
  reps (take 1 s) (take 1 zs) -> hash256_wf h -> le_words 8 h = take 4 zs ->
  reversed_ulong (nth 0 s u2zero) = be_number (take 8 h).
Proof.
  intros H [Hl Hok] E. rewrite (le_words_step 8 3) in E by (done || lia).
  destruct zs as [|z zs]; [discriminate E|]. injection E as E _.
  destruct s as [|a s]; [by apply Forall2_nil_inv_l in H|].
  apply Forall2_cons in H as [Ha _]. cbn [nth]. unfold reversed_ulong, be_number.
  assert (Hlen8 : length (take 8 h) = 8%nat) by (rewrite length_take; lia).
  assert (Hok8 : bytes_ok (take 8 h)) by by apply Forall_take.
  by rewrite (devectorize_rep a z Ha), <-E, (le_bytes_word _ 8).
Qed.

Lemma second_pass nonce st :
  holds_mix nonce st ->
  reversed_ulong (nth 0 (KECCAK_PROCESS (second_state st) 1) u2zero) = hash_value nonce.
Proof.
  intros [Hlen Hst]. set (data := seed nonce ++ spec_mix c (seed nonce)) in *.
  assert (Hd : hash_wf 96 data).
  { destruct (sha3_512_wf (header ++ le_bytes 8 nonce)) as [Hl1 Ho1].
    destruct (spec_mix_wf c (seed nonce)) as [Hl2 Ho2].
    split; [unfold data; by rewrite length_app, Hl2, (Hl1 : length (seed nonce) = _)|by apply Forall_app]. }
  unfold second_state. set (s := take 12 st ++ _).
  set (zs := le_words 8 data ++ [1; 0; 0; 0; 2 ^ 63] ++ replicate 8 0).
  assert (Hzs : length zs = 25%nat) by (unfold zs; by rewrite length_app, length_words, (proj1 Hd)).
  assert (H0 : reps s zs).
  { apply Forall2_app; [done|]. apply Forall2_app; [|apply zeros_rep].
    padding. }
  pose proof (KECCAK_PROCESS_output 1 s zs ltac:(lia) Hzs H0) as H1.
  unfold hash_value. rewrite spec_result_eq. cbn [final_hash]. fold data.
  apply (leading_word _ (keccak_f 6 zs)).
  - exact H1.
  - apply sha3_256_wf.
  - exact (final_hash_lanes data Hd).
Qed.

Lemma hash_values_spec n0 n1 n2 n3 :
  in_word 64 n0 -> in_word 64 n1 -> in_word 64 n2 -> in_word 64 n3 ->
  hash_values dag (full_dataset_num_items c) header [n0; n1; n2; n3] =
  Some [hash_value n0; hash_value n1; hash_value n2; hash_value n3].
Proof.
  intros H0 H1 H2 H3. unfold hash_values. set (st := fun n : Z => KECCAK_PROCESS (first_state header n) 8).
  change (st <$> [n0; n1; n2; n3]) with [st n0; st n1; st n2; st n3].
  destruct (hash_turn_spec [] (st n0) [st n1; st n2; st n3] n0) as (t0 & E0 & M0); [by apply first_pass|].
  destruct (hash_turn_spec [t0] (st n1) [st n2; st n3] n1) as (t1 & E1 & M1); [by apply first_pass|].
  destruct (hash_turn_spec [t0; t1] (st n2) [st n3] n2) as (t2 & E2 & M2); [by apply first_pass|].
  destruct (hash_turn_spec [t0; t1; t2] (st n3) [] n3) as (t3 & E3 & M3); [by apply first_pass|].
  cbn [app length] in E0, E1, E2, E3. cbn [seq mfold]. rewrite E0. cbn [mbind option_bind].
  rewrite E1. cbn [mbind option_bind]. rewrite E2. cbn [mbind option_bind]. rewrite E3.
  cbn [mbind option_bind map]. by rewrite !(second_pass _ _ M0), (second_pass _ _ M1), (second_pass _ _ M2), (second_pass _ _ M3).
Qed.
End Group.

(** Buffers that hold the dataset of the small context. *)
Definition tiny_buffers : dag_buffers := mk_buffers (d_dag (tiny_device 0)) ∅.

Lemma tiny_buffers_stored media : @dag_stored (mk_build media false) tiny_buffers tiny_context.
Proof.
  intros i Hi. exact (dag_row_spec (tiny_device 0) tiny_context (tiny_device_ok 0) i Hi).
Qed.
