(* ===== verification/ClSearch.v ===== *)
(** * The OpenCL search kernel

    The kernel [search] of [libcl/ethash.cl] as a transition system: the device
    starts work-groups in any order, the memory operations with which the
    work-items report (the counters and the store of the index) interleave in
    any order, and the host may set [abort] at any time while they run.

    The work-items of a work-group test [abort] together: a work-group is
    skipped or hashes as a whole. *)

From stdpp Require Import base numbers list gmap.
From Stdlib Require Import ZArith Lia Bool.
From S2P Require Import Prelude Words KeccakSpec KeccakF Keccak EthashSpec Ethash EthashHash.
From S2P Require Import CudaHelper CudaKeccak CudaKernel ClKeccak ClKernel.

Local Open Scope Z_scope.
Local Open Scope word_scope.
#[local] Opaque calc_dataset_item item_seed sha3_512 sha3_256 hashimoto_round.

Record SearchResults := mk_SearchResults {
  count : Z;
  hashCount : Z;
  abort : Z;
  gid : list Z
}.

Definition MAX_OUTPUTS : Z := 4.

(** [atomic_inc] stores the successor; the old value is what it returns. *)
Definition atomic_inc (old : Z) : Z := u32 (old + 1).

(** How far a work-item has come: it has the value to compare, it is about to
    increment [abort], to increment [count], or to store its index. *)
Inductive item :=
  | Hashed (gid_ local_id value : Z)
  | Aborting (gid_ : Z)
  | Counting (gid_ : Z)
  | Storing (gid_ slot : Z).

#[global] Instance item_eq_dec : EqDecision item.
Proof. solve_decision. Defined.

(** The next memory operation of a work-item. *)
Definition item_step (target : Z) (out : SearchResults) (it : item) : SearchResults * option item :=
  match it with
  | Hashed g local_id value =>
      let h := if local_id =? 0 then atomic_inc (hashCount out) else hashCount out in
      (mk_SearchResults (count out) h (abort out) (gid out),
       if value <=? target then Some (Aborting g) else None)
  | Aborting g =>
      (mk_SearchResults (count out) (hashCount out) (atomic_inc (abort out)) (gid out), Some (Counting g))
  | Counting g =>
      (mk_SearchResults (atomic_inc (count out)) (hashCount out) (abort out) (gid out),
       Some (Storing g (Z.min (MAX_OUTPUTS - 1) (count out))))
  | Storing g slot =>
      (mk_SearchResults (count out) (hashCount out) (abort out) (<[Z.to_nat slot := g]> (gid out)), None)
  end.

Section Kernel.
Context {build : ClBuild} (dag : dag_buffers) (dag_size : Z) (g_header : list Z).
Context (WORKSIZE start_nonce target : Z).

(** The four work-items of [hash_id] in work-group [blk]. *)
Definition hash_items (blk : Z) (hash_id : nat) : option (list item) :=
  let local_ids : list Z := (fun k => Z.of_nat (4 * hash_id + k)) <$> seq 0 4 in
  let gids : list Z := (fun l => u32 (blk * WORKSIZE + l)) <$> local_ids in
  values ← hash_values dag dag_size g_header ((fun g => u64 (start_nonce + g)) <$> gids);
  Some (zip_with (fun '(g, l) v => Hashed g l v) (zip gids local_ids) values).

Definition group_items (blk : Z) : option (list item) :=
  rows ← mapM (hash_items blk) (seq 0 (Z.to_nat (WORKSIZE / 4)));
  Some (concat rows).

(** Work-groups that have not started, work-items that have hashed, the result
    buffer, and whether the host has set [abort]. *)
Record nd_range := mk_range {
  r_waiting : list Z;
  r_items : list item;
  r_output : SearchResults;
  r_kicked : bool
}.

(** [kick_miner] overwrites [abort]. *)
Definition kick_abort (out : SearchResults) : SearchResults :=
  mk_SearchResults (count out) (hashCount out) 1 (gid out).

Inductive range_step : nd_range -> nd_range -> Prop :=
  | group_aborted w1 blk w2 p out k :
      abort out <> 0 -> range_step (mk_range (w1 ++ blk :: w2) p out k) (mk_range (w1 ++ w2) p out k)
  | group_hashed w1 blk w2 p out k its :
      abort out = 0 -> group_items blk = Some its ->
      range_step (mk_range (w1 ++ blk :: w2) p out k) (mk_range (w1 ++ w2) (p ++ its) out k)
  | item_moved w p1 it p2 out k out' it' :
      item_step target out it = (out', it') ->
      range_step (mk_range w (p1 ++ it :: p2) out k) (mk_range w (p1 ++ option_list it' ++ p2) out' k)
  | abort_written w p out k :
      range_step (mk_range w p out k) (mk_range w p (kick_abort out) true).

(** [enqueueNDRangeKernel] for [groups] work-groups. *)
Definition enqueue (groups : Z) (out : SearchResults) : nd_range :=
  mk_range (Z.of_nat <$> seq 0 (Z.to_nat groups)) [] out false.
End Kernel.

(** ** Every schedule *)

Section Range.
Context {build : ClBuild} (dag : dag_buffers) (c : epoch_context) (header : list Z).
Context (Hpages : 0 < full_dataset_num_items c) (Hdag : dag_stored dag c) (Hheader : hash256_wf header).
Context (groups quads start_nonce target : Z).
Context (Hgroups : 0 <= groups) (Hquads : 0 < quads) (Hsize : groups * (4 * quads) < 2 ^ 32).

Abbreviation worksize := (4 * quads).
Abbreviation total := (groups * worksize).
Abbreviation step := (range_step dag (full_dataset_num_items c) header worksize start_nonce target).

(** The value work-item [g] compares, and whether it is a solution. *)
Definition value_of (g : Z) : Z := hash_value c header (u64 (start_nonce + g)).
Definition hits (g : Z) : bool := value_of g <=? target.

Definition group_row (blk : Z) : list item :=
  (fun l => Hashed (blk * worksize + Z.of_nat l) (Z.of_nat l) (value_of (blk * worksize + Z.of_nat l)))
    <$> seq 0 (Z.to_nat worksize).

Lemma hash_items_spec blk h :
  0 <= blk < groups -> (h < Z.to_nat quads)%nat ->
  hash_items dag (full_dataset_num_items c) header worksize start_nonce blk h =
  Some ((fun l => Hashed (blk * worksize + Z.of_nat l) (Z.of_nat l) (value_of (blk * worksize + Z.of_nat l)))
    <$> seq (4 * h) 4).
Proof.
  intros Hb Hh. unfold hash_items.
  assert (E : seq (4 * h) 4 = (fun k => 4 * h + k)%nat <$> seq 0 4) by by rewrite fmap_add_seq, Nat.add_0_r.
  rewrite E. cbn [seq fmap list_fmap].
  assert (Hw : forall k, (k < 4)%nat ->
    u32 (blk * worksize + Z.of_nat (4 * h + k)) = blk * worksize + Z.of_nat (4 * h + k)).
  { intros k Hk. apply wrap_id. unfold in_word. nia. }
  rewrite !Hw by lia. rewrite hash_values_spec by (done || by apply wrap_in_word).
  reflexivity.
Qed.

Lemma rows_concat {A} (f : nat -> A) q :
  concat ((fun h => f <$> seq (4 * h) 4) <$> seq 0 q) = f <$> seq 0 (4 * q).
Proof.
  induction q as [|q IH]; [done|]. rewrite seq_S, fmap_app, concat_app, IH.
  replace (4 * S q)%nat with (4 * q + 4)%nat by lia. rewrite seq_app, fmap_app. cbn [concat fmap list_fmap].
  by rewrite app_nil_r.
Qed.

Lemma group_items_spec blk :
  0 <= blk < groups ->
  group_items dag (full_dataset_num_items c) header worksize start_nonce blk = Some (group_row blk).
Proof.
  intros Hb. unfold group_items, group_row.
  replace (worksize / 4) with quads by (rewrite Z.mul_comm, Z.div_mul; lia).
  replace (Z.to_nat worksize) with (4 * Z.to_nat quads)%nat by lia.
  rewrite <-rows_concat.
  rewrite (mapM_Some_2 _ _ ((fun h => (fun l => Hashed (blk * worksize + Z.of_nat l) (Z.of_nat l)
    (value_of (blk * worksize + Z.of_nat l))) <$> seq (4 * h) 4) <$> seq 0 (Z.to_nat quads))); [done|].
  apply Forall2_fmap_r, Forall_Forall2_diag, Forall_forall. intros h Hh. apply elem_of_seq in Hh.
  apply hash_items_spec; [done|lia].
Qed.

(** Work-items that count a work-group, that have raised [abort], and that have
    not stored their index. *)
Definition counts_group (it : item) : bool := match it with Hashed _ l _ => l =? 0 | _ => false end.
Definition counting (it : item) : bool := match it with Counting _ => true | _ => false end.
Definition storing (it : item) : bool := match it with Storing _ _ => true | _ => false end.

Definition tally (f : item -> bool) (l : list item) : Z := Z.of_nat (length (filter (fun it => f it = true) l)).

Lemma tally_app f l1 l2 : tally f (l1 ++ l2) = tally f l1 + tally f l2.
Proof. unfold tally. rewrite filter_app, length_app. lia. Qed.

Lemma tally_cons f it l : tally f (it :: l) = (if f it then 1 else 0) + tally f l.
Proof.
  unfold tally. rewrite filter_cons. destruct (f it); case_decide; try done. cbn [length]. lia.
Qed.

Lemma tally_nonneg f l : 0 <= tally f l.
Proof. unfold tally. lia. Qed.

Lemma tally_none f l : Forall (fun it => f it = false) l -> tally f l = 0.
Proof. intros H. induction H as [|it l Hit _ IH]; [done|]. by rewrite tally_cons, Hit, IH. Qed.

Definition item_ok (it : item) : Prop :=
  match it with
  | Hashed g l v => exists blk, 0 <= blk < groups /\ 0 <= l < worksize /\ g = blk * worksize + l /\ v = value_of g
  | Aborting g | Counting g => 0 <= g < total /\ hits g = true
  | Storing g slot => (0 <= g < total /\ hits g = true) /\ 0 <= slot < MAX_OUTPUTS
  end.

(** The work-items that may still find that [x] is a solution. *)
Definition looks_at (x : Z) (it : item) : Prop :=
  match it with Hashed g _ _ | Aborting g => g = x | _ => False end.

(** [n]: the work-items that have incremented [abort]. *)
Definition abort_ok (out : SearchResults) (n : Z) (kicked : bool) : Prop :=
  if (n =? 0) && negb kicked then abort out = 0 else 1 <= abort out <= n + 1.

Record range_ok (r : nd_range) : Prop := {
  ok_waiting : Forall (fun blk => 0 <= blk < groups) (r_waiting r);
  ok_items : Forall item_ok (r_items r);
  ok_length : length (gid (r_output r)) = 4%nat;
  ok_hashcount : 0 <= hashCount (r_output r);
  ok_count : 0 <= count (r_output r) /\
    count (r_output r) + (Z.of_nat (length (r_items r)) - tally storing (r_items r)) +
      worksize * Z.of_nat (length (r_waiting r)) <= total;
  ok_abort : abort_ok (r_output r) (count (r_output r) + tally counting (r_items r)) (r_kicked r);
  ok_slots : forall i, (i < 4)%nat -> Z.of_nat i < count (r_output r) ->
    (exists x, gid (r_output r) !! i = Some x /\ 0 <= x < total /\ hits x = true) \/
    (exists g, Storing g (Z.of_nat i) ∈ r_items r);
  ok_complete : abort (r_output r) = 0 -> forall x, 0 <= x < total -> hits x = true ->
    (exists it, it ∈ r_items r /\ looks_at x it) \/ x / worksize ∈ r_waiting r;
  ok_hashes : abort (r_output r) = 0 ->
    hashCount (r_output r) + tally counts_group (r_items r) + Z.of_nat (length (r_waiting r)) = groups
}.

Lemma aborted_ok w1 blk w2 p out k :
  abort out <> 0 -> range_ok (mk_range (w1 ++ blk :: w2) p out k) -> range_ok (mk_range (w1 ++ w2) p out k).
Proof.
  intros Ha [Hw Hp Hl Hh Hc Hab Hs _ _]. cbn [r_waiting r_items r_output r_kicked] in *.
  apply Forall_app in Hw as [Hw1 [_ Hw2]%Forall_cons]. rewrite length_app in Hc. cbn [length] in Hc.
  constructor; cbn [r_waiting r_items r_output r_kicked]; try done;
    [by apply Forall_app|rewrite length_app; split; [apply Hc|nia]].
Qed.

Lemma group_row_ok blk : 0 <= blk < groups -> Forall item_ok (group_row blk).
Proof.
  intros Hb. apply Forall_fmap, Forall_forall. intros l Hl. apply elem_of_seq in Hl.
  exists blk. split_and!; [lia..|done|done].
Qed.

Lemma group_row_tally blk :
  tally storing (group_row blk) = 0 /\ tally counting (group_row blk) = 0 /\
  tally counts_group (group_row blk) = 1.
Proof.
  unfold group_row. split_and!; [apply tally_none, Forall_fmap, Forall_true; done..|].
  replace (Z.to_nat worksize) with (S (Z.to_nat worksize - 1)) by lia.
  cbn [seq]. rewrite fmap_cons, tally_cons, tally_none; [done|].
  apply Forall_fmap, Forall_forall. intros l Hl. apply elem_of_seq in Hl. cbn. apply Z.eqb_neq. lia.
Qed.

Lemma group_row_finds x :
  0 <= x < total -> exists it, it ∈ group_row (x / worksize) /\ looks_at x it.
Proof.
  intros Hx. pose proof (Z.div_mod x worksize ltac:(lia)) as Hd.
  pose proof (Z.mod_pos_bound x worksize ltac:(lia)).
  eexists. split.
  - apply list_elem_of_fmap. exists (Z.to_nat (x mod worksize)). split; [reflexivity|].
    apply elem_of_seq. lia.
  - cbn. lia.
Qed.

Lemma hashed_ok w1 blk w2 p out k :
  0 <= blk < groups -> range_ok (mk_range (w1 ++ blk :: w2) p out k) ->
  range_ok (mk_range (w1 ++ w2) (p ++ group_row blk) out k).
Proof.
  intros Hb [Hw Hp Hl Hh Hc Hab Hs Hcomp Hhs]. cbn [r_waiting r_items r_output r_kicked] in *.
  destruct (group_row_tally blk) as (T1 & T2 & T3).
  apply Forall_app in Hw as [Hw1 [_ Hw2]%Forall_cons]. rewrite length_app in Hc, Hhs. cbn [length] in Hc, Hhs.
  constructor; cbn [r_waiting r_items r_output r_kicked]; try done.
  - by apply Forall_app.
  - apply Forall_app. split; [done|by apply group_row_ok].
  - split; [apply Hc|]. rewrite !length_app, tally_app, T1. unfold group_row.
    rewrite length_fmap, length_seq. lia.
  - by rewrite tally_app, T2, Z.add_0_r.
  - intros i Hi Hlt. destruct (Hs i Hi Hlt) as [?|(g & Hg)]; [by left|right].
    exists g. apply elem_of_app. by left.
  - intros Ha x Hx Hhit. destruct (Hcomp Ha x Hx Hhit) as [(it & Hit & Hlook)|Hin].
    + left. exists it. split; [apply elem_of_app; by left|done].
    + apply elem_of_app in Hin. rewrite elem_of_cons in Hin.
      destruct Hin as [Hin|[<-|Hin]]; [right; apply elem_of_app; by left| |right; apply elem_of_app; by right].
      left. destruct (group_row_finds x Hx) as (it & Hit & Hlook). exists it.
      split; [apply elem_of_app; by right|done].
  - intros Ha. rewrite length_app, tally_app, T3. specialize (Hhs Ha). lia.
Qed.

Lemma written_ok w p out k : range_ok (mk_range w p out k) -> range_ok (mk_range w p (kick_abort out) true).
Proof.
  intros [Hw Hp Hl Hh Hc Hab Hs _ _]. cbn [r_waiting r_items r_output r_kicked] in *.
  constructor; cbn [r_waiting r_items r_output r_kicked kick_abort count hashCount abort gid]; try done.
  unfold abort_ok. rewrite andb_false_r. cbn [abort kick_abort]. pose proof (tally_nonneg counting p). lia.
Qed.

(** A work-item leaves the middle of the list and another takes its place. *)
Lemma elem_of_middle {A} (x y : A) l1 o l2 :
  x ∈ l1 ++ y :: l2 -> x <> y -> x ∈ l1 ++ option_list o ++ l2.
Proof.
  intros Hx Hne. apply elem_of_app in Hx. rewrite elem_of_cons in Hx.
  rewrite !elem_of_app. destruct Hx as [?|[?|?]]; tauto.
Qed.

Lemma item_ok_range g l v : item_ok (Hashed g l v) -> 0 <= g < total /\ v = value_of g.
Proof. intros (blk & Hb & Hl & -> & ->). split; [nia|done]. Qed.

Lemma moved_hashed w p1 g l v p2 out k :
  let h := if l =? 0 then atomic_inc (hashCount out) else hashCount out in
  range_ok (mk_range w (p1 ++ Hashed g l v :: p2) out k) ->
  range_ok (mk_range w (p1 ++ option_list (if v <=? target then Some (Aborting g) else None) ++ p2)
    (mk_SearchResults (count out) h (abort out) (gid out)) k).
Proof.
  intros h [Hw Hp Hl Hh Hc Hab Hs Hcomp Hhs]. cbn [r_waiting r_items r_output r_kicked] in *.
  apply Forall_app in Hp as [Hp1 [Hit Hp2]%Forall_cons]. destruct (item_ok_range g l v Hit) as [Hg Hv].
  rewrite length_app, tally_app, tally_cons in Hc. rewrite tally_app, tally_cons in Hab.
  rewrite tally_app, tally_cons in Hhs. cbn [length storing counting counts_group] in Hc, Hab, Hhs.
  pose proof (tally_nonneg counts_group p1). pose proof (tally_nonneg counts_group p2).
  assert (Hh0 : 0 <= h).
  { unfold h. destruct (l =? 0); [|done]. apply wrap_in_word. lia. }
  assert (Hnew : Forall item_ok (option_list (if v <=? target then Some (Aborting g) else None))).
  { destruct (v <=? target) eqn:E; [|constructor]. constructor; [|constructor]. split; [done|].
    unfold hits. by rewrite <-Hv. }
  assert (Ht : forall f, f (Aborting g) = false ->
    tally f (option_list (if v <=? target then Some (Aborting g) else None)) = 0).
  { intros f Hf. destruct (v <=? target); [|done]. cbn. by rewrite tally_cons, Hf. }
  constructor; cbn [r_waiting r_items r_output r_kicked count hashCount abort gid]; try done.
  - rewrite !Forall_app. tauto.
  - rewrite !length_app, !tally_app, (Ht storing eq_refl). split; [apply Hc|].
    destruct (v <=? target); cbn [option_list option_rect length]; lia.
  - rewrite !tally_app, (Ht counting eq_refl), Z.add_0_l. exact Hab.
  - intros i Hi Hlt. destruct (Hs i Hi Hlt) as [?|(g' & Hg')]; [by left|right].
    exists g'. by apply (elem_of_middle _ (Hashed g l v)).
  - intros Ha x Hx Hhit. destruct (Hcomp Ha x Hx Hhit) as [(it & Hin & Hlook)|Hin]; [|by right].
    left. destruct it as [g' l' v'|g'|g'|g' s']; try done; cbn in Hlook; subst g'.
    + destruct (decide (Hashed x l' v' = Hashed g l v)) as [E|Hne].
      * injection E as -> -> ->. exists (Aborting g). split; [|done].
        unfold hits in Hhit. rewrite Hv, Hhit. apply elem_of_app. right. left.
      * exists (Hashed x l' v'). split; [by apply (elem_of_middle _ (Hashed g l v))|done].
    + exists (Aborting x). split; [by apply (elem_of_middle _ (Hashed g l v))|done].
  - intros Ha. specialize (Hhs Ha). rewrite !tally_app, (Ht counts_group eq_refl). unfold h.
    destruct (l =? 0); [|lia]. unfold atomic_inc. rewrite wrap_id; [lia|]. unfold in_word. nia.
Qed.

Lemma tally_two l : tally counting l + tally storing l <= Z.of_nat (length l).
Proof.
  induction l as [|it l IH]; [done|]. rewrite !tally_cons. cbn [length].
  destruct it; cbn [counting storing]; lia.
Qed.

Lemma total_bound : total <= 2 ^ 32 - 4.
Proof. assert (E : total = 4 * (groups * quads)) by ring. lia. Qed.

Lemma abort_ok_nonzero out n k : 0 < n -> abort_ok out n k -> abort out <> 0.
Proof. intros Hn. unfold abort_ok. rewrite (proj2 (Z.eqb_neq n 0)) by lia. cbn. lia. Qed.

Lemma moved_aborting w p1 g p2 out k :
  range_ok (mk_range w (p1 ++ Aborting g :: p2) out k) ->
  range_ok (mk_range w (p1 ++ Counting g :: p2)
    (mk_SearchResults (count out) (hashCount out) (atomic_inc (abort out)) (gid out)) k).
Proof.
  intros [Hw Hp Hl Hh Hc Hab Hs Hcomp Hhs]. cbn [r_waiting r_items r_output r_kicked] in *.
  apply Forall_app in Hp as [Hp1 [Hit Hp2]%Forall_cons].
  rewrite length_app, tally_app, tally_cons in Hc. rewrite tally_app, tally_cons in Hab.
  cbn [length storing counting] in Hc, Hab.
  pose proof (tally_two p1). pose proof (tally_two p2). pose proof total_bound.
  pose proof (tally_nonneg counting p1). pose proof (tally_nonneg counting p2).
  assert (Hlen : 0 <= worksize * Z.of_nat (length w)) by nia.
  assert (Hab' : 1 <= atomic_inc (abort out) <= count out + tally counting p1 + tally counting p2 + 2).
  { revert Hab. unfold abort_ok, atomic_inc.
    case_match; intros Hab; rewrite wrap_id by (unfold in_word; lia); lia. }
  constructor; cbn [r_waiting r_items r_output r_kicked count hashCount abort gid]; try done.
  - apply Forall_app. split; [done|]. by constructor.
  - rewrite length_app, tally_app, tally_cons. cbn [length storing]. lia.
  - unfold abort_ok. rewrite tally_app, tally_cons. cbn [counting abort].
    rewrite (proj2 (Z.eqb_neq _ 0)) by lia. cbn. lia.
  - intros i Hi Hlt. destruct (Hs i Hi Hlt) as [?|(g' & Hg')]; [by left|right].
    exists g'. by apply (elem_of_middle _ (Aborting g) _ (Some (Counting g))).
  - intros Ha. lia.
  - intros Ha. lia.
Qed.

Lemma moved_counting w p1 g p2 out k :
  range_ok (mk_range w (p1 ++ Counting g :: p2) out k) ->
  range_ok (mk_range w (p1 ++ Storing g (Z.min (MAX_OUTPUTS - 1) (count out)) :: p2)
    (mk_SearchResults (atomic_inc (count out)) (hashCount out) (abort out) (gid out)) k).
Proof.
  intros [Hw Hp Hl Hh Hc Hab Hs Hcomp Hhs]. cbn [r_waiting r_items r_output r_kicked] in *.
  apply Forall_app in Hp as [Hp1 [Hit Hp2]%Forall_cons].
  rewrite length_app, tally_app, tally_cons in Hc. rewrite tally_app, tally_cons in Hab.
  cbn [length storing counting] in Hc, Hab.
  pose proof (tally_two p1). pose proof (tally_two p2). pose proof total_bound.
  pose proof (tally_nonneg counting p1). pose proof (tally_nonneg counting p2).
  assert (Hlen : 0 <= worksize * Z.of_nat (length w)) by nia.
  assert (Hinc : atomic_inc (count out) = count out + 1) by (apply wrap_id; unfold in_word; lia).
  pose proof (abort_ok_nonzero out (count out + (tally counting p1 + (1 + tally counting p2))) k
    ltac:(lia) Hab) as Hne.
  constructor; cbn [r_waiting r_items r_output r_kicked count hashCount abort gid]; rewrite ?Hinc; try done.
  - apply Forall_app. split; [done|]. constructor; [|done]. split; [exact Hit|]. unfold MAX_OUTPUTS. lia.
  - rewrite length_app, tally_app, tally_cons. cbn [length storing]. lia.
  - rewrite tally_app, tally_cons. cbn [counting].
    replace (count out + 1 + _) with (count out + (tally counting p1 + (1 + tally counting p2))) by lia. exact Hab.
  - intros i Hi Hlt. destruct (decide (Z.of_nat i = count out)) as [E|Hne'].
    + right. exists g. apply elem_of_app. right. unfold MAX_OUTPUTS. rewrite <-E, Z.min_r by lia. left.
    + destruct (Hs i Hi ltac:(lia)) as [?|(g' & Hg')]; [by left|right].
      exists g'. by apply (elem_of_middle _ (Counting g) _ (Some _)).
Qed.

Lemma moved_storing w p1 g slot p2 out k :
  range_ok (mk_range w (p1 ++ Storing g slot :: p2) out k) ->
  range_ok (mk_range w (p1 ++ p2)
    (mk_SearchResults (count out) (hashCount out) (abort out) (<[Z.to_nat slot := g]> (gid out))) k).
Proof.
  intros [Hw Hp Hl Hh Hc Hab Hs Hcomp Hhs]. cbn [r_waiting r_items r_output r_kicked] in *.
  apply Forall_app in Hp as [Hp1 [[Hit Hslot] Hp2]%Forall_cons]. unfold MAX_OUTPUTS in Hslot.
  rewrite length_app, tally_app, tally_cons in Hc. rewrite tally_app, tally_cons in Hab, Hhs.
  cbn [length storing counting counts_group] in Hc, Hab, Hhs.
  constructor; cbn [r_waiting r_items r_output r_kicked count hashCount abort gid]; try done.
  - by apply Forall_app.
  - by rewrite length_insert.
  - rewrite length_app, tally_app. lia.
  - by rewrite tally_app.
  - intros i Hi Hlt. destruct (decide (i = Z.to_nat slot)) as [->|Hne].
    + left. exists g. split; [apply list_lookup_insert_eq; lia|exact Hit].
    + rewrite list_lookup_insert_ne by done.
      destruct (Hs i Hi Hlt) as [?|(g' & Hg')]; [by left|right].
      exists g'. apply (elem_of_middle _ (Storing g slot) _ None); [done|]. intros E. injection E as _ E. lia.
  - intros Ha x Hx Hhit. destruct (Hcomp Ha x Hx Hhit) as [(it & Hin & Hlook)|Hin]; [|by right].
    left. exists it. split; [|done]. apply (elem_of_middle _ (Storing g slot) _ None); [done|]. by intros ->.
  - intros Ha. specialize (Hhs Ha). rewrite tally_app. lia.
Qed.

Lemma moved_ok w p1 it p2 out k out' it' :
  item_step target out it = (out', it') -> range_ok (mk_range w (p1 ++ it :: p2) out k) ->
  range_ok (mk_range w (p1 ++ option_list it' ++ p2) out' k).
Proof.
  intros E H. destruct it as [g l v|g|g|g slot]; cbn [item_step] in E; injection E as <- <-.
  - by apply moved_hashed.
  - by apply moved_aborting.
  - by apply moved_counting.
  - by apply (moved_storing w p1 g slot p2).
Qed.

Lemma waiting_middle w1 blk w2 p out k :
  range_ok (mk_range (w1 ++ blk :: w2) p out k) -> 0 <= blk < groups.
Proof. intros [Hw _ _ _ _ _ _ _ _]. cbn in Hw. by apply Forall_app in Hw as [_ [? _]%Forall_cons]. Qed.

Lemma range_step_ok r r' : range_ok r -> step r r' -> range_ok r'.
Proof.
  intros Hr Hstep. destruct Hstep as [w1 blk w2 p out k Ha|w1 blk w2 p out k its Ha Hits|
    w p1 it p2 out k out' it' E|w p out k].
  - by apply (aborted_ok w1 blk).
  - pose proof (waiting_middle _ _ _ _ _ _ Hr) as Hb.
    rewrite group_items_spec in Hits by done. injection Hits as <-. by apply hashed_ok.
  - by apply (moved_ok w p1 it p2 out).
  - by apply (written_ok w p out k).
Qed.

(** The result buffer as the host clears it: the stored indices may be left
    over. *)
Definition zeroed (out : SearchResults) : Prop :=
  count out = 0 /\ hashCount out = 0 /\ abort out = 0 /\ length (gid out) = 4%nat.

Lemma enqueue_ok out : zeroed out -> range_ok (enqueue groups out).
Proof.
  intros (H1 & H2 & H3 & H4). unfold enqueue.
  constructor; cbn [r_waiting r_items r_output r_kicked].
  - apply Forall_fmap, Forall_forall. intros b Hb. apply elem_of_seq in Hb. cbn. lia.
  - constructor.
  - done.
  - lia.
  - rewrite length_fmap, length_seq, H1. unfold tally. cbn. lia.
  - rewrite H1. exact H3.
  - intros i _ Hlt. lia.
  - intros _ x Hx _. right. apply list_elem_of_fmap. exists (Z.to_nat (x / worksize)).
    pose proof (Z.div_pos x worksize). pose proof (Z.div_lt_upper_bound x worksize groups).
    rewrite elem_of_seq. lia.
  - intros _. rewrite length_fmap, length_seq, H2. unfold tally. cbn. lia.
Qed.

Lemma range_reachable_ok out r : zeroed out -> rtc step (enqueue groups out) r -> range_ok r.
Proof.
  intros Hout Hrtc. pose proof (enqueue_ok out Hout) as Hok. revert Hok.
  induction Hrtc as [|r1 r2 r3 Hstep _ IH]; [done|]. intros Hok. apply IH. by apply (range_step_ok r1).
Qed.

(** The memory operations a work-item has left, and those of the whole range. *)
Definition item_work (it : item) : nat :=
  match it with Hashed _ _ _ => 4 | Aborting _ => 3 | Counting _ => 2 | Storing _ _ => 1 end.
Definition range_work (r : nd_range) : nat :=
  ((4 * Z.to_nat worksize + 1) * length (r_waiting r) + sum_list_with item_work (r_items r))%nat.

Lemma item_step_works out it :
  (sum_list_with item_work (option_list (item_step target out it).2) < item_work it)%nat.
Proof. destruct it; cbn; try lia. case_match; cbn; lia. Qed.

Lemma range_step_works r r' :
  range_ok r -> step r r' -> (range_work r' < range_work r)%nat \/
    r' = mk_range (r_waiting r) (r_items r) (kick_abort (r_output r)) true.
Proof.
  intros Hr Hstep. destruct Hstep as [w1 blk w2 p out k Ha|w1 blk w2 p out k its Ha Hits|
    w p1 it p2 out k out' it' E|w p out k]; unfold range_work; cbn [r_waiting r_items r_kicked].
  - left. rewrite !length_app. cbn [length]. lia.
  - left. pose proof (waiting_middle _ _ _ _ _ _ Hr) as Hb.
    rewrite group_items_spec in Hits by done. injection Hits as <-.
    assert (Hrow : sum_list_with item_work (group_row blk) = (4 * Z.to_nat worksize)%nat).
    { unfold group_row. rewrite <-(length_seq (Z.to_nat worksize) 0) at 2.
      induction (seq 0 (Z.to_nat worksize)) as [|l ls IH]; [done|]. cbn [fmap list_fmap sum_list_with item_work length].
      rewrite IH. lia. }
    rewrite sum_list_with_app, Hrow, !length_app. cbn [length]. lia.
  - left. rewrite !sum_list_with_app. cbn [sum_list_with].
    pose proof (item_step_works out it) as H. rewrite E in H. cbn [snd] in H. lia.
  - by right.
Qed.

(** A step of the device is possible. *)
Lemma range_device_step r :
  range_ok r -> range_work r <> 0%nat ->
  exists r', step r r' /\ (r_waiting r' <> r_waiting r \/ r_items r' <> r_items r).
Proof.
  intros Hr Hw.
  assert (Hitem : forall w it p out k, exists r', step (mk_range w (it :: p) out k) r' /\ r_items r' <> it :: p).
  { intros w it p out k. destruct (item_step target out it) as [out' it'] eqn:E.
    eexists. split; [by apply (item_moved _ _ _ _ _ _ w [] it p)|]. cbn [r_items app]. intros H.
    pose proof (item_step_works out it) as Hlt. rewrite E in Hlt. cbn [snd] in Hlt.
    apply (f_equal (sum_list_with item_work)) in H. rewrite sum_list_with_app in H. cbn in H. lia. }
  destruct r as [[|blk w] [|it p] out k].
  - exfalso. apply Hw. unfold range_work. cbn. lia.
  - destruct (Hitem [] it p out k) as (r' & H1 & H2). exists r'. by split; [|right].
  - assert (Hne : w <> blk :: w) by (intros H; apply (f_equal length) in H; cbn in H; lia).
    destruct (decide (abort out = 0)) as [Ha|Ha].
    + eexists. split; [apply (group_hashed _ _ _ _ _ _ [] blk w); [done|]|by left]. apply group_items_spec.
      exact (waiting_middle [] blk w _ _ _ Hr).
    + eexists. by split; [apply (group_aborted _ _ _ _ _ _ [] blk w)|left].
  - destruct (Hitem (blk :: w) it p out k) as (r' & H1 & H2). exists r'. by split; [|right].
Qed.

Lemma range_progress r :
  range_ok r -> range_work r <> 0%nat -> exists r', step r r' /\ (range_work r' < range_work r)%nat.
Proof.
  intros Hr Hw. destruct (range_device_step r Hr Hw) as (r' & H1 & H2). exists r'. split; [exact H1|].
  destruct (range_step_works r r' Hr H1) as [H|H]; [exact H|]. rewrite H in H2. by destruct H2.
Qed.

Lemma range_work_0 r : range_work r = 0%nat -> r_waiting r = [] /\ r_items r = [].
Proof.
  destruct r as [[|blk w] [|it p] out k]; unfold range_work; cbn [r_waiting r_items length sum_list_with]; try done.
  - destruct it; cbn; lia.
  - lia.
  - lia.
Qed.

(** What a finished range has reported. *)
Lemma range_final r :
  range_ok r -> range_work r = 0%nat ->
  (forall i x, (i < 4)%nat -> Z.of_nat i < count (r_output r) -> gid (r_output r) !! i = Some x ->
    0 <= x < total /\ hits x = true) /\
  (r_kicked r = false ->
    ((exists x, 0 <= x < total /\ hits x = true) -> 1 <= count (r_output r)) /\
    (~ (exists x, 0 <= x < total /\ hits x = true) ->
      count (r_output r) = 0 /\ hashCount (r_output r) = groups)).
Proof.
  intros [_ _ Hl Hh Hc Hab Hs Hcomp Hhs] Hw. apply range_work_0 in Hw as [Ew Ep].
  destruct r as [w p out k]. cbn [r_waiting r_items r_output r_kicked] in *. subst w p.
  unfold abort_ok in Hab. change (tally counting []) with 0 in Hab. rewrite Z.add_0_r in Hab.
  assert (Hslot : forall i, (i < 4)%nat -> Z.of_nat i < count out ->
    exists x, gid out !! i = Some x /\ 0 <= x < total /\ hits x = true).
  { intros i Hi Hlt. destruct (Hs i Hi Hlt) as [?|(g & Hg)]; [done|by apply elem_of_nil in Hg]. }
  split.
  { intros i x Hi Hlt Hx. destruct (Hslot i Hi Hlt) as (y & Hy & H). congruence. }
  intros ->. rewrite andb_true_r in Hab. split.
  - intros (x & Hx & Hhit). destruct (Z.eqb_spec (count out) 0) as [E|E]; [|lia].
    destruct (Hcomp Hab x Hx Hhit) as [(it & Hin & _)|Hin]; by apply elem_of_nil in Hin.
  - intros Hno. destruct (Z.eqb_spec (count out) 0) as [E|E].
    + split; [done|]. specialize (Hhs Hab). cbn [length] in Hhs. change (tally counts_group []) with 0 in Hhs. lia.
    + exfalso. apply Hno. destruct (Hslot 0%nat) as (x & _ & H); [lia|lia|]. by exists x.
Qed.
End Range.

(** A nonce whose hash, cut to its leading 64 bits, does not exceed the target. *)
Definition solves {host : Host} (c : epoch_context) (header : list Z) (target nonce : Z) : Prop :=
  exists r, ethash_hash c header nonce = Some r /\ be_number (take 8 (final_hash r)) <= target.

Lemma hits_solves {host : Host} c header start_nonce target x :
  context_ok c -> hash256_wf header ->
  hits c header start_nonce target x = true <-> solves c header target (u64 (start_nonce + x)).
Proof.
  intros Hc Hh. unfold hits, value_of, hash_value, solves.
  rewrite ethash_hash_spec by (done || by apply wrap_in_word). rewrite Z.leb_le. split.
  - intros H. eexists. split; [reflexivity|exact H].
  - intros (r & Hr & H). injection Hr as <-. exact H.
Qed.


