(* ===== verification/ClDag.v ===== *)
(** * Generation of the DAG by the OpenCL program

    The kernel [GenerateDAG] of [libcl/ethash.cl] and the launches with which
    [CLMiner::initEpoch] fills the one or two buffers of the DAG.

    Four work-items exchange nodes through local memory, with a barrier after
    every update, so a variable of the kernel is again the list of its values
    over the four; a node in local memory is the list of its sixteen words. *)

From stdpp Require Import base numbers list gmap strings.
From Stdlib Require Import ZArith Lia Bool.
From S2P Require Import Prelude Words KeccakSpec KeccakF Keccak EthashSpec Ethash EthashHash Outcome.
From S2P Require Import CudaHelper CudaKeccak CudaKernel ClKeccak ClKernel.

Local Open Scope Z_scope.
Local Open Scope word_scope.
#[local] Opaque calc_dataset_item item_seed sha3_512 sha3_256 hashimoto_round.

(** The members of the union [Node]. *)
Fixpoint qwords (dwords : list Z) : list uint2 :=
  match dwords with
  | a :: b :: dwords => make_uint2 a b :: qwords dwords
  | _ => []
  end.
Definition dqwords (dwords : list Z) (k : nat) : list Z := take 4 (drop (4 * k) dwords).
Definition set_dqwords (dwords : list Z) (k : nat) (v : list Z) : list Z :=
  take (4 * k) dwords ++ v ++ drop (4 * k + 4) dwords.

Section Generate.
Context {build : ClBuild} (Cache : list (list Z)) (light_size : Z).

(** [Cache[i]]. *)
Definition cache_node (i : Z) : option (list Z) := le_words 4 <$> array_get Cache i.

(** The copy of the cache node, the xor of its first word and the hash. *)
Definition first_node (NodeIdx : Z) : option (list Z) :=
  if light_size =? 0 then None else
  DAGNode ← cache_node (NodeIdx mod light_size);
  Some (node_words (SHA3_512 (qwords (alter (fun x => x .^ NodeIdx) 0%nat DAGNode)))).

(** The four work-items mix their [uint4] of a parent into one node. *)
Definition mix_node (parentNode node : list Z) : list Z :=
  fold_left (fun node thread_id =>
    set_dqwords node thread_id (fnv_vector (dqwords node thread_id) (dqwords parentNode thread_id)))
    (seq 0 4) node.

(** Iteration [i] of the loop over the parents, for the four work-items: the
    [t]-th node is updated by all of them, each its own [uint4]. *)
Definition parents_step (NodeIdxs : list Z) (dagNode : list (list Z)) (i : nat) : option (list (list Z)) :=
  if light_size =? 0 then None else
  let indexes : list Z :=
    zip_with (fun NodeIdx node => fnv (NodeIdx .^ Z.of_nat i) (nth (i mod 16) node 0) mod light_size)
      NodeIdxs dagNode in
  mfold (fun dagNode t =>
    parentIndex ← indexes !! t;
    parentNode ← cache_node parentIndex;
    Some (alter (mix_node parentNode) t dagNode)) (seq 0 4) dagNode.

(** The end of the kernel: where a node is stored. *)
Definition store_node (NodeIdx : Z) (DAGNode : list Z) (dag : dag_buffers) : dag_buffers :=
  let bytes := of_le_words 4 DAGNode in
  if split_dag then
    let low := NodeIdx .& wnot 32 2 in
    let k := (low / 2) .| (low .& 1) in
    if NodeIdx .& 2 =? 0 then mk_buffers (<[k := bytes]> (g_dag0 dag)) (g_dag1 dag)
    else mk_buffers (g_dag0 dag) (<[k := bytes]> (g_dag1 dag))
  else mk_buffers (<[NodeIdx := bytes]> (g_dag0 dag)) (g_dag1 dag).

(** The four work-items from global id [gid]. *)
Definition generate_nodes (start gid : Z) (dag : dag_buffers) : option dag_buffers :=
  let NodeIdxs : list Z := (fun k => u32 (start + (gid + Z.of_nat k))) <$> seq 0 4 in
  dagNode ← mapM first_node NodeIdxs;
  dagNode ← mfold (parents_step NodeIdxs) (seq 0 256) dagNode;
  Some (fold_left (fun dag '(NodeIdx, node) => store_node NodeIdx (node_words (SHA3_512 (qwords node))) dag)
    (zip NodeIdxs dagNode) dag).

(** [GenerateDAG] for [global] work-items. *)
Definition GenerateDAG (start global : Z) (dag : dag_buffers) : option dag_buffers :=
  mfold (fun dag g => generate_nodes start (4 * Z.of_nat g) dag) (seq 0 (Z.to_nat (global / 4))) dag.
End Generate.

(** ** The launches of [initEpoch] *)

(** [enqueueNDRangeKernel] throws unless the global size is positive and a
    multiple of the local one. *)
Definition range_valid (global local : Z) : bool := (0 <? global) && (0 <? local) && (global mod local =? 0).

Definition invalid_range : exn := StdException "clEnqueueNDRangeKernel"%string.

Section Launches.
Context {build : ClBuild} (Cache : list (list Z)) (light_size clGroupSize : Z).

Definition enqueue_dag (start global : Z) (dag : dag_buffers) : option (outcome dag_buffers) :=
  if range_valid global clGroupSize then Ok <$> GenerateDAG Cache light_size start global dag
  else Some (Throw invalid_range).

(** The body of the [for] loop; [workItems - chunk] is unsigned. *)
Definition chunk_step (workItems chunk : Z) (st : Z * dag_buffers)
  : (Z * dag_buffers) + option (outcome (Z * dag_buffers)) :=
  let '(start, dag) := st in
  if start <=? u32 (workItems - chunk) then
    match enqueue_dag start chunk dag with
    | Some (Ok dag) => inl (u32 (start + chunk), dag)
    | Some (Throw e) => inr (Some (Throw e))
    | None => inr None
    end
  else inr (Some (Ok (start, dag))).

Definition generate_launches (m_dagItems m_block_multiple : Z) (dag : dag_buffers)
  : option (outcome dag_buffers) :=
  let workItems := u32 (m_dagItems * 2) in
  let chunk := u32 (clGroupSize * m_block_multiple) in
  let chunk := if workItems <? chunk then workItems else chunk in
  match loop (chunk_step workItems chunk) fuel64 (0, dag) with
  | inr (Some (Ok (start, dag))) =>
      if start <? workItems then
        let groupsLeft := u32 (workItems - start) in
        if clGroupSize =? 0 then None else
        let groupsLeft := u32 (u32 (groupsLeft + clGroupSize) - 1) / clGroupSize in
        enqueue_dag start (u32 (groupsLeft * clGroupSize)) dag
      else Some (Ok dag)
  | inr (Some (Throw e)) => Some (Throw e)
  | _ => None
  end.
End Launches.

(** ** Where nodes are kept *)

(** Node [k] in the buffers, as [MIX] addresses it. *)
Definition node_at {build : ClBuild} (dag : dag_buffers) (k : Z) : option (list Z) :=
  if split_dag then
    (if k / 2 mod 2 =? 0 then g_dag0 dag else g_dag1 dag) !! (2 * (k / 4) + k mod 2)
  else g_dag0 dag !! k.

Lemma split_index n :
  in_word 32 n -> ((n .& wnot 32 2) / 2) .| ((n .& wnot 32 2) .& 1) = 2 * (n / 4) + n mod 2.
Proof.
  intros Hn. unfold in_word in Hn. apply Z.bits_inj'. intros i Hi.
  assert (Hlow : forall j, 0 <= j -> Z.testbit (n .& wnot 32 2) j = Z.testbit n j && negb (j =? 1)).
  { intros j Hj. rewrite Z.land_spec. destruct (Z.lt_ge_cases j 32).
    - rewrite wnot_testbit by lia. f_equal. f_equal. change 2 with (2 ^ 1). rewrite Z.pow2_bits_eqb by lia.
      apply Z.eqb_sym.
    - rewrite (in_word_testbit 32 ltac:(lia) n j) by (done || lia). done. }
  change 2 with (2 ^ 1) at 2. rewrite Z.lor_spec, Z.land_spec, Z.div_pow2_bits, !Hlow by lia.
  rewrite (Z.add_comm (2 * (n / 4))). destruct (decide (i = 0)) as [->|Hne].
  - rewrite (Z.bit0_odd (n mod 2 + _)), Z.odd_add_mul_2, <-Z.bit0_odd. change 2 with (2 ^ 1).
    rewrite Z.mod_pow2_bits_low by lia. change (0 + 1 =? 1) with true. change (0 =? 1) with false.
    change (Z.testbit 1 0) with true. by rewrite andb_false_r, !andb_true_r.
  - assert (H1 : Z.testbit 1 i = false) by (change 1 with (2 ^ 0); apply Z.pow2_bits_false; lia).
    rewrite H1, andb_false_r, orb_false_r, (proj2 (Z.eqb_neq (i + 1) 1)), andb_true_r by lia.
    replace (i + 1) with (i - 1 + 2) by lia. rewrite <-Z.div_pow2_bits by lia. change (2 ^ 2) with 4.
    replace i with (i - 1 + 1) at 2 by lia. rewrite <-Z.div_pow2_bits by lia. change (2 ^ 1) with 2. f_equal.
    rewrite (Z.mul_comm 2), Z.div_add, (Z.div_small (n mod 2)) by (pose proof (Z.mod_pos_bound n 2); lia). lia.
Qed.

Lemma split_bit n : in_word 32 n -> (n .& 2 =? 0) = (n / 2 mod 2 =? 0).
Proof.
  intros Hn. change 2 with (2 ^ 1) at 1. replace (n / 2 mod 2) with (Z.b2z (Z.testbit n 1)).
  - rewrite Z.land_comm. destruct (Z.testbit n 1) eqn:E.
    + apply Z.eqb_neq. intros H. assert (Hb : Z.testbit (2 ^ 1 .& n) 1 = true).
      { by rewrite Z.land_spec, E, Z.pow2_bits_true by lia. }
      rewrite H, Z.bits_0 in Hb. discriminate Hb.
    + apply Z.eqb_eq, Z.bits_inj'. intros k Hk. rewrite Z.land_spec, Z.bits_0, Z.pow2_bits_eqb by lia.
      destruct (Z.eqb_spec 1 k) as [<-|]; [by rewrite E|done].
  - rewrite Z.testbit_spec' by lia. done.
Qed.

Lemma node_at_stored {build : ClBuild} dag n node k :
  in_word 32 n -> in_word 32 k ->
  node_at (store_node n node dag) k = if decide (k = n) then Some (of_le_words 4 node) else node_at dag k.
Proof.
  intros Hn Hk. unfold node_at, store_node. destruct split_dag; cbn [g_dag0].
  - rewrite split_index, split_bit by done.
    pose proof (Z.div_mod k 2). pose proof (Z.div_mod (k / 2) 2). pose proof (Z.div_mod n 2).
    pose proof (Z.div_mod (n / 2) 2). pose proof (Z.mod_pos_bound k 2). pose proof (Z.mod_pos_bound n 2).
    pose proof (Z.mod_pos_bound (k / 2) 2). pose proof (Z.mod_pos_bound (n / 2) 2).
    assert (E4 : forall m, m / 4 = m / 2 / 2) by (intros m; by rewrite Z.div_div by lia).
    rewrite !E4. case_decide as D.
    + subst n. destruct (k / 2 mod 2 =? 0); cbn [g_dag0 g_dag1]; by rewrite lookup_insert_eq.
    + destruct (Z.eqb_spec (k / 2 mod 2) 0), (Z.eqb_spec (n / 2 mod 2) 0); cbn [g_dag0 g_dag1]; try done;
        rewrite lookup_insert_ne by lia; done.
  - case_decide as D; [subst; by rewrite lookup_insert_eq|by rewrite lookup_insert_ne].
Qed.

(** A page of the DAG is a pair of nodes. *)
Lemma dag_page_nodes {build : ClBuild} dag i :
  in_word 31 i -> dag_page dag i = lo ← node_at dag (2 * i); hi ← node_at dag (2 * i + 1); Some (lo ++ hi).
Proof.
  intros Hi. unfold dag_page, node_at, hash128. destruct split_dag; [|done].
  assert (E1 : 2 * i / 2 = i) by (rewrite Z.mul_comm, Z.div_mul; lia).
  assert (E2 : (2 * i + 1) / 2 = i) by (rewrite Z.mul_comm, Z.div_add_l by lia; change (1 / 2) with 0; lia).
  assert (E4 : forall m, m / 4 = m / 2 / 2) by (intros m; by rewrite Z.div_div by lia).
  rewrite !E4, E1, E2, Z.shiftr_div_pow2 by lia. change (2 ^ 1) with 2.
  replace (2 * i mod 2) with 0 by (rewrite Z.mul_comm, Z.mod_mul; lia).
  replace ((2 * i + 1) mod 2) with 1 by (rewrite Z.add_comm, Z.mul_comm, Z.mod_add by lia; done).
  assert (E : i .& 1 = i mod 2) by exact (Z.land_ones i 1 ltac:(lia)).
  by rewrite E, Z.add_0_r.
Qed.

(** ** Nodes *)

Definition dwords_ok (ws : list Z) : Prop := length ws = 16%nat /\ Forall (in_word 32) ws.

Lemma dwords_16 ws : dwords_ok ws ->
  exists a0 a1 a2 a3 a4 a5 a6 a7 a8 a9 a10 a11 a12 a13 a14 a15,
    ws = [a0; a1; a2; a3; a4; a5; a6; a7; a8; a9; a10; a11; a12; a13; a14; a15].
Proof.
  intros [H _]. do 16 (destruct ws as [|? ws]; [discriminate H|]).
  destruct ws; [|discriminate H]. repeat eexists.
Qed.

Section Nodes.
Context {build : ClBuild}.

Lemma qwords_reps ws :
  dwords_ok ws -> reps (qwords ws) (le_words 8 (of_le_words 4 ws)) /\ length (qwords ws) = 8%nat.
Proof.
  intros H. destruct (dwords_16 ws H) as
    (? & ? & ? & ? & ? & ? & ? & ? & ? & ? & ? & ? & ? & ? & ? & ? & ->).
  destruct H as [_ Hw]. rewrite !Forall_cons in Hw. rewrite !le_words_pairs by tauto.
  cbn [qwords]. split; [|reflexivity]. repeat (constructor; [apply make_uint2_rep; tauto|]). constructor.
Qed.

Lemma hash_words_ok data : dwords_ok (le_words 4 (sha3_512 data)).
Proof.
  destruct (sha3_512_wf data) as [Hl Hok]. split; [by rewrite length_words, Hl|].
  apply (words_in_word (host := plain_host) 4 16); [lia|done|done].
Qed.

(** The hash of a node in local memory. *)
Lemma node_hash ws :
  dwords_ok ws -> node_words (SHA3_512 (qwords ws)) = le_words 4 (sha3_512 (of_le_words 4 ws)).
Proof.
  intros H. destruct (qwords_reps ws H) as [Hr Hl].
  assert (Hwf : hash512_wf (of_le_words 4 ws)).
  { split; [rewrite length_of_words, (proj1 H); done|apply of_words_ok]. }
  destruct (sha3_node_rep _ _ Hl Hwf Hr) as [Hsha _].
  destruct (sha3_512_wf (of_le_words 4 ws)) as [Hl' Hok]. by apply (node_words_lanes 8).
Qed.

(** The four work-items together update all of a node. *)
Lemma node_update ws ps :
  dwords_ok ws -> dwords_ok ps ->
  mix_node ps ws = zip_with EthashSpec.fnv ws ps /\ dwords_ok (zip_with EthashSpec.fnv ws ps).
Proof.
  intros Hw Hp. rewrite <-(zip_fnv ws ps) by apply Hp. split.
  - destruct (dwords_16 ws Hw) as (? & ? & ? & ? & ? & ? & ? & ? & ? & ? & ? & ? & ? & ? & ? & ? & ->).
    destruct (dwords_16 ps Hp) as (? & ? & ? & ? & ? & ? & ? & ? & ? & ? & ? & ? & ? & ? & ? & ? & ->).
    reflexivity.
  - split; [rewrite length_zip_with, (proj1 Hw), (proj1 Hp); done|]. by apply zip_fnv_in_word; apply Hw || apply Hp.
Qed.
End Nodes.

Section Correct.
Context {build : ClBuild} (c : epoch_context) (Hc : context_ok c).

Abbreviation cache := (light_cache c).
Abbreviation lsize := (light_cache_num_items c).

Lemma cache_node_spec k :
  exists row, cache_node cache (k mod lsize) = Some (le_words 4 row) /\ dwords_ok (le_words 4 row) /\
    row = nth (Z.to_nat (k mod Z.of_nat (length cache))) cache [].
Proof.
  destruct Hc as (Hn & [Hlen Hwf] & _).
  assert (El : Z.of_nat (length cache) = lsize) by (rewrite Hlen; lia).
  pose proof (Z.mod_pos_bound k lsize ltac:(lia)) as Hm. rewrite El. eexists.
  unfold cache_node. rewrite (array_get_nth []) by lia. split; [reflexivity|]. split; [|done].
  assert (Hrow : hash512_wf (nth (Z.to_nat (k mod lsize)) cache []))
    by (apply (Forall_nth_lt hash512_wf); [done|lia]).
  destruct Hrow as [Hl Hok]. split; [by rewrite length_words, Hl|].
  apply (words_in_word (host := plain_host) 4 16); [lia|done|done].
Qed.

Lemma first_node_spec n :
  in_word 32 n -> first_node cache lsize n = Some (item_seed cache n) /\ dwords_ok (item_seed cache n).
Proof.
  intros Hn. unfold first_node. rewrite (proj2 (Z.eqb_neq lsize 0)) by (destruct Hc; lia).
  destruct (cache_node_spec n) as (row & -> & Hok & Hrow). cbn [mbind option_bind].
  rewrite item_seed_eq, <-Hrow. split; [|apply hash_words_ok]. rewrite node_hash; [done|].
  destruct (dwords_16 _ Hok) as (? & ? & ? & ? & ? & ? & ? & ? & ? & ? & ? & ? & ? & ? & ? & ? & E).
  rewrite E in Hok |- *. destruct Hok as [_ Hw]. apply Forall_cons in Hw as [H0 Hw].
  split; [done|]. constructor; [by apply lxor_in_word|done].
Qed.

Lemma parents_step_spec n0 n1 n2 n3 w0 w1 w2 w3 i :
  dwords_ok w0 -> dwords_ok w1 -> dwords_ok w2 -> dwords_ok w3 ->
  parents_step cache lsize [n0; n1; n2; n3] [w0; w1; w2; w3] i =
    Some [item_round cache n0 w0 i; item_round cache n1 w1 i; item_round cache n2 w2 i; item_round cache n3 w3 i] /\
  dwords_ok (item_round cache n0 w0 i) /\ dwords_ok (item_round cache n1 w1 i) /\
  dwords_ok (item_round cache n2 w2 i) /\ dwords_ok (item_round cache n3 w3 i).
Proof.
  intros H0 H1 H2 H3. unfold parents_step. rewrite (proj2 (Z.eqb_neq lsize 0)) by (destruct Hc; lia).
  cbn [zip_with].
  assert (Hidx : forall n w, dwords_ok w ->
    fnv (n .^ Z.of_nat i) (nth (i mod 16) w 0) = EthashSpec.fnv (n .^ Z.of_nat i) (nth (i mod 16) w 0)).
  { intros n w Hw. by rewrite fnv_fnv1 by (apply nth_in_word, Hw). }
  rewrite !Hidx by done. unfold item_round.
  set (idx := fun n w => EthashSpec.fnv (n .^ Z.of_nat i) (nth (i mod 16) w 0)).
  fold (idx n0 w0) (idx n1 w1) (idx n2 w2) (idx n3 w3).
  destruct (cache_node_spec (idx n0 w0)) as (r0 & E0 & P0 & <-), (cache_node_spec (idx n1 w1)) as (r1 & E1 & P1 & <-),
    (cache_node_spec (idx n2 w2)) as (r2 & E2 & P2 & <-), (cache_node_spec (idx n3 w3)) as (r3 & E3 & P3 & <-).
  destruct (node_update w0 _ H0 P0) as [U0 D0], (node_update w1 _ H1 P1) as [U1 D1],
    (node_update w2 _ H2 P2) as [U2 D2], (node_update w3 _ H3 P3) as [U3 D3].
  split; [|auto]. cbn [seq mfold lookup list_lookup mbind option_bind].
  rewrite E0. cbn [mbind option_bind alter list_alter]. rewrite U0, E1. cbn [mbind option_bind alter list_alter].
  rewrite U1, E2. cbn [mbind option_bind alter list_alter]. rewrite U2, E3. cbn [mbind option_bind alter list_alter].
  by rewrite U3.
Qed.

#[local] Opaque item_round.

Lemma parents_loop_cl n0 n1 n2 n3 l : forall w0 w1 w2 w3,
  dwords_ok w0 -> dwords_ok w1 -> dwords_ok w2 -> dwords_ok w3 ->
  let out n w := fold_left (item_round cache n) l w in
  mfold (parents_step cache lsize [n0; n1; n2; n3]) l [w0; w1; w2; w3] =
    Some [out n0 w0; out n1 w1; out n2 w2; out n3 w3] /\
  dwords_ok (out n0 w0) /\ dwords_ok (out n1 w1) /\ dwords_ok (out n2 w2) /\ dwords_ok (out n3 w3).
Proof.
  induction l as [|i l IH]; intros w0 w1 w2 w3 H0 H1 H2 H3; [done|]. cbv zeta. cbn [mfold fold_left].
  destruct (parents_step_spec n0 n1 n2 n3 w0 w1 w2 w3 i H0 H1 H2 H3) as (-> & R0 & R1 & R2 & R3).
  cbn [mbind option_bind]. by apply IH.
Qed.

(** The bytes a work-item stores. *)
Lemma item_bytes n :
  dwords_ok (fold_left (item_round cache n) (seq 0 256) (item_seed cache n)) ->
  of_le_words 4 (node_words (SHA3_512 (qwords (fold_left (item_round cache n) (seq 0 256) (item_seed cache n))))) =
  calc_dataset_item cache n.
Proof.
  intros H. rewrite node_hash, calc_dataset_item_eq by done.
  set (data := of_le_words 4 (fold_left _ _ _)). destruct (sha3_512_wf data) as [Hl Hok].
  by rewrite (of_words_words 4 16) by (done || lia).
Qed.

(** Buffers in which the first [m] nodes have been generated. *)
Definition generated (dag0 : dag_buffers) (m : Z) (dag : dag_buffers) : Prop :=
  forall k, in_word 32 k ->
    node_at dag k = if decide (k < m) then Some (calc_dataset_item cache k) else node_at dag0 k.

Lemma generated_0 dag : generated dag 0 dag.
Proof. intros k [Hk _]. by rewrite decide_False by lia. Qed.

Lemma generated_store dag0 m dag :
  in_word 32 m -> generated dag0 m dag ->
  dwords_ok (fold_left (item_round cache m) (seq 0 256) (item_seed cache m)) ->
  generated dag0 (m + 1) (store_node m (node_words (SHA3_512 (qwords
    (fold_left (item_round cache m) (seq 0 256) (item_seed cache m))))) dag).
Proof.
  intros Hm Hg Hd k Hk. rewrite node_at_stored, item_bytes by done. case_decide.
  - subst k. by rewrite decide_True by lia.
  - rewrite (Hg k Hk). repeat case_decide; done || lia.
Qed.

Lemma generate_nodes_spec dag0 start gid dag :
  0 <= start -> 0 <= gid -> start + gid + 3 < 2 ^ 32 -> generated dag0 (start + gid) dag ->
  exists dag', generate_nodes cache lsize start gid dag = Some dag' /\ generated dag0 (start + gid + 4) dag'.
Proof.
  intros Hs Hg Hr Hgen. unfold generate_nodes. set (n := start + gid) in *.
  assert (Hnodes : (fun k => u32 (start + (gid + Z.of_nat k))) <$> seq 0 4 = [n; n + 1; n + 1 + 1; n + 1 + 1 + 1]).
  { cbn [seq fmap list_fmap]. rewrite !wrap_id by (unfold in_word; lia).
    unfold n. f_equal; [lia|f_equal; [lia|f_equal; [lia|f_equal; lia]]]. }
  cbv zeta. rewrite Hnodes.
  destruct (first_node_spec n) as [F0 D0]; [unfold in_word; lia|].
  destruct (first_node_spec (n + 1)) as [F1 D1]; [unfold in_word; lia|].
  destruct (first_node_spec (n + 1 + 1)) as [F2 D2]; [unfold in_word; lia|].
  destruct (first_node_spec (n + 1 + 1 + 1)) as [F3 D3]; [unfold in_word; lia|].
  cbn [mapM]. rewrite F0, F1, F2, F3. cbn [mbind option_bind mret option_ret].
  destruct (parents_loop_cl n (n + 1) (n + 1 + 1) (n + 1 + 1 + 1) (seq 0 256) _ _ _ _ D0 D1 D2 D3)
    as (-> & P0 & P1 & P2 & P3).
  cbn [mbind option_bind zip zip_with fold_left]. eexists. split; [reflexivity|].
  replace (n + 4) with (n + 1 + 1 + 1 + 1) by lia.
  repeat (apply generated_store; [unfold in_word; lia| |assumption]). exact Hgen.
Qed.

Lemma GenerateDAG_spec dag0 start m dag :
  0 <= start -> 0 <= m -> start + 4 * m <= 2 ^ 32 -> generated dag0 start dag ->
  exists dag', GenerateDAG cache lsize start (4 * m) dag = Some dag' /\ generated dag0 (start + 4 * m) dag'.
Proof.
  intros Hs Hm Hr Hg. unfold GenerateDAG.
  replace (4 * m / 4) with m by (rewrite Z.mul_comm, Z.div_mul; lia).
  assert (H : forall j, (j <= Z.to_nat m)%nat -> exists dag',
    mfold (fun dag g => generate_nodes cache lsize start (4 * Z.of_nat g) dag) (seq 0 j) dag = Some dag' /\
    generated dag0 (start + 4 * Z.of_nat j) dag').
  { induction j as [|j IH]; intros Hj; [exists dag; by rewrite Z.add_0_r|].
    destruct IH as (dag1 & E1 & G1); [lia|]. rewrite seq_S, mfold_app, E1. cbn [mbind option_bind mfold Nat.add].
    destruct (generate_nodes_spec dag0 start (4 * Z.of_nat j) dag1) as (dag2 & -> & G2); [lia..|done|].
    exists dag2. split; [done|]. by replace (start + 4 * Z.of_nat (S j)) with (start + 4 * Z.of_nat j + 4) by lia. }
  destruct (H (Z.to_nat m)) as (dag' & E & G); [lia|]. rewrite Z2Nat.id in G by lia. by exists dag'.
Qed.

(** ** The launches *)

Section Launch.
Context (q mult : Z) (Hq : 0 < q).

Abbreviation gs := (4 * q).
Abbreviation items := (2 * full_dataset_num_items c).
Abbreviation chunk := (gs * mult).

Context (Hmult : 0 < mult) (Hchunk : chunk <= items) (Hfit : items + gs <= 2 ^ 32).

Lemma range_valid_groups m : 0 < m -> range_valid (gs * m) gs = true.
Proof.
  intros Hm. unfold range_valid. rewrite (proj2 (Z.ltb_lt _ _)), (proj2 (Z.ltb_lt _ _)) by nia.
  by rewrite Z.mul_comm, Z.mod_mul by lia.
Qed.

Lemma enqueue_dag_spec dag0 start m dag :
  0 <= start -> 0 < m -> start + gs * m <= 2 ^ 32 -> generated dag0 start dag ->
  exists dag', enqueue_dag cache lsize gs start (gs * m) dag = Some (Ok dag') /\
    generated dag0 (start + gs * m) dag'.
Proof.
  intros Hs Hm Hr Hg. unfold enqueue_dag. rewrite range_valid_groups by done.
  replace (gs * m) with (4 * (q * m)) in * by lia.
  destruct (GenerateDAG_spec dag0 start (q * m) dag) as (dag' & -> & G); [done|nia|done|done|].
  by exists dag'.
Qed.

(** Before an iteration of the loop. *)
Definition chunks_inv (dag0 : dag_buffers) (st : Z * dag_buffers) : Prop :=
  exists j, 0 <= j /\ st.1 = gs * j /\ st.1 <= items /\ generated dag0 st.1 st.2.

Lemma chunk_loop dag0 :
  exists st, loop (chunk_step cache lsize gs items chunk) fuel64 (0, dag0) = inr (Some (Ok st)) /\
    chunks_inv dag0 st /\ items - chunk < st.1.
Proof.
  destruct (loop_total (chunk_step cache lsize gs items chunk) (chunks_inv dag0) (fun st => items - st.1)
    (fun r => exists st, r = Some (Ok st) /\ chunks_inv dag0 st /\ items - chunk < st.1)
    fuel64 (0, dag0)) as (r & E & (st & -> & Hst)).
  - intros st (j & _ & _ & H & _). lia.
  - intros [start dag] (j & Hj & Hb & Hle & Hg). cbn [fst snd] in *. unfold chunk_step.
    rewrite (wrap_id 32 (items - chunk)) by (unfold in_word; nia).
    destruct (Z.leb_spec start (items - chunk)).
    + destruct (enqueue_dag_spec dag0 start mult dag) as (dag' & -> & G); [nia|done|lia|done|].
      rewrite wrap_id by (unfold in_word; nia). split; [|cbn [fst]; nia].
      exists (j + mult). cbn [fst snd]. split_and!; [lia|lia|lia|exact G].
    + eexists. split; [reflexivity|]. split; [by exists j|cbn [fst]; lia].
  - exists 0. cbn [fst snd]. destruct Hc as (_ & _ & ? & _). split_and!; [lia|lia|lia|apply generated_0].
  - cbn [fst]. unfold fuel64. lia.
  - by exists st.
Qed.

(** The number of nodes the launches write: the nodes of the dataset rounded up
    to whole work-groups. *)
Definition nodes_written : Z := gs * ((items + gs - 1) / gs).

Lemma nodes_written_bounds : items <= nodes_written < items + gs.
Proof.
  clear -Hq. unfold nodes_written. pose proof (Z.div_mod (items + gs - 1) gs ltac:(lia)).
  pose proof (Z.mod_pos_bound (items + gs - 1) gs ltac:(lia)). lia.
Qed.

Lemma generate_launches_spec dag :
  exists dag', generate_launches cache lsize gs (full_dataset_num_items c) mult dag = Some (Ok dag') /\
    generated dag nodes_written dag'.
Proof.
  unfold generate_launches. rewrite (Z.mul_comm (full_dataset_num_items c)).
  destruct Hc as (_ & _ & Hpos & _).
  rewrite (wrap_id 32 items), (wrap_id 32 chunk) by (unfold in_word; nia).
  rewrite (proj2 (Z.ltb_ge items chunk)) by lia.
  destruct (chunk_loop dag) as ([start dag1] & -> & (j & Hj & Hs & Hle & Hg) & Hlast). cbn [fst snd] in *.
  pose proof nodes_written_bounds as Hn. destruct (Z.ltb_spec start items) as [Hlt|Hge].
  - assert (0 < start) by lia. rewrite (proj2 (Z.eqb_neq gs 0)) by lia.
    rewrite (wrap_id 32 (items - start)), (wrap_id 32 (items - start + gs)),
      (wrap_id 32 (items - start + gs - 1)) by (unfold in_word; lia).
    set (left := (items - start + gs - 1) / gs).
    assert (Hleft : start + gs * left = nodes_written).
    { unfold left, nodes_written. rewrite Hs.
      replace (items - gs * j + gs - 1) with (items + gs - 1 + (- j) * gs) by lia.
      rewrite Z.div_add by lia. lia. }
    assert (0 < left) by nia. rewrite wrap_id by (unfold in_word; nia).
    rewrite (Z.mul_comm left). rewrite <-Hleft. apply enqueue_dag_spec; [lia|done|lia|done].
  - exists dag1. split; [done|]. replace nodes_written with start; [done|].
    assert (E : items = gs * j) by lia. unfold nodes_written. rewrite E, Hs.
    replace (gs * j + gs - 1) with (gs - 1 + j * gs) by lia. rewrite Z.div_add, Z.div_small by lia. done.
Qed.
End Launch.
End Correct.

(** The sizes in bytes of the buffers [initEpoch] creates. *)
Definition dag_buffer_sizes {build : ClBuild} (dagSize dagNumItems : Z) : Z * Z :=
  if split_dag then
    let delta := if dagNumItems .& 1 =? 0 then 0 else 64 in
    (u64 (dagSize / 2 + delta), u64 (dagSize / 2 - delta))
  else (dagSize, 0).

(** The buffer and the index in it of page [idx], as [MIX] computes them. *)
Definition page_address {build : ClBuild} (idx : Z) : bool * Z :=
  if split_dag then (negb (idx .& 1 =? 0), idx .> 1) else (false, idx).

(** Every page of a generated dataset is where the search kernel reads it. *)
Lemma generated_stored {build : ClBuild} c q dag0 dag :
  0 < q -> 2 * full_dataset_num_items c + 4 * q <= 2 ^ 32 ->
  generated c dag0 (nodes_written c q) dag -> dag_stored dag c.
Proof.
  intros Hq Hfit G i Hi. pose proof (nodes_written_bounds c q Hq).
  rewrite dag_page_nodes, !G by (unfold in_word; lia). by rewrite !decide_True by lia.
Qed.

Lemma land_1 x : x .& 1 = x mod 2.
Proof. exact (Z.land_ones x 1 ltac:(lia)). Qed.

Lemma parity_cases x : x mod 2 = 0 \/ x mod 2 = 1.
Proof. pose proof (Z.mod_pos_bound x 2). lia. Qed.

Lemma split_sizes n :
  0 < n -> 128 * n < 2 ^ 64 ->
  let delta := if n .& 1 =? 0 then 0 else 64 in
  u64 (128 * n / 2 + delta) = 128 * ((n + 1) / 2) /\ u64 (128 * n / 2 - delta) = 128 * (n / 2).
Proof.
  intros Hn Hfit. cbv zeta. rewrite land_1. replace (128 * n / 2) with (64 * n)
    by (replace (128 * n) with (64 * n * 2) by lia; rewrite Z.div_mul; lia).
  pose proof (Z.div_mod n 2 ltac:(lia)). pose proof (Z.div_mod (n + 1) 2 ltac:(lia)).
  pose proof (Z.mod_pos_bound (n + 1) 2). destruct (parity_cases n) as [E|E]; rewrite E in *; cbn [Z.eqb].
  - assert ((n + 1) / 2 = n / 2) by lia. rewrite !wrap_id by (unfold in_word; lia). lia.
  - assert ((n + 1) / 2 = n / 2 + 1) by lia.
    change (match 0 with 0 => 0 | _ => 64 end) with 0. rewrite !wrap_id by (unfold in_word; lia). lia.
Qed.

(** C13: With one buffer or two, the launches of [initEpoch] terminate and leave
    every page of the dataset where the search kernel reads it, whatever the
    buffers held before; every page lies within the buffers allocated. *)
Theorem cl_generate_dag_correct (build : ClBuild) (c : epoch_context) (q mult : Z) (dag : dag_buffers) :
  context_ok c -> 0 < q -> 0 < mult -> 4 * q * mult <= 2 * full_dataset_num_items c ->
  2 * full_dataset_num_items c + 4 * q <= 2 ^ 32 ->
  let sizes := dag_buffer_sizes (128 * full_dataset_num_items c) (full_dataset_num_items c) in
  (exists dag', generate_launches (light_cache c) (light_cache_num_items c) (4 * q)
      (full_dataset_num_items c) mult dag = Some (Ok dag') /\ dag_stored dag' c) /\
  (forall idx, 0 <= idx < full_dataset_num_items c ->
    let '(second, i) := page_address idx in
    0 <= 128 * i /\ 128 * (i + 1) <= if (second : bool) then sizes.2 else sizes.1).
Proof.
  intros Hc Hq Hm Hchunk Hfit sizes. pose proof (proj1 (proj2 (proj2 Hc))) as Hpos. split.
  - destruct (generate_launches_spec c Hc q mult Hq Hm Hchunk Hfit dag) as (dag' & E & G).
    exists dag'. split; [exact E|]. by apply (generated_stored c q dag).
  - intros idx Hi. unfold page_address, sizes, dag_buffer_sizes. destruct split_dag; [|cbn; lia].
    destruct (split_sizes (full_dataset_num_items c)) as [-> ->]; [lia|lia|]. cbn [fst snd].
    rewrite land_1, Z.shiftr_div_pow2 by lia. change (2 ^ 1) with 2.
    set (n := full_dataset_num_items c) in *.
    pose proof (Z.div_mod idx 2 ltac:(lia)). pose proof (Z.div_mod n 2 ltac:(lia)). pose proof (Z.mod_pos_bound n 2).
    pose proof (Z.div_mod (n + 1) 2 ltac:(lia)). pose proof (Z.mod_pos_bound (n + 1) 2).
    destruct (parity_cases idx) as [E|E]; rewrite E in *; cbn [Z.eqb negb]; lia.
Qed.

Lemma cl_generate_dag_correct_witness :
  exists dag', @generate_launches (mk_build false true) (light_cache tiny_context) 3 4 5 2 (mk_buffers ∅ ∅) =
    Some (Ok dag') /\ @dag_stored (mk_build false true) dag' tiny_context.
Proof.
  refine (proj1 (cl_generate_dag_correct (mk_build false true) tiny_context 1 2 (mk_buffers ∅ ∅) tiny_context_ok
    _ _ _ _)).
  - reflexivity.
  - reflexivity.
  - discriminate.
  - discriminate.
Defined.

(** The kernel does not test the node index against the size of the DAG: the
    number of pages is an odd prime, so the last work-group runs past the end,
    and the node behind the buffer (the second one, when there are two) is
    written. *)
Theorem cl_dag_write_past_end (build : ClBuild) (c : epoch_context) (q mult : Z) :
  let n := full_dataset_num_items c in
  let sizes := dag_buffer_sizes (128 * n) n in
  context_ok c -> Z.odd n = true -> 0 < q -> 0 < mult -> 4 * q * mult <= 2 * n -> 2 * n + 4 * q <= 2 ^ 32 ->
  exists dag', generate_launches (light_cache c) (light_cache_num_items c) (4 * q) n mult (mk_buffers ∅ ∅) =
      Some (Ok dag') /\
    (if split_dag then sizes.2 = 64 * (n - 1) /\ g_dag1 dag' !! (n - 1) <> None
     else sizes.1 = 64 * (2 * n) /\ g_dag0 dag' !! (2 * n) <> None).
Proof.
  intros n sizes Hc Hodd Hq Hm Hchunk Hfit. pose proof (proj1 (proj2 (proj2 Hc))) as Hpos. fold n in Hpos.
  rewrite Zodd_mod in Hodd. apply Zeq_bool_eq in Hodd.
  destruct (generate_launches_spec c Hc q mult Hq Hm Hchunk Hfit (mk_buffers ∅ ∅)) as (dag' & E & G).
  exists dag'. split; [exact E|]. pose proof (nodes_written_bounds c q Hq) as Hb. fold n in Hb.
  pose proof (Z.div_mod n 2 ltac:(lia)) as Hd.
  assert (Hlt : 2 * n < nodes_written c q).
  { assert (nodes_written c q <> 2 * n); [|lia]. unfold nodes_written. lia. }
  specialize (G (2 * n) ltac:(unfold in_word; lia)). rewrite decide_True in G by done.
  unfold node_at in G. unfold sizes, dag_buffer_sizes. destruct split_dag.
  - rewrite (proj2 (split_sizes n Hpos ltac:(lia))). cbn [snd].
    replace (2 * n / 2) with n in G by (rewrite Z.mul_comm, Z.div_mul; lia). rewrite Hodd in G. cbn [Z.eqb] in G.
    replace (2 * (2 * n / 4) + 2 * n mod 2) with (n - 1) in G.
    + split; [lia|]. by rewrite G.
    + replace (2 * n) with (2 + (n / 2) * 4) by lia. rewrite Z.div_add by lia. change (2 / 4) with 0.
      replace (2 + n / 2 * 4) with ((1 + n / 2 * 2) * 2) by lia. rewrite Z.mod_mul by lia. lia.
  - cbn [fst]. split; [lia|]. by rewrite G.
Qed.

Lemma loop_stop {A B} (f : A -> A + B) p a b : f a = inr b -> loop f p a = inr b.
Proof.
  intros E. rewrite loop_niter. destruct (Pos2Nat.is_succ p) as [k ->]. cbn [niter]. by rewrite E.
Qed.

(** When a chunk would exceed the number of nodes it is cut to that number, which
    is not a multiple of the work-group size: the first launch throws. *)
Theorem cl_dag_chunk_too_large (build : ClBuild) (c : epoch_context) (q mult : Z) (dag : dag_buffers) :
  let n := full_dataset_num_items c in
  0 < n -> Z.odd n = true -> 0 < q -> 2 * n < 4 * q * mult < 2 ^ 32 ->
  generate_launches (light_cache c) (light_cache_num_items c) (4 * q) n mult dag = Some (Throw invalid_range).
Proof.
  intros n Hn Hodd Hq Hchunk. unfold generate_launches. rewrite (Z.mul_comm n).
  rewrite (wrap_id 32 (2 * n)), (wrap_id 32 (4 * q * mult)) by (unfold in_word; lia).
  rewrite (proj2 (Z.ltb_lt _ _)) by lia.
  assert (Hstep : chunk_step (light_cache c) (light_cache_num_items c) (4 * q) (2 * n) (2 * n) (0, dag) =
    inr (Some (Throw invalid_range))).
  { unfold chunk_step. rewrite Z.sub_diag. unfold enqueue_dag, range_valid.
    assert (Hmod : 2 * n mod (4 * q) <> 0).
    { intros E. apply Z.mod_divide in E as [k E]; [|lia]. rewrite Zodd_mod in Hodd. apply Zeq_bool_eq in Hodd.
      pose proof (Z.div_mod n 2 ltac:(lia)). lia. }
    rewrite (proj2 (Z.eqb_neq _ 0)), andb_false_r by done. done. }
  by rewrite (loop_stop _ _ _ _ Hstep).
Qed.
