(* ===== verification/ClMiner.v ===== *)
(** * The OpenCL miner ([libcl/CLMiner])

    The host side of the OpenCL miner: the buffers and the mutex that guards
    them, [initEpoch], [kick_miner] and the work loop.  Calls of the OpenCL
    runtime are inputs: an environment says which of them throw and what the
    device leaves in the result buffer.  The command queue executes in order,
    so a command takes effect when it is enqueued.

    [None] is undefined behaviour; here that is above all the miner's thread
    locking [m_abortMutex] while it holds it. *)

From Stdlib Require Import ZArith Lia Bool Floats.SpecFloat.
From stdpp Require Import base numbers list gmap.
From S2P Require Import Prelude Words Keccak EthashSpec Ethash EthashHash Managed Outcome.
From S2P Require Import CommonData FixedHash Floats Miner CudaMiner CudaHelper CudaKeccak CudaKernel.
From S2P Require Import ClKeccak ClKernel ClSearch ClDag.

Local Open Scope Z_scope.
Local Open Scope word_scope.
#[local] Opaque calc_dataset_item item_seed sha3_512 sha3_256 hashimoto_round ethash_hash.

(** ** State *)

(** What exists between [initEpoch] and [free_buffers]: the queues, the buffers
    and the arguments of the search kernel. *)
Record cl_device := mk_cl_device {
  dv_build : ClBuild;
  dv_dag : dag_buffers;
  dv_header : list Z;
  dv_target : Z;
  dv_results : SearchResults
}.

Definition set_dv_header (d : cl_device) (h : list Z) : cl_device :=
  mk_cl_device (dv_build d) (dv_dag d) h (dv_target d) (dv_results d).
Definition set_dv_target (d : cl_device) (t : Z) : cl_device :=
  mk_cl_device (dv_build d) (dv_dag d) (dv_header d) t (dv_results d).
Definition set_dv_results (d : cl_device) (r : SearchResults) : cl_device :=
  mk_cl_device (dv_build d) (dv_dag d) (dv_header d) (dv_target d) r.

(** The miner; [cl_locked]: its own thread holds [m_abortMutex]. *)
Record CLMiner := mk_CLMiner {
  cl_miner : Miner;
  cl_device_ : option cl_device;
  cl_locked : bool;
  cl_block_multiple : Z;
  clGroupSize : Z;
  cl_totalMemory : Z;
  clSplit : bool
}.

Definition set_cl_miner (m : CLMiner) (x : Miner) : CLMiner :=
  mk_CLMiner x (cl_device_ m) (cl_locked m) (cl_block_multiple m) (clGroupSize m) (cl_totalMemory m) (clSplit m).
Definition set_cl_device (m : CLMiner) (x : option cl_device) : CLMiner :=
  mk_CLMiner (cl_miner m) x (cl_locked m) (cl_block_multiple m) (clGroupSize m) (cl_totalMemory m) (clSplit m).
Definition set_cl_locked (m : CLMiner) (x : bool) : CLMiner :=
  mk_CLMiner (cl_miner m) (cl_device_ m) x (cl_block_multiple m) (clGroupSize m) (cl_totalMemory m) (clSplit m).
Definition set_cl_multiple (m : CLMiner) (x : Z) : CLMiner :=
  mk_CLMiner (cl_miner m) (cl_device_ m) (cl_locked m) x (clGroupSize m) (cl_totalMemory m) (clSplit m).

(** The constructor. *)
Definition CLMiner_new (miner : Miner) (groupSize memory : Z) (split : bool) : CLMiner :=
  mk_CLMiner miner None false 200000 groupSize memory split.

(** [m_abortMutex] is a [std::mutex]: locking it twice and unlocking it without
    holding it are undefined. *)
Definition lock_abort (m : CLMiner) : option CLMiner :=
  if cl_locked m then None else Some (set_cl_locked m true).
Definition unlock_abort (m : CLMiner) : option CLMiner :=
  if cl_locked m then Some (set_cl_locked m false) else None.

Definition free_buffers (m : CLMiner) : option CLMiner :=
  m ← lock_abort m;
  Some (set_cl_device m None).

(** [kick_miner] called by the miner's own thread. *)
Definition kick_self (m : CLMiner) : option CLMiner :=
  m ← lock_abort m;
  let m :=
    match cl_device_ m with
    | Some d => set_cl_device m (Some (set_dv_results d (kick_abort (dv_results d))))
    | None => m
    end in
  unlock_abort m.

(** [Miner::pause], which kicks. *)
Definition cl_pause (m : CLMiner) (what : MinerPauseEnum) : option CLMiner :=
  kick_self (set_cl_miner m (pause (cl_miner m) what)).
Definition cl_resume (m : CLMiner) (what : MinerPauseEnum) : CLMiner :=
  set_cl_miner m (resume (cl_miner m) what).

(** ** initEpoch *)

(** Which calls succeed: the context and queues, the small buffers, the DAG in
    one buffer and in two, the program, the kernels and the copy of the light
    cache; whether the device has the media operations; what new memory holds. *)
Record cl_init_env := mk_cl_init {
  ci_context : bool;
  ci_buffers : bool;
  ci_dag : bool;
  ci_split : bool;
  ci_build : bool;
  ci_kernels : bool;
  ci_media_ops : bool;
  ci_memory : dag_buffers;
  ci_results : SearchResults
}.

Definition sizeof_SearchResults : Z := 28.

(** [pause(..); free_buffers(); return false;]: the end of every handler. *)
Definition init_handler (m : CLMiner) : option (CLMiner * bool) :=
  m ← cl_pause m PauseDueToInitEpochError;
  m ← free_buffers m;
  Some (m, false).

(** [zerox3] written over the counters. *)
Definition clear_results (r : SearchResults) : SearchResults := mk_SearchResults 0 0 0 (gid r).

(** The end of [initEpoch], with the device set up. *)
Definition init_finish (m : CLMiner) (d : cl_device) : option (CLMiner * bool) :=
  let m := set_cl_device m (Some d) in
  let m := set_cl_miner m (set_initialized (cl_miner m) true) in
  m ← unlock_abort m;
  Some (m, true).

(** The kernels' arguments, the light cache and the launches that generate the
    DAG; [dagOk] says that it is in one buffer. *)
Definition init_generate (env : cl_init_env) (dagOk : bool) (m : CLMiner) : option (CLMiner * bool) :=
  let ec := m_epochContext (cl_miner m) in
  let build := mk_build (ci_media_ops env) (negb dagOk) in
  light ← lightCache ec;
  launched ← @generate_launches build light (u32 (lightSize ec / 64)) (clGroupSize m) (u32 (dagNumItems ec))
    (cl_block_multiple m) (ci_memory env);
  match launched with
  | Throw _ => init_handler m
  | Ok dag =>
      init_finish m (mk_cl_device build dag (h_zero 32) 0 (clear_results (ci_results env)))
  end.

(** The [try] block after [free_buffers]. *)
Definition init_create (env : cl_init_env) (m : CLMiner) : option (CLMiner * bool) :=
  if negb (ci_context env) then init_handler m else
  if negb (ci_buffers env) then init_handler m else
  let dagOk := negb (clSplit m) && ci_dag env in
  if negb dagOk && negb (ci_split env) then init_handler m else
  let m := cl_resume m PauseDueToInsufficientMemory in
  let m := cl_resume m PauseDueToInitEpochError in
  if negb (ci_build env) then init_handler m else
  if negb (ci_kernels env) then init_handler m else
  init_generate env dagOk m.

Definition initEpoch (env : cl_init_env) (m : CLMiner) : option (CLMiner * bool) :=
  let m := set_cl_miner m (set_initialized (cl_miner m) false) in
  let ec := m_epochContext (cl_miner m) in
  let RequiredMemory := u64 (u64 (u64 (dagSize ec + lightSize ec) + sizeof_SearchResults) + 32) in
  if cl_totalMemory m <? RequiredMemory then
    m ← cl_pause m PauseDueToInsufficientMemory;
    Some (m, false)
  else
  m ← free_buffers m;
  init_create env m.

(** ** workLoop *)

Definition CL_TARGET_BATCH_TIME : float := S754_finite false 10066330 (-25).

(** The multiplier for the next batches. *)
Definition next_multiple (m : CLMiner) : option Z :=
  let hr := m_hashRate (cl_miner m) in
  if SFltb (double_of_Z 10000000) hr then
    uint32_of_float (fdiv (SFmul 24 128 hr CL_TARGET_BATCH_TIME) (float_of_Z (clGroupSize m)))
  else Some (cl_block_multiple m).

(** A launch of the search kernel: the first nonce and the number of
    work-items. *)
Record launch := mk_launch { la_start : Z; la_items : Z }.

(** The variables of the loop.  [ls_running] is the launch whose results have
    not been read; [ls_submitted] records the solutions handed to the farm. *)
Record loop_st := mk_loop_st {
  ls_current : WorkPackage;
  ls_startNonce : Z;
  ls_running : option launch;
  ls_submitted : list (Z * WorkPackage);
  ls_launches : list (launch * WorkPackage)
}.

Definition loop_start : loop_st :=
  mk_loop_st (set_header WorkPackage_default (h_zero 32)) 0 None [] [].

(** What an iteration meets: what the device left in the buffer; the words of
    [results] on the stack, which are not initialised; the context of the epoch;
    the answers of the runtime; the work after an epoch was initialised; whether
    the commands that read the results, and those that start a search, throw;
    the clock. *)
Record cl_env := mk_cl_env {
  ce_results : SearchResults;
  ce_stack : SearchResults;
  ce_context : epoch_context;
  ce_init : cl_init_env;
  ce_work : WorkPackage;
  ce_read_throws : bool;
  ce_throws : bool;
  ce_now : Z;
  ce_spurious : bool
}.

Inductive cl_iteration :=
  | ClIdle (m : CLMiner) (st : loop_st)
  | ClLaunched (m : CLMiner) (st : loop_st)
  | ClExit (m : CLMiner) (st : loop_st)
  | ClThrow (m : CLMiner) (st : loop_st).

(** The top of the loop: the results, read and then cleared. *)
Definition read_results (env : cl_env) (m : CLMiner) (st : loop_st) : CLMiner * SearchResults :=
  match cl_device_ m with
  | Some d =>
      let r := match ls_running st with Some _ => ce_results env | None => dv_results d end in
      (set_cl_device m (Some (set_dv_results d (clear_results r))), r)
  | None =>
      (m, mk_SearchResults 0 (hashCount (ce_stack env)) (abort (ce_stack env)) (gid (ce_stack env)))
  end.

(** [free_buffers(); m_abortMutex.unlock();]. *)
Definition leave_loop (m : CLMiner) : option CLMiner :=
  m ← free_buffers m;
  unlock_abort m.

(** The solutions reported for the launch that [current] describes. *)
Definition report (current : WorkPackage) (r : SearchResults) : list (Z * WorkPackage) :=
  let c := if MAX_OUTPUTS <? count r then MAX_OUTPUTS else count r in
  (fun g => (u64 (startNonce current + g), current)) <$> take (Z.to_nat c) (gid r).

(** The epoch part of an iteration: [inl] leaves the loop. *)
Definition epoch_part (env : cl_env) (m : CLMiner) (st : loop_st) (w : WorkPackage)
  : option (CLMiner + CLMiner * WorkPackage) :=
  if epoch (ls_current st) =? epoch w then Some (inr (m, w)) else
  let m := set_cl_miner m (setEpoch (cl_miner m) (ce_context env) (epoch w)) in
  '(m, b) ← initEpoch (ce_init env) m;
  if (b : bool) then Some (inr (set_cl_miner m (freeCache (cl_miner m)), ce_work env)) else Some (inl m).

(** A new header: the start nonce, the header, the counters and the target. *)
Definition switch_part (env : cl_env) (m : CLMiner) (st : loop_st) (w : WorkPackage)
  : option (CLMiner + CLMiner * WorkPackage * Z) :=
  if h_eq (header (ls_current st)) (header w) then Some (inr (m, w, ls_startNonce st)) else
  ep ← epoch_part env m st w;
  match ep with
  | inl m => Some (inl m)
  | inr (m, w) =>
      d ← cl_device_ m;
      let d := set_dv_header d (header w) in
      let d := set_dv_results d (clear_results (dv_results d)) in
      let d := set_dv_target d (be_number (take 8 (boundary w))) in
      Some (inr (set_cl_device m (Some d), w, startNonce w))
  end.

(** One iteration of [while (!shouldStop())]. *)
Definition workLoop_step (env : cl_env) (m : CLMiner) (st : loop_st) : option cl_iteration :=
  if ce_read_throws env && bool_decide (is_Some (cl_device_ m)) then
    m ← leave_loop m;
    Some (ClThrow m st)
  else
  let '(m, results) := read_results env m st in
  let st := mk_loop_st (ls_current st) (ls_startNonce st) None (ls_submitted st) (ls_launches st) in
  let w := m_work (cl_miner m) in
  if negb (wp_bool w) then Some (ClIdle (set_cl_miner m (set_hung (cl_miner m) false)) st) else
  sw ← switch_part env m st w;
  match sw with
  | inl m =>
      m ← leave_loop m;
      Some (ClExit m st)
  | inr (m, w, start) =>
      mult ← next_multiple m;
      let m := set_cl_multiple m mult in
      let batch_blocks := u32 (clGroupSize m * mult) in
      let m := set_cl_miner m (set_hung (cl_miner m) false) in
      if ce_throws env || negb (range_valid batch_blocks (clGroupSize m)) then
        m ← leave_loop m;
        Some (ClThrow m st)
      else
      d ← cl_device_ m;
      let l := mk_launch start batch_blocks in
      let current := set_startNonce w start in
      let st := mk_loop_st current (u64 (start + batch_blocks)) (Some l)
        (ls_submitted st ++ report (ls_current st) results) (ls_launches st ++ [(l, current)]) in
      let m := set_cl_miner m (updateHashRate (cl_miner m) (clGroupSize m) (hashCount results)
        (ce_now env) (ce_spurious env)) in
      Some (ClLaunched m st)
  end.

(** ** initEpoch is correct, or locks twice *)

#[local] Opaque generate_launches loop.

Lemma kick_self_unlocked m : cl_locked m = false -> exists m', kick_self m = Some m' /\
  cl_locked m' = false /\ cl_miner m' = cl_miner m /\
  cl_device_ m' = (fun d => set_dv_results d (kick_abort (dv_results d))) <$> cl_device_ m.
Proof.
  intros Hl. unfold kick_self, lock_abort. rewrite Hl. cbn [mbind option_bind].
  cbn [cl_device_ set_cl_locked]. destruct (cl_device_ m) eqn:E; eexists; (split; [reflexivity|]); done.
Qed.

Lemma free_buffers_unlocked m :
  cl_locked m = false -> free_buffers m = Some (set_cl_device (set_cl_locked m true) None).
Proof. intros Hl. unfold free_buffers, lock_abort. by rewrite Hl. Qed.

Lemma init_handler_locked m : cl_locked m = true -> init_handler m = None.
Proof. intros Hl. unfold init_handler, cl_pause, kick_self, lock_abort. cbn [cl_locked set_cl_miner]. by rewrite Hl. Qed.

(** The calls of the runtime that follow [free_buffers] all succeed. *)
Definition init_calls (env : cl_init_env) (m : CLMiner) : bool :=
  ci_context env && ci_buffers env && (negb (clSplit m) && ci_dag env || ci_split env) &&
  ci_build env && ci_kernels env.

(** The sizes [initEpoch] works with. *)
Definition sizes_ok (m : CLMiner) (c : epoch_context) : Prop :=
  exists q, clGroupSize m = 4 * q /\ 0 < q /\ 0 < cl_block_multiple m /\
    clGroupSize m * cl_block_multiple m <= 2 * full_dataset_num_items c /\
    2 * full_dataset_num_items c + clGroupSize m <= 2 ^ 32.

Definition memory_short (m : CLMiner) (c : epoch_context) : bool :=
  cl_totalMemory m <? 128 * full_dataset_num_items c + 64 * light_cache_num_items c + sizeof_SearchResults + 32.

(** The device is ready for the dataset of [c]. *)
Definition cl_ready (m : CLMiner) (c : epoch_context) : Prop :=
  exists d, cl_device_ m = Some d /\ @dag_stored (dv_build d) (dv_dag d) c /\
    zeroed (dv_results d).

Lemma context_sizes c :
  context_ok c ->
  get_full_dataset_size (full_dataset_num_items c) = 128 * full_dataset_num_items c /\
  get_light_cache_size (light_cache_num_items c) = 64 * light_cache_num_items c.
Proof.
  intros (Hl & _ & Hn). unfold int_max in Hn.
  unfold get_full_dataset_size, full_dataset_item_size, get_light_cache_size, light_cache_item_size.
  rewrite (wrap_id _ (full_dataset_num_items c)), (wrap_id _ (light_cache_num_items c)) by (unfold in_word; lia).
  rewrite !wrap_id by (unfold in_word; lia). lia.
Qed.

(** [initEpoch] after [setEpoch]. *)
Definition init_for (env : cl_init_env) (m : CLMiner) (c : epoch_context) (e : Z) : option (CLMiner * bool) :=
  initEpoch env (set_cl_miner m (setEpoch (cl_miner m) c e)).

Lemma required_memory m c e :
  context_ok c ->
  let ec := m_epochContext (setEpoch (cl_miner m) c e) in
  (cl_totalMemory m <? u64 (u64 (u64 (dagSize ec + lightSize ec) + sizeof_SearchResults) + 32)) = memory_short m c.
Proof.
  intros Hc. cbv zeta. cbn [m_epochContext setEpoch set_epochContext dagSize lightSize].
  destruct (context_sizes c Hc) as [-> ->]. destruct Hc as (Hl & _ & Hn). unfold int_max in Hn.
  unfold memory_short, sizeof_SearchResults.
  rewrite (wrap_id _ (_ + 64 * _)) by (unfold in_word; lia).
  rewrite (wrap_id _ (_ + 28)), wrap_id by (unfold in_word; lia). done.
Qed.

Lemma init_short env m c e :
  context_ok c -> cl_locked m = false -> memory_short m c = true ->
  exists m', init_for env m c e = Some (m', false) /\ cl_locked m' = false /\
    m_initialized (cl_miner m') = false /\ wp_bool (m_work (cl_miner m')) = false /\
    pauseTest (cl_miner m') PauseDueToInsufficientMemory = true.
Proof.
  intros Hc Hl Hs. unfold init_for, initEpoch. cbv zeta.
  cbn [cl_miner set_cl_miner m_epochContext set_initialized cl_totalMemory].
  rewrite (required_memory m c e Hc), Hs. unfold cl_pause.
  match goal with |- context [kick_self ?x] => destruct (kick_self_unlocked x) as (m' & -> & H1 & H2 & _); [exact Hl|] end.
  exists m'. split; [done|]. split; [done|]. rewrite H2. split; [done|]. split; [done|].
  apply Z.setbit_eq. cbn. lia.
Qed.

(** A miner set up for the epoch of [c]. *)
Definition set_up (m : CLMiner) (c : epoch_context) : Prop :=
  lightCache (m_epochContext (cl_miner m)) = Some (light_cache c) /\
  lightSize (m_epochContext (cl_miner m)) = 64 * light_cache_num_items c /\
  dagNumItems (m_epochContext (cl_miner m)) = full_dataset_num_items c.

Lemma setEpoch_set_up m c e : context_ok c -> set_up (set_cl_miner m (setEpoch (cl_miner m) c e)) c.
Proof.
  intros Hc. unfold set_up. cbn [cl_miner set_cl_miner m_epochContext setEpoch set_epochContext lightCache lightSize dagNumItems].
  by rewrite (setEpoch_cache c Hc), (proj2 (context_sizes c Hc)).
Qed.

(** What [initEpoch] leaves when it succeeds. *)
Definition init_done (m m' : CLMiner) (c : epoch_context) : Prop :=
  cl_locked m' = false /\ cl_ready m' c /\
  (clGroupSize m' = clGroupSize m /\ cl_block_multiple m' = cl_block_multiple m) /\
  m_hashRate (cl_miner m') = m_hashRate (cl_miner m) /\ m_initialized (cl_miner m') = true /\
  m_pauseFlags (cl_miner m') = m_pauseFlags (cl_miner m).

Lemma bind_eq {A B} (x : option A) (f : A -> option B) a : x = Some a -> (x ≫= f) = f a.
Proof. by intros ->. Qed.

Lemma init_finish_spec m d c :
  cl_locked m = true -> @dag_stored (dv_build d) (dv_dag d) c -> zeroed (dv_results d) ->
  exists m', init_finish m d = Some (m', true) /\ init_done m m' c.
Proof.
  intros Hl Hst Hz. unfold init_finish, unlock_abort. cbn [cl_locked set_cl_miner set_cl_device]. rewrite Hl.
  eexists. split; [reflexivity|]. split; [reflexivity|]. split; [by exists d|]. done.
Qed.

Lemma init_launches build m c dag :
  context_ok c -> sizes_ok m c ->
  exists dag', @generate_launches build (light_cache c) (u32 (64 * light_cache_num_items c / 64)) (clGroupSize m)
      (u32 (full_dataset_num_items c)) (cl_block_multiple m) dag = Some (Ok dag') /\ @dag_stored build dag' c.
Proof.
  intros Hc (q & Hg & Hq & Hm & Hchunk & Hfit).
  assert (El : u32 (64 * light_cache_num_items c / 64) = light_cache_num_items c).
  { rewrite Z.mul_comm, Z.div_mul, wrap_id; [done| |lia]. destruct Hc as (Hn & _). unfold in_word. lia. }
  assert (En : u32 (full_dataset_num_items c) = full_dataset_num_items c).
  { apply wrap_id. destruct Hc as (_ & _ & Hn). unfold in_word. lia. }
  rewrite El, En, Hg. rewrite Hg in Hchunk, Hfit.
  destruct (@generate_launches_spec build c Hc q (cl_block_multiple m) Hq Hm Hchunk Hfit dag) as (dag' & E & G).
  exists dag'. split; [exact E|]. exact (@generated_stored build c q _ _ Hq Hfit G).
Qed.

Lemma init_generate_spec env dagOk m c :
  context_ok c -> set_up m c -> sizes_ok m c -> cl_locked m = true -> length (gid (ci_results env)) = 4%nat ->
  exists m', init_generate env dagOk m = Some (m', true) /\ init_done m m' c.
Proof.
  intros Hc (E1 & E2 & E3) Hs Hl Hgid. unfold init_generate. rewrite E2, E3, (bind_eq _ _ _ E1).
  destruct (init_launches (mk_build (ci_media_ops env) (negb dagOk)) m c (ci_memory env) Hc Hs) as (dag' & E & Hst).
  rewrite (bind_eq _ _ _ E). by apply init_finish_spec.
Qed.

Lemma init_create_spec env m c :
  context_ok c -> set_up m c -> sizes_ok m c -> cl_locked m = true -> length (gid (ci_results env)) = 4%nat ->
  if init_calls env m then
    exists m1 m', init_create env m = Some (m', true) /\ init_done m1 m' c /\
      m1 = cl_resume (cl_resume m PauseDueToInsufficientMemory) PauseDueToInitEpochError
  else init_create env m = None.
Proof.
  intros Hc Hu Hs Hl Hgid. unfold init_create, init_calls.
  destruct (ci_context env); cbn [negb andb]; [|by apply init_handler_locked].
  destruct (ci_buffers env); cbn [negb andb]; [|by apply init_handler_locked].
  set (dagOk := negb (clSplit m) && ci_dag env).
  destruct (negb dagOk && negb (ci_split env)) eqn:Ed.
  { replace (dagOk || ci_split env) with false by (destruct dagOk, (ci_split env); done).
    by apply init_handler_locked. }
  replace (dagOk || ci_split env) with true by (destruct dagOk, (ci_split env); done). cbn [andb].
  destruct (ci_build env); cbn [negb andb]; [|by apply init_handler_locked].
  destruct (ci_kernels env); cbn [negb andb]; [|by apply init_handler_locked].
  set (m1 := cl_resume _ _).
  destruct (init_generate_spec env dagOk m1 c Hc Hu Hs Hl Hgid) as (m' & E & Hd).
  exists m1, m'. done.
Qed.

Lemma init_long env m c e :
  context_ok c -> cl_locked m = false -> sizes_ok m c -> memory_short m c = false ->
  length (gid (ci_results env)) = 4%nat ->
  if init_calls env m then
    exists m', init_for env m c e = Some (m', true) /\ cl_locked m' = false /\ cl_ready m' c /\
      (clGroupSize m' = clGroupSize m /\ cl_block_multiple m' = cl_block_multiple m) /\
      m_hashRate (cl_miner m') = m_hashRate (cl_miner m) /\
      m_initialized (cl_miner m') = true /\
      pauseTest (cl_miner m') PauseDueToInsufficientMemory = false /\
      pauseTest (cl_miner m') PauseDueToInitEpochError = false
  else init_for env m c e = None.
Proof.
  intros Hc Hl Hs Hshort Hgid. unfold init_for, initEpoch. cbv zeta.
  cbn [cl_miner set_cl_miner m_epochContext set_initialized cl_totalMemory].
  rewrite (required_memory m c e Hc), Hshort, free_buffers_unlocked by exact Hl. cbn [mbind option_bind].
  match goal with |- context [init_create env ?x] => set (m0 := x) end.
  pose proof (init_create_spec env m0 c Hc (setEpoch_set_up m c e Hc) Hs eq_refl Hgid) as H.
  change (init_calls env m0) with (init_calls env m) in H. destruct (init_calls env m); [|exact H].
  destruct H as (m1 & m' & E & (D1 & D2 & D3 & D4 & D5 & D6) & ->). exists m'.
  split; [exact E|]. split; [exact D1|]. split; [exact D2|]. split; [exact D3|]. split; [exact D4|].
  split; [exact D5|]. unfold pauseTest. rewrite D6. set (f := m_pauseFlags (cl_miner m)).
  change (Z.testbit (Z.clearbit (Z.clearbit f 3) 4) 3 = false /\ Z.testbit (Z.clearbit (Z.clearbit f 3) 4) 4 = false).
  split; [|apply Z.clearbit_eq]. rewrite Z.clearbit_neq by lia. apply Z.clearbit_eq.
Qed.


(** A miner for the small context, and an environment in which the program does
    not compile. *)
Definition tiny_cl_miner (multiple memory : Z) : CLMiner :=
  mk_CLMiner (Miner_new 0 0 sample_hw) None false multiple 8 memory false.
Definition no_program (build : bool) : cl_init_env :=
  mk_cl_init true true true true build true false (mk_buffers ∅ ∅) (mk_SearchResults 9 9 9 [1; 2; 3; 4]).

Lemma tiny_sizes_ok memory : sizes_ok (tiny_cl_miner 1 memory) tiny_context.
Proof. exists 2. cbn. lia. Qed.


(** ** The work loop *)

(** The leading bits of the boundary, as the kernel compares them. *)
Definition target_of (w : WorkPackage) : Z := be_number (take 8 (boundary w)).

Section WorkLoop.
Context {host : Host} (contexts : Z -> epoch_context) (Hcontexts : forall e, context_ok (contexts e)).
Context (quads : Z) (Hquads : 0 < quads).

(** A nonce handed to the farm solves the work it is handed with. *)
Definition solution (s : Z * WorkPackage) : Prop :=
  solves (contexts (epoch s.2)) (header s.2) (target_of s.2) s.1.

(** The device is set up for [w]. *)
Definition device_for (w : WorkPackage) (d : cl_device) : Prop :=
  @dag_stored (dv_build d) (dv_dag d) (contexts (epoch w)) /\ dv_header d = header w /\
  dv_target d = target_of w /\ hash256_wf (header w).

(** The device ran launch [l] to its end and left [res]. *)
Definition finished (w : WorkPackage) (d : cl_device) (l : launch) (kicked : bool) (res : SearchResults) : Prop :=
  exists out r, zeroed out /\
    rtc (@range_step (dv_build d) (dv_dag d) (full_dataset_num_items (contexts (epoch w))) (dv_header d)
      (4 * quads) (la_start l) (dv_target d)) (enqueue (la_items l / (4 * quads)) out) r /\
    range_work quads r = 0%nat /\ r_kicked r = kicked /\ r_output r = res.

(** Launches with one header follow each other without gap or overlap, until the
    epoch or the header changes. *)
Definition consecutive (ls : list (launch * WorkPackage)) : Prop :=
  forall i l1 w1 l2 w2, ls !! i = Some (l1, w1) -> ls !! S i = Some (l2, w2) ->
    header w1 = header w2 -> epoch w1 = epoch w2 -> la_start l2 = u64 (la_start l1 + la_items l1).

(** What an iteration may meet: the work under a header does not change; a new
    epoch's context has the sizes [initEpoch] works with, and the work read after
    [initEpoch] is of that epoch; the results are those of the launch. *)
Record iteration_ok (env : cl_env) (m : CLMiner) (st : loop_st) : Prop := {
  io_epoch : 0 <= epoch (m_work (cl_miner m));
  io_header : hash256_wf (header (m_work (cl_miner m)));
  io_follows : header (ls_current st) = header (m_work (cl_miner m)) ->
    epoch (ls_current st) = epoch (m_work (cl_miner m)) /\ boundary (ls_current st) = boundary (m_work (cl_miner m));
  io_context : ce_context env = contexts (epoch (m_work (cl_miner m)));
  io_sizes : sizes_ok m (ce_context env) /\ length (gid (ci_results (ce_init env))) = 4%nat;
  io_work : epoch (ce_work env) = epoch (m_work (cl_miner m)) /\ hash256_wf (header (ce_work env));
  io_results : forall d l, cl_device_ m = Some d -> ls_running st = Some l ->
    exists kicked, finished (ls_current st) d l kicked (ce_results env)
}.

Record loop_ok (m : CLMiner) (st : loop_st) : Prop := {
  lo_unlocked : cl_locked m = false;
  lo_group : clGroupSize m = 4 * quads;
  lo_device : match cl_device_ m with
    | Some d => device_for (ls_current st) d /\ (ls_running st = None -> count (dv_results d) = 0)
    | None => ls_current st = ls_current loop_start /\ ls_running st = None /\ ls_launches st = []
    end;
  lo_running : forall l, ls_running st = Some l -> la_start l = startNonce (ls_current st) /\
    0 < la_items l < 2 ^ 32 /\ la_items l mod (4 * quads) = 0;
  lo_submitted : Forall solution (ls_submitted st);
  lo_launches : consecutive (ls_launches st);
  lo_last : forall l w, last (ls_launches st) = Some (l, w) -> w = ls_current st /\
    ls_startNonce st = u64 (la_start l + la_items l)
}.

Lemma zeroed_clear r : length (gid r) = 4%nat -> zeroed (clear_results r).
Proof. by intros H. Qed.

(** All but the device and the mutex. *)
Definition same_host (m m1 : CLMiner) : Prop :=
  cl_miner m1 = cl_miner m /\ clGroupSize m1 = clGroupSize m /\ cl_block_multiple m1 = cl_block_multiple m /\
  clSplit m1 = clSplit m /\ cl_totalMemory m1 = cl_totalMemory m.

(** What a finished launch reports. *)
Lemma report_finished w d l kicked res :
  device_for w d -> la_start l = startNonce w -> 0 < la_items l < 2 ^ 32 -> la_items l mod (4 * quads) = 0 ->
  finished w d l kicked res ->
  Forall solution (report w res) /\
  (forall x, kicked = false -> 0 <= x < la_items l -> solution (u64 (la_start l + x), w) -> report w res <> []).
Proof.
  intros (Hdag & Hh & Ht & Hwf) Hs Hi Hm (out & r & Hz & Hrun & Hw & Hk & Hr). unfold solution. cbn [fst snd].
  set (c := contexts (epoch w)) in *. pose proof (Hcontexts (epoch w) : context_ok c) as Hc.
  pose proof (proj1 (proj2 (proj2 Hc))) as Hp. rewrite Hh, Ht in Hrun. set (g := la_items l / (4 * quads)) in *.
  assert (Eg : g * (4 * quads) = la_items l).
  { unfold g. pose proof (Z.div_mod (la_items l) (4 * quads) ltac:(lia)). lia. }
  assert (Hg : 0 <= g) by (unfold g; apply Z.div_pos; lia).
  assert (Hsz : g * (4 * quads) < 2 ^ 32) by lia.
  pose proof (range_reachable_ok (dv_dag d) c (header w) Hp Hdag Hwf g quads _ _ Hg Hquads Hsz out r Hz Hrun) as Hok.
  pose proof (ok_length _ _ _ _ _ _ _ Hok) as Hlen.
  destruct (range_final c (header w) g quads _ _ Hquads r Hok Hw) as [H1 H2]. rewrite Eg, Hr in H1, H2.
  rewrite Hr in Hlen. clear Hok Hrun. unfold report, MAX_OUTPUTS. split.
  - apply Forall_fmap, Forall_lookup. intros i x Hx. apply lookup_take_Some in Hx as [Hx Hi'].
    cbn [compose fst snd]. rewrite <-Hs. apply hits_solves; [done..|]. apply (H1 i x); [case_match; lia| |exact Hx].
    destruct (Z.ltb_spec 4 (count res)); lia.
  - intros x Hkf Hx Hsol Hnil. rewrite Hkf in Hk. destruct (H2 Hk) as [H3 _].
    assert (1 <= count res) by (apply H3; exists x; split; [done|]; by apply hits_solves).
    apply fmap_nil_inv in Hnil. apply (f_equal length) in Hnil. rewrite length_take, Hlen in Hnil. cbn in Hnil.
    destruct (Z.ltb_spec 4 (count res)); lia.
Qed.

(** The results the loop reads and reports. *)
Lemma read_results_spec env m st m1 r :
  loop_ok m st -> iteration_ok env m st -> read_results env m st = (m1, r) ->
  Forall solution (report (ls_current st) r) /\ cl_locked m1 = false /\ same_host m m1 /\
  match cl_device_ m1 with
  | Some d => device_for (ls_current st) d /\ count (dv_results d) = 0
  | None => ls_current st = ls_current loop_start /\ ls_launches st = []
  end.
Proof.
  intros Hok Hio. unfold read_results. pose proof (lo_device m st Hok) as Hd.
  destruct (cl_device_ m) as [d|] eqn:Ed; injection 1 as <- <-.
  - destruct Hd as [Hd Hcount]. split; [|cbn [cl_locked set_cl_device]; by rewrite (lo_unlocked m st Hok)].
    destruct (ls_running st) as [l|] eqn:El.
    + destruct (io_results env m st Hio d l Ed El) as [kicked Hf].
      destruct (lo_running m st Hok l El) as (H1 & H2 & H3).
      exact (proj1 (report_finished _ _ _ _ _ Hd H1 H2 H3 Hf)).
    + unfold report. rewrite Hcount by done. constructor.
  - destruct Hd as (H1 & _ & H3). split; [constructor|]. rewrite Ed, (lo_unlocked m st Hok). done.
Qed.

(** [initEpoch] has the memory but a call of the runtime fails. *)
Definition init_fails (env : cl_env) (m : CLMiner) : Prop :=
  memory_short m (ce_context env) = false /\ init_calls (ce_init env) m = false.

(** The device after the epoch part. *)
Definition loaded (m : CLMiner) (w : WorkPackage) : Prop :=
  exists d, cl_device_ m = Some d /\ @dag_stored (dv_build d) (dv_dag d) (contexts (epoch w)) /\
    count (dv_results d) = 0.

Lemma epoch_part_spec env m m1 st :
  iteration_ok env m st -> same_host m m1 -> cl_locked m1 = false ->
  (epoch (ls_current st) = epoch (m_work (cl_miner m)) -> loaded m1 (ls_current st)) ->
  let w := m_work (cl_miner m) in
  match epoch_part env m1 st w with
  | None => init_fails env m
  | Some (inl m2) => cl_locked m2 = false
  | Some (inr (m2, w2)) =>
      cl_locked m2 = false /\ clGroupSize m2 = clGroupSize m /\
      m_hashRate (cl_miner m2) = m_hashRate (cl_miner m) /\ loaded m2 w2 /\ hash256_wf (header w2) /\
      epoch w2 = epoch w /\ (epoch (ls_current st) = epoch w -> w2 = w)
  end.
Proof.
  intros Hio (E1 & E2 & E3 & E4 & E5) Hl Hload w. unfold epoch_part.
  destruct (Z.eqb_spec (epoch (ls_current st)) (epoch w)) as [E|E].
  { rewrite E1, E2. split_and!; try done; [|exact (io_header env m st Hio)].
    destruct (Hload E) as (d & H1 & H2 & H3). exists d. by rewrite <-E. }
  destruct (io_sizes env m st Hio) as [(q & Hs) Hgid]. destruct (io_work env m st Hio) as [He Hwf].
  assert (Hc : context_ok (ce_context env)) by (rewrite (io_context env m st Hio); apply Hcontexts).
  assert (Hs1 : sizes_ok m1 (ce_context env)) by (exists q; rewrite E2, E3; exact Hs).
  assert (Em : memory_short m1 (ce_context env) = memory_short m (ce_context env)) by (unfold memory_short; by rewrite E5).
  assert (Ei : init_calls (ce_init env) m1 = init_calls (ce_init env) m) by (unfold init_calls; by rewrite E4).
  change (initEpoch (ce_init env) (set_cl_miner m1 (setEpoch (cl_miner m1) (ce_context env) (epoch w))))
    with (init_for (ce_init env) m1 (ce_context env) (epoch w)).
  destruct (memory_short m (ce_context env)) eqn:Hm.
  { destruct (init_short (ce_init env) m1 _ (epoch w) Hc Hl Em) as (m2 & H1 & H2 & _).
    rewrite (bind_eq _ _ _ H1). exact H2. }
  pose proof (init_long (ce_init env) m1 _ (epoch w) Hc Hl Hs1 Em Hgid) as H. rewrite Ei in H.
  destruct (init_calls (ce_init env) m) eqn:Hcalls; [|rewrite H; by split].
  destruct H as (m2 & H1 & H2 & (d & D1 & D2 & D3) & H4 & H5 & _). rewrite (bind_eq _ _ _ H1). cbn [cl_locked set_cl_miner].
  split; [exact H2|]. split; [rewrite <-E2; apply H4|]. split; [|split_and!; [|done|done|done]].
  - rewrite <-E1, <-H5. cbn [cl_miner set_cl_miner]. unfold freeCache. by destruct (lightCache _).
  - exists d. rewrite He. unfold w. rewrite <-(io_context env m st Hio). split; [exact D1|]. split; [exact D2|apply D3].
Qed.

Lemma switch_part_spec env m m1 st :
  iteration_ok env m st -> same_host m m1 -> cl_locked m1 = false ->
  wp_bool (m_work (cl_miner m)) = true ->
  match cl_device_ m1 with
  | Some d => device_for (ls_current st) d /\ count (dv_results d) = 0
  | None => ls_current st = ls_current loop_start /\ ls_launches st = []
  end ->
  match switch_part env m1 st (m_work (cl_miner m)) with
  | None => init_fails env m
  | Some (inl m2) => cl_locked m2 = false
  | Some (inr (m2, w2, start)) =>
      cl_locked m2 = false /\ clGroupSize m2 = clGroupSize m /\
      m_hashRate (cl_miner m2) = m_hashRate (cl_miner m) /\
      (exists d, cl_device_ m2 = Some d /\ device_for w2 d /\ count (dv_results d) = 0) /\
      (header (ls_current st) = header w2 -> epoch (ls_current st) = epoch w2 -> start = ls_startNonce st)
  end.
Proof.
  intros Hio Hsame Hl Hw Hdev. set (w := m_work (cl_miner m)) in *.
  pose proof Hsame as (E1 & E2 & _). unfold switch_part, h_eq.
  destruct (bool_decide_reflect (header (ls_current st) = header w)) as [Eh|Eh].
  { destruct (io_follows env m st Hio Eh) as [Ee Eb]. split_and!; [done|done|by rewrite E1| |done].
    destruct (cl_device_ m1) as [d|].
    - exists d. destruct Hdev as [(H1 & H2 & H3 & H4) H5]. split; [done|]. split; [|done].
      unfold device_for, target_of, w in *. by rewrite <-Ee, <-Eb, <-Eh.
    - exfalso. destruct Hdev as [E _]. unfold wp_bool, h_eq in Hw. rewrite <-Eh, E in Hw. discriminate Hw. }
  assert (Hload : epoch (ls_current st) = epoch w -> loaded m1 (ls_current st)).
  { intros Ee. destruct (cl_device_ m1) as [d|] eqn:Ed.
    - exists d. destruct Hdev as [(H1 & _) H5]. done.
    - exfalso. destruct Hdev as [E _]. pose proof (io_epoch env m st Hio) as H. fold w in H.
      rewrite <-Ee, E in H. cbn in H. lia. }
  pose proof (epoch_part_spec env m m1 st Hio Hsame Hl Hload) as Hep. cbv zeta in Hep. fold w in Hep.
  destruct (epoch_part env m1 st w) as [[m2|[m2 w2]]|]; [exact Hep| |exact Hep].
  destruct Hep as (H1 & H2 & H3 & (d & D1 & D2 & D3) & H4 & H5 & H6). cbn [mbind option_bind].
  rewrite (bind_eq _ _ _ D1). split_and!; [exact H1|exact H2|exact H3| |].
  - eexists. split; [reflexivity|]. split; [|done]. split; [exact D2|]. done.
  - intros F1 F2. exfalso. rewrite H5 in F2. rewrite (H6 F2) in F1. done.
Qed.

Lemma leave_loop_unlocked m :
  cl_locked m = false -> exists m', leave_loop m = Some m' /\ cl_locked m' = false.
Proof. intros Hl. unfold leave_loop. rewrite free_buffers_unlocked by done. by eexists. Qed.

Lemma consecutive_snoc ls l w :
  consecutive ls ->
  (forall l1 w1, last ls = Some (l1, w1) -> header w1 = header w -> epoch w1 = epoch w ->
    la_start l = u64 (la_start l1 + la_items l1)) ->
  consecutive (ls ++ [(l, w)]).
Proof.
  intros Hls Hlast i l1 w1 l2 w2 H1 H2.
  destruct (decide (S i < length ls)%nat) as [Hi|Hi].
  { rewrite lookup_app_l in H1, H2 by lia. by apply (Hls i). }
  apply lookup_lt_Some in H2 as H3. rewrite length_app in H3. cbn in H3.
  rewrite lookup_app_l in H1 by lia. rewrite lookup_app_r in H2 by lia.
  replace (S i - length ls)%nat with 0%nat in H2 by lia. injection H2 as <- <-.
  apply Hlast. rewrite last_lookup, <-H1. f_equal. lia.
Qed.

Lemma next_multiple_defined m m2 :
  m_hashRate (cl_miner m2) = m_hashRate (cl_miner m) -> clGroupSize m2 = clGroupSize m ->
  next_multiple m2 = None -> next_multiple m = None.
Proof. intros E1 E2. unfold next_multiple. rewrite E1, E2. by destruct (SFltb _ _). Qed.

(** The launch at the end of an iteration keeps the invariant. *)
Lemma launched_ok m st m2 d w2 start items reports :
  loop_ok m st -> Forall solution reports -> cl_locked m2 = false -> clGroupSize m2 = 4 * quads ->
  cl_device_ m2 = Some d -> device_for w2 d -> range_valid items (clGroupSize m2) = true -> items < 2 ^ 32 ->
  (header (ls_current st) = header w2 -> epoch (ls_current st) = epoch w2 -> start = ls_startNonce st) ->
  let l := mk_launch start items in
  let current := set_startNonce w2 start in
  loop_ok m2 (mk_loop_st current (u64 (start + items)) (Some l) (ls_submitted st ++ reports)
    (ls_launches st ++ [(l, current)])).
Proof.
  intros Hok Hrep Hl Hg Hd Hdev Hv Hi Hstart l current. unfold range_valid in Hv.
  rewrite Hg, !andb_true_iff, !Z.ltb_lt, Z.eqb_eq in Hv. destruct Hv as [[V1 _] V2].
  constructor; cbn [ls_current ls_running ls_launches ls_submitted ls_startNonce].
  - exact Hl.
  - exact Hg.
  - rewrite Hd. split; [exact Hdev|done].
  - intros l' [= <-]. done.
  - apply Forall_app. split; [apply (lo_submitted m st Hok)|exact Hrep].
  - apply consecutive_snoc; [apply (lo_launches m st Hok)|]. intros l1 w1 Hlast.
    destruct (lo_last m st Hok l1 w1 Hlast) as [-> <-]. apply Hstart.
  - intros l' w'. rewrite last_snoc. by intros [= <- <-].
Qed.

Lemma workLoop_step_spec env m st :
  loop_ok m st -> iteration_ok env m st ->
  match workLoop_step env m st with
  | None => init_fails env m \/ next_multiple m = None
  | Some (ClIdle m' st') => loop_ok m' st'
  | Some (ClLaunched m' st') => loop_ok m' st' /\
      ls_submitted st' = ls_submitted st ++ report (ls_current st) (read_results env m st).2
  | Some (ClExit m' _) | Some (ClThrow m' _) => cl_locked m' = false
  end.
Proof.
  intros Hok Hio. unfold workLoop_step. pose proof (lo_unlocked m st Hok) as Hl.
  destruct (ce_read_throws env && _).
  { by destruct (leave_loop_unlocked m Hl) as (m' & -> & H). }
  destruct (read_results env m st) as [m1 r] eqn:Er.
  destruct (read_results_spec env m st m1 r Hok Hio Er) as (Hrep & Hl1 & Hsame & Hdev).
  pose proof Hsame as (E1 & E2 & _). rewrite E1. cbn [snd].
  set (st1 := mk_loop_st (ls_current st) (ls_startNonce st) None (ls_submitted st) (ls_launches st)).
  destruct (wp_bool (m_work (cl_miner m))) eqn:Hw; cbn [negb].
  2: { constructor; cbn [cl_locked clGroupSize cl_device_ set_cl_miner st1 ls_current ls_running ls_submitted
         ls_launches ls_startNonce]; try apply Hok; [done|by rewrite E2; apply Hok| |done].
       destruct (cl_device_ m1); [by destruct Hdev|by destruct Hdev]. }
  assert (Hio1 : iteration_ok env m st1) by (destruct Hio; constructor; done).
  pose proof (switch_part_spec env m m1 st1 Hio1 Hsame Hl1 Hw Hdev) as Hsw.
  destruct (switch_part env m1 st1 (m_work (cl_miner m))) as [[m2|[[m2 w2] start]]|]; [| |by left].
  { change (match m' ← leave_loop m2; Some (ClExit m' st1) with
      | None => init_fails env m \/ next_multiple m = None
      | Some (ClIdle m' st') => loop_ok m' st'
      | Some (ClLaunched m' st') => loop_ok m' st' /\ ls_submitted st' = ls_submitted st ++ report (ls_current st) r
      | Some (ClExit m' _) | Some (ClThrow m' _) => cl_locked m' = false end).
    by destruct (leave_loop_unlocked m2 Hsw) as (m' & -> & H). }
  destruct Hsw as (H1 & H2 & H3 & (d & D1 & D2 & D3) & H4). cbn [mbind option_bind].
  destruct (next_multiple m2) as [mult|] eqn:Em; [|right; by apply (next_multiple_defined m m2)].
  rewrite (bind_eq _ _ _ eq_refl). cbn [clGroupSize set_cl_multiple set_cl_miner cl_miner].
  match goal with |- context [ce_throws env || ?b] => destruct (ce_throws env || b) eqn:Et end.
  { match goal with |- context [leave_loop ?x] => by destruct (leave_loop_unlocked x H1) as (m' & -> & H) end. }
  cbn [cl_device_ set_cl_multiple set_cl_miner]. rewrite D1.
  apply orb_false_iff in Et as [_ Et]. apply negb_false_iff in Et.
  split; [|reflexivity]. apply (launched_ok m st _ d w2); try done.
  - cbn. rewrite H2. apply Hok.
  - assert (B : in_word 32 (u32 (clGroupSize m2 * mult))) by (by apply wrap_in_word). unfold in_word in B. lia.
Qed.

(** The states the loop reaches.  Other threads change the work, the pause flags
    and the statistics, and kick the miner, between iterations. *)
Inductive loop_reach : CLMiner -> loop_st -> Prop :=
  | reach_start m :
      cl_locked m = false -> clGroupSize m = 4 * quads -> cl_device_ m = None -> loop_reach m loop_start
  | reach_idle env m st m' st' :
      loop_reach m st -> iteration_ok env m st -> workLoop_step env m st = Some (ClIdle m' st') ->
      loop_reach m' st'
  | reach_launched env m st m' st' :
      loop_reach m st -> iteration_ok env m st -> workLoop_step env m st = Some (ClLaunched m' st') ->
      loop_reach m' st'
  | reach_other m st x : loop_reach m st -> loop_reach (set_cl_miner m x) st
  | reach_kicked m st m' : loop_reach m st -> kick_self m = Some m' -> loop_reach m' st.

Lemma loop_ok_kicked m st m' : loop_ok m st -> kick_self m = Some m' -> loop_ok m' st.
Proof.
  intros Hok E. pose proof (lo_unlocked m st Hok) as Hl. pose proof (lo_device m st Hok) as Hd.
  unfold kick_self, lock_abort in E. rewrite Hl in E. cbn [mbind option_bind cl_device_ set_cl_locked] in E.
  destruct (cl_device_ m) as [d|] eqn:Ed; injection E as <-; constructor; try apply Hok; try done.
Qed.

Lemma loop_reach_ok m st : loop_reach m st -> loop_ok m st.
Proof.
  induction 1 as [m Hl Hg Hd|env m st m' st' _ IH Hio E|env m st m' st' _ IH Hio E|m st x _ IH|m st m' _ IH E].
  - constructor; try done. by rewrite Hd.
  - pose proof (workLoop_step_spec env m st IH Hio) as H. rewrite E in H. exact H.
  - pose proof (workLoop_step_spec env m st IH Hio) as H. rewrite E in H. apply H.
  - destruct IH. constructor; done.
  - exact (loop_ok_kicked m st m' IH E).
Qed.

(** A launch can always be carried to its end. *)
Lemma finished_exists w d l :
  device_for w d -> 0 < la_items l < 2 ^ 32 -> la_items l mod (4 * quads) = 0 ->
  exists kicked res, finished w d l kicked res.
Proof.
  intros (Hdag & Hh & Ht & Hwf) Hi Hm. unfold finished. rewrite Hh.
  set (c := contexts (epoch w)) in *. pose proof (proj1 (proj2 (proj2 (Hcontexts (epoch w) : context_ok c)))) as Hp.
  set (g := la_items l / (4 * quads)) in *.
  assert (Hg : 0 <= g) by (unfold g; apply Z.div_pos; lia).
  assert (Hsz : g * (4 * quads) < 2 ^ 32).
  { unfold g. pose proof (Z.div_mod (la_items l) (4 * quads) ltac:(lia)). lia. }
  set (out := mk_SearchResults 0 0 0 [0; 0; 0; 0]). assert (Hz : zeroed out) by (repeat split).
  set (step := range_step _ _ _ _ _ _).
  cut (forall k r, (range_work quads r < k)%nat -> rtc step (enqueue g out) r ->
    exists r', rtc step (enqueue g out) r' /\ range_work quads r' = 0%nat).
  { intros H. destruct (H _ _ (Nat.lt_succ_diag_r _) (rtc_refl _ _)) as (r' & Hrun & Hw).
    by exists (r_kicked r'), (r_output r'), out, r'. }
  induction k as [|k IH]; intros r Hk Hrun; [lia|].
  destruct (decide (range_work quads r = 0%nat)) as [Hw|Hw]; [by exists r|].
  pose proof (range_reachable_ok (dv_dag d) c (header w) Hp Hdag Hwf g quads _ _ Hg Hquads Hsz out r Hz Hrun) as Hok.
  destruct (range_progress (dv_dag d) c (header w) Hp Hdag Hwf g quads _ _ Hg Hquads Hsz r Hok Hw) as (r' & Hstep & Hd).
  apply (IH r'); [lia|exact (rtc_r _ _ _ Hrun Hstep)].
Qed.
End WorkLoop.


(** The first iteration of a miner that has work for the small context. *)
Definition tiny_work : WorkPackage :=
  mk_WorkPackage String.EmptyString (zero_hash 32) (1 :: zero_hash 31) (zero_hash 32) 0 0 77 0 (S754_zero false).
Definition working_miner : CLMiner :=
  set_cl_miner (tiny_cl_miner 1 100000) (set_work_field (Miner_new 0 0 sample_hw) tiny_work).
Definition first_env : cl_env :=
  mk_cl_env (mk_SearchResults 0 0 0 [0; 0; 0; 0]) (mk_SearchResults 7 7 7 [0; 0; 0; 0]) tiny_context
    (no_program true) tiny_work false false 0 false.

Lemma tiny_work_header : hash256_wf (header tiny_work).
Proof. split; [reflexivity|]. apply Forall_cons. split; [unfold in_word; lia|apply zeros_ok]. Qed.

Lemma first_iteration_ok : iteration_ok (fun _ => tiny_context) 2 first_env working_miner loop_start.
Proof.
  constructor; try done; [exact tiny_work_header| |split; [done|exact tiny_work_header]].
  split; [|done]. exists 2. cbn. lia.
Qed.

(** That iteration generates the DAG and launches. *)
Lemma first_launch : exists m' st', workLoop_step first_env working_miner loop_start = Some (ClLaunched m' st') /\
  ls_running st' = Some (mk_launch 77 8) /\ ls_current st' = tiny_work /\
  clGroupSize m' = 8 /\ cl_block_multiple m' = 1.
Proof.
  destruct (init_long (no_program true) working_miner tiny_context 0 tiny_context_ok eq_refl
    ltac:(exists 2; cbn; lia) eq_refl eq_refl) as (m2 & H1 & H2 & (d & D1 & _) & [H3 H3'] & H4 & _ & _ & _).
  set (st1 := mk_loop_st (ls_current loop_start) 0 None [] []).
  assert (Eep : epoch_part first_env working_miner st1 tiny_work =
    Some (inr (set_cl_miner m2 (freeCache (cl_miner m2)), tiny_work))).
  { unfold epoch_part. change (epoch (ls_current st1) =? epoch tiny_work) with false. exact (bind_eq _ _ _ H1). }
  set (d' := set_dv_target (set_dv_results (set_dv_header d (header tiny_work))
    (clear_results (dv_results d))) (target_of tiny_work)).
  assert (D1' : cl_device_ (set_cl_miner m2 (freeCache (cl_miner m2))) = Some d) by exact D1.
  set (m3 := set_cl_device (set_cl_miner m2 (freeCache (cl_miner m2))) (Some d')).
  assert (Esw : switch_part first_env working_miner st1 tiny_work = Some (inr (m3, tiny_work, 77))).
  { unfold switch_part. change (h_eq (header (ls_current st1)) (header tiny_work)) with false.
    cbv iota. rewrite Eep. cbn [mbind option_bind]. cbv beta iota. rewrite (bind_eq _ _ _ D1'). reflexivity. }
  assert (Em : next_multiple m3 = Some (cl_block_multiple m2)).
  { unfold next_multiple. replace (m_hashRate (cl_miner m3)) with (m_hashRate (cl_miner working_miner)); [reflexivity|].
    rewrite <-H4. cbn [m3 cl_miner set_cl_device set_cl_miner]. unfold freeCache. by destruct (lightCache _). }
  unfold workLoop_step. change (ce_read_throws first_env && _) with false.
  change (read_results first_env working_miner loop_start) with (working_miner, mk_SearchResults 0 7 7 [0; 0; 0; 0]).
  cbv beta iota. change (wp_bool (m_work (cl_miner working_miner))) with true. cbn [negb].
  change (m_work (cl_miner working_miner)) with tiny_work.
  change (switch_part _ _ _ tiny_work) with (switch_part first_env working_miner st1 tiny_work).
  rewrite Esw. cbn [mbind option_bind]. rewrite Em. cbn [mbind option_bind].
  cbn [clGroupSize m3 set_cl_device set_cl_miner set_cl_multiple cl_device_ cl_miner]. rewrite H3, H3'.
  assert (V : range_valid (u32 (clGroupSize working_miner * cl_block_multiple working_miner))
    (clGroupSize working_miner) = true) by reflexivity.
  rewrite V. cbn [ce_throws first_env orb negb]. eexists _, _. split; [reflexivity|]. by split_and!.
Qed.

