(* ===== verification/Farm.v ===== *)
(** * The farm ([libeth/Farm])

    The collection of miners: distributing work over nonce segments, starting
    and stopping, pausing, accounting of solutions, and the periodic collection
    of hash rates and temperatures.  The callbacks and calls into other
    components are recorded in a trace; the readings of the hardware monitors,
    the random start nonce and the clock are arguments. *)

From Stdlib Require Import ZArith Lia Bool Ascii String Floats.SpecFloat.
From stdpp Require Import base numbers list strings gmap.
From S2P Require Import Prelude Words EthashSpec Ethash EthashHash Managed Outcome.
From S2P Require Import CommonData FixedHash Floats Miner.

Local Open Scope Z_scope.
Local Open Scope word_scope.

(** ** [strtoull(s, nullptr, 16)] *)

Definition isspace (c : ascii) : bool :=
  (code c =? 32) || ((9 <=? code c) && (code c <=? 13)).

Fixpoint skip_spaces (l : list ascii) : list ascii :=
  match l with c :: l' => if isspace c then skip_spaces l' else l | [] => [] end.

Fixpoint hex_prefix (l : list ascii) : list ascii :=
  match l with
  | c :: l' => if fromHex_char c =? -1 then [] else c :: hex_prefix l'
  | [] => []
  end.

(** The optional [0x] counts only when a digit follows. *)
Definition skip_0x (l : list ascii) : list ascii :=
  match l with
  | c :: d :: e :: l' =>
      if (code c =? code "0") && ((code d =? code "x") || (code d =? code "X")) &&
         negb (fromHex_char e =? -1)
      then e :: l' else l
  | _ => l
  end.

Definition strtoull16 (s : string) : Z :=
  let l := skip_spaces (chars s) in
  let neg := match l with c :: _ => code c =? code "-" | [] => false end in
  let l := match l with
           | c :: l' => if (code c =? code "-") || (code c =? code "+") then l' else l
           | [] => []
           end in
  let v := hex_value (hex_prefix (skip_0x l)) in
  if 2 ^ 64 <=? v then 2 ^ 64 - 1 else if neg then u64 (- v) else v.

(** ** State *)

Record FarmSettings := mk_FarmSettings {
  hwMon : Z;
  tempStart : Z;
  tempStop : Z;
  nonce : string;
  cuBlockSize : Z;
  cuStreams : Z;
  clGroupSize : Z;
  clSplit : bool
}.

Inductive DeviceSubscriptionTypeEnum := SubNone | SubOpenCL | SubCuda.

(** The members of [DeviceDescriptor] that the farm reads or writes. *)
Inductive ClPlatformTypeEnum := ClUnknown | ClAmd | ClClover | ClNvidia | ClIntel.

Record DeviceDescriptor := mk_Device {
  subscriptionType : DeviceSubscriptionTypeEnum;
  clPlatformType : ClPlatformTypeEnum;
  dd_cuBlockSize : Z;
  dd_cuStreamSize : Z;
  dd_clGroupSize : Z;
  dd_clSplit : bool
}.

Record TelemetryAccountType := mk_Telemetry {
  ta_prefix : string;
  ta_hashrate : float;
  ta_paused : bool;
  ta_tempC : Z;
  ta_memtempC : Z;
  ta_fanP : Z;
  ta_powerW : double;
  ta_solutions : SolutionAccountType
}.

Definition Telemetry_default (prefix : string) (now : Z) : TelemetryAccountType :=
  mk_Telemetry prefix fzero false 0 0 0 (S754_zero false) (SolutionAccount_default now).

Inductive farm_event :=
  | EvStartWorking (i : nat)
  | EvTriggerStop (i : nat)
  | EvKick (i : nat)
  | EvSolutionFound (s : Solution)
  | EvMinerRestart
  | EvReboot (arg : string).

(** The members of [Farm].  [telemetry_*] is [m_telemetry]; a monitor handle is
    [None] when it is null and otherwise its PCI map; [m_collectTimer] says
    whether the collection is scheduled; [trace] records the calls that leave
    the farm. *)
Record Farm := mk_Farm {
  m_miners : list Miner;
  m_currentWp : WorkPackage;
  m_isMining : bool;
  m_paused : bool;
  telemetry_hwmon : bool;
  telemetry_farm : TelemetryAccountType;
  telemetry_miners : list TelemetryAccountType;
  m_Settings : FarmSettings;
  m_DevicesCollection : list (string * DeviceDescriptor);
  map_nvml_handle : option (gmap string Z);
  map_amdsysfs_handle : option (gmap string Z);
  m_collectTimer : bool;
  trace : list farm_event
}.

Definition set_miners (f : Farm) (ms : list Miner) : Farm :=
  mk_Farm ms (m_currentWp f) (m_isMining f) (m_paused f) (telemetry_hwmon f) (telemetry_farm
    f) (telemetry_miners f) (m_Settings f) (m_DevicesCollection f) (map_nvml_handle f)
    (map_amdsysfs_handle f) (m_collectTimer f) (trace f).
Definition set_currentWp (f : Farm) (w : WorkPackage) : Farm :=
  mk_Farm (m_miners f) w (m_isMining f) (m_paused f) (telemetry_hwmon f) (telemetry_farm f)
    (telemetry_miners f) (m_Settings f) (m_DevicesCollection f) (map_nvml_handle f)
    (map_amdsysfs_handle f) (m_collectTimer f) (trace f).
Definition set_isMining (f : Farm) (b : bool) : Farm :=
  mk_Farm (m_miners f) (m_currentWp f) b (m_paused f) (telemetry_hwmon f) (telemetry_farm f)
    (telemetry_miners f) (m_Settings f) (m_DevicesCollection f) (map_nvml_handle f)
    (map_amdsysfs_handle f) (m_collectTimer f) (trace f).
Definition set_paused (f : Farm) (b : bool) : Farm :=
  mk_Farm (m_miners f) (m_currentWp f) (m_isMining f) b (telemetry_hwmon f) (telemetry_farm
    f) (telemetry_miners f) (m_Settings f) (m_DevicesCollection f) (map_nvml_handle f)
    (map_amdsysfs_handle f) (m_collectTimer f) (trace f).
Definition set_telemetry (f : Farm) (tf : TelemetryAccountType) (tm : list TelemetryAccountType) : Farm :=
  mk_Farm (m_miners f) (m_currentWp f) (m_isMining f) (m_paused f) (telemetry_hwmon f) tf tm
    (m_Settings f) (m_DevicesCollection f) (map_nvml_handle f) (map_amdsysfs_handle f)
    (m_collectTimer f) (trace f).
Definition set_settings (f : Farm) (s : FarmSettings) : Farm :=
  mk_Farm (m_miners f) (m_currentWp f) (m_isMining f) (m_paused f) (telemetry_hwmon f)
    (telemetry_farm f) (telemetry_miners f) s (m_DevicesCollection f) (map_nvml_handle f)
    (map_amdsysfs_handle f) (m_collectTimer f) (trace f).
Definition set_devices (f : Farm) (d : list (string * DeviceDescriptor)) : Farm :=
  mk_Farm (m_miners f) (m_currentWp f) (m_isMining f) (m_paused f) (telemetry_hwmon f)
    (telemetry_farm f) (telemetry_miners f) (m_Settings f) d (map_nvml_handle f)
    (map_amdsysfs_handle f) (m_collectTimer f) (trace f).
Definition set_timer (f : Farm) (b : bool) : Farm :=
  mk_Farm (m_miners f) (m_currentWp f) (m_isMining f) (m_paused f) (telemetry_hwmon f)
    (telemetry_farm f) (telemetry_miners f) (m_Settings f) (m_DevicesCollection f)
    (map_nvml_handle f) (map_amdsysfs_handle f) b (trace f).
Definition emit (f : Farm) (e : farm_event) : Farm :=
  mk_Farm (m_miners f) (m_currentWp f) (m_isMining f) (m_paused f) (telemetry_hwmon f)
    (telemetry_farm f) (telemetry_miners f) (m_Settings f) (m_DevicesCollection f)
    (map_nvml_handle f) (map_amdsysfs_handle f) (m_collectTimer f) (trace f ++ [e]).

(** ** Work *)

(** [x << s] on 64 bits, undefined when the count is not below 64. *)
Definition shift64 (x s : Z) : option Z :=
  if (0 <=? s) && (s <? 64) then Some (shl 64 x s) else None.

(** [(unsigned)ceil(log2(n))]: undefined for [n = 0], whose logarithm is minus
    infinity. *)
Definition ceil_log2 (n : Z) : option Z := if n =? 0 then None else Some (Z.log2_up n).

(** [segmentBits] and the start nonce; [rnd] is the random nonce. *)
Definition segment (n : Z) (nonce_s : string) (wp : WorkPackage) (rnd : Z) : option (Z * Z) :=
  c ← ceil_log2 n;
  let segmentBits := u16 (u32 (64 - c)) in
  let size := Z.of_nat (String.length nonce_s) in
  if negb (size =? 0) then
    let segmentBits := u16 (segmentBits - 4 * size) in
    start ← shift64 (strtoull16 nonce_s) (u64 (64 - 4 * size));
    Some (segmentBits, start)
  else if 0 <? exSizeBytes wp then
    Some (u16 (segmentBits - exSizeBytes wp * 4), startNonce wp)
  else Some (segmentBits, rnd).

(** The loop over the miners: each gets the package, then the nonce advances. *)
Fixpoint give_work (segmentBits : Z) (wp : WorkPackage) (ms : list Miner)
  : option (list Miner * WorkPackage) :=
  match ms with
  | [] => Some ([], wp)
  | m :: ms =>
      let m := setWork m wp in
      width ← shift64 1 segmentBits;
      let wp := set_startNonce wp (u64 (startNonce wp + width)) in
      '(ms, wp) ← give_work segmentBits wp ms;
      Some (m :: ms, wp)
  end.

Definition farm_setWork (f : Farm) (_newWp : WorkPackage) (rnd : Z) : option Farm :=
  '(segmentBits, start) ←
    segment (Z.of_nat (length (m_miners f))) (nonce (m_Settings f)) _newWp rnd;
  '(ms, wp) ← give_work segmentBits (set_startNonce _newWp start) (m_miners f);
  Some (set_currentWp (set_miners f ms) wp).

(** ** Starting and stopping *)

(** One device of the collection in [start]: its settings are copied, a miner
    for it is created and started.  [cuda], [cl]: which kinds of miners are
    compiled in. *)
Definition start_device (cuda cl : bool) (now : Z) (f : Farm) (d : string * DeviceDescriptor)
  : Farm * (string * DeviceDescriptor) :=
  let '(id, dev) := d in
  let s := m_Settings f in
  let add (f : Farm) prefix :=
    let i := length (m_miners f) in
    let f := set_miners f (m_miners f ++ [Miner_new (Z.of_nat i) now (mk_HwMonitorInfo HwUNKNOWN "" (-1))]) in
    let f := set_telemetry f (telemetry_farm f)
               (telemetry_miners f ++ [Telemetry_default prefix now]) in
    emit f (EvStartWorking i) in
  match subscriptionType dev with
  | SubCuda =>
      if cuda then
        let dev := mk_Device SubCuda (clPlatformType dev)
          (if cuBlockSize s =? 0 then dd_cuBlockSize dev else cuBlockSize s)
          (if cuStreams s =? 0 then dd_cuStreamSize dev else cuStreams s)
          (dd_clGroupSize dev) (dd_clSplit dev) in
        (add f "cu"%string, (id, dev))
      else (f, d)
  | SubOpenCL =>
      if cl then
        let dev := mk_Device SubOpenCL (clPlatformType dev) (dd_cuBlockSize dev) (dd_cuStreamSize dev)
          (if clGroupSize s =? 0 then dd_clGroupSize dev else clGroupSize s) (clSplit s) in
        (add f "cl"%string, (id, dev))
      else (f, d)
  | SubNone => (f, d)
  end.

Fixpoint start_devices (cuda cl : bool) (now : Z) (f : Farm) (ds : list (string * DeviceDescriptor))
  : Farm * list (string * DeviceDescriptor) :=
  match ds with
  | [] => (f, [])
  | d :: ds =>
      let '(f, d) := start_device cuda cl now f d in
      let '(f, ds) := start_devices cuda cl now f ds in
      (f, d :: ds)
  end.

Definition start (cuda cl : bool) (now : Z) (f : Farm) : bool * Farm :=
  if m_isMining f then (true, f)
  else
    let f :=
      match m_miners f with
      | [] => let '(f, ds) := start_devices cuda cl now f (m_DevicesCollection f) in set_devices f ds
      | _ :: _ =>
          fold_left (fun f i => emit f (EvStartWorking i)) (seq 0 (length (m_miners f))) f
      end in
    let f := set_isMining f true in
    (m_isMining f, f).

Definition stop (f : Farm) : Farm :=
  if m_isMining f then
    let f := fold_left (fun f i => emit (emit f (EvTriggerStop i)) (EvKick i))
               (seq 0 (length (m_miners f))) f in
    let f := set_miners f [] in
    let f := set_telemetry f (telemetry_farm f) [] in
    set_isMining f false
  else f.

Definition farm_pause (f : Farm) : Farm :=
  let f := set_paused f true in
  set_miners f ((fun m => pause m PauseDueToFarmPaused) <$> m_miners f).

Definition farm_paused (f : Farm) : bool := m_paused f.

Definition farm_resume (f : Farm) : Farm :=
  let f := set_paused f false in
  set_miners f ((fun m => resume m PauseDueToFarmPaused) <$> m_miners f).

(** [has_handler]: whether [onMinerRestart] was called. *)
Definition restart (has_handler : bool) (f : Farm) : Farm :=
  if has_handler then emit f EvMinerRestart else f.

Definition getMiner (f : Farm) (index : Z) : option Miner := array_get (m_miners f) index.

Definition setTStartTStop (f : Farm) (tstart tstop : Z) : Farm :=
  let s := m_Settings f in
  set_settings f (mk_FarmSettings (hwMon s) tstart tstop (nonce s) (cuBlockSize s) (cuStreams s)
    (clGroupSize s) (clSplit s)).

Definition set_nonce (f : Farm) (n : string) : Farm :=
  let s := m_Settings f in
  set_settings f (mk_FarmSettings (hwMon s) (tempStart s) (tempStop s) n (cuBlockSize s) (cuStreams s)
    (clGroupSize s) (clSplit s)).

(** ** Rebooting *)

(** What the file system answers about the script and what spawning it does. *)
Record FileProbe := mk_FileProbe {
  fp_exists : outcome bool;
  fp_size : outcome Z;
  fp_stat : option Z;
  fp_spawn : outcome unit
}.

(** The execute bits of user, group and others. *)
Definition exec_bits : Z := 73.

Definition spawn_file_in_bin_dir (fp : FileProbe) : bool :=
  catch
    (e ← fp_exists fp;
     if negb e then Ok false
     else
       size ← fp_size fp;
       if size =? 0 then Ok false
       else
         match fp_stat fp with
         | None => Ok false
         | Some mode =>
             if Z.land mode exec_bits =? 0 then Ok false
             else _ ← fp_spawn fp; Ok true
         end)
    (fun _ => false).

Definition reboot (fp : FileProbe) (f : Farm) (arg : string) : bool * Farm :=
  (spawn_file_in_bin_dir fp, emit f (EvReboot arg)).

(** ** Accounting *)

Definition account (a : SolutionAccountType) (what : SolutionAccountingEnum) : SolutionAccountType :=
  match what with
  | Accepted => mk_SolutionAccount (u32 (accepted a + 1)) (rejected a) (wasted a) (failed a)
                  (u32 (collectAcceptd a + 1)) (sa_tstamp a)
  | Rejected => mk_SolutionAccount (accepted a) (u32 (rejected a + 1)) (wasted a) (failed a)
                  (collectAcceptd a) (sa_tstamp a)
  | Wasted => mk_SolutionAccount (accepted a) (rejected a) (u32 (wasted a + 1)) (failed a)
                (collectAcceptd a) (sa_tstamp a)
  | Failed => mk_SolutionAccount (accepted a) (rejected a) (wasted a) (u32 (failed a + 1))
                (collectAcceptd a) (sa_tstamp a)
  end.

Definition stamp (a : SolutionAccountType) (now : Z) : SolutionAccountType :=
  mk_SolutionAccount (accepted a) (rejected a) (wasted a) (failed a) (collectAcceptd a) now.

Definition set_solutions (t : TelemetryAccountType) (a : SolutionAccountType) : TelemetryAccountType :=
  mk_Telemetry (ta_prefix t) (ta_hashrate t) (ta_paused t) (ta_tempC t) (ta_memtempC t)
    (ta_fanP t) (ta_powerW t) a.

(** The farm's account is updated before the miner's, so that an index out of
    range throws after the farm's change; the second component is the state
    then. *)
Definition accountSolution (now : Z) (f : Farm) (_minerIdx : Z) (_accounting : SolutionAccountingEnum)
  : outcome unit * Farm :=
  let tf := telemetry_farm f in
  let tf := set_solutions tf (account (stamp (ta_solutions tf) now) _accounting) in
  match array_get (telemetry_miners f) _minerIdx with
  | None => (Throw OutOfRange, set_telemetry f tf (telemetry_miners f))
  | Some t =>
      let t := set_solutions t (stamp (account (ta_solutions t) _accounting) now) in
      (Ok tt, set_telemetry f tf (<[Z.to_nat _minerIdx := t]> (telemetry_miners f)))
  end.

Definition getSolutions_farm (f : Farm) : SolutionAccountType := ta_solutions (telemetry_farm f).

(** [null]: the static account of an index out of range. *)
Definition getSolutions (f : Farm) (null : SolutionAccountType) (_minerIdx : Z) : SolutionAccountType :=
  match array_get (telemetry_miners f) _minerIdx with
  | Some t => ta_solutions t
  | None => null
  end.

(** ** Solutions *)

(** [r] is the result of [EthashAux::eval], the value and the mix hash. *)
Definition judge_proof (now : Z) (f : Farm) (_s : Solution) (r : list Z * list Z) : outcome unit * Farm :=
  if h_gt r.1 (boundary (s_work _s)) then
    accountSolution now f (s_midx _s) Failed
  else
    (Ok tt, emit f (EvSolutionFound
       (mk_Solution (s_nonce _s) r.2 (s_work _s) (s_tstamp _s) (s_midx _s)))).

Section Submit.
Context {host : Host}.

(** [submitProofAsync] in thread [t], [g] being the state of the epoch contexts. *)
Definition submitProofAsync (a : allocator) (t : thread) (now : Z) (_s : Solution)
    (f : Farm) (g : managed epoch_context)
  : option (outcome unit * Farm * managed epoch_context) :=
  '(r, g) ← eval a t (epoch (s_work _s)) (header (s_work _s)) (s_nonce _s) g;
  Some (judge_proof now f _s r, g).

End Submit.

(** ** The hardware monitors *)

(** The PCI address of one device of a monitor library. *)
Record gpu_pci := mk_gpu_pci { pci_domain_id : Z; pci_bus_id : Z; pci_device_id : Z }.

(** Each number is written with [setfill('0') << setw(w) << hex]. *)
Definition pci_id (domain bus device : Z) : string :=
  text (put_hex 4 domain ++ chars ":" ++ put_hex 2 bus ++ chars ":" ++ put_hex 2 device ++
    chars ".0").

Definition pci_map (id : gpu_pci -> string) (gpus : list gpu_pci) : gmap string Z :=
  (fold_left (fun '(mp, i) g => (<[id g := i]> mp, i + 1)) gpus (∅, 0)).1.

Definition nvml_id (g : gpu_pci) : string :=
  pci_id (pci_domain_id g) (pci_bus_id g) (Z.shiftr (pci_device_id g) 3).
Definition sysfs_id (g : gpu_pci) : string :=
  pci_id (pci_domain_id g) (pci_bus_id g) (pci_device_id g).

Definition needs_nvml (d : DeviceDescriptor) : bool :=
  match subscriptionType d, clPlatformType d with
  | SubCuda, _ => true
  | SubOpenCL, ClNvidia => true
  | _, _ => false
  end.
Definition needs_sysfs (d : DeviceDescriptor) : bool :=
  match subscriptionType d, clPlatformType d with
  | SubOpenCL, ClAmd => true
  | _, _ => false
  end.

(** The constructor; [nvml] and [sysfs] are what creating the handles of the
    monitor libraries gives. *)
Definition Farm_new (now : Z) (nvml sysfs : option (list gpu_pci))
    (_DevicesCollection : list (string * DeviceDescriptor)) (_settings : FarmSettings) : Farm :=
  let monitored := negb (hwMon _settings =? 0) in
  let handle (need : DeviceDescriptor -> bool) id (created : option (list gpu_pci)) :=
    if monitored && existsb (fun d => need d.2) _DevicesCollection
    then pci_map id <$> created else None in
  mk_Farm [] WorkPackage_default false false monitored (Telemetry_default "" now) []
    _settings _DevicesCollection (handle needs_nvml nvml_id nvml)
    (handle needs_sysfs sysfs_id sysfs) true [].

Definition Farm_destroy (f : Farm) : Farm :=
  let f := set_timer f false in
  if m_isMining f then stop f else f.

(** ** Collecting data *)

(** What the calls on a monitor handle leave in [tempC], [memtempC], [fanpcnt]
    and [powerW] for a device index. *)
Record Sensors := mk_Sensors { r_tempC : Z; r_memtempC : Z; r_fanpcnt : Z; r_powerW : Z }.

Record Readings := mk_Readings { nvml_get : Z -> Sensors; amdsysfs_get : Z -> Sensors }.

(** The scan for hung miners: [HungThrow] and [HungReturn] leave [collectData]. *)
Inductive hung_result := HungNone | HungThrow | HungReturn.

Fixpoint check_hung (exitOnError : bool) (ms : list Miner) : hung_result * list Miner :=
  match ms with
  | [] => (HungNone, [])
  | m :: ms =>
      if negb (paused m) && m_initialized m then
        if m_hung_miner m then (if exitOnError then HungThrow else HungReturn, m :: ms)
        else let '(r, ms) := check_hung exitOnError ms in (r, set_hung m true :: ms)
      else let '(r, ms) := check_hung exitOnError ms in (r, m :: ms)
  end.

(** Mapping a device to its index in a monitor: done once, a failure is
    remembered as [-2]. *)
Definition map_device (mp : gmap string Z) (m : Miner) : Z * Miner :=
  let hwInfo := m_hwmoninfo m in
  let devIdx := deviceIndex hwInfo in
  if (devIdx =? -1) && negb (String.eqb (devicePciId hwInfo) "") then
    match mp !! devicePciId hwInfo with
    | Some i => (i, setHwmonDeviceIndex m i)
    | None => (devIdx, setHwmonDeviceIndex m (-2))
    end
  else (devIdx, m).

Definition no_sensors : Sensors := mk_Sensors 0 0 0 0.

Definition read_device (hwmon : Z) (get : Z -> Sensors) (devIdx : Z) : Sensors :=
  if 0 <=? devIdx then
    let r := get devIdx in
    mk_Sensors (r_tempC r) (r_memtempC r) (r_fanpcnt r) (if hwmon =? 2 then r_powerW r else 0)
  else no_sensors.

Definition read_sensors (f : Farm) (rd : Readings) (m : Miner) : Sensors * Miner :=
  let hwmon := hwMon (m_Settings f) in
  match deviceType (m_hwmoninfo m), map_nvml_handle f, map_amdsysfs_handle f with
  | NVIDIA, Some mp, _ =>
      let '(devIdx, m) := map_device mp m in (read_device hwmon (nvml_get rd) devIdx, m)
  | AMD, _, Some mp =>
      let '(devIdx, m) := map_device mp m in (read_device hwmon (amdsysfs_get rd) devIdx, m)
  | _, _, _ => (no_sensors, m)
  end.

(** The temperature control. *)
Definition check_threshold (tempStop_ tempStart_ tempC : Z) (m : Miner) : Miner :=
  if tempStop_ =? 0 then m
  else
    let paused := pauseTest m PauseDueToOverHeating in
    let m := if negb paused && (tempStop_ <=? tempC) then pause m PauseDueToOverHeating else m in
    if paused && (tempC <=? tempStart_) then resume m PauseDueToOverHeating else m.

Definition set_rate_paused (t : TelemetryAccountType) (hr : float) (p : bool) : TelemetryAccountType :=
  mk_Telemetry (ta_prefix t) hr p (ta_tempC t) (ta_memtempC t) (ta_fanP t) (ta_powerW t)
    (ta_solutions t).
(** The sensors are [int]s: the unsigned readings convert to them. *)
Definition set_sensors (t : TelemetryAccountType) (r : Sensors) : TelemetryAccountType :=
  mk_Telemetry (ta_prefix t) (ta_hashrate t) (ta_paused t) (i32 (r_tempC r)) (i32 (r_memtempC r))
    (i32 (r_fanpcnt r)) (ddiv (double_of_Z (r_powerW r)) (double_of_Z 1000)) (ta_solutions t).

(** One miner in the second loop of [collectData]: its telemetry, its sensors
    and the temperature control.  [None]: [at] throws. *)
Definition process_miner (f : Farm) (rd : Readings) (spurious : bool) (farm_hr : float) (m : Miner)
    (tm : list TelemetryAccountType) : option (float * Miner * list TelemetryAccountType) :=
  let minerIdx := m_index m in
  let hr := if paused m then fzero else m_hashRate m in
  let farm_hr := fadd farm_hr hr in
  t ← array_get tm minerIdx;
  let t := set_rate_paused t hr (paused m) in
  let s := m_Settings f in
  let '(t, m) :=
    if hwMon s =? 0 then (t, m)
    else
      let '(r, m) := read_sensors f rd m in
      (set_sensors t r, check_threshold (tempStop s) (tempStart s) (r_tempC r) m) in
  Some (farm_hr, TriggerHashRateUpdate m spurious, <[Z.to_nat minerIdx := t]> tm).

(** The loop; the first component says whether it ended without an exception. *)
Fixpoint process_miners (f : Farm) (rd : Readings) (spurious : Z -> bool) (farm_hr : float)
    (ms : list Miner) (tf : TelemetryAccountType) (tm : list TelemetryAccountType)
  : bool * list Miner * TelemetryAccountType * list TelemetryAccountType :=
  match ms with
  | [] => (true, [], tf, tm)
  | m :: ms =>
      match process_miner f rd (spurious (m_index m)) farm_hr m tm with
      | None => (false, m :: ms, tf, tm)
      | Some (farm_hr, m, tm) =>
          let tf := set_rate_paused tf farm_hr (ta_paused tf) in
          let '(ok, ms, tf, tm) := process_miners f rd spurious farm_hr ms tf tm in
          (ok, m :: ms, tf, tm)
      end
  end.

(** [ec]: the timer was cancelled; [fp]: what happens to the reboot script. *)
Definition collectData (ec exitOnError : bool) (fp : FileProbe) (rd : Readings) (spurious : Z -> bool)
    (f : Farm) : outcome unit * Farm :=
  let f := set_timer f false in
  if ec then (Ok tt, f)
  else
    let '(r, ms) := check_hung exitOnError (m_miners f) in
    let f := set_miners f ms in
    match r with
    | HungThrow => (Throw (RuntimeError "Hung GPU"), f)
    | HungReturn => (Ok tt, (reboot fp f "hung_miner_reboot").2)
    | HungNone =>
        let '(ok, ms, tf, tm) :=
          process_miners f rd spurious fzero (m_miners f) (telemetry_farm f) (telemetry_miners f) in
        let f := set_telemetry (set_miners f ms) tf tm in
        if ok then (Ok tt, set_timer f true) else (Throw OutOfRange, f)
    end.

(** ** Nonce segments *)

Lemma fold_hex_range l v :
  Forall is_hex l -> 0 <= v ->
  0 <= fold_left (fun v c => 16 * v + fromHex_char c) l v < 16 ^ Z.of_nat (length l) * (v + 1).
Proof.
  revert v. induction l as [|c l IH]; intros v Hl Hv; [simpl; lia|].
  inversion_clear Hl as [|? ? Hc Hl']. cbn [fold_left length].
  pose proof (is_hex_range c Hc) as Hr. specialize (IH (16 * v + fromHex_char c) Hl' ltac:(lia)).
  rewrite Nat2Z.inj_succ, Z.pow_succ_r by lia.
  pose proof (Z.pow_pos_nonneg 16 (Z.of_nat (length l)) ltac:(lia) ltac:(lia)). nia.
Qed.

Lemma hex_value_range l : Forall is_hex l -> 0 <= hex_value l < 16 ^ Z.of_nat (length l).
Proof. intros Hl. pose proof (fold_hex_range l 0 Hl ltac:(lia)). unfold hex_value. lia. Qed.

(** A hexadecimal digit is neither a blank nor a sign nor an x. *)
Lemma is_hex_plain c :
  is_hex c -> isspace c = false /\ (code c =? code "-") = false /\ (code c =? code "+") = false /\
    (code c =? code "x") = false /\ (code c =? code "X") = false.
Proof.
  intros Hc. unfold is_hex, fromHex_char, between in Hc. unfold isspace.
  change (code "0") with 48 in *. change (code "9") with 57 in *.
  change (code "a") with 97 in *. change (code "f") with 102 in *.
  change (code "A") with 65 in *. change (code "F") with 70 in *.
  change (code "-") with 45. change (code "+") with 43.
  change (code "x") with 120. change (code "X") with 88. generalize dependent (code c). intros z Hz.
  repeat match goal with |- _ /\ _ => split end;
    rewrite ?orb_false_iff, ?andb_false_iff, ?Z.eqb_neq, ?Z.leb_gt;
    repeat (match goal with H : context [?a <=? ?b] |- _ => destruct (Z.leb_spec a b) end; simpl in Hz);
    lia.
Qed.

Lemma hex_prefix_all l : Forall is_hex l -> hex_prefix l = l.
Proof.
  induction 1 as [|c l Hc _ IH]; [done|]. cbn [hex_prefix].
  destruct (Z.eqb_spec (fromHex_char c) (-1)); [done|]. by rewrite IH.
Qed.

Lemma skip_0x_hex l : Forall is_hex l -> skip_0x l = l.
Proof.
  intros Hl. destruct l as [|c [|d [|e l]]]; try done. cbn [skip_0x].
  inversion_clear Hl as [|? ? _ Hl']. inversion_clear Hl' as [|? ? Hd _].
  destruct (is_hex_plain d Hd) as (_ & _ & _ & -> & ->). by rewrite andb_false_r.
Qed.

(** On up to sixteen digits [strtoull] is the value they denote. *)
Lemma strtoull16_hex s :
  Forall is_hex (chars s) -> (length (chars s) <= 16)%nat -> strtoull16 s = hex_value (chars s).
Proof.
  intros Hl Hlen. unfold strtoull16.
  assert (Hs : skip_spaces (chars s) = chars s).
  { destruct (chars s) as [|c l]; [done|]. cbn [skip_spaces].
    inversion_clear Hl as [|? ? Hc _]. by destruct (is_hex_plain c Hc) as (-> & _). }
  rewrite Hs. pose proof (hex_value_range _ Hl) as Hr.
  assert (Hp : 16 ^ Z.of_nat (length (chars s)) <= 2 ^ 64).
  { change 16 with (2 ^ 4). rewrite <-Z.pow_mul_r by lia. apply Z.pow_le_mono_r; lia. }
  destruct (chars s) as [|c l] eqn:Hcs; [done|].
  destruct (is_hex_plain c) as (_ & Hm & Hpl & _); [by inversion_clear Hl|].
  rewrite Hm, Hpl. cbn [orb]. rewrite skip_0x_hex, hex_prefix_all by done.
  destruct (Z.leb_spec (2 ^ 64) (hex_value (c :: l))); [lia|done].
Qed.

Lemma shift64_pow s : 0 <= s < 64 -> shift64 1 s = Some (2 ^ s).
Proof.
  intros Hs. unfold shift64. destruct (Z.leb_spec 0 s), (Z.ltb_spec s 64); try lia. cbn [andb].
  unfold shl. rewrite Z.shiftl_1_l, wrap_id; [done|].
  split; [apply Z.pow_nonneg; lia|apply Z.pow_lt_mono_r; lia].
Qed.

Lemma shift64_mul x s :
  0 <= s < 64 -> 0 <= x < 2 ^ (64 - s) -> shift64 x s = Some (x * 2 ^ s) /\ in_word 64 (x * 2 ^ s).
Proof.
  intros Hs Hx. assert (Hw : in_word 64 (x * 2 ^ s)).
  { pose proof (Z.pow_pos_nonneg 2 s ltac:(lia) ltac:(lia)).
    assert (Hp : 2 ^ 64 = 2 ^ (64 - s) * 2 ^ s) by (rewrite <-Z.pow_add_r; [f_equal|..]; lia).
    unfold in_word. rewrite Hp. nia. }
  split; [|done]. unfold shift64. destruct (Z.leb_spec 0 s), (Z.ltb_spec s 64); try lia. cbn [andb].
  unfold shl. rewrite Z.shiftl_mul_pow2, wrap_id by (lia || done). done.
Qed.

(** The start nonce of the [i]-th miner. *)
Definition segment_start (bits start : Z) (i : nat) : Z := u64 (start + Z.of_nat i * 2 ^ bits).

Lemma set_startNonce_twice w a b : set_startNonce (set_startNonce w a) b = set_startNonce w b.
Proof. done. Qed.

Lemma segment_start_S bits start i :
  segment_start bits (u64 (start + 2 ^ bits)) i = segment_start bits start (S i).
Proof.
  unfold segment_start, wrap. rewrite Z.add_mod_idemp_l by done. f_equal. lia.
Qed.

Lemma give_work_spec bits wp ms :
  0 <= bits < 64 -> in_word 64 (startNonce wp) ->
  give_work bits wp ms =
    Some (imap (fun i m => setWork m (set_startNonce wp (segment_start bits (startNonce wp) i))) ms,
          set_startNonce wp (segment_start bits (startNonce wp) (length ms))).
Proof.
  intros Hb. revert wp. induction ms as [|m ms IH]; intros wp Hwp.
  - cbn. f_equal. f_equal. unfold segment_start. rewrite Z.mul_0_l, Z.add_0_r, wrap_id by (lia || done).
    by destruct wp.
  - cbn [give_work]. rewrite shift64_pow by done. cbn [mbind option_bind].
    rewrite IH by (apply wrap_in_word; lia). cbn [mbind option_bind imap length startNonce set_startNonce].
    rewrite set_startNonce_twice, segment_start_S.
    assert (H0 : segment_start bits (startNonce wp) 0 = startNonce wp)
      by (unfold segment_start; rewrite Z.mul_0_l, Z.add_0_r; by apply wrap_id).
    assert (Hi : imap (fun i m => setWork m (set_startNonce (set_startNonce wp
        (u64 (startNonce wp + 2 ^ bits))) (segment_start bits (u64 (startNonce wp + 2 ^ bits)) i))) ms =
      imap ((fun i m => setWork m (set_startNonce wp (segment_start bits (startNonce wp) i))) ∘ S) ms).
    { apply imap_ext. intros i m' _. cbn [compose]. by rewrite set_startNonce_twice, segment_start_S. }
    rewrite Hi, H0. by destruct wp.
Qed.

(** How many hexadecimal digits of the nonce are given, and where the search
    begins. *)
Definition prefix_digits (f : Farm) (wp : WorkPackage) : Z :=
  if negb (String.eqb (nonce (m_Settings f)) "") then Z.of_nat (length (chars (nonce (m_Settings f))))
  else Z.max 0 (exSizeBytes wp).

Definition prefix_start (f : Farm) (wp : WorkPackage) (rnd : Z) : Z :=
  if negb (String.eqb (nonce (m_Settings f)) "") then
    hex_value (chars (nonce (m_Settings f))) * 2 ^ (64 - 4 * prefix_digits f wp)
  else if 0 <? exSizeBytes wp then startNonce wp else rnd.

Lemma length_chars s : length (chars s) = String.length s.
Proof. unfold chars. induction s; simpl; congruence. Qed.

Lemma empty_size s : (Z.of_nat (String.length s) =? 0) = String.eqb s "".
Proof. destruct s; [done|]. apply Z.eqb_neq. simpl. lia. Qed.

Lemma prefix_digits_nonneg f wp : 0 <= prefix_digits f wp.
Proof. unfold prefix_digits. destruct (String.eqb _ _); cbn [negb]; lia. Qed.

Lemma u16_u32 x : 0 <= x <= 64 -> u16 (u32 x) = x.
Proof. intros Hx. rewrite !wrap_id; unfold in_word; [done|lia|rewrite wrap_id; unfold in_word; lia]. Qed.

Section Segments.
Context (f : Farm) (wp : WorkPackage) (rnd n : Z).
Hypothesis (Hhex : Forall is_hex (chars (nonce (m_Settings f)))).
Hypothesis (Hstart : in_word 64 (startNonce wp)) (Hrnd : in_word 64 rnd) (Hn : 0 < n).
Hypothesis (Hbits : 1 <= Z.log2_up n + 4 * prefix_digits f wp <= 64).

Let bits : Z := 64 - Z.log2_up n - 4 * prefix_digits f wp.

Lemma segment_spec :
  segment n (nonce (m_Settings f)) wp rnd = Some (bits, prefix_start f wp rnd) /\
  in_word 64 (prefix_start f wp rnd).
Proof.
  pose proof (Z.log2_up_nonneg n) as Hlog. pose proof (prefix_digits_nonneg f wp) as Hk0.
  pose proof Hbits as Hb. unfold segment, ceil_log2, prefix_start, bits.
  unfold prefix_digits in *. destruct (Z.eqb_spec n 0); [lia|]. cbn [mbind option_bind].
  rewrite empty_size. destruct (String.eqb (nonce (m_Settings f)) "") eqn:He; cbn [negb] in *.
  - destruct (Z.ltb_spec 0 (exSizeBytes wp)).
    + rewrite Z.max_r in * by lia. split; [|done]. do 2 f_equal.
      rewrite u16_u32, wrap_id by (unfold in_word; lia). lia.
    + rewrite Z.max_l in * by lia. split; [|done]. do 2 f_equal.
      rewrite u16_u32 by lia. lia.
  - rewrite length_chars in *. set (k := Z.of_nat (String.length (nonce (m_Settings f)))) in *.
    assert (Hk : 0 < k).
    { unfold k. destruct (nonce (m_Settings f)); [done|]. simpl. lia. }
    rewrite strtoull16_hex by (done || rewrite length_chars; lia).
    pose proof (hex_value_range _ Hhex) as Hr. rewrite length_chars in Hr. fold k in Hr.
    change 16 with (2 ^ 4) in Hr. rewrite <-Z.pow_mul_r in Hr by lia.
    rewrite (wrap_id 64) by (unfold in_word; lia).
    destruct (shift64_mul (hex_value (chars (nonce (m_Settings f)))) (64 - 4 * k)) as [-> Hw];
      [lia|by replace (64 - (64 - 4 * k)) with (4 * k) by lia|].
    cbn [mbind option_bind]. split; [|done]. do 2 f_equal.
    rewrite u16_u32, wrap_id by (unfold in_word; lia). lia.
Qed.

Lemma segments_fit : n * 2 ^ bits <= 2 ^ (64 - 4 * prefix_digits f wp).
Proof.
  pose proof (Z.log2_up_nonneg n). destruct (Z.eq_dec n 1) as [->|Hn1].
  - change (Z.log2_up 1) with 0 in *. unfold bits. change (Z.log2_up 1) with 0.
    rewrite Z.mul_1_l. apply Z.pow_le_mono_r; lia.
  - pose proof (Z.log2_log2_up_spec n ltac:(lia)) as [_ Hup].
    replace (64 - 4 * prefix_digits f wp) with (Z.log2_up n + bits) by (unfold bits; lia).
    rewrite Z.pow_add_r by (unfold bits; lia). apply Z.mul_le_mono_nonneg_r; [|done].
    apply Z.pow_nonneg. lia.
Qed.

Lemma segments_fit64 : n * 2 ^ bits <= 2 ^ 64.
Proof.
  pose proof segments_fit. pose proof (prefix_digits_nonneg f wp).
  assert (2 ^ (64 - 4 * prefix_digits f wp) <= 2 ^ 64) by (apply Z.pow_le_mono_r; lia). lia.
Qed.

Lemma segments_disjoint start i j a b :
  (i < j)%nat -> Z.of_nat j < n -> 0 <= a < 2 ^ bits -> 0 <= b < 2 ^ bits ->
  u64 (segment_start bits start i + a) <> u64 (segment_start bits start j + b).
Proof.
  intros Hij Hj Ha Hb Heq. pose proof segments_fit64 as Hfit.
  unfold segment_start, wrap in Heq. rewrite !Z.add_mod_idemp_l in Heq by done.
  set (x := start + Z.of_nat i * 2 ^ bits + a) in *. set (y := start + Z.of_nat j * 2 ^ bits + b) in *.
  assert (Hd : (y - x) mod 2 ^ 64 = 0).
  { rewrite Zminus_mod, <-Heq, Z.sub_diag. done. }
  assert (0 < y - x < 2 ^ 64) by (unfold x, y; nia).
  rewrite Z.mod_small in Hd by lia. lia.
Qed.

Lemma segments_in_block start i a :
  in_word 64 start -> (2 ^ (64 - 4 * prefix_digits f wp) | start) ->
  Z.of_nat i < n -> 0 <= a < 2 ^ bits ->
  u64 (segment_start bits start i + a) / 2 ^ (64 - 4 * prefix_digits f wp) =
    start / 2 ^ (64 - 4 * prefix_digits f wp).
Proof.
  intros Hs [q Hq] Hi Ha. pose proof segments_fit as Hfit. pose proof (prefix_digits_nonneg f wp).
  unfold segment_start, wrap. rewrite Z.add_mod_idemp_l by done.
  set (P := 2 ^ (64 - 4 * prefix_digits f wp)) in *.
  assert (HP : 0 < P) by (apply Z.pow_pos_nonneg; pose proof (Z.log2_up_nonneg n); lia).
  assert (H64 : 2 ^ 64 = P * 2 ^ (4 * prefix_digits f wp)).
  { unfold P. rewrite <-Z.pow_add_r; [f_equal; lia|pose proof (Z.log2_up_nonneg n); lia|lia]. }
  assert (Hoff : 0 <= Z.of_nat i * 2 ^ bits + a < P) by nia.
  unfold in_word in Hs. subst start.
  set (R := 2 ^ (4 * prefix_digits f wp)) in *. assert (HqR : 0 <= q /\ q + 1 <= R) by nia.
  assert (HR : (q + 1) * P <= R * P) by (apply Z.mul_le_mono_nonneg_r; lia).
  rewrite Z.mod_small by lia. rewrite Z.div_mul by lia. symmetry. apply (Z.div_unique _ _ _ (Z.of_nat i * 2 ^ bits + a)); lia.
Qed.

End Segments.

(** What each miner is given. *)
Lemma farm_setWork_miners (f : Farm) (wp : WorkPackage) (rnd : Z) :
  let n := Z.of_nat (length (m_miners f)) in
  let bits := 64 - Z.log2_up n - 4 * prefix_digits f wp in
  Forall is_hex (chars (nonce (m_Settings f))) ->
  in_word 64 (startNonce wp) -> in_word 64 rnd -> 0 < n -> 1 <= Z.log2_up n + 4 * prefix_digits f wp <= 64 ->
  exists f', farm_setWork f wp rnd = Some f' /\
    m_miners f' = imap (fun i m => setWork m (set_startNonce wp (segment_start bits (prefix_start f wp rnd) i)))
                    (m_miners f).
Proof.
  intros n bits Hhex Hs Hr Hn Hb. destruct (segment_spec f wp rnd n Hhex Hs Hr Hn Hb) as [Hseg Hw].
  unfold farm_setWork. fold n. rewrite Hseg. cbn [mbind option_bind].
  rewrite give_work_spec; [|pose proof (prefix_digits_nonneg f wp); pose proof (Z.log2_up_nonneg n); lia|done].
  cbn [mbind option_bind]. eexists. split; [reflexivity|]. cbn [m_miners set_currentWp set_miners].
  by apply imap_ext.
Qed.

(** C15: When the farm has miners and the digits of the prefix (the configured
    nonce, or the pool's extranonce) leave each of them a segment narrower than
    64 bits, [setWork] hands out one segment of [2 ^ bits] nonces to each miner,
    the segments are pairwise disjoint modulo [2 ^ 64], and with a prefix every
    nonce of every segment begins with it. *)
Theorem farm_setWork_segments (f : Farm) (wp : WorkPackage) (rnd : Z) :
  let n := Z.of_nat (length (m_miners f)) in
  let k := prefix_digits f wp in
  let bits := 64 - Z.log2_up n - 4 * k in
  let start := prefix_start f wp rnd in
  Forall is_hex (chars (nonce (m_Settings f))) ->
  in_word 64 (startNonce wp) -> in_word 64 rnd -> 0 < n -> 1 <= Z.log2_up n + 4 * k <= 64 ->
  (exists f', farm_setWork f wp rnd = Some f' /\
     m_miners f' = imap (fun i m => setWork m (set_startNonce wp (segment_start bits start i)))
                     (m_miners f)) /\
  (forall i j a b, (i < j)%nat -> Z.of_nat j < n -> 0 <= a < 2 ^ bits -> 0 <= b < 2 ^ bits ->
     u64 (segment_start bits start i + a) <> u64 (segment_start bits start j + b)) /\
  (forall i a, (2 ^ (64 - 4 * k) | start) -> Z.of_nat i < n -> 0 <= a < 2 ^ bits ->
     u64 (segment_start bits start i + a) / 2 ^ (64 - 4 * k) = start / 2 ^ (64 - 4 * k)).
Proof.
  intros n k bits start Hhex Hs Hr Hn Hb. pose proof (segment_spec f wp rnd n Hhex Hs Hr Hn Hb) as [_ Hw].
  split; [|split].
  - by apply farm_setWork_miners.
  - intros i j a b. by apply segments_disjoint.
  - intros i a Hd. by apply segments_in_block.
Qed.

Definition settings_example (nonce_s : string) : FarmSettings :=
  mk_FarmSettings 1 40 80 nonce_s 0 0 0 false.

Definition miner_example (i : Z) : Miner := Miner_new i 0 (mk_HwMonitorInfo HwUNKNOWN "" (-1)).

(** Three miners at work. *)
Definition farm_example (nonce_s : string) : Farm :=
  mk_Farm [miner_example 0; miner_example 1; miner_example 2] WorkPackage_default true false true
    (Telemetry_default "" 0) (replicate 3 (Telemetry_default "cu" 0)) (settings_example nonce_s) []
    None None true [].

Lemma farm_setWork_segments_witness :
  prefix_start (farm_example "ab") WorkPackage_default 0 = 0xab00000000000000 /\
  u64 (segment_start 54 0xab00000000000000 0 + 5) <> u64 (segment_start 54 0xab00000000000000 2 + 7) /\
  u64 (segment_start 54 0xab00000000000000 2 + 7) / 2 ^ 56 = 0xab.
Proof.
  destruct (farm_setWork_segments (farm_example "ab") WorkPackage_default 0)
    as (_ & Hdisj & Hblock).
  - refine (bool_decide_unpack _ _). vm_compute. exact I.
  - vm_compute. intuition congruence.
  - vm_compute. intuition congruence.
  - vm_compute. reflexivity.
  - vm_compute. intuition congruence.
  - split; [vm_compute; reflexivity|]. split.
    + apply (Hdisj 0%nat 2%nat 5 7); [lia|vm_compute; reflexivity| |];
        (split; [lia|vm_compute; reflexivity]).
    + apply (Hblock 2%nat 7); [exists 0xab; vm_compute; reflexivity|vm_compute; reflexivity|].
      split; [lia|vm_compute; reflexivity].
Defined.

(** Without a configured nonce and an extranonce, [setWork] of a farm with a
    single miner shifts a 64-bit word by 64, and of a farm without miners
    converts the logarithm of 0 to an integer: both undefined. *)
Theorem farm_setWork_undefined (f : Farm) (wp : WorkPackage) (rnd : Z) :
  nonce (m_Settings f) = ""%string -> exSizeBytes wp = 0 -> (length (m_miners f) <= 1)%nat ->
  farm_setWork f wp rnd = None.
Proof.
  intros Hn Hex Hl. unfold farm_setWork, segment. rewrite Hn, Hex.
  destruct (m_miners f) as [|m [|m' ms]]; [done|done|simpl in Hl; lia].
Qed.

Lemma farm_setWork_undefined_witness :
  farm_setWork (set_miners (farm_example "") [miner_example 0]) WorkPackage_default 7 = None.
Proof. apply farm_setWork_undefined; [reflexivity|reflexivity|simpl; lia]. Defined.

(** ** Accounts *)

(** The counter of a kind. *)
Definition counter (what : SolutionAccountingEnum) (a : SolutionAccountType) : Z :=
  match what with
  | Accepted => accepted a | Rejected => rejected a | Wasted => wasted a | Failed => failed a
  end.

#[export] Instance SolutionAccountingEnum_eq_dec : EqDecision SolutionAccountingEnum.
Proof. solve_decision. Defined.

Lemma counter_account a what k :
  counter k (account a what) =
    if bool_decide (what = k) then u32 (counter k a + 1) else counter k a.
Proof. by destruct what, k. Qed.

Lemma counter_stamp a now k : counter k (stamp a now) = counter k a.
Proof. by destruct k. Qed.

(** The accounting of a sequence of solutions, each handler catching what is
    thrown. *)
Definition account_all (f : Farm) (l : list (Z * Z * SolutionAccountingEnum)) : Farm :=
  fold_left (fun f '(now, idx, what) => (accountSolution now f idx what).2) l f.

Definition count (P : Z * Z * SolutionAccountingEnum -> bool) (l : list (Z * Z * SolutionAccountingEnum)) : Z :=
  Z.of_nat (length (List.filter P l)).

Definition is_kind (k : SolutionAccountingEnum) (e : Z * Z * SolutionAccountingEnum) : bool :=
  bool_decide (e.2 = k).
Definition is_miner (k : SolutionAccountingEnum) (i : nat) (e : Z * Z * SolutionAccountingEnum) : bool :=
  bool_decide (e.2 = k) && (e.1.2 =? Z.of_nat i).

Lemma count_cons P e l : count P (e :: l) = (if P e then 1 else 0) + count P l.
Proof. unfold count. cbn [List.filter]. destruct (P e); simpl length; lia. Qed.

Lemma accountSolution_farm now f idx what k :
  counter k (ta_solutions (telemetry_farm (accountSolution now f idx what).2)) =
    if bool_decide (what = k) then u32 (counter k (ta_solutions (telemetry_farm f)) + 1)
    else counter k (ta_solutions (telemetry_farm f)).
Proof.
  unfold accountSolution.
  destruct (array_get (telemetry_miners f) idx); cbn [snd telemetry_farm set_telemetry ta_solutions set_solutions];
    by rewrite counter_account, counter_stamp.
Qed.

Lemma accountSolution_miner now f idx what k i t :
  telemetry_miners f !! i = Some t ->
  exists t', telemetry_miners (accountSolution now f idx what).2 !! i = Some t' /\
    counter k (ta_solutions t') =
      if is_miner k i (now, idx, what) then u32 (counter k (ta_solutions t) + 1)
      else counter k (ta_solutions t).
Proof.
  intros Hi. unfold accountSolution, is_miner. cbn [fst snd].
  destruct (array_get (telemetry_miners f) idx) as [t0|] eqn:Hget;
    cbn [snd telemetry_miners set_telemetry].
  - unfold array_get in Hget. destruct (Z.leb_spec 0 idx); [|done].
    destruct (Z.eqb_spec idx (Z.of_nat i)) as [->|Hne].
    + rewrite Nat2Z.id in *. simplify_eq. eexists. split.
      { apply list_lookup_insert_eq. by eapply lookup_lt_Some. }
      cbn [ta_solutions set_solutions]. rewrite counter_stamp, counter_account, andb_true_r. done.
    + exists t. rewrite list_lookup_insert_ne by lia. by rewrite andb_false_r.
  - exists t. split; [done|]. unfold array_get in Hget.
    destruct (Z.eqb_spec idx (Z.of_nat i)) as [->|Hne]; [|by rewrite andb_false_r].
    destruct (Z.leb_spec 0 (Z.of_nat i)); [|lia]. rewrite Nat2Z.id in Hget. congruence.
Qed.

(** After any sequence of accounted solutions, for each kind, the farm's
    counter has grown by the number of solutions of the kind and each miner's by
    those that name it, modulo [2 ^ 32]; a solution that names no miner counts
    for the farm although accounting it throws. *)
Theorem accounts_balance (f : Farm) (l : list (Z * Z * SolutionAccountingEnum))
    (k : SolutionAccountingEnum) :
  let f' := account_all f l in
  u32 (counter k (ta_solutions (telemetry_farm f'))) =
    u32 (counter k (ta_solutions (telemetry_farm f)) + count (is_kind k) l) /\
  (forall i t, telemetry_miners f !! i = Some t ->
     exists t', telemetry_miners f' !! i = Some t' /\
       u32 (counter k (ta_solutions t')) = u32 (counter k (ta_solutions t) + count (is_miner k i) l)) /\
  (forall now idx what,
     fst (accountSolution now f idx what) = Ok tt <-> is_Some (array_get (telemetry_miners f) idx)).
Proof.
  split_and!.
  - revert f. induction l as [|[[now idx] what] l IH]; intros f.
    { unfold count. simpl. by rewrite Z.add_0_r. }
    cbn [account_all fold_left]. fold (account_all (accountSolution now f idx what).2 l).
    rewrite IH, accountSolution_farm, count_cons. unfold is_kind at 2. cbn [snd].
    destruct (bool_decide (what = k)); [|by rewrite Z.add_0_l].
    unfold wrap. rewrite Z.add_mod_idemp_l by done. f_equal. lia.
  - revert f. induction l as [|[[now idx] what] l IH]; intros f i t Hi.
    { exists t. split; [done|]. unfold count. simpl. by rewrite Z.add_0_r. }
    cbn [account_all fold_left]. fold (account_all (accountSolution now f idx what).2 l).
    destruct (accountSolution_miner now f idx what k i t Hi) as (t1 & Ht1 & Hc1).
    destruct (IH _ i t1 Ht1) as (t' & Ht' & Hc'). exists t'. split; [done|].
    rewrite Hc', Hc1, count_cons. destruct (is_miner k i (now, idx, what)); [|by rewrite Z.add_0_l].
    unfold wrap. rewrite Z.add_mod_idemp_l by done. f_equal. lia.
  - intros now idx what. unfold accountSolution.
    destruct (array_get (telemetry_miners f) idx); split; intros H; try done.

Qed.

(** ** Solutions *)

Lemma hashimoto_final_wf cache pages hdr n : hash256_wf (hashimoto cache pages hdr n).1.
Proof. unfold hashimoto. cbn [fst]. apply sha3_256_wf. Qed.

Lemma accountSolution_trace now f idx what : trace (accountSolution now f idx what).2 = trace f.
Proof. unfold accountSolution. by destruct (array_get _ _). Qed.

#[local] Opaque hashimoto mkcache epoch_seed.

(** C5: A solution reported by a device is checked against the specification
    before it leaves the farm: with the value of hashimoto for its header and
    nonce, it is passed on, with the mix hash of the specification, when the
    value does not exceed the boundary of its work; otherwise nothing is passed
    on and it is accounted as failed. *)
Theorem submitProof_correct (host : Host) (ts : list thread) (g : managed epoch_context)
    (t : thread) (now : Z) (s : Solution) (f : Farm) :
  steps epoch_number ethash_create_epoch_context managed_init ts g -> waiting g !! t = None ->
  0 <= epoch (s_work s) <= 2 * max_epoch + 1 -> hash256_wf (header (s_work s)) ->
  in_word 64 (s_nonce s) -> hash256_wf (boundary (s_work s)) ->
  exists ln fn g',
    let e := epoch (s_work s) in
    let r := hashimoto (mkcache (Z.to_nat ln) (epoch_seed (Z.to_nat e))) fn
               (header (s_work s)) (s_nonce s) in
    ethash_calculate_light_cache_num_items (epoch_ecip1099 e) = Some ln /\
    ethash_calculate_full_dataset_num_items (epoch_ecip1099 e) = Some fn /\
    (be_number r.1 <= be_number (boundary (s_work s)) ->
       submitProofAsync (fun _ => true) t now s f g =
         Some (Ok tt, emit f (EvSolutionFound
           (mk_Solution (s_nonce s) r.2 (s_work s) (s_tstamp s) (s_midx s))), g')) /\
    (be_number (boundary (s_work s)) < be_number r.1 ->
       submitProofAsync (fun _ => true) t now s f g =
         Some (accountSolution now f (s_midx s) Failed, g') /\
       trace (accountSolution now f (s_midx s) Failed).2 = trace f).
Proof.
  intros Hs Hw He Hh Hn Hb.
  destruct (eval_spec ts g t (epoch (s_work s)) (header (s_work s)) (s_nonce s) Hs Hw He Hh Hn)
    as (ln & fn & g' & Hln & Hfn & Heval).
  exists ln, fn, g'. cbv zeta. set (r := hashimoto _ _ _ _) in *.
  assert (Hr : hash256_wf r.1) by apply hashimoto_final_wf. destruct Hr as [Hr1 Hr2], Hb as [Hb1 Hb2].
  unfold submitProofAsync. rewrite Heval. cbn [mbind option_bind]. unfold judge_proof.
  rewrite h_gt_spec by (done || congruence). split; [exact Hln|]. split; [exact Hfn|]. split.
  - intros Hle. destruct (Z.ltb_spec (be_number (boundary (s_work s))) (be_number r.1)); [lia|reflexivity].
  - intros Hlt. destruct (Z.ltb_spec (be_number (boundary (s_work s))) (be_number r.1)); [|lia].
    split; [reflexivity|apply accountSolution_trace].
Qed.

Definition solution_example : Solution :=
  mk_Solution 42 (h_zero 32) (mk_WorkPackage "" (replicate 32 255) (h_zero 32) (h_zero 32) 10 (-1) 0 0
    (S754_zero false)) 0 1.

Lemma submitProof_correct_witness :
  exists mix g', @submitProofAsync plain_host (fun _ => true) 1%nat 0 solution_example
    (farm_example "") managed_init =
      Some (Ok tt, emit (farm_example "") (EvSolutionFound
        (mk_Solution 42 mix (s_work solution_example) 0 1)), g').
Proof.
  destruct (submitProof_correct plain_host [] managed_init 1%nat 0 solution_example (farm_example "")
    (steps_nil _ _ _) eq_refl) as (ln & fn & g' & _ & _ & Hok & _).
  - vm_compute. intuition congruence.
  - split; [reflexivity|apply zeros_ok].
  - unfold in_word. simpl. lia.
  - split; [reflexivity|]. refine (bool_decide_unpack _ _). vm_compute. exact I.
  - eexists _, g'. apply Hok.
    pose proof (hashimoto_final_wf (mkcache (Z.to_nat ln) (epoch_seed (Z.to_nat 10))) fn (h_zero 32) 42)
      as [Hl Hbk].
    pose proof (be_number_range _ Hbk) as Hr. rewrite Hl in Hr.
    assert (Hmax : be_number (boundary (s_work solution_example)) = 2 ^ 256 - 1)
      by (vm_compute; reflexivity).
    rewrite Hmax. change (8 * Z.of_nat 32) with 256 in Hr. exact (proj1 (Z.lt_le_pred _ _) (proj2 Hr)).
Defined.

(** ** Collecting data *)

(** What the second loop of [collectData] does to a miner and its telemetry. *)
Definition rate_of (m : Miner) : float := if paused m then fzero else m_hashRate m.

Definition processed (f : Farm) (rd : Readings) (spurious : bool) (m : Miner) (t : TelemetryAccountType)
  : Miner * TelemetryAccountType :=
  let s := m_Settings f in
  let t := set_rate_paused t (rate_of m) (paused m) in
  if hwMon s =? 0 then (TriggerHashRateUpdate m spurious, t)
  else
    let r := (read_sensors f rd m).1 in
    (TriggerHashRateUpdate (check_threshold (tempStop s) (tempStart s) (r_tempC r) (read_sensors f rd m).2)
       spurious, set_sensors t r).

Lemma process_miner_eq f rd sp hr m tm t :
  array_get tm (m_index m) = Some t ->
  process_miner f rd sp hr m tm =
    Some (fadd hr (rate_of m), (processed f rd sp m t).1,
          <[Z.to_nat (m_index m) := (processed f rd sp m t).2]> tm).
Proof.
  intros Ht. unfold process_miner, processed. rewrite Ht. cbn [mbind option_bind].
  destruct (hwMon (m_Settings f) =? 0); [reflexivity|]. by destruct (read_sensors f rd m).
Qed.

Lemma array_get_nat {A} (l : list A) i : array_get l (Z.of_nat i) = l !! i.
Proof. unfold array_get. destruct (Z.leb_spec 0 (Z.of_nat i)); [by rewrite Nat2Z.id|lia]. Qed.

Lemma process_miners_spec f rd sp ms : forall k hr tf tm,
  (forall j m, ms !! j = Some m -> m_index m = Z.of_nat (k + j)) ->
  length tm = (k + length ms)%nat ->
  exists ms' tf' tm',
    process_miners f rd sp hr ms tf tm = (true, ms', tf', tm') /\
    length ms' = length ms /\ length tm' = length tm /\
    (forall i, (i < k)%nat -> tm' !! i = tm !! i) /\
    (forall j m t, ms !! j = Some m -> tm !! (k + j)%nat = Some t ->
       ms' !! j = Some (processed f rd (sp (m_index m)) m t).1 /\
       tm' !! (k + j)%nat = Some (processed f rd (sp (m_index m)) m t).2) /\
    ta_hashrate tf' =
      match ms with [] => ta_hashrate tf | _ => fold_left (fun a m => fadd a (rate_of m)) ms hr end.
Proof.
  induction ms as [|m ms IH]; intros k hr tf tm Hidx Hlen.
  { exists [], tf, tm. split_and!; try done. }
  assert (Hm : m_index m = Z.of_nat k) by (rewrite (Hidx 0%nat m eq_refl); f_equal; lia).
  cbn [length] in Hlen. destruct (lookup_lt_is_Some_2 tm k ltac:(lia)) as [t Ht].
  cbn [process_miners]. rewrite (process_miner_eq _ _ _ _ _ _ t) by (by rewrite Hm, array_get_nat).
  set (p := processed f rd (sp (m_index m)) m t).
  destruct (IH (S k) (fadd hr (rate_of m)) (set_rate_paused tf (fadd hr (rate_of m)) (ta_paused tf))
    (<[Z.to_nat (m_index m) := p.2]> tm)) as (ms' & tf' & tm' & -> & Hl1 & Hl2 & Hlow & Hrest & Hhr).
  { intros j m' Hj. rewrite (Hidx (S j) m' Hj). f_equal. lia. }
  { rewrite length_insert. lia. }
  exists (p.1 :: ms'), tf', tm'. rewrite Hm, Nat2Z.id in *. rewrite length_insert in Hl2.
  split_and!; [done|simpl; lia|done| | |].
  - intros i Hi. rewrite Hlow by lia. apply list_lookup_insert_ne. lia.
  - intros [|j] m' t' Hj Ht'.
    + cbn in Hj. injection Hj as <-. rewrite Nat.add_0_r in *. rewrite Ht in Ht'. injection Ht' as <-.
      split; [reflexivity|]. rewrite Hlow, list_lookup_insert_eq by lia. reflexivity.
    + rewrite Nat.add_succ_r in Ht' |- *. apply (Hrest j m' t' Hj).
      rewrite list_lookup_insert_ne by lia. exact Ht'.
  - rewrite Hhr. by destruct ms.
Qed.

(** A miner that did not report since the last collection. *)
Definition hung (m : Miner) : bool := negb (paused m) && m_initialized m && m_hung_miner m.

Definition watched (m : Miner) : Miner :=
  if negb (paused m) && m_initialized m then set_hung m true else m.

Lemma check_hung_none ex ms :
  existsb hung ms = false -> check_hung ex ms = (HungNone, watched <$> ms).
Proof.
  induction ms as [|m ms IH]; [done|]. cbn [existsb]. rewrite orb_false_iff. intros [Hm Hms].
  cbn [check_hung]. rewrite (IH Hms), fmap_cons. unfold hung in Hm.
  assert (Hw : watched m = if negb (paused m) && m_initialized m then set_hung m true else m) by done.
  rewrite Hw.
  destruct (negb (paused m) && m_initialized m); [|done]. cbn [andb] in Hm. by rewrite Hm.
Qed.

Lemma check_hung_some ex ms :
  existsb hung ms = true ->
  (check_hung ex ms).1 = if ex then HungThrow else HungReturn.
Proof.
  induction ms as [|m ms IH]; [done|]. cbn [existsb check_hung]. intros Hh. unfold hung in Hh at 1.
  destruct (negb (paused m) && m_initialized m) eqn:Hp; cbn [andb orb] in Hh.
  - destruct (m_hung_miner m); [done|]. specialize (IH Hh). by destruct (check_hung ex ms).
  - specialize (IH Hh). by destruct (check_hung ex ms).
Qed.

(** ** The invariant of the farm *)

Record farm_ok (f : Farm) : Prop := {
  fo_telemetry : length (telemetry_miners f) = length (m_miners f);
  fo_index : forall i m, m_miners f !! i = Some m -> m_index m = Z.of_nat i;
  fo_miners : Forall miner_ok (m_miners f);
  fo_stopped : m_isMining f = false -> m_miners f = []
}.

(** An operation on a miner that keeps its index and its invariant. *)
Definition same_miner (m m' : Miner) : Prop :=
  m_index m' = m_index m /\ (miner_ok m -> miner_ok m').

Lemma same_miner_ext m m' :
  m_index m' = m_index m -> m_pauseFlags m' = m_pauseFlags m -> m_work m' = m_work m -> same_miner m m'.
Proof. intros Hi Hf Hw. split; [done|]. unfold miner_ok, flags_ok, paused. by rewrite Hf, Hw. Qed.

Lemma same_miner_trans m1 m2 m3 : same_miner m1 m2 -> same_miner m2 m3 -> same_miner m1 m3.
Proof. intros [H1 H2] [H3 H4]. split; [congruence|auto]. Qed.

Lemma same_setWork m w : same_miner m (setWork m w).
Proof. split; [unfold setWork; by destruct (paused m)|apply setWork_ok]. Qed.

Lemma same_pause m p : same_miner m (pause m p).
Proof. split; [done|apply pause_ok]. Qed.

Lemma same_resume m p : same_miner m (resume m p).
Proof. split; [done|apply resume_ok]. Qed.

Lemma same_watched m : same_miner m (watched m).
Proof. unfold watched. destruct (_ && _); by apply same_miner_ext. Qed.

Lemma same_trigger m sp : same_miner m (TriggerHashRateUpdate m sp).
Proof. unfold TriggerHashRateUpdate. destruct (_ && _); by apply same_miner_ext. Qed.

Lemma same_map_device mp m : same_miner m (map_device mp m).2.
Proof.
  unfold map_device. destruct (_ && _); [|by apply same_miner_ext].
  destruct (mp !! _); by apply same_miner_ext.
Qed.

Lemma read_sensors_miner f rd m :
  (read_sensors f rd m).2 = m \/ exists mp, (read_sensors f rd m).2 = (map_device mp m).2.
Proof.
  unfold read_sensors.
  destruct (deviceType _), (map_nvml_handle f) as [mp|], (map_amdsysfs_handle f) as [mp'|]; auto;
    right; first [by exists mp; destruct (map_device mp m)|by exists mp'; destruct (map_device mp' m)].
Qed.

Lemma same_read_sensors f rd m : same_miner m (read_sensors f rd m).2.
Proof.
  destruct (read_sensors_miner f rd m) as [->|[mp ->]]; [by apply same_miner_ext|apply same_map_device].
Qed.

#[export] Hint Resolve same_setWork same_pause same_resume same_watched same_trigger
  same_read_sensors : farm.
#[export] Hint Extern 1 (same_miner ?m ?m) => (by apply same_miner_ext) : farm.

Lemma same_threshold stop_ start_ c m : same_miner m (check_threshold stop_ start_ c m).
Proof.
  unfold check_threshold. destruct (stop_ =? 0); [auto with farm|].
  destruct (pauseTest m PauseDueToOverHeating), (stop_ <=? c), (c <=? start_); cbn [negb andb];
    auto with farm.
Qed.

Lemma same_processed f rd sp m t : same_miner m (processed f rd sp m t).1.
Proof.
  unfold processed. destruct (hwMon _ =? 0); cbn [fst]; [auto with farm|].
  eapply same_miner_trans; [apply (same_read_sensors f rd)|].
  eapply same_miner_trans; [apply same_threshold|auto with farm].
Qed.

#[export] Hint Resolve same_processed : farm.

Lemma farm_ok_miners f f' :
  farm_ok f -> Forall2 same_miner (m_miners f) (m_miners f') ->
  length (telemetry_miners f') = length (telemetry_miners f) -> m_isMining f' = m_isMining f ->
  farm_ok f'.
Proof.
  intros [Hlen Hidx Hok Hst] Hsame Ht Hmine. pose proof (Forall2_length _ _ _ Hsame) as Hl. split.
  - lia.
  - intros i m' Hi. destruct (Forall2_lookup_r _ _ _ _ _ Hsame Hi) as (m & Hm & Heq & _).
    rewrite Heq. by apply Hidx.
  - apply Forall_lookup. intros i m' Hi.
    destruct (Forall2_lookup_r _ _ _ _ _ Hsame Hi) as (m & Hm & _ & Hk).
    apply Hk. by apply (Forall_lookup_1 _ _ _ _ Hok Hm).
  - rewrite Hmine. intros Hm. specialize (Hst Hm). rewrite Hst in Hl. simpl in Hl.
    by destruct (m_miners f').
Qed.

Lemma Forall2_same_imap (g : nat -> Miner -> Miner) ms :
  (forall i m, same_miner m (g i m)) -> Forall2 same_miner ms (imap g ms).
Proof.
  intros Hg. apply Forall2_same_length_lookup_2; [by rewrite length_imap|].
  intros i m m' Hm Hm'. rewrite list_lookup_imap, Hm in Hm'. simpl in Hm'. injection Hm' as <-. apply Hg.
Qed.

Lemma Forall2_same_fmap (g : Miner -> Miner) ms :
  (forall m, same_miner m (g m)) -> Forall2 same_miner ms (g <$> ms).
Proof. intros Hg. apply Forall2_fmap_r. apply Forall_Forall2_diag. by apply Forall_true. Qed.

Lemma Forall2_same_refl ms : Forall2 same_miner ms ms.
Proof. apply Forall_Forall2_diag, Forall_true. auto with farm. Qed.

Lemma same_give_work bits ms : forall wp ms' wp',
  give_work bits wp ms = Some (ms', wp') -> Forall2 same_miner ms ms'.
Proof.
  induction ms as [|m ms IH]; intros wp ms' wp' H; cbn [give_work] in H.
  { by injection H as <- <-. }
  destruct (shift64 1 bits) as [w|]; [|done]. cbn [mbind option_bind] in H.
  destruct (give_work bits _ ms) as [[ms1 wp1]|] eqn:Hg; [|done]. cbn [mbind option_bind] in H.
  injection H as <- <-. constructor; [auto with farm|by eapply IH].
Qed.

Lemma same_check_hung ex ms : Forall2 same_miner ms (check_hung ex ms).2.
Proof.
  induction ms as [|m ms IH]; [constructor|]. cbn [check_hung].
  destruct (negb (paused m) && m_initialized m).
  - destruct (m_hung_miner m); [apply Forall2_same_refl|].
    destruct (check_hung ex ms). constructor; [by apply same_miner_ext|done].
  - destruct (check_hung ex ms). constructor; [by apply same_miner_ext|done].
Qed.

Lemma collect_processes f rd sp ms :
  farm_ok f -> Forall2 same_miner (m_miners f) ms ->
  exists ms' tf' tm',
    process_miners (set_miners (set_timer f false) ms) rd sp fzero ms (telemetry_farm f)
      (telemetry_miners f) = (true, ms', tf', tm') /\
    length ms' = length ms /\ length tm' = length (telemetry_miners f) /\
    (forall j m t, ms !! j = Some m -> telemetry_miners f !! j = Some t ->
       ms' !! j = Some (processed (set_miners (set_timer f false) ms) rd (sp (m_index m)) m t).1 /\
       tm' !! j = Some (processed (set_miners (set_timer f false) ms) rd (sp (m_index m)) m t).2) /\
    ta_hashrate tf' =
      match ms with
      | [] => ta_hashrate (telemetry_farm f)
      | _ => fold_left (fun a m => fadd a (rate_of m)) ms fzero
      end.
Proof.
  intros Hf Hsame. pose proof (Forall2_length _ _ _ Hsame) as Hl.
  destruct (process_miners_spec (set_miners (set_timer f false) ms) rd sp ms 0 fzero (telemetry_farm f)
    (telemetry_miners f)) as (ms' & tf' & tm' & H1 & H2 & H3 & _ & H4 & H5).
  - intros j m Hj. destruct (Forall2_lookup_r _ _ _ _ _ Hsame Hj) as (m0 & Hm0 & Heq & _).
    rewrite Heq. by apply (fo_index f Hf).
  - rewrite (fo_telemetry f Hf). simpl. lia.
  - exists ms', tf', tm'. split_and!; done.
Qed.

Lemma collectData_ok ec ex fp rd sp f :
  farm_ok f ->
  farm_ok (collectData ec ex fp rd sp f).2 /\ (collectData ec ex fp rd sp f).1 <> Throw OutOfRange.
Proof.
  intros Hf. unfold collectData. destruct ec.
  { split; [|done]. apply (farm_ok_miners f); [done|apply Forall2_same_refl|done|done]. }
  pose proof (same_check_hung ex (m_miners f)) as Hsame. cbn [m_miners set_timer].
  destruct (check_hung ex (m_miners f)) as [r ms] eqn:Hc. cbn [snd] in Hsame.
  destruct r; [|by split; [apply (farm_ok_miners f)|]..].
  destruct (collect_processes f rd sp ms Hf Hsame) as (ms' & tf' & tm' & Heq & Hl1 & Hl2 & Hp & _).
  cbn [m_miners telemetry_farm telemetry_miners set_miners set_timer].
  cbn [set_miners set_timer m_miners m_currentWp m_isMining m_paused telemetry_hwmon telemetry_farm
    telemetry_miners m_Settings m_DevicesCollection map_nvml_handle map_amdsysfs_handle m_collectTimer
    trace] in Heq |- *.
  rewrite Heq. split; [|done]. apply (farm_ok_miners f); [done| |done|done].
  cbn [snd m_miners set_timer set_telemetry set_miners].
  apply Forall2_same_length_lookup_2; [by rewrite Hl1; apply (Forall2_length _ _ _ Hsame)|].
  intros i m m' Hm Hm'.
  destruct (Forall2_lookup_l _ _ _ _ _ Hsame Hm) as (m1 & Hm1 & Hs1).
  destruct (lookup_lt_is_Some_2 (telemetry_miners f) i) as [t Ht].
  { rewrite (fo_telemetry f Hf). by eapply lookup_lt_Some. }
  destruct (Hp i m1 t Hm1 Ht) as [Hres _]. rewrite Hres in Hm'. injection Hm' as <-.
  eapply same_miner_trans; [exact Hs1|apply same_processed].
Qed.

(** ** Starting *)

Lemma Miner_new_ok i now hw : miner_ok (Miner_new i now hw).
Proof. split; [unfold flags_ok; simpl; lia|done]. Qed.

(** The part of the invariant that holds while devices are being started. *)
Definition starting_ok (f : Farm) : Prop := farm_ok (set_isMining f true).

Lemma start_device_ok cuda cl now f d :
  starting_ok f ->
  starting_ok (start_device cuda cl now f d).1 /\
  m_Settings (start_device cuda cl now f d).1 = m_Settings f.
Proof.
  intros Hf. unfold start_device. destruct d as [id dev].
  assert (Hadd : forall prefix,
    starting_ok (emit (set_telemetry
      (set_miners f (m_miners f ++ [Miner_new (Z.of_nat (length (m_miners f))) now
         (mk_HwMonitorInfo HwUNKNOWN "" (-1))])) (telemetry_farm f)
      (telemetry_miners f ++ [Telemetry_default prefix now])) (EvStartWorking (length (m_miners f))))).
  { destruct Hf as [Hlen Hidx Hok _]. cbn [set_isMining telemetry_miners m_miners] in *.
    intros prefix. split; cbn [set_isMining telemetry_miners m_miners emit set_telemetry set_miners].
    - rewrite !length_app. simpl. lia.
    - intros i m Hi. apply lookup_snoc_Some in Hi. destruct Hi as [[_ Hi]|[-> <-]]; [by apply Hidx|done].
    - apply Forall_app. split; [done|]. constructor; [apply Miner_new_ok|done].
    - done. }
  destruct (subscriptionType dev), cuda, cl; cbn [fst]; split; try done; apply Hadd.
Qed.

Lemma start_devices_ok cuda cl now ds : forall f,
  starting_ok f -> starting_ok (start_devices cuda cl now f ds).1.
Proof.
  induction ds as [|d ds IH]; intros f Hf; [done|]. cbn [start_devices].
  pose proof (start_device_ok cuda cl now f d Hf) as [Hd _].
  destruct (start_device cuda cl now f d) as [f1 d1]. specialize (IH f1 Hd).
  by destruct (start_devices cuda cl now f1 ds).
Qed.

Lemma start_ok cuda cl now f : farm_ok f -> farm_ok (start cuda cl now f).2.
Proof.
  intros Hf. unfold start. destruct (m_isMining f) eqn:Hm; [done|]. cbn [snd].
  pose proof (fo_stopped f Hf Hm) as Hnil. rewrite Hnil.
  pose proof (start_devices_ok cuda cl now (m_DevicesCollection f) f) as Hs.
  destruct (start_devices cuda cl now f (m_DevicesCollection f)) as [f1 ds1]. cbn [fst] in Hs.
  assert (H1 : starting_ok f1).
  { apply Hs. destruct Hf. split; try done. }
  by destruct H1.
Qed.

Lemma stop_ok f : farm_ok f -> farm_ok (stop f).
Proof.
  intros Hf. unfold stop. destruct (m_isMining f); [|done].
  split; cbn [set_isMining set_telemetry set_miners m_miners telemetry_miners]; try done.
Qed.

(** The calls of other components on the farm, in any order; [fs_miner] is what
    a miner's thread or the API does to one miner. *)
Inductive farm_step (f : Farm) : Farm -> Prop :=
  | fs_setWork wp rnd f' : farm_setWork f wp rnd = Some f' -> farm_step f f'
  | fs_start cuda cl now : farm_step f (start cuda cl now f).2
  | fs_stop : farm_step f (stop f)
  | fs_pause : farm_step f (farm_pause f)
  | fs_resume : farm_step f (farm_resume f)
  | fs_restart b : farm_step f (restart b f)
  | fs_reboot fp arg : farm_step f (reboot fp f arg).2
  | fs_account now idx what : farm_step f (accountSolution now f idx what).2
  | fs_proof now s r : farm_step f (judge_proof now f s r).2
  | fs_collect ec ex fp rd sp : farm_step f (collectData ec ex fp rd sp f).2
  | fs_tstart a b : farm_step f (setTStartTStop f a b)
  | fs_nonce n : farm_step f (set_nonce f n)
  | fs_miner i m m' : m_miners f !! i = Some m -> same_miner m m' ->
      farm_step f (set_miners f (<[i := m']> (m_miners f))).

Lemma farm_ok_same f f' :
  farm_ok f -> m_miners f' = m_miners f -> length (telemetry_miners f') = length (telemetry_miners f) ->
  m_isMining f' = m_isMining f -> farm_ok f'.
Proof. intros Hf Hm Ht Hi. apply (farm_ok_miners f); [done| |done|done]. rewrite Hm. apply Forall2_same_refl. Qed.

Lemma accountSolution_ok now f idx what : farm_ok f -> farm_ok (accountSolution now f idx what).2.
Proof.
  intros Hf. apply (farm_ok_same f); [done|..]; unfold accountSolution; destruct (array_get _ _);
    try done; cbn; apply length_insert.
Qed.

Lemma farm_step_ok f f' : farm_step f f' -> farm_ok f -> farm_ok f'.
Proof.
  intros Hstep Hf. destruct Hstep as [wp rnd f' H| | | | | | |now idx what|now s r| | | |i m m' Hi Hs].
  - unfold farm_setWork in H. destruct (segment _ _ _ _) as [[bits st]|]; [|done].
    cbn [mbind option_bind] in H. destruct (give_work _ _ _) as [[ms wp']|] eqn:Hg; [|done].
    cbn [mbind option_bind] in H. injection H as <-.
    apply (farm_ok_miners f); [done|by apply (same_give_work _ _ _ _ _ Hg)|done|done].
  - by apply start_ok.
  - by apply stop_ok.
  - apply (farm_ok_miners f); [done|apply Forall2_same_fmap; auto with farm|done|done].
  - apply (farm_ok_miners f); [done|apply Forall2_same_fmap; auto with farm|done|done].
  - unfold restart. destruct b; [by apply (farm_ok_same f)|done].
  - by apply (farm_ok_same f).
  - by apply accountSolution_ok.
  - unfold judge_proof. destruct (h_gt _ _); [by apply accountSolution_ok|by apply (farm_ok_same f)].
  - by apply collectData_ok.
  - by apply (farm_ok_same f).
  - by apply (farm_ok_same f).
  - apply (farm_ok_miners f); [done| |done|done]. cbn [m_miners set_miners].
    rewrite <-(list_insert_id (m_miners f) i m Hi) at 1. apply Forall2_insert; [apply Forall2_same_refl|done].
Qed.

Lemma farm_steps_ok f f' : rtc farm_step f f' -> farm_ok f -> farm_ok f'.
Proof. induction 1 as [|f f1 f' Hs _ IH]; [done|]. intros Hf. apply IH. by eapply farm_step_ok. Qed.

Lemma Farm_new_ok now nvml sysfs devs s : farm_ok (Farm_new now nvml sysfs devs s).
Proof. by split. Qed.


Definition devices_example : list (string * DeviceDescriptor) :=
  [("01:00.0"%string, mk_Device SubCuda ClUnknown 0 0 0 false);
   ("02:00.0"%string, mk_Device SubOpenCL ClAmd 0 0 0 false)].

(** A new farm, started. *)
Definition started_example : Farm :=
  (start true true 0 (Farm_new 0 None None devices_example (settings_example ""))).2.


(** ** Temperature control and the watchdog *)

Lemma threshold_other stop_ start_ c m p :
  p <> PauseDueToOverHeating -> pauseTest (check_threshold stop_ start_ c m) p = pauseTest m p.
Proof.
  intros Hp. unfold check_threshold. destruct (stop_ =? 0); [done|].
  destruct (pauseTest m PauseDueToOverHeating) eqn:Hh, (stop_ <=? c), (c <=? start_); cbn [negb andb]; try done;
    rewrite ?pauseTest_resume, ?pauseTest_pause, ?bool_decide_eq_false_2 by congruence;
    by rewrite ?andb_true_r.
Qed.

Lemma threshold_spec stop_ start_ c m :
  stop_ <> 0 -> start_ < stop_ ->
  pauseTest (check_threshold stop_ start_ c m) PauseDueToOverHeating =
    if stop_ <=? c then true else if c <=? start_ then false else pauseTest m PauseDueToOverHeating.
Proof.
  intros Hs Hlt. unfold check_threshold. destruct (Z.eqb_spec stop_ 0); [done|].
  destruct (pauseTest m PauseDueToOverHeating) eqn:Hh, (Z.leb_spec stop_ c), (Z.leb_spec c start_);
    cbn [negb andb]; try lia; try done;
    rewrite ?pauseTest_resume, ?pauseTest_pause, ?bool_decide_eq_true_2 by done; by rewrite ?andb_false_r.
Qed.

Lemma pauseTest_ext m m' p : m_pauseFlags m' = m_pauseFlags m -> pauseTest m' p = pauseTest m p.
Proof. unfold pauseTest. by intros ->. Qed.

Lemma trigger_flags m sp : m_pauseFlags (TriggerHashRateUpdate m sp) = m_pauseFlags m.
Proof. unfold TriggerHashRateUpdate. by destruct (_ && _). Qed.

Lemma read_sensors_flags f rd m : m_pauseFlags (read_sensors f rd m).2 = m_pauseFlags m.
Proof.
  destruct (read_sensors_miner f rd m) as [->|[mp ->]]; [done|].
  unfold map_device. destruct (_ && _); [|done]. by destruct (mp !! _).
Qed.

Lemma watched_facts f rd m ms :
  m_pauseFlags (watched m) = m_pauseFlags m /\ rate_of (watched m) = rate_of m /\
  paused (watched m) = paused m /\ m_index (watched m) = m_index m /\
  (read_sensors (set_miners (set_timer f false) ms) rd (watched m)).1 = (read_sensors f rd m).1.
Proof.
  unfold watched. destruct (_ && _); [|done]. split_and!; try done.
  unfold read_sensors. cbn [m_hwmoninfo set_hung map_nvml_handle map_amdsysfs_handle set_miners set_timer m_Settings].
  destruct (deviceType _), (map_nvml_handle f), (map_amdsysfs_handle f); try done;
    unfold map_device; cbn [m_hwmoninfo set_hung]; destruct (_ && _); try done; by destruct (_ !! _).
Qed.

Lemma rates_watched ms a :
  fold_left (fun a m => fadd a (rate_of m)) (watched <$> ms) a =
  fold_left (fun a m => fadd a (rate_of m)) ms a.
Proof.
  revert a. induction ms as [|m ms IH]; intros a; [done|]. cbn [fmap list_fmap fold_left].
  assert (Hr : rate_of (watched m) = rate_of m) by (unfold watched; by destruct (_ && _)).
  by rewrite Hr, IH.
Qed.

(** What a collection publishes and does about one miner. *)
Definition collected (f : Farm) (rd : Readings) (m m' : Miner) (t' : TelemetryAccountType) : Prop :=
  let s := m_Settings f in
  let c := r_tempC (read_sensors f rd m).1 in
  ta_hashrate t' = rate_of m /\ ta_paused t' = paused m /\
  (hwMon s <> 0 -> ta_tempC t' = i32 c) /\
  (forall p, p <> PauseDueToOverHeating -> pauseTest m' p = pauseTest m p) /\
  (hwMon s <> 0 -> tempStop s <> 0 -> tempStart s < tempStop s ->
     pauseTest m' PauseDueToOverHeating =
       if tempStop s <=? c then true else if c <=? tempStart s then false
       else pauseTest m PauseDueToOverHeating).

Lemma processed_collected f ms rd sp m t :
  let p := processed (set_miners (set_timer f false) ms) rd sp (watched m) t in
  collected f rd m p.1 p.2.
Proof.
  destruct (watched_facts f rd m ms) as (Hfl & Hr & Hpa & _ & Hrd).
  cbv zeta. unfold processed, collected. cbn [m_Settings set_miners set_timer].
  destruct (Z.eqb_spec (hwMon (m_Settings f)) 0) as [H0|H0]; cbn [fst snd ta_hashrate ta_paused ta_tempC
    set_rate_paused set_sensors]; rewrite ?Hrd, Hr, Hpa.
  - split_and!; try done. intros p _. apply pauseTest_ext. by rewrite trigger_flags.
  - assert (Hflags : forall p, pauseTest (read_sensors (set_miners (set_timer f false) ms) rd (watched m)).2 p =
      pauseTest m p) by (intros p; apply pauseTest_ext; by rewrite read_sensors_flags).
    split_and!; try done.
    + intros p Hp. rewrite (pauseTest_ext _ _ _ (trigger_flags _ _)), threshold_other by done. apply Hflags.
    + intros _ Hs Hlt. rewrite (pauseTest_ext _ _ _ (trigger_flags _ _)), threshold_spec by done.
      by rewrite Hflags.
Qed.


Definition hot : Readings := mk_Readings (fun _ => mk_Sensors 85 90 100 0) (fun _ => no_sensors).
Definition no_script : FileProbe := mk_FileProbe (Ok false) (Ok 0) None (Ok tt).

(** A farm whose only miner is at 85 degrees, with the thresholds 40 and 80. *)
Definition hot_farm : Farm :=
  mk_Farm [Miner_new 0 0 (mk_HwMonitorInfo NVIDIA "0000:01:00.0" (-1))] WorkPackage_default true false true
    (Telemetry_default "" 0) [Telemetry_default "cu" 0] (settings_example "") []
    (Some (pci_map nvml_id [mk_gpu_pci 0 1 0])) None true [].

Lemma hot_farm_ok : farm_ok hot_farm.
Proof.
  split; [reflexivity| | |done].
  - intros [|i] m Hi; [|done]. injection Hi as <-. reflexivity.
  - constructor; [apply Miner_new_ok|done].
Qed.


(** When some miner has not reported since the last collection, the
    collection ends the program with an error or calls the reboot script, and in
    no case schedules the next collection, whatever becomes of the script. *)
Theorem hung_miner_ends_collection (f : Farm) (ex : bool) (fp : FileProbe) (rd : Readings)
    (sp : Z -> bool) :
  existsb hung (m_miners f) = true ->
  let r := collectData false ex fp rd sp f in
  m_collectTimer r.2 = false /\
  (if ex then r.1 = Throw (RuntimeError "Hung GPU") /\ trace r.2 = trace f
   else r.1 = Ok tt /\ trace r.2 = trace f ++ [EvReboot "hung_miner_reboot"]).
Proof.
  intros Hh. cbv zeta. unfold collectData. cbn [m_miners set_timer].
  pose proof (check_hung_some ex (m_miners f) Hh) as Hc.
  destruct (check_hung ex (m_miners f)) as [r ms]. cbn [fst] in Hc. subst r. by destruct ex.
Qed.

Definition hung_example : Farm :=
  set_miners (farm_example "") [mk_Miner 0 0 WorkPackage_default true true
    (mk_HwMonitorInfo HwUNKNOWN "" (-1)) 0 fzero false 0 (mk_EpochContext 0 0 0 None 0 0) 0].

Lemma hung_miner_ends_collection_witness :
  m_collectTimer (collectData false false no_script hot (fun _ => false) hung_example).2 = false.
Proof. apply hung_miner_ends_collection. vm_compute. reflexivity. Defined.
