(* ===== verification/PoolURI.v ===== *)
(** * Pool addresses ([libpool/PoolURI])

    The parser of the connection strings.  Each regular expression of the
    source is the function that computes its (greedy) match; [parse_ip] stands
    for the parser of IP addresses of Boost.Asio. *)

From Stdlib Require Import ZArith Lia Bool Ascii String.
From stdpp Require Import base numbers list strings.
From S2P Require Import Prelude Outcome CommonData Floats Farm.

Local Open Scope Z_scope.

Inductive SecureLevel := SecNONE | TLS.
Inductive ProtocolFamily := GETWORK | STRATUM | SIMULATION.
Inductive UriHostNameType := HostUnknown | HostBasic | HostDns | IPV4 | IPV6.

#[export] Instance ProtocolFamily_eq_dec : EqDecision ProtocolFamily.
Proof. solve_decision. Defined.

Record SchemeAttributes := mk_Scheme { family : ProtocolFamily; secure : SecureLevel; version : Z }.

(** [s_schemes], in the order of the keys. *)
Definition s_schemes : list (string * SchemeAttributes) :=
  [("getwork", mk_Scheme GETWORK SecNONE 0);
   ("http", mk_Scheme GETWORK SecNONE 0);
   ("simulation", mk_Scheme SIMULATION SecNONE 999);
   ("stratum", mk_Scheme STRATUM SecNONE 999);
   ("stratum+ssl", mk_Scheme STRATUM TLS 0);
   ("stratum+tcp", mk_Scheme STRATUM SecNONE 0);
   ("stratum1+ssl", mk_Scheme STRATUM TLS 1);
   ("stratum1+tcp", mk_Scheme STRATUM SecNONE 1);
   ("stratum2+ssl", mk_Scheme STRATUM TLS 2);
   ("stratum2+tcp", mk_Scheme STRATUM SecNONE 2);
   ("stratum3+ssl", mk_Scheme STRATUM TLS 3);
   ("stratum3+tcp", mk_Scheme STRATUM SecNONE 3);
   ("stratums", mk_Scheme STRATUM TLS 999)]%string.

Definition find_scheme (s : list ascii) : option SchemeAttributes :=
  snd <$> List.find (fun p => String.eqb p.1 (text s)) s_schemes.

(** ** Characters *)

Definition is_char (c d : ascii) : bool := code c =? code d.
Definition is_digit (c : ascii) : bool := (48 <=? code c) && (code c <=? 57).
Definition is_alnum (c : ascii) : bool :=
  is_digit c || ((97 <=? code c) && (code c <=? 122)) || ((65 <=? code c) && (code c <=? 90)).
Definition scheme_char (c : ascii) : bool := is_alnum c || is_char c "+".

(** What a dot of a regular expression matches. *)
Definition is_dot (c : ascii) : bool := negb ((code c =? 10) || (code c =? 13)).

Definition lower (c : ascii) : ascii :=
  if (65 <=? code c) && (code c <=? 90) then ascii_of_N (Z.to_N (code c + 32)) else c.
Definition to_lower (l : list ascii) : list ascii := lower <$> l.

(** ** Splitting *)

(** The part before and after the first [c]. *)
Fixpoint split_first (c : ascii) (l : list ascii) : option (list ascii * list ascii) :=
  match l with
  | [] => None
  | x :: l' =>
      if is_char x c then Some ([], l')
      else '(a, b) ← split_first c l'; Some (x :: a, b)
  end.

(** The part before and after the last [c]: the greedy match of two groups of
    arbitrary characters around a [c]. *)
Fixpoint split_last (c : ascii) (l : list ascii) : option (list ascii * list ascii) :=
  match l with
  | [] => None
  | x :: l' =>
      match split_last c l' with
      | Some (a, b) => Some (x :: a, b)
      | None => if is_char x c then Some ([], l') else None
      end
  end.

(** The longest prefix with a property, and the rest. *)
Fixpoint span (p : ascii -> bool) (l : list ascii) : list ascii * list ascii :=
  match l with
  | [] => ([], [])
  | x :: l' => if p x then let '(a, b) := span p l' in (x :: a, b) else ([], l)
  end.

(** [sch_auth]: the scheme, a colon, two slashes and the rest of the line. *)
Definition match_sch_auth (l : list ascii) : option (list ascii * list ascii) :=
  let '(s, rest) := span scheme_char l in
  match s, rest with
  | _ :: _, c :: d :: e :: auth =>
      if is_char c ":" && is_char d "/" && is_char e "/" && forallb is_dot auth
      then Some (s, auth) else None
  | _, _ => None
  end.

(** ** Decoding *)

(** [is >> hex >> value] on a stream of the two characters after a percent sign. *)
Definition hex_int (a b : ascii) : option Z :=
  let dig c := if fromHex_char c =? -1 then None else Some (fromHex_char c) in
  match dig a, dig b with
  | Some x, Some y => Some (16 * x + y)
  | Some x, None => if is_char a "0" && (is_char b "x" || is_char b "X") then None else Some x
  | None, Some y =>
      if isspace a || is_char a "+" then Some y
      else if is_char a "-" then Some (- y) else None
  | None, None => None
  end.

Fixpoint url_decode (l : list ascii) : option (list ascii) :=
  match l with
  | [] => Some []
  | x :: l' =>
      if is_char x "%" then
        match l' with
        | a :: b :: l'' =>
            value ← hex_int a b; out ← url_decode l'';
            Some (ascii_of_N (Z.to_N (value mod 256)) :: out)
        | _ => None
        end
      else if is_char x "+" then out ← url_decode l'; Some (" "%char :: out)
      else out ← url_decode l'; Some (x :: out)
  end.

(** A part is replaced by its decoding when that succeeds. *)
Definition decoded (l : list ascii) : list ascii := default l (url_decode l).

(** ** Quoted parts *)

(** The blocks between backticks, from left to right: the quotes pair up. *)
Fixpoint btick_matches (fuel : nat) (l : list ascii) : list (list ascii) :=
  match fuel with
  | O => []
  | S k =>
      match split_first "`" l with
      | None => []
      | Some (_, rest) =>
          match split_first "`" rest with
          | None => []
          | Some (block, rest) => block :: btick_matches k rest
          end
      end
  end.

Fixpoint is_prefix (p l : list ascii) : option (list ascii) :=
  match p, l with
  | [], _ => Some l
  | x :: p', y :: l' => if is_char x y then is_prefix p' l' else None
  | _ :: _, [] => None
  end.

(** [boost::replace_all] with a search string that is not empty. *)
Fixpoint replace_all (fuel : nat) (from to_ l : list ascii) : list ascii :=
  match fuel, l with
  | S k, x :: l' =>
      match is_prefix from l with
      | Some rest => to_ ++ replace_all k from to_ rest
      | None => x :: replace_all k from to_ l'
      end
  | _, _ => l
  end.

Definition replace (from to_ l : list ascii) : list ascii := replace_all (length l) from to_ l.

Definition quoted (l : list ascii) : list ascii := "`"%char :: l ++ ["`"%char].

(** The keys [_0], [_1], ... with their blocks, in the order of the keys. *)
Fixpoint insert_key (kv : list ascii * list ascii) (l : list (list ascii * list ascii)) :=
  match l with
  | [] => [kv]
  | kv' :: l' => if String.ltb (text kv.1) (text kv'.1) then kv :: l else kv' :: insert_key kv l'
  end.

Definition btick_blocks (authority : list ascii) : list (list ascii * list ascii) :=
  foldr insert_key []
    (imap (fun i b => ("_"%char :: chars (to_string (Z.of_nat i)), b))
       (btick_matches (length authority) authority)).

(** ** The constructor *)

(** The members of [URI]; [None] is an uninitialised member. *)
Record URI := mk_URI {
  m_scheme : list ascii;
  m_authority : list ascii;
  m_userinfo : list ascii;
  m_urlinfo : list ascii;
  m_hostinfo : list ascii;
  m_pathinfo : list ascii;
  m_host : list ascii;
  m_path : list ascii;
  m_query : list ascii;
  m_fragment : list ascii;
  m_user : list ascii;
  m_password : list ascii;
  m_worker : list ascii;
  m_uri : list ascii;
  m_stratumMode : Z;
  m_port : Z;
  m_stratumModeConfirmed : bool;
  m_unrecoverable : bool;
  m_responds : bool;
  m_hostType : UriHostNameType;
  m_isLoopBack : option bool;
  m_totalDuration : option Z
}.

(** What is left of a string without a scheme. *)
Definition URI_unparsed (uri : list ascii) : URI :=
  mk_URI [] [] [] [] [] [] [] [] [] [] [] (chars "X") [] uri 999 0 false false false HostUnknown
    None None.

(** The three patterns for user, worker and password. *)
Definition match_user (userinfo : list ascii) : list ascii * list ascii * list ascii :=
  match split_last ":" userinfo with
  | Some (x, pass) =>
      match split_last "." x with
      | Some (user, worker) => (user, worker, pass)
      | None => (x, [], pass)
      end
  | None =>
      match split_last "." userinfo with
      | Some (user, worker) => (user, worker, chars "X")
      | None => (userinfo, [], chars "X")
      end
  end.

(** The user information: the parts between backticks are set aside while the
    delimiters are looked for. *)
Definition parse_user (authority userinfo : list ascii)
  : list ascii * list ascii * list ascii * list ascii :=
  match userinfo with
  | [] => ([], [], [], chars "X")
  | _ :: _ =>
      let blocks := btick_blocks authority in
      let userinfo := fold_left (fun u '(k, b) => replace (quoted b) (quoted k) u) blocks userinfo in
      let '(user, worker, pass) := match_user userinfo in
      let restore l := fold_left (fun u '(k, b) => replace (quoted k) b u) blocks l in
      (restore userinfo, restore user, restore worker, restore pass)
  end.

Definition digits_value (l : list ascii) : Z := fold_left (fun v c => 10 * v + (code c - 48)) l 0.

(** The host pattern: one to five digits after the last colon are the port,
    which [lexical_cast] refuses above 65535. *)
Definition parse_host (hostinfo : list ascii) : outcome (list ascii * Z) :=
  match split_last ":" hostinfo with
  | Some (h, p) =>
      if forallb is_digit p && (1 <=? length p)%nat && (length p <=? 5)%nat then
        if digits_value p <? 65536 then Ok (h, digits_value p)
        else Throw (StdException "bad_lexical_cast")
      else Ok (hostinfo, 0)
  | None => Ok (hostinfo, 0)
  end.

(** The three patterns for path, query and fragment. *)
Definition parse_path (pathinfo : list ascii) : list ascii * list ascii * list ascii :=
  match pathinfo with
  | [] => ([], [], [])
  | slash :: rest =>
      let only := (pathinfo, [], []) in
      match split_last "#" rest with
      | Some (x, fragment) =>
          match split_last "?" x with
          | Some (path, query) => (slash :: path, query, fragment)
          | None => (slash :: x, [], fragment)
          end
      | None =>
          match split_last "?" rest with
          | Some (path, query) => (slash :: path, query, [])
          | None => only
          end
      end
  end.

(** A label of a host name: letters, digits and inner hyphens. *)
Definition is_label (l : list ascii) : bool :=
  match l with
  | [] => false
  | c :: _ =>
      is_alnum c && is_alnum (List.last l c) && forallb (fun c => is_alnum c || is_char c "-") l
  end.

Fixpoint labels (fuel : nat) (l : list ascii) : list (list ascii) :=
  match fuel with
  | O => [l]
  | S k => match split_first "." l with Some (a, b) => a :: labels k b | None => [l] end
  end.

(** [hostNamePattern]. *)
Definition is_hostname (l : list ascii) : bool := forallb is_label (labels (length l) l).

Definition no_ticks (l : list ascii) : list ascii := replace ["`"%char] [] l.

Section Parser.
(** [boost::asio::ip::address::from_string]: the type of address and whether it
    is the loop-back address. *)
Context (parse_ip : list ascii -> option (bool * bool)).

Definition host_type (host : list ascii) : UriHostNameType * option bool :=
  match parse_ip host with
  | Some (v6, loopback) => (if v6 then IPV6 else IPV4, Some loopback)
  | None => (if is_hostname host then HostDns else HostBasic, None)
  end.

Definition URI_new (uri : list ascii) (_sim : bool) : outcome URI :=
  match match_sch_auth uri with
  | None => Ok (URI_unparsed uri)
  | Some (scheme, authority) =>
      let scheme := to_lower scheme in
      match authority with
      | [] => Throw (RuntimeError "Invalid authority")
      | _ :: _ =>
          if negb _sim && String.eqb (text scheme) "simulation" then
            Throw (RuntimeError "Invalid scheme")
          else
            match find_scheme scheme with
            | None => Throw (RuntimeError "Invalid scheme")
            | Some _ =>
                let '(userinfo, urlinfo) := default ([], authority) (split_last "@" authority) in
                let '(userinfo, user, worker, pass) := parse_user authority userinfo in
                let '(hostinfo, pathinfo) :=
                  match split_first "/" urlinfo with
                  | Some (h, p) => (h, "/"%char :: p)
                  | None => (urlinfo, [])
                  end in
                let hostinfo := to_lower hostinfo in
                '(host, port) ← parse_host hostinfo;
                match host with
                | [] => Throw (RuntimeError "Missing host")
                | _ :: _ =>
                    let '(path, query, fragment) := parse_path pathinfo in
                    let '(hostType, loopback) := host_type host in
                    Ok (mk_URI scheme authority (decoded userinfo) (decoded urlinfo)
                          (decoded hostinfo) (decoded pathinfo) host (decoded path)
                          (decoded query) (decoded fragment) (decoded (no_ticks user))
                          (decoded (no_ticks pass)) (decoded (no_ticks worker)) uri 999 port
                          false false false hostType loopback None)
                end
            end
      end
  end.

End Parser.

(** ** The accessors that compute *)

(** [s_schemes[m_scheme]]: an unknown scheme gets the attributes of zeros. *)
Definition scheme_attributes (u : URI) : SchemeAttributes :=
  default (mk_Scheme GETWORK SecNONE 0) (find_scheme (m_scheme u)).

Definition Family (u : URI) : ProtocolFamily := family (scheme_attributes u).
Definition Version (u : URI) : Z := version (scheme_attributes u).
Definition SecLevel (u : URI) : SecureLevel := secure (scheme_attributes u).

Definition UserDotWorker (u : URI) : list ascii :=
  match m_worker u with [] => m_user u | _ :: _ => m_user u ++ "."%char :: m_worker u end.

Definition KnownSchemes (f : ProtocolFamily) : string :=
  fold_left (fun s '(name, a) =>
    if bool_decide (family a = f) && negb (version a =? 999) then (s +:+ name +:+ " ")%string else s)
    s_schemes ""%string.

Definition set_mode (u : URI) (mode : Z) (confirmed unrecoverable responds : bool) (dur : option Z) : URI :=
  mk_URI (m_scheme u) (m_authority u) (m_userinfo u) (m_urlinfo u) (m_hostinfo u) (m_pathinfo u)
    (m_host u) (m_path u) (m_query u) (m_fragment u) (m_user u) (m_password u) (m_worker u) (m_uri u)
    mode (m_port u) confirmed unrecoverable responds (m_hostType u) (m_isLoopBack u) dur.

Definition SetStratumMode (u : URI) (mode : Z) (confirmed : bool) : URI :=
  set_mode u (u16 mode) confirmed (m_unrecoverable u) (m_responds u) (m_totalDuration u).
Definition SetStratumMode_only (u : URI) (mode : Z) : URI :=
  set_mode u (u16 mode) (m_stratumModeConfirmed u) (m_unrecoverable u) (m_responds u) (m_totalDuration u).
Definition MarkUnrecoverable (u : URI) : URI :=
  set_mode u (m_stratumMode u) (m_stratumModeConfirmed u) true (m_responds u) (m_totalDuration u).
Definition set_Responds (u : URI) (b : bool) : URI :=
  set_mode u (m_stratumMode u) (m_stratumModeConfirmed u) (m_unrecoverable u) b (m_totalDuration u).
Definition addDuration (u : URI) (minutes : Z) : URI :=
  set_mode u (m_stratumMode u) (m_stratumModeConfirmed u) (m_unrecoverable u) (m_responds u)
    ((fun d => u64 (d + minutes)) <$> m_totalDuration u).

(** ** Splitting and joining *)

Lemma is_char_spec c d : is_char c d = true <-> c = d.
Proof.
  unfold is_char, code. rewrite Z.eqb_eq. split; [|by intros ->].
  intros H%N2Z.inj. rewrite <-(ascii_N_embedding c), <-(ascii_N_embedding d). by rewrite H.
Qed.

Lemma is_char_refl c : is_char c c = true.
Proof. by apply is_char_spec. Qed.

(** A string without the character. *)
Definition avoids (c : ascii) (l : list ascii) : Prop := Forall (fun x => is_char x c = false) l.

Lemma split_last_none c l : avoids c l -> split_last c l = None.
Proof. induction 1 as [|x l Hx _ IH]; [done|]. cbn [split_last]. by rewrite IH, Hx. Qed.

Lemma split_last_app c a b : avoids c b -> split_last c (a ++ c :: b) = Some (a, b).
Proof.
  intros Hb. induction a as [|x a IH]; cbn [app split_last].
  - by rewrite split_last_none, is_char_refl.
  - by rewrite IH.
Qed.

Lemma split_first_none c l : avoids c l -> split_first c l = None.
Proof. induction 1 as [|x l Hx _ IH]; [done|]. cbn [split_first]. by rewrite Hx, IH. Qed.

Lemma split_first_app c a b : avoids c a -> split_first c (a ++ c :: b) = Some (a, b).
Proof.
  induction 1 as [|x a Hx _ IH]; cbn [app split_first].
  - by rewrite is_char_refl.
  - by rewrite Hx, IH.
Qed.

Lemma span_app p a c b : Forall (fun x => p x = true) a -> p c = false -> span p (a ++ c :: b) = (a, c :: b).
Proof.
  intros Ha Hc. induction Ha as [|x a Hx _ IH]; cbn [app span]; [by rewrite Hc|]. by rewrite Hx, IH.
Qed.

Lemma avoids_app c a b : avoids c (a ++ b) <-> avoids c a /\ avoids c b.
Proof. apply Forall_app. Qed.

Lemma avoids_cons c x l : avoids c (x :: l) <-> is_char x c = false /\ avoids c l.
Proof. unfold avoids. by rewrite Forall_cons. Qed.

Lemma btick_blocks_none l : avoids "`" l -> btick_blocks l = [].
Proof.
  intros Hl. unfold btick_blocks. destruct (length l) as [|k]; [done|]. cbn [btick_matches].
  by rewrite split_first_none.
Qed.

Lemma replace_tick_none k t l : avoids "`" l -> replace_all k ["`"%char] t l = l.
Proof.
  intros Hl. revert k. induction Hl as [|x l Hx Hl IH]; intros [|k]; try done.
  cbn [replace_all is_prefix]. unfold is_char in Hx |- *. rewrite Z.eqb_sym, Hx. f_equal. apply IH.
Qed.

Lemma decoded_plain l : avoids "%" l -> avoids "+" l -> decoded l = l.
Proof.
  intros Hp Hq. assert (H : url_decode l = Some l); [|unfold decoded; by rewrite H].
  induction l as [|x l IH]; [done|]. apply avoids_cons in Hp, Hq. cbn [url_decode].
  rewrite (proj1 Hp), (proj1 Hq), IH by tauto. done.
Qed.

(** ** Decimal digits *)

Lemma code_digit d : 0 <= d < 10 -> code (char_of (48 + d)) = 48 + d.
Proof.
  intros Hd. unfold code, char_of. rewrite N_ascii_embedding by lia. lia.
Qed.

Lemma dec_digits_spec fuel n :
  0 <= n < 2 ^ Z.of_nat fuel ->
  Forall (fun c => is_digit c = true) (dec_digits fuel n) /\
  (forall v, fold_left (fun v c => 10 * v + (code c - 48)) (dec_digits fuel n) v =
     v * 10 ^ Z.of_nat (length (dec_digits fuel n)) + n).
Proof.
  revert n. induction fuel as [|fuel IH]; intros n Hn.
  { simpl in Hn. assert (n = 0) as -> by lia. split; [constructor|]. intros v. simpl. lia. }
  pose proof (Z.mod_pos_bound n 10 ltac:(lia)) as Hm. cbn [dec_digits].
  assert (Hdig : is_digit (char_of (48 + n mod 10)) = true).
  { unfold is_digit. rewrite code_digit by lia.
    destruct (Z.leb_spec 48 (48 + n mod 10)), (Z.leb_spec (48 + n mod 10) 57); (done || lia). }
  destruct (Z.ltb_spec n 10).
  - split; [by constructor|]. intros v. cbn [app fold_left length].
    rewrite code_digit, Z.mod_small by lia. change (10 ^ Z.of_nat 1) with 10. lia.
  - destruct (IH (n / 10)) as [H1 H2].
    { split; [apply Z.div_pos; lia|]. apply Z.div_lt_upper_bound; [lia|].
      rewrite Nat2Z.inj_succ, Z.pow_succ_r in Hn by lia. lia. }
    split; [apply Forall_app; by split; [|constructor]|]. intros v.
    rewrite fold_left_app, H2, length_app. cbn [fold_left length]. rewrite code_digit by lia.
    rewrite Nat2Z.inj_add, Z.pow_add_r by lia. change (10 ^ Z.of_nat 1) with 10.
    pose proof (Z.div_mod n 10 ltac:(lia)). lia.
Qed.

Lemma dec_list_spec n :
  0 <= n -> Forall (fun c => is_digit c = true) (dec_list n) /\ digits_value (dec_list n) = n.
Proof.
  intros Hn. unfold dec_list, digits_value.
  assert (Hlt : 0 <= n < 2 ^ Z.of_nat (S (Z.to_nat (Z.log2 n)))).
  { split; [done|]. pose proof (Z.log2_nonneg n). rewrite Nat2Z.inj_succ, Z2Nat.id by lia.
    destruct (Z.eq_dec n 0) as [->|Hne]; [done|]. apply Z.log2_spec. lia. }
  destruct (dec_digits_spec _ n Hlt) as [H1 H2]. split; [done|]. rewrite H2. lia.
Qed.

Lemma dec_digits_length fuel n k :
  0 <= n < 10 ^ Z.of_nat (S k) -> (0 < fuel)%nat ->
  (1 <= length (dec_digits fuel n) <= S k)%nat.
Proof.
  revert n fuel. induction k as [|k IH]; intros n [|fuel] Hn Hf; try lia; cbn [dec_digits].
  - destruct (Z.ltb_spec n 10); simpl; [lia|simpl in Hn; lia].
  - destruct (Z.ltb_spec n 10); [simpl; lia|]. rewrite length_app. simpl length.
    destruct fuel as [|fuel]; [simpl; lia|].
    assert (0 <= n / 10 < 10 ^ Z.of_nat (S k)).
    { split; [apply Z.div_pos; lia|]. apply Z.div_lt_upper_bound; [lia|].
      rewrite Nat2Z.inj_succ, Z.pow_succ_r in Hn by lia. lia. }
    specialize (IH (n / 10) (S fuel) ltac:(done) ltac:(lia)). lia.
Qed.

Lemma digits_avoid c l :
  Forall (fun c => is_digit c = true) l -> is_digit c = false -> avoids c l.
Proof.
  intros Hl Hc. apply (Forall_impl _ _ _ Hl). intros x Hx.
  destruct (is_char x c) eqn:He; [|done]. apply is_char_spec in He. congruence.
Qed.

Lemma parse_host_port h n :
  0 <= n < 65536 -> parse_host (h ++ ":"%char :: dec_list n) = Ok (h, n).
Proof.
  intros Hn. destruct (dec_list_spec n ltac:(lia)) as [Hd Hv].
  pose proof (dec_digits_length (S (Z.to_nat (Z.log2 n))) n 4 ltac:(simpl; lia) ltac:(lia)) as Hlen.
  fold (dec_list n) in Hlen. unfold parse_host.
  rewrite split_last_app by (by apply digits_avoid).
  assert (Hf : forallb is_digit (dec_list n) = true).
  { apply forallb_forall. intros x Hx. rewrite Forall_forall in Hd. apply Hd. by apply list_elem_of_In. }
  rewrite Hf, Hv. destruct (Nat.leb_spec 1 (length (dec_list n))), (Nat.leb_spec (length (dec_list n)) 5);
    try lia. cbn [andb]. destruct (Z.ltb_spec n 65536); [done|lia].
Qed.

(** ** The round trip *)

(** A connection string in parts: scheme, user with worker and password, host,
    port and path. *)
Record uri_parts := mk_parts {
  p_scheme : list ascii;
  p_user : option (list ascii * option (list ascii) * option (list ascii));
  p_host : list ascii;
  p_port : option Z;
  p_path : list ascii
}.

Definition after (c : ascii) (o : option (list ascii)) : list ascii :=
  match o with Some l => c :: l | None => [] end.

Definition print_user (p : list ascii * option (list ascii) * option (list ascii)) : list ascii :=
  let '(u, w, pw) := p in u ++ after "." w ++ after ":" pw.

Definition print_host (p : uri_parts) : list ascii :=
  p_host p ++ after ":" (dec_list <$> p_port p).

Definition print_authority (p : uri_parts) : list ascii :=
  match p_user p with Some u => print_user u ++ ["@"%char] | None => [] end ++ print_host p ++ p_path p.

Definition print_uri (p : uri_parts) : list ascii := p_scheme p ++ chars "://" ++ print_authority p.

(** Characters that stand for themselves. *)
Definition plain_char (c : ascii) : bool :=
  is_dot c && forallb (fun d => negb (is_char c d)) ["@"; "`"; "%"; "+"]%char.
Definition user_char (c : ascii) : bool := plain_char c && negb (is_char c ".") && negb (is_char c ":").
Definition host_char (c : ascii) : bool :=
  plain_char c && negb (is_char c ":") && negb (is_char c "/") && is_char (lower c) c.
Definition path_char (c : ascii) : bool := plain_char c && negb (is_char c "?") && negb (is_char c "#").

Definition all (p : ascii -> bool) (l : list ascii) : Prop := Forall (fun c => p c = true) l.

Definition user_ok (p : list ascii * option (list ascii) * option (list ascii)) : Prop :=
  let '(u, w, pw) := p in
  all user_char u /\ all user_char (default [] w) /\ all user_char (default [] pw).

Record parts_ok (p : uri_parts) : Prop := {
  po_scheme : is_Some (find_scheme (p_scheme p));
  po_not_sim : text (p_scheme p) <> "simulation"%string;
  po_user : forall u, p_user p = Some u -> user_ok u;
  po_host : all host_char (p_host p) /\ p_host p <> [];
  po_port : forall n, p_port p = Some n -> 0 <= n < 65536;
  po_path : p_path p = [] \/ exists l, p_path p = "/"%char :: l /\ all path_char l
}.

Lemma all_impl (p q : ascii -> bool) l : (forall c, p c = true -> q c = true) -> all p l -> all q l.
Proof. intros H Hl. exact (Forall_impl _ _ _ Hl H). Qed.

Lemma all_avoids p c l : (forall x, p x = true -> is_char x c = false) -> all p l -> avoids c l.
Proof. intros H Hl. exact (Forall_impl _ _ _ Hl H). Qed.

Lemma plain_avoid c x :
  plain_char x = true -> In c ["@"; "`"; "%"; "+"]%char -> is_char x c = false.
Proof.
  unfold plain_char. rewrite andb_true_iff, forallb_forall. intros [_ H] Hin.
  apply negb_true_iff. by apply H.
Qed.

Lemma digit_plain c : is_digit c = true -> plain_char c = true.
Proof.
  intros Hd. unfold plain_char, is_dot, is_char. cbn [forallb]. unfold is_digit in Hd.
  change (code "@") with 64. change (code "`") with 96. change (code "%") with 37.
  change (code "+") with 43. rewrite andb_true_iff in Hd. destruct Hd as [H1%Z.leb_le H2%Z.leb_le].
  rewrite !(proj2 (Z.eqb_neq _ _)) by lia. done.
Qed.

Lemma scheme_name l a :
  find_scheme l = Some a -> all scheme_char l /\ to_lower l = l /\ l <> [].
Proof.
  unfold find_scheme. destruct (List.find _ s_schemes) as [[name b]|] eqn:Hf; [|done]. intros _.
  apply find_some in Hf. destruct Hf as [Hin Heq]. apply String.eqb_eq in Heq. cbn [fst] in Heq.
  assert (Hl : l = chars name) by (by rewrite Heq, chars_text). rewrite Hl.
  assert (Hall : Forall (fun p => all scheme_char (chars p.1) /\ to_lower (chars p.1) = chars p.1 /\
    chars p.1 <> []) s_schemes).
  { repeat (apply Forall_cons; split; [split; [refine (bool_decide_unpack _ _); vm_compute; exact I|
      split; [vm_compute; reflexivity|discriminate]]|]). apply Forall_nil. done. }
  rewrite Forall_forall in Hall. apply (Hall (name, b)). by apply list_elem_of_In.
Qed.

Lemma match_sch_auth_print s auth :
  all scheme_char s -> s <> [] -> forallb is_dot auth = true ->
  match_sch_auth (s ++ chars "://" ++ auth) = Some (s, auth).
Proof.
  intros Hs Hne Ha. unfold match_sch_auth. change (chars "://" ++ auth) with
    (":"%char :: "/"%char :: "/"%char :: auth). rewrite span_app by (exact Hs || reflexivity).
  destruct s; [done|]. rewrite Ha. reflexivity.
Qed.

Lemma user_avoid c l :
  all user_char l -> In c ["@"; "`"; "%"; "+"; "."; ":"]%char -> avoids c l.
Proof.
  intros Hl Hc. apply (all_avoids user_char); [|done]. intros x Hx. unfold user_char in Hx.
  rewrite !andb_true_iff, !negb_true_iff in Hx. destruct Hx as [[H1 H2] H3].
  destruct Hc as [<-|[<-|[<-|[<-|[<-|[<-|[]]]]]]]; try done; by (apply plain_avoid; [done|cbn; tauto]).
Qed.

Lemma user_plain l : all user_char l -> all plain_char l.
Proof. apply all_impl. intros c. unfold user_char. rewrite !andb_true_iff. tauto. Qed.

Lemma print_user_plain u : user_ok u -> all plain_char (print_user u).
Proof.
  destruct u as [[u w] pw]. intros (Hu & Hw & Hp). unfold print_user.
  apply Forall_app. split; [by apply user_plain|]. apply Forall_app.
  split; [destruct w|destruct pw]; cbn [after default] in *; try apply Forall_nil; try done;
    apply Forall_cons; (split; [reflexivity|by apply user_plain]).
Qed.

Lemma plain_avoids c l : all plain_char l -> In c ["@"; "`"; "%"; "+"]%char -> avoids c l.
Proof. intros Hl Hc. apply (all_avoids plain_char); [|done]. intros x Hx. by apply plain_avoid. Qed.

Lemma match_user_print u w pw :
  user_ok (u, w, pw) ->
  match_user (print_user (u, w, pw)) = (u, default [] w, default (chars "X") pw).
Proof.
  intros (Hu & Hw & Hp). unfold match_user, print_user.
  assert (Hc : forall l, all user_char l -> avoids ":" l /\ avoids "." l).
  { intros l Hl. split; (apply user_avoid; [done|cbn; tauto]). }
  destruct (Hc u Hu) as [Hu1 Hu2], (Hc _ Hw) as [Hw1 Hw2], (Hc _ Hp) as [Hp1 Hp2].
  destruct w as [w|], pw as [pw|]; cbn [after default] in *.
  - rewrite app_assoc, split_last_app by done. by rewrite split_last_app.
  - rewrite app_nil_r, split_last_none, split_last_app by (done || by rewrite avoids_app, avoids_cons).
    done.
  - rewrite app_nil_l, split_last_app by done. by rewrite split_last_none.
  - rewrite !app_nil_r. by rewrite !split_last_none.
Qed.

Lemma parse_user_print auth u w pw :
  avoids "`" auth -> user_ok (u, w, pw) ->
  parse_user auth (print_user (u, w, pw)) =
    (print_user (u, w, pw), u, default [] w, default (chars "X") pw).
Proof.
  intros Ha Hok. unfold parse_user. rewrite btick_blocks_none by done. cbn [fold_left].
  rewrite match_user_print by done.
  destruct (print_user (u, w, pw)) eqn:Hp; [|done].
  unfold print_user in Hp. apply app_eq_nil in Hp. destruct Hp as [-> Hp].
  apply app_eq_nil in Hp. destruct Hp as [Hw Hpw]. by destruct w, pw.
Qed.

Section RoundTrip.
Context (p : uri_parts) (Hp : parts_ok p).

Lemma host_plain : all plain_char (print_host p).
Proof.
  destruct Hp as [_ _ _ [Hh _] Hport _]. unfold print_host. apply Forall_app. split.
  - apply (all_impl host_char); [|done]. intros c. unfold host_char. rewrite !andb_true_iff. tauto.
  - destruct (p_port p) as [n|]; cbn [fmap option_fmap option_map after]; [|by apply Forall_nil].
    apply Forall_cons. split; [reflexivity|].
    destruct (dec_list_spec n) as [Hd _]; [by apply Hport|].
    apply (all_impl is_digit); [apply digit_plain|done].
Qed.

Lemma path_plain : all plain_char (p_path p).
Proof.
  destruct (po_path p Hp) as [->|(l & -> & Hl)]; [by apply Forall_nil|].
  apply Forall_cons. split; [reflexivity|].
  apply (all_impl path_char); [|done]. intros c. unfold path_char. rewrite !andb_true_iff. tauto.
Qed.

Lemma authority_ok : avoids "`" (print_authority p) /\ forallb is_dot (print_authority p) = true.
Proof.
  assert (H : all (fun c => plain_char c || is_char c "@") (print_authority p)).
  { unfold print_authority. apply Forall_app. split; [|apply Forall_app; split].
    - destruct (p_user p) as [u|] eqn:Hu; [|by apply Forall_nil]. apply Forall_app. split.
      + apply (all_impl plain_char); [by intros c ->|apply print_user_plain; by apply (po_user p Hp)].
      + apply Forall_cons. split; [reflexivity|by apply Forall_nil].
    - apply (all_impl plain_char); [by intros c ->|apply host_plain].
    - apply (all_impl plain_char); [by intros c ->|apply path_plain]. }
  split.
  - apply (all_avoids (fun c => plain_char c || is_char c "@")); [|done].
    intros x Hx. apply orb_true_iff in Hx. destruct Hx as [Hx|Hx].
    + apply plain_avoid; [done|cbn; tauto].
    + apply is_char_spec in Hx. by subst x.
  - apply forallb_forall. intros x Hx. unfold all in H. rewrite Forall_forall in H.
    specialize (H x ltac:(by apply list_elem_of_In)). cbn beta in H. apply orb_true_iff in H.
    destruct H as [H|H].
    + unfold plain_char in H. apply andb_true_iff in H. tauto.
    + apply is_char_spec in H. by subst x.
Qed.

Lemma host_slash : avoids "/" (print_host p).
Proof.
  destruct Hp as [_ _ _ [Hh _] Hport _]. unfold print_host. apply avoids_app. split.
  - apply (all_avoids host_char); [|done]. intros c. unfold host_char.
    rewrite !andb_true_iff, !negb_true_iff. tauto.
  - destruct (p_port p) as [n|]; cbn [fmap option_fmap option_map after]; [|by apply Forall_nil].
    apply avoids_cons. split; [reflexivity|].
    destruct (dec_list_spec n) as [Hd _]; [by apply Hport|]. by apply digits_avoid.
Qed.

Lemma lower_digit c : is_digit c = true -> lower c = c.
Proof.
  unfold is_digit, lower. rewrite andb_true_iff, !Z.leb_le. intros [H1 H2].
  destruct (Z.leb_spec 65 (code c)); [lia|done].
Qed.

Lemma host_lower : to_lower (print_host p) = print_host p.
Proof.
  destruct Hp as [_ _ _ [Hh _] Hport _]. unfold to_lower.
  rewrite <-(list_fmap_id (print_host p)) at 2. apply Forall_fmap_ext_1. unfold print_host.
  apply Forall_app. split.
  - apply (Forall_impl _ _ _ Hh). intros c. unfold host_char. rewrite !andb_true_iff, is_char_spec. tauto.
  - destruct (p_port p) as [n|]; cbn [fmap option_fmap option_map after]; [|by apply Forall_nil].
    apply Forall_cons. split; [reflexivity|].
    destruct (dec_list_spec n) as [Hd _]; [by apply Hport|].
    apply (Forall_impl _ _ _ Hd). apply lower_digit.
Qed.

Lemma parse_host_print : parse_host (print_host p) = Ok (p_host p, default 0 (p_port p)).
Proof.
  destruct Hp as [_ _ _ [Hh _] Hport _]. unfold print_host.
  destruct (p_port p) as [n|]; cbn [fmap option_fmap option_map after default].
  - by apply parse_host_port, Hport.
  - rewrite app_nil_r. unfold parse_host. rewrite split_last_none; [done|].
    apply (all_avoids host_char); [|done]. intros c. unfold host_char.
    rewrite !andb_true_iff, !negb_true_iff. tauto.
Qed.

Lemma parse_path_print : parse_path (p_path p) = (p_path p, [], []).
Proof.
  destruct (po_path p Hp) as [->|(l & -> & Hl)]; [done|]. unfold parse_path.
  rewrite !split_last_none; [done|..]; (apply (all_avoids path_char); [|done]); intros c;
    unfold path_char; rewrite !andb_true_iff, !negb_true_iff; tauto.
Qed.

Lemma url_split :
  match split_first "/" (print_host p ++ p_path p) with
  | Some (h, q) => (h, "/"%char :: q)
  | None => (print_host p ++ p_path p, [])
  end = (print_host p, p_path p).
Proof.
  destruct (po_path p Hp) as [->|(l & -> & Hl)].
  - rewrite app_nil_r, split_first_none; [done|apply host_slash].
  - rewrite split_first_app; [done|apply host_slash].
Qed.

Lemma authority_split :
  default ([], print_authority p) (split_last "@" (print_authority p)) =
    (default [] (print_user <$> p_user p), print_host p ++ p_path p).
Proof.
  assert (Ha : avoids "@" (print_host p ++ p_path p)).
  { apply plain_avoids; [|cbn; tauto]. apply Forall_app. split; [apply host_plain|apply path_plain]. }
  unfold print_authority. destruct (p_user p) as [u|]; cbn [fmap option_fmap option_map default].
  - rewrite <-app_assoc. cbn [app]. by rewrite split_last_app.
  - rewrite app_nil_l. by rewrite split_last_none.
Qed.

End RoundTrip.

(** C38: A connection string printed from its parts (a known scheme other than
    the simulation, optionally a user with an optional worker and password, a
    lower-case host, optionally a port and a path, all of characters that are no
    delimiters) is parsed to the same parts, whatever the IP parser says of the
    host; absent parts get their defaults. *)
Theorem uri_roundtrip (parse_ip : list ascii -> option (bool * bool)) (p : uri_parts) :
  parts_ok p ->
  exists u, URI_new parse_ip (print_uri p) false = Ok u /\
    m_scheme u = p_scheme p /\ Some (scheme_attributes u) = find_scheme (p_scheme p) /\
    m_user u = default [] (fst ∘ fst <$> p_user p) /\
    m_worker u = default [] (p_user p ≫= snd ∘ fst) /\
    m_password u = default (chars "X") (p_user p ≫= snd) /\
    m_host u = p_host p /\ m_port u = default 0 (p_port p) /\
    m_path u = p_path p /\ m_query u = [] /\ m_fragment u = [] /\ m_uri u = print_uri p.
Proof.
  intros Hp. destruct (po_scheme p Hp) as [a Ha]. destruct (scheme_name _ _ Ha) as (Hs & Hlow & Hne).
  destruct (authority_ok p Hp) as [Htick Hdots]. destruct (po_host p Hp) as [Hhost Hhne].
  unfold URI_new, print_uri. rewrite match_sch_auth_print, Hlow, Ha by done.
  assert (Hauth : print_authority p <> []).
  { unfold print_authority. intros He. apply app_eq_nil in He. destruct He as [_ He].
    apply app_eq_nil in He. destruct He as [He _]. by apply app_eq_nil in He as [He _]. }
  destruct (print_authority p) as [|c l] eqn:Hl; [done|]. rewrite <-Hl in *.
  rewrite (proj2 (String.eqb_neq _ _) (po_not_sim p Hp)). cbn [negb andb].
  rewrite authority_split by done.
  assert (Hu : parse_user (print_authority p) (default [] (print_user <$> p_user p)) =
    (default [] (print_user <$> p_user p), default [] (fst ∘ fst <$> p_user p),
     default [] (p_user p ≫= snd ∘ fst), default (chars "X") (p_user p ≫= snd))).
  { destruct (p_user p) as [[[u w] pw]|] eqn:Hup; [|done].
    apply parse_user_print; [done|]. by apply (po_user p Hp). }
  rewrite Hu, url_split, host_lower, parse_host_print by done. cbn [mbind outcome_bind].
  destruct (p_host p) as [|h hs] eqn:Hh; [done|]. rewrite parse_path_print by done.
  destruct (host_type parse_ip (h :: hs)) as [ht lb]. eexists. split; [reflexivity|].
  unfold scheme_attributes. cbn [m_scheme m_user m_worker m_password m_host m_port m_path m_query
    m_fragment m_uri]. rewrite Ha.
  assert (Hid : forall l, all user_char l -> decoded (no_ticks l) = l).
  { intros l0 Hl0. unfold no_ticks, replace. rewrite replace_tick_none by (apply user_avoid; [done|cbn; tauto]).
    apply decoded_plain; (apply user_avoid; [done|cbn; tauto]). }
  assert (Hpath : decoded (p_path p) = p_path p).
  { apply decoded_plain; (apply plain_avoids; [by apply path_plain|cbn; tauto]). }
  split_and!; try done.
  - apply Hid. destruct (p_user p) as [[[u w] pw]|] eqn:Hup; [by apply (po_user p Hp _ Hup)|by apply Forall_nil].
  - apply Hid. destruct (p_user p) as [[[u w] pw]|] eqn:Hup; [|by apply Forall_nil].
    destruct (po_user p Hp _ Hup) as (_ & Hw & _). by destruct w.
  - apply Hid. destruct (p_user p) as [[[u w] pw]|] eqn:Hup; cbn.
    + destruct (po_user p Hp _ Hup) as (_ & _ & Hpw). destruct pw; [done|].
      refine (bool_decide_unpack _ _). vm_compute. exact I.
    + refine (bool_decide_unpack _ _). vm_compute. exact I.
Qed.

Definition parts_example : uri_parts :=
  mk_parts (chars "stratum1+ssl") (Some (chars "0xabc", Some (chars "rig1"), None))
    (chars "pool.example.com") (Some 4444) (chars "/eth").

Lemma uri_roundtrip_witness :
  exists u, URI_new (fun _ => None) (chars "stratum1+ssl://0xabc.rig1@pool.example.com:4444/eth") false =
    Ok u /\ m_worker u = chars "rig1" /\ m_port u = 4444 /\ Family u = STRATUM.
Proof.
  assert (Hok : parts_ok parts_example).
  { split.
    - eexists. vm_compute. reflexivity.
    - discriminate.
    - intros u [= <-]. cbn [user_ok]. split_and!; refine (bool_decide_unpack _ _); vm_compute; exact I.
    - split; [refine (bool_decide_unpack _ _); vm_compute; exact I|discriminate].
    - intros n [= <-]. lia.
    - right. exists (chars "eth"). split; [reflexivity|]. refine (bool_decide_unpack _ _). vm_compute. exact I. }
  destruct (uri_roundtrip (fun _ => None) parts_example Hok) as (u & Hu & _ & Hs & _ & Hw & _ & _ & Hport & _).
  exists u. split; [exact Hu|]. split; [exact Hw|]. split; [exact Hport|].
  unfold Family. assert (Hf : find_scheme (p_scheme parts_example) = Some (mk_Scheme STRATUM TLS 1))
    by (vm_compute; reflexivity). rewrite Hf in Hs. injection Hs as ->. reflexivity.
Defined.

(** A string of another form is not refused: the parser leaves it without a
    scheme and a host, and its protocol family is the one of the first
    enumerator, while a known form with an unknown scheme or without a host is an
    error. *)
Theorem uri_errors (parse_ip : list ascii -> option (bool * bool)) (l : list ascii) (sim : bool) :
  (match_sch_auth l = None ->
     exists u, URI_new parse_ip l sim = Ok u /\ m_host u = [] /\ Family u = GETWORK) /\
  (forall s auth, match_sch_auth l = Some (s, auth) ->
     find_scheme (to_lower s) = None \/ auth = [] \/
     (sim = false /\ text (to_lower s) = "simulation"%string) ->
     exists w, URI_new parse_ip l sim = Throw (RuntimeError w)) /\
  (forall u, URI_new parse_ip l sim = Ok u -> is_Some (match_sch_auth l) -> m_host u <> []).
Proof.
  unfold URI_new. split_and!.
  - intros ->. by eexists.
  - intros s auth -> H. destruct auth as [|c auth]; [by eexists|].
    destruct (negb sim && String.eqb (text (to_lower s)) "simulation") eqn:Hsim; [by eexists|].
    destruct H as [->|[H|[-> H]]]; [by eexists|done|]. rewrite H in Hsim. done.
  - intros u Hu [[s auth] Hm]. rewrite Hm in Hu. destruct auth as [|c auth]; [done|].
    destruct (negb sim && _); [done|]. destruct (find_scheme (to_lower s)); [|done].
    destruct (default _ _) as [ui url]. destruct (parse_user _ ui) as [[[? ?] ?] ?].
    destruct (match split_first "/" url with Some _ => _ | None => _ end) as [h q].
    destruct (parse_host (to_lower h)) as [[host port]|]; [|done]. cbn [mbind outcome_bind] in Hu.
    destruct host as [|x host]; [done|]. destruct (parse_path q) as [[? ?] ?].
    destruct (host_type parse_ip (x :: host)). by injection Hu as <-.
Qed.
