(* ===== verification/Target.v ===== *)
(** * Targets and difficulties ([getTargetFromDiff], [getHashesToTarget])

    The two conversions of [libdev/CommonData.cpp] between a difficulty and the
    boundary a hash must not exceed.  The big integers and the printing of a
    [double] are those of Boost: operations of a class, with what their
    documentation says as a class of laws. *)

From Stdlib Require Import ZArith Lia Bool Ascii String Floats.SpecFloat.
From stdpp Require Import base numbers list strings.
From S2P Require Import Prelude Words Outcome CommonData FixedHash Floats PoolURI.

Local Open Scope Z_scope.

(** ** Boost *)

(** [lexical_cast<string>] of a [double]; [cpp_int] made of a [double] or of a
    text, and converted to [double]. *)
Class Boost := {
  lexical_cast : double -> list ascii;
  cpp_int_of_double : double -> outcome Z;
  cpp_int_of_string : list ascii -> outcome Z;
  double_of_cpp_int : Z -> double
}.

Definition all_digits (l : list ascii) : Prop := Forall (fun c => is_digit c = true) l.

(** Texts with the prefix of hexadecimal numbers, and decimal numbers without
    leading zeros, denote their numbers; a character that is no digit is refused. *)
Class BoostLaws (b : Boost) : Prop := {
  hex_text digits : digits <> [] -> Forall is_hex digits ->
    cpp_int_of_string ("0"%char :: "x"%char :: digits) = Ok (hex_value digits);
  decimal_text c l : all_digits (c :: l) -> c <> "0"%char -> cpp_int_of_string (c :: l) = Ok (digits_value (c :: l));
  refused_text c l d l' : all_digits (c :: l) -> c <> "0"%char -> is_digit d = false ->
    exists e, cpp_int_of_string (c :: l ++ d :: l') = Throw (StdException e)
}.

(** ** The conversions *)

Definition target_base : Z := 0xffff * 2 ^ 208.
Definition target_max : Z := 2 ^ 256 - 1.

(** [decimals.erase(0, decimals.find_first_not_of('0'))]. *)
Fixpoint strip_zeros (l : list ascii) : list ascii :=
  match l with
  | c :: l' => if Ascii.eqb c "0" then strip_zeros l' else l
  | [] => []
  end.

Section Conversions.
Context {boost : Boost}.

(** The part the decimal places of [sdiff] contribute. *)
Definition decimal_part (decimals : list ascii) : outcome Z :=
  multiplier ← cpp_int_of_string (strip_zeros decimals);
  divisor ← cpp_int_of_string ("1"%char :: replicate (length decimals) "0"%char);
  Ok (Z.quot (target_base * multiplier) divisor).

Definition target_product (diff : double) : outcome Z :=
  match diff with
  | S754_zero _ => Ok target_max
  | _ =>
      let diff := ddiv (double_of_Z 1) diff in
      idiff ← cpp_int_of_double diff;
      match split_first "." (lexical_cast diff) with
      | Some (_, decimals) => d ← decimal_part decimals; Ok (target_base * idiff + d)
      | None => Ok (target_base * idiff)
      end
  end.

(** A number below zero has no hexadecimal digits. *)
Definition getTargetFromDiff (diff : double) (_prefix : HexPrefix) : outcome string :=
  product ← target_product diff;
  if product <? 0 then Throw (RuntimeError "printing of negative numbers")
  else Ok (text (to_lower (add_prefix _prefix (put_hex 64 product)))).

Definition hashes_dividend : Z := 0xffff * 2 ^ 240.

Definition getHashesToTarget (_target : string) : outcome double :=
  divisor ← cpp_int_of_string (chars _target);
  if divisor =? 0 then Throw (StdException "Division by zero.")
  else Ok (double_of_cpp_int (Z.quot hashes_dividend divisor)).

End Conversions.

(** ** Correctness *)

Lemma digits_value_app a b : digits_value (a ++ b) = digits_value a * 10 ^ Z.of_nat (length b) + digits_value b.
Proof.
  unfold digits_value. rewrite fold_left_app. generalize (fold_left (fun v c => 10 * v + (code c - 48)) a 0) as z.
  induction b as [|c b IH] using rev_ind; intros z; [cbn; lia|].
  rewrite !fold_left_app. cbn [fold_left]. rewrite IH, length_app, Nat2Z.inj_add, Z.pow_add_r by lia. cbn [length]. lia.
Qed.

Lemma digits_value_cons c l : digits_value (c :: l) = (code c - 48) * 10 ^ Z.of_nat (length l) + digits_value l.
Proof. change (c :: l) with ([c] ++ l). rewrite digits_value_app. f_equal. Qed.

Lemma digits_value_nonneg l : all_digits l -> 0 <= digits_value l.
Proof.
  induction 1 as [|c l Hc Hl IH]; [done|]. rewrite digits_value_cons.
  unfold is_digit in Hc. apply andb_true_iff in Hc as [H1%Z.leb_le _].
  pose proof (Z.pow_nonneg 10 (Z.of_nat (length l))). nia.
Qed.

Lemma strip_zeros_value l : digits_value (strip_zeros l) = digits_value l.
Proof.
  induction l as [|c l IH]; [done|]. cbn [strip_zeros]. destruct (Ascii.eqb_spec c "0") as [->|]; [|done].
  rewrite IH, digits_value_cons. change (code "0" - 48) with 0. lia.
Qed.

Lemma strip_zeros_first l :
  all_digits l -> strip_zeros l = [] \/ exists c l', strip_zeros l = c :: l' /\ c <> "0"%char /\ all_digits (c :: l').
Proof.
  induction 1 as [|c l Hc Hl IH]; [by left|]. cbn [strip_zeros]. destruct (Ascii.eqb_spec c "0") as [->|]; [done|].
  right. exists c, l. split; [done|]. split; [done|]. by constructor.
Qed.

Lemma zeros_value n : all_digits (replicate n "0"%char) /\ digits_value ("1"%char :: replicate n "0"%char) = 10 ^ Z.of_nat n.
Proof.
  split; [by apply Forall_replicate|]. rewrite digits_value_cons, length_replicate.
  assert (E : digits_value (replicate n "0"%char) = 0).
  { induction n as [|n IH]; [done|]. cbn [replicate]. rewrite digits_value_cons, IH. change (code "0" - 48) with 0. lia. }
  rewrite E. change (code "1" - 48) with 1. lia.
Qed.

Lemma lower_hex c : fromHex_char (lower c) = fromHex_char c.
Proof. destruct c as [[] [] [] [] [] [] [] []]; reflexivity. Qed.

Lemma lower_hex_list l : Forall is_hex l -> Forall is_hex (to_lower l) /\ hex_value (to_lower l) = hex_value l.
Proof.
  intros Hl. split.
  - apply Forall_fmap. eapply Forall_impl; [apply Hl|]. intros c Hc. cbn. unfold is_hex. by rewrite lower_hex.
  - unfold hex_value. generalize 0 as z. clear Hl. induction l as [|c l IH]; intros z; [done|]. cbn. by rewrite lower_hex, IH.
Qed.

(** 64 digits are a hash. *)
Lemma hash_of_digits p l :
  Forall is_hex l -> length l = 64%nat ->
  exists h, h_of_string 32 (text (add_prefix p l)) = Ok h /\ hash_wf 32 h /\ be_number h = hex_value l.
Proof.
  intros Hl Hlen. unfold h_of_string, fromHex. rewrite chars_text.
  destruct (fromHex_add_prefix ThrowOnError p l Hl ltac:(lia)) as (bs & -> & Hok & Hv & Hn). rewrite Hlen in Hn.
  change ((Z.of_nat 64 + 1) / 2) with 32 in Hn. assert (Hbs : length bs = 32%nat) by lia.
  cbn [mbind outcome_bind]. unfold h_of_bytes. rewrite Hbs. cbn [Nat.eqb]. rewrite take_ge by lia. by exists bs.
Qed.

Lemma target_text p T :
  0 <= T < 2 ^ 256 ->
  exists h, h_of_string 32 (text (to_lower (add_prefix p (put_hex 64 T)))) = Ok h /\ hash_wf 32 h /\ be_number h = T.
Proof.
  intros HT. destruct (put_hex_spec 64 T ltac:(lia)) as (Hh & Hv & Hl). destruct (lower_hex_list _ Hh) as [Hh' Hv'].
  assert (E : to_lower (add_prefix p (put_hex 64 T)) = add_prefix p (to_lower (put_hex 64 T))) by by destruct p.
  destruct (hash_of_digits p (to_lower (put_hex 64 T)) Hh') as (h & Hs & Hwf & Hn).
  { unfold to_lower. rewrite length_fmap, Hl. apply Nat.max_l. apply hex_length_bound; lia. }
  exists h. rewrite E. split; [done|]. split; [done|]. by rewrite Hn, Hv'.
Qed.

Section Correct.
Context (boost : Boost) `{!BoostLaws boost}.

Lemma decimal_part_value frac :
  all_digits frac -> digits_value frac <> 0 ->
  decimal_part frac = Ok (target_base * digits_value frac / 10 ^ Z.of_nat (length frac)).
Proof.
  intros Hf Hnz. unfold decimal_part. destruct (strip_zeros_first frac Hf) as [E|(c & l & E & Hc & Hcl)].
  { pose proof (strip_zeros_value frac) as H. rewrite E in H. by cbn in H. }
  destruct (zeros_value (length frac)) as [Hz Hz'].
  rewrite E, (decimal_text c l) by done. cbn [mbind outcome_bind].
  rewrite decimal_text by (done || by constructor). cbn [mbind outcome_bind].
  rewrite <- E, strip_zeros_value, Hz'. rewrite Z.quot_div_nonneg; [done| |apply Z.pow_pos_nonneg; lia].
  pose proof (digits_value_nonneg frac Hf). unfold target_base. lia.
Qed.

(** How the quotient prints: an integer, or an integer, a point and decimals. *)
Definition prints (q : double) (i : Z) (frac : list ascii) : Prop :=
  (frac = [] /\ lexical_cast q = dec_list i) \/
  (all_digits frac /\ digits_value frac <> 0 /\ lexical_cast q = dec_list i ++ "."%char :: frac).

Lemma target_product_value diff i frac :
  let q := ddiv (double_of_Z 1) diff in
  (forall s, diff <> S754_zero s) -> cpp_int_of_double q = Ok i -> 0 <= i -> prints q i frac ->
  target_product diff =
  Ok (target_base * (i * 10 ^ Z.of_nat (length frac) + digits_value frac) / 10 ^ Z.of_nat (length frac)).
Proof.
  intros q Hd Hi H0 Hp. unfold target_product. fold q. pose proof (Z.pow_pos_nonneg 10 (Z.of_nat (length frac))) as Hpos.
  assert (E : (i' ← cpp_int_of_double q;
    match split_first "." (lexical_cast q) with
    | Some (_, decimals) => d ← decimal_part decimals; Ok (target_base * i' + d)
    | None => Ok (target_base * i')
    end) = Ok (target_base * (i * 10 ^ Z.of_nat (length frac) + digits_value frac) / 10 ^ Z.of_nat (length frac))).
  { rewrite Hi. cbn [mbind outcome_bind]. destruct (dec_list_spec i H0) as [Hdig _].
    assert (Ha : avoids "." (dec_list i)) by by apply digits_avoid.
    destruct Hp as [[-> ->]|(Hf & Hnz & ->)].
    - rewrite split_first_none by done. cbn [length]. change (digits_value []) with 0. change (10 ^ Z.of_nat 0) with 1.
      by rewrite Z.div_1_r, Z.mul_1_r, Z.add_0_r.
    - rewrite split_first_app by done. rewrite decimal_part_value by done. cbn [mbind outcome_bind].
      rewrite Z.mul_add_distr_l, Z.mul_assoc, Z.div_add_l by lia. done. }
  destruct diff as [s| | |]; [by destruct (Hd s)|exact E..].
Qed.

(** The target of a difficulty, as a hash, is the base target times the
    inverse of the difficulty, as exact as this inverse prints, rounded down: a
    text [i.f] gives [base * i.f]; difficulty zero gives the largest target. *)
Theorem getTargetFromDiff_correct (diff : double) (_prefix : HexPrefix) (i : Z) (frac : list ascii) :
  let q := ddiv (double_of_Z 1) diff in
  let T := target_base * (i * 10 ^ Z.of_nat (length frac) + digits_value frac) / 10 ^ Z.of_nat (length frac) in
  (forall s, diff <> S754_zero s) -> cpp_int_of_double q = Ok i -> 0 <= i -> prints q i frac -> T < 2 ^ 256 ->
  (exists t h, getTargetFromDiff diff _prefix = Ok t /\ h_of_string 32 t = Ok h /\ hash_wf 32 h /\ be_number h = T) /\
  (exists t h, getTargetFromDiff (S754_zero false) _prefix = Ok t /\ h_of_string 32 t = Ok h /\ be_number h = 2 ^ 256 - 1).
Proof.
  intros q T Hd Hi H0 Hp HT. assert (HT0 : 0 <= T).
  { apply Z.div_pos; [|apply Z.pow_pos_nonneg; lia]. unfold target_base.
    assert (0 <= digits_value frac) by (destruct Hp as [[-> _]|(Hf & _)]; [done|by apply digits_value_nonneg]). nia. }
  unfold getTargetFromDiff at 1. rewrite (target_product_value diff i frac) by done. fold T. cbn [mbind outcome_bind].
  destruct (Z.ltb_spec T 0); [lia|]. split.
  - destruct (target_text _prefix T ltac:(lia)) as (h & Hh). by exists (text (to_lower (add_prefix _prefix (put_hex 64 T)))), h.
  - destruct (target_text _prefix target_max ltac:(unfold target_max; lia)) as (h & Hh & _ & Hn). eexists _, h.
    split; [reflexivity|]. split; [exact Hh|exact Hn].
Qed.

Lemma hash_digits h : hash_wf 32 h ->
  exists l, chars (h_hex h Add) = "0"%char :: "x"%char :: l /\ l <> [] /\ Forall is_hex l /\ hex_value l = be_number h.
Proof.
  intros [Hl Hb]. set (l := concat (hex2 <$> h)).
  assert (Hc : chars (h_hex h Add) = add_prefix Add l).
  { unfold h_hex, toHex. rewrite chars_text. by apply toHex_list_pairs. }
  assert (Hne : (0 < length l)%nat) by (destruct h as [|b h]; [done|cbn; lia]).
  pose proof (hex2_is_hex h Hb) as Hh. exists l. split; [done|]. split; [by destruct l; [cbn in Hne; lia|]|]. split; [done|].
  destruct (fromHex_add_prefix ThrowOnError Add l Hh Hne) as (bs & Hbs & _ & Hv & _).
  pose proof (fromHex_toHex_bytes h Add ThrowOnError Hb) as H. unfold fromHex in H. unfold h_hex in Hc. rewrite Hc, Hbs in H.
  injection H as ->. done.
Qed.

(** The number of hashes to a target is the largest target of difficulty one
    divided by the number the target denotes, and a zero target has none. *)
Theorem getHashesToTarget_correct (h : list Z) :
  hash_wf 32 h ->
  getHashesToTarget (h_hex h Add) =
  if be_number h =? 0 then Throw (StdException "Division by zero.")
  else Ok (double_of_cpp_int (hashes_dividend / be_number h)).
Proof.
  intros Hh. destruct (hash_digits h Hh) as (l & Hc & Hne & Hl & Hv). destruct Hh as [_ Hb].
  unfold getHashesToTarget. rewrite Hc, hex_text by done. cbn [mbind outcome_bind]. rewrite Hv.
  destruct (Z.eqb_spec (be_number h) 0); [done|]. pose proof (be_number_range h Hb) as [H0 _].
  by rewrite Z.quot_div_nonneg by (unfold hashes_dividend; lia).
Qed.

(** A pool may set a difficulty whose inverse prints with an exponent, as every
    inverse below 0.0001 does: its target cannot be computed. *)
Theorem small_inverse_throws (diff : double) (i : Z) (c : ascii) (l l' frac : list ascii) :
  let q := ddiv (double_of_Z 1) diff in
  (forall s, diff <> S754_zero s) -> cpp_int_of_double q = Ok i ->
  lexical_cast q = l' ++ "."%char :: frac -> all_digits l' ->
  strip_zeros frac = c :: l ++ chars "e-05" -> all_digits (c :: l) -> c <> "0"%char ->
  exists e, getTargetFromDiff diff Add = Throw e.
Proof.
  intros q Hd Hi Hq Hl' Hf Hcl Hc. destruct (refused_text c l "e" (chars "-05") Hcl Hc eq_refl) as [e He].
  exists (StdException e). assert (E : target_product diff = Throw (StdException e)).
  { unfold target_product. fold q. destruct diff as [s| | |]; [by destruct (Hd s)|..].
    all: rewrite Hi; cbn [mbind outcome_bind]; rewrite Hq, split_first_app by (by apply digits_avoid);
      unfold decimal_part; change (chars "e-05") with ("e"%char :: chars "-05") in Hf; by rewrite Hf, He. }
  unfold getTargetFromDiff. by rewrite E.
Qed.

End Correct.

(** ** An example *)

Definition trim_zeros (l : list ascii) : list ascii := rev (strip_zeros (rev l)).
Definition trim_point (l : list ascii) : list ascii :=
  match rev l with c :: r => if Ascii.eqb c "." then rev r else l | [] => [] end.

#[local] Instance boost_example : Boost := {
  lexical_cast x := trim_point (trim_zeros (chars (fixed_string 17 x)));
  cpp_int_of_double x :=
    match x with
    | S754_zero _ => Ok 0
    | S754_finite s m e => Ok (if s then - Z.shiftl (Zpos m) e else Z.shiftl (Zpos m) e)
    | _ => Throw (StdException "Cannot convert a non-finite number to an integer.")
    end;
  cpp_int_of_string l :=
    match l with
    | "0"%char :: "x"%char :: digits => Ok (hex_value digits)
    | _ => if forallb is_digit l then Ok (digits_value l) else Throw (StdException "Unexpected content")
    end;
  double_of_cpp_int := double_of_Z
}.

#[local] Instance boost_example_laws : BoostLaws boost_example.
Proof.
  split.
  - done.
  - intros c l Hcl Hc. assert (E : forallb is_digit (c :: l) = true).
    { apply forallb_forall. intros x Hx. by apply (proj1 (List.Forall_forall _ _) Hcl). }
    cbn -[forallb digits_value]. rewrite E. destruct c as [[] [] [] [] [] [] [] []]; first [done|by destruct Hc].
  - intros c l d l' Hcl Hc Hd. exists "Unexpected content"%string.
    assert (E : forallb is_digit (c :: l ++ d :: l') = false).
    { cbn [forallb]. rewrite forallb_app. cbn [forallb]. by rewrite Hd, andb_false_r, andb_false_r. }
    cbn -[forallb digits_value]. rewrite E. destruct c as [[] [] [] [] [] [] [] []]; first [done|by destruct Hc].
Qed.

(** Difficulty one, a half and eight. *)
Lemma getTargetFromDiff_correct_witness :
  (exists t h, getTargetFromDiff (double_of_Z 8) Add = Ok t /\ h_of_string 32 t = Ok h /\ be_number h = 0x1fffe * 2 ^ 204) /\
  getTargetFromDiff (double_of_Z 1) Add = Ok ("0x00000000ffff" +:+ text (replicate 52 "0"%char))%string.
Proof.
  split; [|vm_compute; reflexivity].
  destruct (getTargetFromDiff_correct boost_example (double_of_Z 8) Add 0 (chars "125")) as [(t & h & H1 & H2 & _ & H3) _].
  - intros s E. vm_compute in E. discriminate E.
  - vm_compute. reflexivity.
  - lia.
  - right. split; [repeat constructor|]. split; vm_compute; [discriminate|reflexivity].
  - vm_compute. reflexivity.
  - exists t, h. split; [exact H1|]. split; [exact H2|]. rewrite H3. vm_compute. reflexivity.
Defined.

Lemma getHashesToTarget_correct_witness :
  getHashesToTarget (h_hex (replicate 31 0 ++ [2]) Add) = Ok (double_of_Z (0xffff * 2 ^ 239)).
Proof.
  rewrite (getHashesToTarget_correct boost_example (replicate 31 0 ++ [2])).
  - vm_compute. reflexivity.
  - split; [reflexivity|]. refine (bool_decide_unpack _ _). vm_compute. exact I.
Defined.
