(* ===== verification/PoolManager.v ===== *)
(** * The pool manager ([libpool/PoolManager], [libpool/PoolClient.h])

    The list of connections with the active one, its rotation and failover, the
    handlers through which a client of a pool drives the farm, and the timers.
    The clients are in this file what the manager sees of them: the protocol,
    whether they are connected and which connection they use; what they call
    back are the handlers, in any order.  [None] is undefined behaviour. *)

From Stdlib Require Import ZArith Lia Bool Ascii String Floats.SpecFloat.
From stdpp Require Import base numbers list strings relations.
From S2P Require Import Prelude Words EthashSpec Ethash Outcome CommonData FixedHash Floats Miner Farm PoolURI.

Local Open Scope Z_scope.

Record PoolSettings := mk_PoolSettings {
  getWorkPollInterval : Z;
  noWorkTimeout : Z;
  noResponseTimeout : Z;
  poolFailoverTimeout : Z;
  reportHashrate : bool;
  hashRateInterval : Z;
  hashRateId : string;
  connectionMaxRetries : Z;
  delayBeforeRetry : Z;
  benchmarkBlock : Z
}.

(** What the manager sees of a [PoolClient]: [c_conn] is [m_conn], an index into
    the shared connection definitions. *)
Record PoolClient := mk_PoolClient {
  c_family : ProtocolFamily;
  c_connected : bool;
  c_conn : option nat
}.

(** Calls that leave the manager. *)
Inductive pool_call :=
  | CallConnect
  | CallDisconnect
  | CallSubmitSolution (s : Solution)
  | CallSubmitHashrate (rate : Z) (id : string)
  | CallSigterm.

(** The members of [PoolManager].  [uris] are the connection definitions that
    [connections] (of the settings) and the clients share; a timer is whether it
    is armed; [posted] counts the calls of [rotateConnect] that were posted;
    [search_cache] is the cache of [find_epoch_number]. *)
Record PoolManager := mk_PoolManager {
  uris : list URI;
  connections : list nat;
  m_Settings : PoolSettings;
  m_running : bool;
  m_stopping : bool;
  m_async_pending : bool;
  m_connectionAttempt : Z;
  m_selectedHost : list ascii;
  m_connectionSwitches : Z;
  m_activeConnectionIdx : Z;
  m_currentWp : WorkPackage;
  m_failovertimer : bool;
  m_submithrtimer : bool;
  m_reconnecttimer : bool;
  p_client : option PoolClient;
  m_epochChanges : Z;
  m_lastBlock : Z;
  farm : Farm;
  search_cache : epoch_search;
  posted : nat;
  calls : list pool_call
}.

Definition set_uris (p : PoolManager) (x : list URI) : PoolManager :=
  mk_PoolManager x (connections p) (m_Settings p) (m_running p) (m_stopping p) (m_async_pending
    p) (m_connectionAttempt p) (m_selectedHost p) (m_connectionSwitches p)
    (m_activeConnectionIdx p) (m_currentWp p) (m_failovertimer p) (m_submithrtimer p)
    (m_reconnecttimer p) (p_client p) (m_epochChanges p) (m_lastBlock p) (farm p) (search_cache
    p) (posted p) (calls p).
Definition set_connections (p : PoolManager) (x : list nat) : PoolManager :=
  mk_PoolManager (uris p) x (m_Settings p) (m_running p) (m_stopping p) (m_async_pending p)
    (m_connectionAttempt p) (m_selectedHost p) (m_connectionSwitches p) (m_activeConnectionIdx
    p) (m_currentWp p) (m_failovertimer p) (m_submithrtimer p) (m_reconnecttimer p) (p_client p)
    (m_epochChanges p) (m_lastBlock p) (farm p) (search_cache p) (posted p) (calls p).
Definition set_running (p : PoolManager) (x : bool) : PoolManager :=
  mk_PoolManager (uris p) (connections p) (m_Settings p) x (m_stopping p) (m_async_pending p)
    (m_connectionAttempt p) (m_selectedHost p) (m_connectionSwitches p) (m_activeConnectionIdx
    p) (m_currentWp p) (m_failovertimer p) (m_submithrtimer p) (m_reconnecttimer p) (p_client p)
    (m_epochChanges p) (m_lastBlock p) (farm p) (search_cache p) (posted p) (calls p).
Definition set_stopping (p : PoolManager) (x : bool) : PoolManager :=
  mk_PoolManager (uris p) (connections p) (m_Settings p) (m_running p) x (m_async_pending p)
    (m_connectionAttempt p) (m_selectedHost p) (m_connectionSwitches p) (m_activeConnectionIdx
    p) (m_currentWp p) (m_failovertimer p) (m_submithrtimer p) (m_reconnecttimer p) (p_client p)
    (m_epochChanges p) (m_lastBlock p) (farm p) (search_cache p) (posted p) (calls p).
Definition set_pending (p : PoolManager) (x : bool) : PoolManager :=
  mk_PoolManager (uris p) (connections p) (m_Settings p) (m_running p) (m_stopping p) x
    (m_connectionAttempt p) (m_selectedHost p) (m_connectionSwitches p) (m_activeConnectionIdx
    p) (m_currentWp p) (m_failovertimer p) (m_submithrtimer p) (m_reconnecttimer p) (p_client p)
    (m_epochChanges p) (m_lastBlock p) (farm p) (search_cache p) (posted p) (calls p).
Definition set_attempt (p : PoolManager) (x : Z) : PoolManager :=
  mk_PoolManager (uris p) (connections p) (m_Settings p) (m_running p) (m_stopping p)
    (m_async_pending p) x (m_selectedHost p) (m_connectionSwitches p) (m_activeConnectionIdx p)
    (m_currentWp p) (m_failovertimer p) (m_submithrtimer p) (m_reconnecttimer p) (p_client p)
    (m_epochChanges p) (m_lastBlock p) (farm p) (search_cache p) (posted p) (calls p).
Definition set_host (p : PoolManager) (x : list ascii) : PoolManager :=
  mk_PoolManager (uris p) (connections p) (m_Settings p) (m_running p) (m_stopping p)
    (m_async_pending p) (m_connectionAttempt p) x (m_connectionSwitches p)
    (m_activeConnectionIdx p) (m_currentWp p) (m_failovertimer p) (m_submithrtimer p)
    (m_reconnecttimer p) (p_client p) (m_epochChanges p) (m_lastBlock p) (farm p) (search_cache
    p) (posted p) (calls p).
Definition set_switches (p : PoolManager) (x : Z) : PoolManager :=
  mk_PoolManager (uris p) (connections p) (m_Settings p) (m_running p) (m_stopping p)
    (m_async_pending p) (m_connectionAttempt p) (m_selectedHost p) x (m_activeConnectionIdx p)
    (m_currentWp p) (m_failovertimer p) (m_submithrtimer p) (m_reconnecttimer p) (p_client p)
    (m_epochChanges p) (m_lastBlock p) (farm p) (search_cache p) (posted p) (calls p).
Definition set_active (p : PoolManager) (x : Z) : PoolManager :=
  mk_PoolManager (uris p) (connections p) (m_Settings p) (m_running p) (m_stopping p)
    (m_async_pending p) (m_connectionAttempt p) (m_selectedHost p) (m_connectionSwitches p) x
    (m_currentWp p) (m_failovertimer p) (m_submithrtimer p) (m_reconnecttimer p) (p_client p)
    (m_epochChanges p) (m_lastBlock p) (farm p) (search_cache p) (posted p) (calls p).
Definition set_pool_wp (p : PoolManager) (x : WorkPackage) : PoolManager :=
  mk_PoolManager (uris p) (connections p) (m_Settings p) (m_running p) (m_stopping p)
    (m_async_pending p) (m_connectionAttempt p) (m_selectedHost p) (m_connectionSwitches p)
    (m_activeConnectionIdx p) x (m_failovertimer p) (m_submithrtimer p) (m_reconnecttimer p)
    (p_client p) (m_epochChanges p) (m_lastBlock p) (farm p) (search_cache p) (posted p) (calls
    p).
Definition set_failovertimer (p : PoolManager) (x : bool) : PoolManager :=
  mk_PoolManager (uris p) (connections p) (m_Settings p) (m_running p) (m_stopping p)
    (m_async_pending p) (m_connectionAttempt p) (m_selectedHost p) (m_connectionSwitches p)
    (m_activeConnectionIdx p) (m_currentWp p) x (m_submithrtimer p) (m_reconnecttimer p)
    (p_client p) (m_epochChanges p) (m_lastBlock p) (farm p) (search_cache p) (posted p) (calls
    p).
Definition set_submithrtimer (p : PoolManager) (x : bool) : PoolManager :=
  mk_PoolManager (uris p) (connections p) (m_Settings p) (m_running p) (m_stopping p)
    (m_async_pending p) (m_connectionAttempt p) (m_selectedHost p) (m_connectionSwitches p)
    (m_activeConnectionIdx p) (m_currentWp p) (m_failovertimer p) x (m_reconnecttimer p)
    (p_client p) (m_epochChanges p) (m_lastBlock p) (farm p) (search_cache p) (posted p) (calls
    p).
Definition set_reconnecttimer (p : PoolManager) (x : bool) : PoolManager :=
  mk_PoolManager (uris p) (connections p) (m_Settings p) (m_running p) (m_stopping p)
    (m_async_pending p) (m_connectionAttempt p) (m_selectedHost p) (m_connectionSwitches p)
    (m_activeConnectionIdx p) (m_currentWp p) (m_failovertimer p) (m_submithrtimer p) x
    (p_client p) (m_epochChanges p) (m_lastBlock p) (farm p) (search_cache p) (posted p) (calls
    p).
Definition set_client (p : PoolManager) (x : option PoolClient) : PoolManager :=
  mk_PoolManager (uris p) (connections p) (m_Settings p) (m_running p) (m_stopping p)
    (m_async_pending p) (m_connectionAttempt p) (m_selectedHost p) (m_connectionSwitches p)
    (m_activeConnectionIdx p) (m_currentWp p) (m_failovertimer p) (m_submithrtimer p)
    (m_reconnecttimer p) x (m_epochChanges p) (m_lastBlock p) (farm p) (search_cache p) (posted
    p) (calls p).
Definition set_epochChanges (p : PoolManager) (x : Z) : PoolManager :=
  mk_PoolManager (uris p) (connections p) (m_Settings p) (m_running p) (m_stopping p)
    (m_async_pending p) (m_connectionAttempt p) (m_selectedHost p) (m_connectionSwitches p)
    (m_activeConnectionIdx p) (m_currentWp p) (m_failovertimer p) (m_submithrtimer p)
    (m_reconnecttimer p) (p_client p) x (m_lastBlock p) (farm p) (search_cache p) (posted p)
    (calls p).
Definition set_lastBlock (p : PoolManager) (x : Z) : PoolManager :=
  mk_PoolManager (uris p) (connections p) (m_Settings p) (m_running p) (m_stopping p)
    (m_async_pending p) (m_connectionAttempt p) (m_selectedHost p) (m_connectionSwitches p)
    (m_activeConnectionIdx p) (m_currentWp p) (m_failovertimer p) (m_submithrtimer p)
    (m_reconnecttimer p) (p_client p) (m_epochChanges p) x (farm p) (search_cache p) (posted p)
    (calls p).
Definition set_farm (p : PoolManager) (x : Farm) : PoolManager :=
  mk_PoolManager (uris p) (connections p) (m_Settings p) (m_running p) (m_stopping p)
    (m_async_pending p) (m_connectionAttempt p) (m_selectedHost p) (m_connectionSwitches p)
    (m_activeConnectionIdx p) (m_currentWp p) (m_failovertimer p) (m_submithrtimer p)
    (m_reconnecttimer p) (p_client p) (m_epochChanges p) (m_lastBlock p) x (search_cache p)
    (posted p) (calls p).
Definition set_search (p : PoolManager) (x : epoch_search) : PoolManager :=
  mk_PoolManager (uris p) (connections p) (m_Settings p) (m_running p) (m_stopping p)
    (m_async_pending p) (m_connectionAttempt p) (m_selectedHost p) (m_connectionSwitches p)
    (m_activeConnectionIdx p) (m_currentWp p) (m_failovertimer p) (m_submithrtimer p)
    (m_reconnecttimer p) (p_client p) (m_epochChanges p) (m_lastBlock p) (farm p) x (posted p)
    (calls p).
Definition set_posted (p : PoolManager) (x : nat) : PoolManager :=
  mk_PoolManager (uris p) (connections p) (m_Settings p) (m_running p) (m_stopping p)
    (m_async_pending p) (m_connectionAttempt p) (m_selectedHost p) (m_connectionSwitches p)
    (m_activeConnectionIdx p) (m_currentWp p) (m_failovertimer p) (m_submithrtimer p)
    (m_reconnecttimer p) (p_client p) (m_epochChanges p) (m_lastBlock p) (farm p) (search_cache
    p) x (calls p).
Definition call (p : PoolManager) (x : pool_call) : PoolManager :=
  mk_PoolManager (uris p) (connections p) (m_Settings p) (m_running p) (m_stopping p)
    (m_async_pending p) (m_connectionAttempt p) (m_selectedHost p) (m_connectionSwitches p)
    (m_activeConnectionIdx p) (m_currentWp p) (m_failovertimer p) (m_submithrtimer p)
    (m_reconnecttimer p) (p_client p) (m_epochChanges p) (m_lastBlock p) (farm p) (search_cache
    p) (posted p) (calls p ++ [x]).

(** The compiled-in miners, the clock and the random nonce. *)
Record env := mk_env { e_cuda : bool; e_cl : bool; e_now : Z; e_rnd : Z }.

Definition start_farm (e : env) (p : PoolManager) : PoolManager :=
  set_farm p (Farm.start (e_cuda e) (e_cl e) (e_now e) (farm p)).2.

Definition stop_farm (p : PoolManager) : PoolManager :=
  if m_isMining (farm p) then set_farm p (Farm.stop (farm p)) else p.

Definition clear_header (p : PoolManager) : PoolManager :=
  set_pool_wp p (set_header (m_currentWp p) (h_zero 32)).

(** ** The constructor and its handlers *)

Definition PoolManager_new (defs : list URI) (conns : list nat) (s : PoolSettings) (f : Farm)
  : PoolManager :=
  mk_PoolManager defs conns s false false false 0 [] 0 0 WorkPackage_default false false false None 0
    (-1) f epoch_search_init 0 [].

(** The handler of [onMinerRestart]. *)
Definition onMinerRestart (e : env) (p : PoolManager) : PoolManager := start_farm e (stop_farm p).

Definition isConnected (p : PoolManager) : bool :=
  match p_client p with Some c => c_connected c | None => false end.

(** The handler of [onSolutionFound]. *)
Definition onSolutionFound (sol : Solution) (p : PoolManager) : PoolManager :=
  if isConnected p then call p (CallSubmitSolution sol) else p.

(** ** The handlers of a client *)

Definition clear_job (w : WorkPackage) : WorkPackage :=
  mk_WorkPackage "" (boundary w) (header w) (wp_seed w) (epoch w) (block w) (startNonce w)
    (exSizeBytes w) (difficulty w).

Definition onConnected (e : env) (p : PoolManager) : PoolManager :=
  let s := m_Settings p in
  let p := set_attempt p 0 in
  let p := set_pool_wp p (clear_job (m_currentWp p)) in
  let p := clear_header p in
  let p := set_failovertimer p
    (negb (m_activeConnectionIdx p =? 0) && negb (poolFailoverTimeout s =? 0)) in
  let p :=
    if negb (m_isMining (farm p)) then start_farm e p
    else if farm_paused (farm p) then set_farm p (farm_resume (farm p)) else p in
  let p := if reportHashrate s then set_submithrtimer p true else p in
  set_pending p false.

Definition onDisconnected (p : PoolManager) : option PoolManager :=
  c ← p_client p;
  let p := set_client p (Some (mk_PoolClient (c_family c) (c_connected c) None)) in
  let p := clear_header p in
  let p := set_submithrtimer (set_failovertimer p false) false in
  if m_stopping p then Some (set_running (stop_farm p) false)
  else
    let p := set_pending p true in
    let p := set_farm p (farm_pause (farm p)) in
    Some (set_posted p (S (posted p))).

(** [StratumMode()] of the connection of the client. *)
Definition client_mode (p : PoolManager) : option Z :=
  c ← p_client p; i ← c_conn c; u ← uris p !! i; Some (m_stratumMode u).

Definition set_epoch (w : WorkPackage) (e : Z) : WorkPackage :=
  mk_WorkPackage (job w) (boundary w) (header w) (wp_seed w) e (block w) (startNonce w)
    (exSizeBytes w) (difficulty w).

Definition is_newEpoch (p : PoolManager) (wp : WorkPackage) : option bool :=
  if epoch (m_currentWp p) =? -1 then Some true
  else
    mode ← client_mode p;
    Some (if mode =? 3 then negb (epoch wp =? epoch (m_currentWp p))
          else negb (h_eq (wp_seed wp) (wp_seed (m_currentWp p)))).

Section Work.
Context {host : Host}.

(** The epoch of a package that begins a new epoch. *)
Definition work_epoch (wp : WorkPackage) (c : epoch_search) : option (Z * epoch_search) :=
  if epoch wp =? -1 then
    if 0 <=? block wp then Some (Z.quot (block wp) 30000, c)
    else find_epoch_number (take 32 (wp_seed wp)) c
  else Some (epoch wp, c).

(** The new current package with its epoch. *)
Definition take_work (newEpoch : bool) (wp : WorkPackage) (p : PoolManager) : option PoolManager :=
  let _currentEpoch := epoch (m_currentWp p) in
  let p := set_pool_wp p wp in
  if newEpoch then
    '(ep, c) ← work_epoch wp (search_cache p);
    let p := set_epochChanges p (u32 (m_epochChanges p + 1)) in
    Some (set_search (set_pool_wp p (set_epoch (m_currentWp p) ep)) c)
  else Some (set_pool_wp p (set_epoch (m_currentWp p) _currentEpoch)).

Definition onWorkReceived (e : env) (wp : WorkPackage) (p : PoolManager) : option PoolManager :=
  if negb (wp_bool wp) then Some p
  else
    newEpoch ← is_newEpoch p wp;
    p ← take_work newEpoch wp p;
    let p := set_lastBlock p (block (m_currentWp p)) in
    f ← farm_setWork (farm p) (m_currentWp p) (e_rnd e);
    Some (set_farm p f).

End Work.

Definition onSolutionAccepted (e : env) (_minerIdx : Z) (p : PoolManager) : outcome unit * PoolManager :=
  let '(o, f) := accountSolution (e_now e) (farm p) _minerIdx Accepted in (o, set_farm p f).
Definition onSolutionRejected (e : env) (_minerIdx : Z) (p : PoolManager) : outcome unit * PoolManager :=
  let '(o, f) := accountSolution (e_now e) (farm p) _minerIdx Rejected in (o, set_farm p f).

(** ** Stopping and the connections *)

(** [stop] up to its wait for [m_running] to become false; the second component
    says whether it waits. *)
Definition pool_stop (p : PoolManager) : PoolManager * bool :=
  if m_running p then
    let p := set_stopping (set_pending p true) true in
    if isConnected p then (call p CallDisconnect, true)
    else
      let p := set_reconnecttimer (set_submithrtimer (set_failovertimer p false) false) false in
      (stop_farm p, false)
  else (p, false).

(** The rest of [stop] after the wait. *)
Definition pool_stop_finish (p : PoolManager) : PoolManager := set_client p None.

(** [addConnection(string)], [u] being the definition made of the string. *)
Definition addConnection (u : outcome URI) (p : PoolManager) : outcome unit * PoolManager :=
  match u with
  | Ok u => (Ok tt, set_connections (set_uris p (uris p ++ [u])) (connections p ++ [length (uris p)]))
  | Throw e => (Throw e, p)
  end.

Definition addConnection_uri (i : nat) (p : PoolManager) : PoolManager :=
  set_connections p (connections p ++ [i]).

Definition size (p : PoolManager) : Z := Z.of_nat (length (connections p)).

(** [connections.erase(connections.begin() + idx)]. *)
Definition erase (p : PoolManager) (idx : Z) : PoolManager :=
  set_connections p (delete (Z.to_nat idx) (connections p)).

Definition removeConnection (idx : Z) (p : PoolManager) : outcome unit * PoolManager :=
  if m_async_pending p then (Throw (RuntimeError "Outstanding operations. Retry ..."), p)
  else if size p <=? idx then (Throw (RuntimeError "Index out-of bounds."), p)
  else if idx =? m_activeConnectionIdx p then (Throw (RuntimeError "Can't remove active connection"), p)
  else
    let p := erase p idx in
    (Ok tt, if idx <? m_activeConnectionIdx p then set_active p (m_activeConnectionIdx p - 1) else p).

(** [None]: there is no client to disconnect. *)
Definition setActiveConnectionCommon (idx : Z) (p : PoolManager) : option (outcome unit * PoolManager) :=
  if m_async_pending p then Some (Throw (RuntimeError "Outstanding operations. Retry ..."), p)
  else
    let p := set_pending p true in
    if negb (idx =? m_activeConnectionIdx p) then
      let p := set_switches p (u32 (m_connectionSwitches p + 1)) in
      let p := set_attempt (set_active p idx) 0 in
      _ ← p_client p;
      Some (Ok tt, call p CallDisconnect)
    else Some (Ok tt, set_pending p false).

Definition setActiveConnection (idx : Z) (p : PoolManager) : option (outcome unit * PoolManager) :=
  if size p <=? idx then Some (Throw (RuntimeError "Index out-of bounds."), p)
  else setActiveConnectionCommon idx p.

(** [boost::iequals]. *)
Definition iequals (a b : list ascii) : bool := String.eqb (text (to_lower a)) (text (to_lower b)).

Fixpoint find_connection (defs : list URI) (conns : list nat) (s : list ascii) (idx : Z)
  : option (option Z) :=
  match conns with
  | [] => Some None
  | i :: conns =>
      u ← defs !! i;
      if iequals (m_uri u) s then Some (Some idx) else find_connection defs conns s (idx + 1)
  end.

Definition setActiveConnection_str (_connstring : list ascii) (p : PoolManager)
  : option (outcome unit * PoolManager) :=
  r ← find_connection (uris p) (connections p) _connstring 0;
  match r with
  | Some idx => setActiveConnectionCommon idx p
  | None => Some (Throw (RuntimeError "Not found."), p)
  end.

Definition connection (p : PoolManager) (idx : Z) : option nat := array_get (connections p) idx.

Definition getActiveConnection (p : PoolManager) : option nat := connection p (m_activeConnectionIdx p).

(** The entries of [getConnectionsJson]: index, whether active, address. *)
Definition getConnectionsJson (p : PoolManager) : option (list (Z * bool * list ascii)) :=
  mapM (fun '(i, c) =>
    u ← uris p !! c; Some (Z.of_nat i, Z.of_nat i =? m_activeConnectionIdx p, m_uri u))
    (imap pair (connections p)).

Definition pool_start (p : PoolManager) : PoolManager :=
  let p := set_pending (set_running p true) true in
  let p := set_switches p (u32 (m_connectionSwitches p + 1)) in
  set_posted p (S (posted p)).

(** ** Rotation *)

Definition wrap_active (p : PoolManager) : PoolManager :=
  if size p <=? m_activeConnectionIdx p then set_active p 0 else p.

Definition switched (p : PoolManager) : PoolManager :=
  set_switches p (u32 (m_connectionSwitches p + 1)).

(** Above the maximum of attempts. *)
Definition exhausted (p : PoolManager) : bool :=
  negb (connectionMaxRetries (m_Settings p) =? 0) &&
  (connectionMaxRetries (m_Settings p) <=? m_connectionAttempt p).

(** Discarding a connection that is unrecoverable, or the last one after too
    many attempts; [u] is the active connection. *)
Definition rotate_discard (u : URI) (p : PoolManager) : PoolManager :=
  if m_unrecoverable u then
    let p := erase p (m_activeConnectionIdx p) in
    switched (wrap_active (set_attempt p 0))
  else if size p =? 1 then
    if exhausted p then erase p (m_activeConnectionIdx p) else p
  else p.

Definition rotate_next (p : PoolManager) : PoolManager :=
  if negb (size p =? 0) && exhausted p then
    let p := set_attempt p 0 in
    let p := set_active p (u32 (m_activeConnectionIdx p + 1)) in
    switched (wrap_active p)
  else p.

(** Making a client for the connection [i], with definition [u], and connecting
    it, at once or after a delay. *)
Definition rotate_connect (i : nat) (u : URI) (p : PoolManager) : PoolManager :=
  let p := set_client p (Some (mk_PoolClient (Family u) false None)) in
  let p := set_attempt p (u32 (m_connectionAttempt p + 1)) in
  let p := set_host p (m_host u ++ ":"%char :: chars (to_string (m_port u))) in
  let p := set_client p (Some (mk_PoolClient (Family u) false (Some i))) in
  let p := set_uris p (<[i := set_Responds u false]> (uris p)) in
  if (1 <? m_connectionAttempt p) && (0 <? delayBeforeRetry (m_Settings p)) then set_reconnecttimer p true
  else call p CallConnect.

Definition rotate_exit (p : PoolManager) : PoolManager :=
  call (set_running (stop_farm p) false) CallSigterm.

Definition is_exit (u : URI) : bool := String.eqb (text (m_host u)) "exit".

(** The first lookup is [at], which throws when there is no connection. *)
Definition rotateConnect (p : PoolManager) : option (outcome unit * PoolManager) :=
  if isConnected p then Some (Ok tt, p)
  else
    let p := wrap_active p in
    match connection p (m_activeConnectionIdx p) with
    | None => Some (Throw OutOfRange, p)
    | Some i =>
        u ← uris p !! i;
        let p := rotate_next (rotate_discard u p) in
        match connection p (m_activeConnectionIdx p) with
        | None => if size p =? 0 then Some (Ok tt, rotate_exit p) else Some (Throw OutOfRange, p)
        | Some j =>
            v ← uris p !! j;
            Some (Ok tt, if is_exit v then rotate_exit p else rotate_connect j v p)
        end
    end.

(** ** The timers *)

(** [ec]: the timer was cancelled. *)
Definition failovertimer_elapsed (ec : bool) (p : PoolManager) : option PoolManager :=
  if ec then Some p
  else
    let p := set_failovertimer p false in
    if m_running p && negb (m_activeConnectionIdx p =? 0) then
      let p := switched (set_attempt (set_active p 0) 0) in
      _ ← p_client p; Some (call p CallDisconnect)
    else Some p.

(** [(uint32_t)x]: undefined outside the range. *)
Definition float_to_u32 (x : float) : option Z :=
  match x with
  | S754_zero _ => Some 0
  | S754_finite false m e =>
      let v := if 0 <=? e then Z.shiftl (Z.pos m) e else Z.shiftr (Z.pos m) (- e) in
      if v <? 2 ^ 32 then Some v else None
  | S754_finite true m e =>
      let v := if 0 <=? e then Z.shiftl (Z.pos m) e else Z.shiftr (Z.pos m) (- e) in
      if v =? 0 then Some 0 else None
  | _ => None
  end.

Definition submithrtimer_elapsed (ec : bool) (p : PoolManager) : option PoolManager :=
  if ec then Some p
  else
    let p := set_submithrtimer p false in
    if m_running p then
      p ← (if isConnected p then
             rate ← float_to_u32 (ta_hashrate (telemetry_farm (farm p)));
             Some (call p (CallSubmitHashrate rate (hashRateId (m_Settings p))))
           else Some p);
      Some (set_submithrtimer p true)
    else Some p.

Definition reconnecttimer_elapsed (ec : bool) (p : PoolManager) : PoolManager :=
  if ec then p
  else
    let p := set_reconnecttimer p false in
    if m_running p then
    match p_client p with
    | Some c => if negb (c_connected c) then call p CallConnect else p
    | None => p
    end
  else p.

Definition getCurrentEpoch (p : PoolManager) : Z := epoch (m_currentWp p).

Definition getPoolDifficulty (p : PoolManager) : double :=
  if wp_bool (m_currentWp p) then difficulty (m_currentWp p) else S754_zero false.

(** ** The invariant *)

Record pool_ok (p : PoolManager) : Prop := {
  po_active : 0 <= m_activeConnectionIdx p < Z.max 1 (size p);
  po_small : size p < 2 ^ 32;
  po_conns : Forall (fun i => (i < length (uris p))%nat) (connections p);
  po_client : m_running p = true -> m_async_pending p = false -> is_Some (p_client p);
  po_farm : farm_ok (farm p)
}.

#[export] Hint Resolve po_active po_small po_conns po_client po_farm : pool.

Lemma size_nonneg p : 0 <= size p.
Proof. unfold size. lia. Qed.

(** Changes of the other members. *)
Lemma pool_ok_same p p' :
  pool_ok p -> m_activeConnectionIdx p' = m_activeConnectionIdx p -> connections p' = connections p ->
  length (uris p') = length (uris p) ->
  (m_running p' = true -> m_async_pending p' = false -> is_Some (p_client p')) ->
  farm_ok (farm p') -> pool_ok p'.
Proof.
  intros [H1 H2 H3 _ _] Ha Hc Hu Hcl Hf.
  split; unfold size in *; rewrite ?Ha, ?Hc, ?Hu; done.
Qed.

Lemma stop_farm_fields p :
  m_activeConnectionIdx (stop_farm p) = m_activeConnectionIdx p /\
  connections (stop_farm p) = connections p /\ uris (stop_farm p) = uris p /\
  p_client (stop_farm p) = p_client p /\ m_running (stop_farm p) = m_running p /\
  m_async_pending (stop_farm p) = m_async_pending p /\ m_Settings (stop_farm p) = m_Settings p /\
  (farm_ok (farm p) -> farm_ok (farm (stop_farm p))).
Proof. unfold stop_farm. destruct (m_isMining (farm p)); split_and!; try done. apply stop_ok. Qed.

Lemma size_erase p idx : 0 <= idx < size p -> size (erase p idx) = size p - 1.
Proof.
  unfold size, erase. cbn [connections set_connections]. intros Hi.
  rewrite length_delete by (apply lookup_lt_is_Some_2; lia). lia.
Qed.

Lemma erase_conns p idx :
  Forall (fun i => (i < length (uris p))%nat) (connections p) ->
  Forall (fun i => (i < length (uris (erase p idx)))%nat) (connections (erase p idx)).
Proof. unfold erase. cbn [uris connections set_connections]. apply Forall_delete. Qed.

(** The connection that is active stays the same when another is removed. *)
Lemma removeConnection_ok idx p :
  pool_ok p -> 0 <= idx ->
  pool_ok (removeConnection idx p).2 /\
  (is_ok (removeConnection idx p).1 = true <->
     m_async_pending p = false /\ idx < size p /\ idx <> m_activeConnectionIdx p) /\
  getActiveConnection (removeConnection idx p).2 = getActiveConnection p /\
  (is_ok (removeConnection idx p).1 = true ->
     connections (removeConnection idx p).2 = delete (Z.to_nat idx) (connections p)).
Proof.
  intros Hp Hidx. unfold removeConnection.
  destruct (m_async_pending p) eqn:Hpend; [by split_and!; [|split; [|intros (? & _)]| |]|].
  destruct (Z.leb_spec (size p) idx); [split_and!; [done|split; [done|lia]|done|done]|].
  destruct (Z.eqb_spec idx (m_activeConnectionIdx p)); [split_and!; [done|split; [done|lia]|done|done]|].
  pose proof (po_active p Hp) as Ha. pose proof (size_erase p idx ltac:(lia)) as Hs.
  cbn [fst snd is_ok]. change (m_activeConnectionIdx (erase p idx)) with (m_activeConnectionIdx p).
  destruct (Z.ltb_spec idx (m_activeConnectionIdx p)) as [Hlt|Hge].
  - split_and!; [|split; [lia|done]| |done].
    + destruct Hp as [_ Hsm Hc Hcl Hf]. split; try done.
      * change (size (set_active (erase p idx) _)) with (size (erase p idx)).
        cbn [m_activeConnectionIdx set_active]. lia.
      * change (size (set_active (erase p idx) _)) with (size (erase p idx)). lia.
      * by apply erase_conns.
    + unfold getActiveConnection, connection, erase. cbn [connections set_connections
        m_activeConnectionIdx set_active]. unfold array_get.
      destruct (Z.leb_spec 0 (m_activeConnectionIdx p - 1)), (Z.leb_spec 0 (m_activeConnectionIdx p)); try lia.
      rewrite list_lookup_delete_ge by lia. f_equal. lia.
  - split_and!; [|split; [lia|done]| |done].
    + destruct Hp as [_ Hsm Hc Hcl Hf]. split; try done; [|lia|by apply erase_conns].
      change (m_activeConnectionIdx (erase p idx)) with (m_activeConnectionIdx p). lia.
    + unfold getActiveConnection, connection, erase. cbn [connections set_connections
        m_activeConnectionIdx]. unfold array_get.
      destruct (Z.leb_spec 0 (m_activeConnectionIdx p)); try lia.
      rewrite list_lookup_delete_lt by lia. done.
Qed.

(** An index that is brought back into range. *)
Lemma wrap_active_ok p :
  0 <= m_activeConnectionIdx p -> size p < 2 ^ 32 ->
  Forall (fun i => (i < length (uris p))%nat) (connections p) ->
  (m_running p = true -> m_async_pending p = false -> is_Some (p_client p)) -> farm_ok (farm p) ->
  pool_ok (wrap_active p).
Proof.
  intros Ha Hs Hc Hcl Hf. unfold wrap_active. pose proof (size_nonneg p).
  destruct (Z.leb_spec (size p) (m_activeConnectionIdx p)).
  - split; try done. change (size (set_active p 0)) with (size p). cbn [m_activeConnectionIdx set_active]. lia.
  - split; try done. lia.
Qed.

Lemma connection_size p i : connection p (m_activeConnectionIdx p) = Some i -> 0 <= m_activeConnectionIdx p < size p.
Proof.
  unfold connection, array_get, size. destruct (Z.leb_spec 0 (m_activeConnectionIdx p)); [|done].
  intros Hl%lookup_lt_Some. lia.
Qed.

Lemma connection_some p :
  pool_ok p -> 0 < size p ->
  exists i u, connection p (m_activeConnectionIdx p) = Some i /\ connections p !! Z.to_nat (m_activeConnectionIdx p) = Some i /\
    uris p !! i = Some u.
Proof.
  intros Hp Hs. pose proof (po_active p Hp) as Ha.
  destruct (lookup_lt_is_Some_2 (connections p) (Z.to_nat (m_activeConnectionIdx p))) as [i Hi];
    [unfold size in *; lia|].
  pose proof (Forall_lookup_1 _ _ _ _ (po_conns p Hp) Hi) as Hlt. cbn beta in Hlt.
  destruct (lookup_lt_is_Some_2 (uris p) i Hlt) as [u Hu]. exists i, u. split_and!; try done.
  unfold connection, array_get. destruct (Z.leb_spec 0 (m_activeConnectionIdx p)); [done|lia].
Qed.

Lemma connection_none p : size p = 0 -> connection p (m_activeConnectionIdx p) = None.
Proof.
  unfold size, connection, array_get. intros Hs. destruct (connections p); [|done].
  destruct (0 <=? _); [|done]. apply lookup_nil.
Qed.

Lemma rotate_discard_ok u p : pool_ok p -> 0 < size p -> pool_ok (rotate_discard u p).
Proof.
  intros Hp Hs. pose proof (po_active p Hp) as Ha. pose proof (po_small p Hp) as Hsm.
  unfold rotate_discard. destruct (m_unrecoverable u).
  - assert (H : pool_ok (wrap_active (set_attempt (erase p (m_activeConnectionIdx p)) 0))).
    { apply wrap_active_ok; try apply Hp.
      - change (size (set_attempt (erase p _) 0)) with (size (erase p (m_activeConnectionIdx p))).
        rewrite size_erase by lia. lia.
      - apply (erase_conns p), Hp. }
    by apply (pool_ok_same _ _ H); try apply H.
  - destruct (Z.eqb_spec (size p) 1) as [H1|]; [|done]. destruct (exhausted p); [|done].
    split; try apply Hp.
    + rewrite size_erase by lia. change (m_activeConnectionIdx (erase p ?x)) with (m_activeConnectionIdx p). lia.
    + rewrite size_erase by lia. lia.
    + apply erase_conns, Hp.
Qed.

Lemma rotate_next_ok p : pool_ok p -> pool_ok (rotate_next p).
Proof.
  intros Hp. unfold rotate_next. destruct (negb (size p =? 0) && exhausted p); [|done].
  assert (H : pool_ok (wrap_active (set_active (set_attempt p 0) (u32 (m_activeConnectionIdx p + 1))))).
  { apply wrap_active_ok; try apply Hp. apply (wrap_in_word 32). lia. }
  by apply (pool_ok_same _ _ H); try apply H.
Qed.

Lemma rotate_connect_ok i u p : pool_ok p -> pool_ok (rotate_connect i u p).
Proof.
  intros Hp. unfold rotate_connect. destruct ((1 <? _) && _);
    (apply (pool_ok_same p); [done|done|done|cbn; apply length_insert| |apply Hp]); by intros _ _; eexists.
Qed.

Lemma rotate_exit_ok p : pool_ok p -> pool_ok (rotate_exit p).
Proof.
  intros Hp. destruct (stop_farm_fields p) as (H1 & H2 & H3 & H4 & H5 & H6 & _ & H7).
  apply (pool_ok_same p); [done|done|done|by cbn; rewrite H3|done|by apply H7, Hp].
Qed.

(** [rotateConnect] is defined; it throws exactly when there is no connection
    at all. *)
Lemma rotateConnect_ok p :
  pool_ok p ->
  exists o p', rotateConnect p = Some (o, p') /\ pool_ok p' /\
    (o = Ok tt \/ o = Throw OutOfRange /\ connections p = []).
Proof.
  intros Hp. unfold rotateConnect. destruct (isConnected p); [eauto 6|].
  pose proof (wrap_active_ok p) as Hw. specialize (Hw (proj1 (po_active p Hp)) (po_small p Hp) (po_conns p Hp)
    (po_client p Hp) (po_farm p Hp)).
  assert (Hsz : size (wrap_active p) = size p /\ connections (wrap_active p) = connections p).
  { unfold wrap_active. by destruct (_ <=? _). }
  destruct Hsz as [Hsz Hcs]. set (q := wrap_active p) in *. pose proof (size_nonneg p).
  destruct (Z.eq_dec (size p) 0) as [H0|H0].
  - rewrite (connection_none q) by lia. eexists _, _. split; [done|]. split; [done|]. right. split; [done|].
    unfold size in H0. by destruct (connections p).
  - destruct (connection_some q Hw ltac:(lia)) as (i & u & -> & _ & ->). cbn [mbind option_bind].
    pose proof (rotate_next_ok _ (rotate_discard_ok u q Hw ltac:(lia))) as Hr.
    set (r := rotate_next (rotate_discard u q)) in *. pose proof (size_nonneg r).
    destruct (Z.eq_dec (size r) 0) as [Hr0|Hr0].
    + rewrite (connection_none r) by lia. rewrite Hr0. cbn. eexists _, _. split; [done|].
      split; [by apply rotate_exit_ok|by left].
    + destruct (connection_some r Hr ltac:(lia)) as (j & v & -> & _ & ->). cbn [mbind option_bind].
      eexists _, _. split; [done|]. split; [|by left].
      destruct (is_exit v); [by apply rotate_exit_ok|by apply rotate_connect_ok].
Qed.

(** What happens to a manager: calls of its methods, its timers and handlers,
    and in between the farm and the definitions of the connections change. *)
Inductive pool_step {host : Host} (p : PoolManager) : PoolManager -> Prop :=
  | ps_start : pool_step p (pool_start p)
  | ps_stop : pool_step p (pool_stop p).1
  | ps_finish : m_running p = false -> pool_step p (pool_stop_finish p)
  | ps_add u : size p + 1 < 2 ^ 32 -> pool_step p (addConnection u p).2
  | ps_remove idx : in_word 32 idx -> pool_step p (removeConnection idx p).2
  | ps_active idx o p' : in_word 32 idx -> setActiveConnection idx p = Some (o, p') -> pool_step p p'
  | ps_active_str s o p' : setActiveConnection_str s p = Some (o, p') -> pool_step p p'
  | ps_rotate o p' : rotateConnect (set_posted p (pred (posted p))) = Some (o, p') -> pool_step p p'
  | ps_connected e c : p_client p = Some c ->
      pool_step p (onConnected e (set_client p (Some (mk_PoolClient (c_family c) true (c_conn c)))))
  | ps_disconnected c p' : p_client p = Some c ->
      onDisconnected (set_client p (Some (mk_PoolClient (c_family c) false (c_conn c)))) = Some p' ->
      pool_step p p'
  | ps_work e wp p' : onWorkReceived e wp p = Some p' -> pool_step p p'
  | ps_accepted e i : pool_step p (onSolutionAccepted e i p).2
  | ps_rejected e i : pool_step p (onSolutionRejected e i p).2
  | ps_solution s : pool_step p (onSolutionFound s p)
  | ps_restart e : pool_step p (onMinerRestart e p)
  | ps_failover ec p' : failovertimer_elapsed ec p = Some p' -> pool_step p p'
  | ps_hashrate ec p' : submithrtimer_elapsed ec p = Some p' -> pool_step p p'
  | ps_reconnect ec : pool_step p (reconnecttimer_elapsed ec p)
  | ps_uri i u : pool_step p (set_uris p (<[i := u]> (uris p)))
  | ps_farm f : farm_step (farm p) f -> pool_step p (set_farm p f).

Lemma stop_farm_ok p : pool_ok p -> pool_ok (stop_farm p).
Proof.
  intros Hp. destruct (stop_farm_fields p) as (H1 & H2 & H3 & H4 & H5 & H6 & _ & H7).
  apply (pool_ok_same p); rewrite ?H3, ?H4, ?H5, ?H6; try done; [apply Hp|apply H7, Hp].
Qed.

Lemma start_farm_ok e p : pool_ok p -> pool_ok (start_farm e p).
Proof. intros Hp. apply (pool_ok_same p); try done; [apply Hp|apply start_ok, Hp]. Qed.

Lemma setActiveCommon_ok idx p o p' :
  pool_ok p -> 0 <= idx < size p -> setActiveConnectionCommon idx p = Some (o, p') -> pool_ok p'.
Proof.
  intros Hp Hi. unfold setActiveConnectionCommon. destruct (m_async_pending p) eqn:Hpend.
  { intros H. by simplify_eq. }
  destruct (negb _); cbn [p_client set_attempt set_active set_switches set_pending].
  - destruct (p_client p); [|done]. intros H. cbn in H. simplify_eq. destruct Hp as [H1 H2 H3 H4 H5].
    split; cbn; try done. unfold size in *. cbn. lia.
  - intros H. simplify_eq. apply (pool_ok_same p); try done; [|apply Hp].
    intros Hr _. by apply (po_client p Hp).
Qed.

Lemma find_connection_bound defs conns s k idx :
  find_connection defs conns s k = Some (Some idx) -> k <= idx < k + Z.of_nat (length conns).
Proof.
  revert k. induction conns as [|i conns IH]; intros k H; [done|]. cbn [find_connection] in H.
  destruct (defs !! i); [|done]. cbn [mbind option_bind] in H. cbn [length].
  destruct (iequals _ s); [simplify_eq; lia|]. specialize (IH _ H). lia.
Qed.

Lemma onConnected_ok e p :
  pool_ok p -> is_Some (p_client p) -> pool_ok (onConnected e p).
Proof.
  intros Hp [c Hc]. pose proof (po_farm p Hp) as Hf. unfold onConnected.
  set (q := set_failovertimer _ _).
  assert (Hq : pool_ok q) by (apply (pool_ok_same p); try done; by intros _ _; eexists).
  assert (Hcq : p_client q = Some c) by done. clearbody q.
  set (r := if negb (m_isMining (farm q)) then _ else _).
  assert (Hr : pool_ok r /\ p_client r = Some c).
  { unfold r. destruct (negb _); [split; [by apply start_farm_ok|done]|].
    destruct (farm_paused _); [|done]. split; [|done].
    apply (pool_ok_same q); try done. apply (farm_step_ok _ _ (fs_resume _)), Hq. }
  destruct Hr as [Hr Hcr]. clearbody r. destruct (reportHashrate _);
    (split; try apply Hr; intros _ _; cbn; rewrite Hcr; by eexists).
Qed.

Lemma onDisconnected_ok p p' : pool_ok p -> onDisconnected p = Some p' -> pool_ok p'.
Proof.
  intros Hp. unfold onDisconnected. destruct (p_client p) as [c|]; [|done]. cbn [mbind option_bind].
  set (q := set_submithrtimer _ _).
  assert (Hq : pool_ok q) by (apply (pool_ok_same p); try done; apply Hp).
  destruct (m_stopping q); intros H; simplify_eq.
  - apply stop_farm_ok in Hq. apply (pool_ok_same _ _ Hq); try done. apply Hq.
  - apply (pool_ok_same q); try done. apply (farm_step_ok _ _ (fs_pause _)), Hq.
Qed.

Lemma onWorkReceived_ok {host : Host} e wp p p' : pool_ok p -> onWorkReceived e wp p = Some p' -> pool_ok p'.
Proof.
  intros Hp. unfold onWorkReceived. destruct (negb (wp_bool wp)); [by intros [= <-]|].
  destruct (is_newEpoch p wp) as [b|]; [|done]. cbn [mbind option_bind].
  destruct (take_work b wp p) as [q|] eqn:Hq; [|done]. cbn [mbind option_bind].
  assert (Hpq : pool_ok q /\ p_client q = p_client p).
  { unfold take_work in Hq. destruct b.
    - destruct (work_epoch wp _) as [[ep c]|]; [|done]. cbn [mbind option_bind] in Hq. injection Hq as <-.
      split; [|done]. apply (pool_ok_same p); try done; apply Hp.
    - injection Hq as <-. split; [|done]. apply (pool_ok_same p); try done; apply Hp. }
  destruct Hpq as [Hpq _].
  destruct (farm_setWork _ _ _) as [f|] eqn:Hf; [|done]. cbn [mbind option_bind]. intros [= <-].
  apply (pool_ok_same q); try done; [apply Hpq|].
  apply (farm_step_ok _ _ (fs_setWork _ _ _ _ Hf)), Hpq.
Qed.

Lemma set_posted_ok p k : pool_ok p -> pool_ok (set_posted p k).
Proof. intros Hp. apply (pool_ok_same p); try done; apply Hp. Qed.

Lemma set_client_ok p c : pool_ok p -> pool_ok (set_client p (Some c)).
Proof. intros Hp. apply (pool_ok_same p); try done; apply Hp. Qed.

Lemma call_ok p c : pool_ok p -> pool_ok (call p c).
Proof. intros Hp. apply (pool_ok_same p); try done; apply Hp. Qed.

Lemma account_ok p now i what :
  pool_ok p -> pool_ok (set_farm p (accountSolution now (farm p) i what).2).
Proof. intros Hp. apply (pool_ok_same p); try done; [apply Hp|apply accountSolution_ok, Hp]. Qed.

Lemma timers_ok p ec p' :
  pool_ok p -> failovertimer_elapsed ec p = Some p' \/ submithrtimer_elapsed ec p = Some p' -> pool_ok p'.
Proof.
  intros Hp [H|H].
  - unfold failovertimer_elapsed in H. destruct ec; [by simplify_eq|].
    destruct (_ && _).
    + cbn [p_client set_failovertimer switched set_attempt set_active set_switches] in H.
      destruct (p_client p) eqn:Hc; [|done]. cbn [mbind option_bind] in H. injection H as <-.
      destruct Hp as [H1 H2 H3 H4 H5]. split; cbn; try done. unfold size. cbn. lia.
    + injection H as <-. apply (pool_ok_same p); try done; apply Hp.
  - unfold submithrtimer_elapsed in H. destruct ec; [by simplify_eq|].
    destruct (m_running _); [|injection H as <-; apply (pool_ok_same p); try done; apply Hp].
    destruct (isConnected _); cbn [mbind option_bind] in H.
    + destruct (float_to_u32 _); [|done]. cbn [mbind option_bind] in H. injection H as <-.
      apply (pool_ok_same p); try done; apply Hp.
    + injection H as <-. apply (pool_ok_same p); try done; apply Hp.
Qed.

Lemma pool_step_ok {host : Host} p p' : pool_step p p' -> pool_ok p -> pool_ok p'.
Proof.
  intros Hs Hp. destruct Hs as [| |Hrun|u Hsz|idx Hi|idx o p' Hi H|s o p' H|o p' H|e c Hc|c p' Hc H|
    e wp p' H|e i|e i|s|e|ec p' H|ec p' H|ec|i u|f Hf].
  - apply (pool_ok_same p); try done; apply Hp.
  - unfold pool_stop. destruct (m_running p); [|done]. destruct (isConnected _); cbn [fst].
    + apply (pool_ok_same p); try done; apply Hp.
    + apply stop_farm_ok. apply (pool_ok_same p); try done; apply Hp.
  - apply (pool_ok_same p); try done; [cbn; congruence|apply Hp].
  - unfold addConnection. destruct u as [u|]; [|done]. destruct Hp as [H1 H2 H3 H4 H5].
    split; cbn; unfold size in *; cbn; rewrite ?length_app; simpl; try done; try lia.
    apply Forall_app. split; [|constructor; [lia|done]].
    apply (Forall_impl _ _ _ H3). intros; lia.
  - apply removeConnection_ok; [done|apply Hi].
  - unfold setActiveConnection in H. destruct (Z.leb_spec (size p) idx); [by simplify_eq|].
    apply (setActiveCommon_ok idx p o); [done|split; [apply Hi|done]|done].
  - unfold setActiveConnection_str in H. destruct (find_connection _ _ _ _) as [[idx|]|] eqn:Hf; [..|done].
    + apply (setActiveCommon_ok idx p o); [done| |done]. apply find_connection_bound in Hf. unfold size. lia.
    + cbn in H. by simplify_eq.
  - destruct (rotateConnect_ok _ (set_posted_ok p (pred (posted p)) Hp)) as (o' & q & Hr & Hq & _).
    rewrite Hr in H. by simplify_eq.
  - apply onConnected_ok; [by apply set_client_ok|by eexists].
  - by apply (onDisconnected_ok _ _ (set_client_ok p _ Hp) H).
  - by apply (onWorkReceived_ok _ _ _ _ Hp H).
  - unfold onSolutionAccepted. pose proof (account_ok p (e_now e) i Accepted Hp) as H.
    by destruct (accountSolution _ _ _ _).
  - unfold onSolutionRejected. pose proof (account_ok p (e_now e) i Rejected Hp) as H.
    by destruct (accountSolution _ _ _ _).
  - unfold onSolutionFound. destruct (isConnected p); [by apply call_ok|done].
  - by apply start_farm_ok, stop_farm_ok.
  - by apply (timers_ok p ec); [|left].
  - by apply (timers_ok p ec); [|right].
  - unfold reconnecttimer_elapsed. destruct ec; [done|].
    assert (Hq : pool_ok (set_reconnecttimer p false)) by (apply (pool_ok_same p); try done; apply Hp).
    destruct (m_running _); [|done]. destruct (p_client _) as [c|]; [|done].
    destruct (negb _); [by apply call_ok|done].
  - apply (pool_ok_same p); try done; [cbn; apply length_insert|apply Hp|apply Hp].
  - apply (pool_ok_same p); try done; [apply Hp|]. apply (farm_step_ok _ _ Hf), Hp.
Qed.

Lemma PoolManager_new_ok defs conns s f :
  Forall (fun i => (i < length defs)%nat) conns -> Z.of_nat (length conns) < 2 ^ 32 -> farm_ok f ->
  pool_ok (PoolManager_new defs conns s f).
Proof. intros Hc Hl Hf. split; cbn; try done. unfold size. cbn. lia. Qed.


Definition uri_example (host : string) : URI :=
  mk_URI (chars "stratum") [] [] [] [] [] (chars host) [] [] [] [] (chars "X") [] [] 999 4444 false
    false false HostDns None None.

Definition pool_settings_example : PoolSettings := mk_PoolSettings 500 180 2 0 false 60 "" 3 0 0.

Definition pool_example : PoolManager :=
  PoolManager_new [uri_example "one"; uri_example "two"] [0%nat; 1%nat] pool_settings_example
    (Farm_new 0 None None [] (settings_example "")).


(** ** The order of the rotation *)

Definition usable (u : URI) : Prop := m_unrecoverable u = false /\ is_exit u = false.

(** A manager that gets no connection from pools that are not unrecoverable. *)
Record rotating (p : PoolManager) : Prop := {
  rt_conns : Forall (fun i => exists u, uris p !! i = Some u /\ usable u) (connections p);
  rt_active : 0 <= m_activeConnectionIdx p < size p;
  rt_small : size p < 2 ^ 32;
  rt_off : isConnected p = false;
  rt_max : 0 < connectionMaxRetries (m_Settings p) < 2 ^ 32 - 1;
  rt_attempt : 0 <= m_connectionAttempt p <= connectionMaxRetries (m_Settings p)
}.

Lemma rotating_connection p :
  rotating p -> exists i u, connection p (m_activeConnectionIdx p) = Some i /\ uris p !! i = Some u /\ usable u.
Proof.
  intros Hp. pose proof (rt_active p Hp) as Ha.
  destruct (lookup_lt_is_Some_2 (connections p) (Z.to_nat (m_activeConnectionIdx p))) as [i Hi];
    [unfold size in *; lia|].
  pose proof (Forall_lookup_1 _ _ _ _ (rt_conns p Hp) Hi) as (u & Hu & Hok). exists i, u. split_and!; try done.
  unfold connection, array_get. by destruct (Z.leb_spec 0 (m_activeConnectionIdx p)); [|lia].
Qed.

Lemma exhausted_spec p :
  rotating p -> exhausted p = (m_connectionAttempt p =? connectionMaxRetries (m_Settings p)).
Proof.
  intros Hp. pose proof (rt_max p Hp). pose proof (rt_attempt p Hp). unfold exhausted.
  rewrite (proj2 (Z.eqb_neq _ 0)) by lia. cbn [negb andb].
  destruct (Z.leb_spec (connectionMaxRetries (m_Settings p)) (m_connectionAttempt p)),
    (Z.eqb_spec (m_connectionAttempt p) (connectionMaxRetries (m_Settings p))); (done || lia).
Qed.

(** Advancing to the next connection. *)
Lemma rotate_next_spec p :
  rotating p -> rotating (rotate_next p) /\ connections (rotate_next p) = connections p /\
  m_Settings (rotate_next p) = m_Settings p /\ p_client (rotate_next p) = p_client p /\
  uris (rotate_next p) = uris p /\
  m_activeConnectionIdx (rotate_next p) =
    (if exhausted p then (m_activeConnectionIdx p + 1) mod size p else m_activeConnectionIdx p) /\
  m_connectionAttempt (rotate_next p) = (if exhausted p then 0 else m_connectionAttempt p) /\
  m_connectionAttempt (rotate_next p) < connectionMaxRetries (m_Settings p).
Proof.
  intros Hp. pose proof (exhausted_spec p Hp) as He. destruct Hp as [H1 H2 H3 H4 H5 H6].
  unfold rotate_next. rewrite (proj2 (Z.eqb_neq (size p) 0)) by lia. cbn [negb andb].
  destruct (exhausted p); symmetry in He; [apply Z.eqb_eq in He|apply Z.eqb_neq in He].
  - set (q := set_active (set_attempt p 0) _).
    assert (Hi : m_activeConnectionIdx (wrap_active q) = (m_activeConnectionIdx p + 1) mod size p).
    { unfold wrap_active, q. cbn [m_activeConnectionIdx set_active set_attempt].
      change (size (set_active _ _)) with (size p). rewrite wrap_id by (unfold in_word; lia).
      destruct (Z.leb_spec (size p) (m_activeConnectionIdx p + 1)); cbn.
      - replace (m_activeConnectionIdx p + 1) with (size p) by lia. by rewrite Z.mod_same by lia.
      - by rewrite Z.mod_small by lia. }
    assert (Hf : connections (wrap_active q) = connections p /\ uris (wrap_active q) = uris p /\
      p_client (wrap_active q) = p_client p /\ m_Settings (wrap_active q) = m_Settings p /\
      m_connectionAttempt (wrap_active q) = 0) by (unfold wrap_active; by destruct (_ <=? _)).
    destruct Hf as (F1 & F2 & F3 & F4 & F5). clearbody q.
    assert (Hm : 0 <= (m_activeConnectionIdx p + 1) mod size p < size p) by (apply Z.mod_pos_bound; lia).
    split; [|by split_and!; cbn; try done; rewrite ?F5; lia].
    split; unfold switched, size, isConnected; cbn; rewrite ?F1, ?F2, ?F3, ?F4, ?F5, ?Hi; try done; lia.
  - split_and!; try done. lia.
Qed.

Lemma usable_responds u b : usable u -> usable (set_Responds u b).
Proof. done. Qed.

Lemma rotate_connect_spec j v p :
  rotating p -> uris p !! j = Some v -> usable v ->
  m_connectionAttempt p < connectionMaxRetries (m_Settings p) ->
  let p' := rotate_connect j v p in
  rotating p' /\ connections p' = connections p /\ m_Settings p' = m_Settings p /\
  m_activeConnectionIdx p' = m_activeConnectionIdx p /\
  m_connectionAttempt p' = m_connectionAttempt p + 1 /\
  p_client p' = Some (mk_PoolClient (Family v) false (Some j)) /\
  (delayBeforeRetry (m_Settings p) = 0 -> calls p' = calls p ++ [CallConnect]).
Proof.
  intros [H1 H2 H3 H4 H5 H6] Hv Hok Hlt. cbv zeta. unfold rotate_connect.
  assert (Hw : u32 (m_connectionAttempt p + 1) = m_connectionAttempt p + 1)
    by (apply wrap_id; unfold in_word; lia).
  assert (Hc : Forall (fun i => exists u, <[j := set_Responds v false]> (uris p) !! i = Some u /\ usable u)
    (connections p)).
  { apply (Forall_impl _ _ _ H1). intros i (u & Hu & Hus). destruct (decide (i = j)) as [->|Hne].
    - eexists. split; [apply list_lookup_insert_eq; by eapply lookup_lt_Some|done].
    - exists u. by rewrite list_lookup_insert_ne. }
  cbn [m_connectionAttempt set_uris set_client set_host set_attempt]. rewrite Hw.
  cbn [m_Settings set_uris set_client set_host set_attempt].
  destruct ((1 <? m_connectionAttempt p + 1) && (0 <? delayBeforeRetry (m_Settings p))) eqn:Hd;
    (split; [split; unfold size, isConnected; cbn; rewrite ?Hw; try done; lia|]);
    split_and!; cbn; rewrite ?Hw; try done.
  intros H0. rewrite H0, andb_false_r in Hd. done.
Qed.

(** One rotation of a list that is not down to a last, exhausted connection. *)
Lemma rotate_step p :
  rotating p -> 2 <= size p \/ exhausted p = false ->
  exists p', rotateConnect p = Some (Ok tt, p') /\ rotating p' /\ connections p' = connections p /\
    m_Settings p' = m_Settings p /\
    m_activeConnectionIdx p' =
      (if exhausted p then (m_activeConnectionIdx p + 1) mod size p else m_activeConnectionIdx p) /\
    m_connectionAttempt p' = (if exhausted p then 0 else m_connectionAttempt p) + 1 /\
    (exists c, p_client p' = Some c /\ c_conn c = getActiveConnection p').
Proof.
  intros Hp Hsz. pose proof (rt_active p Hp) as Ha. unfold rotateConnect. rewrite (rt_off p Hp).
  assert (Hw : wrap_active p = p).
  { unfold wrap_active. by destruct (Z.leb_spec (size p) (m_activeConnectionIdx p)); [lia|]. }
  rewrite Hw. destruct (rotating_connection p Hp) as (i & u & -> & -> & [Hu1 Hu2]). cbn [mbind option_bind].
  assert (Hd : rotate_discard u p = p).
  { unfold rotate_discard. rewrite Hu1. destruct (Z.eqb_spec (size p) 1); [|done].
    destruct Hsz as [Hsz| ->]; [lia|done]. }
  rewrite Hd. destruct (rotate_next_spec p Hp) as (Hn & Hc1 & Hs1 & _ & _ & Hi1 & Ha1 & Hlt).
  destruct (rotating_connection _ Hn) as (j & v & Hj & Hv & Hus). rewrite Hj, Hv. cbn [mbind option_bind].
  rewrite (proj2 Hus). rewrite <-Hs1 in Hlt.
  destruct (rotate_connect_spec j v _ Hn Hv Hus Hlt) as (H1 & H2 & H3 & H4 & H5 & H6 & _).
  eexists. split; [reflexivity|]. split; [done|]. split_and!; try congruence.
  eexists. split; [exact H6|]. unfold getActiveConnection, connection. by rewrite H2, H4.
Qed.

(** Rotating again and again, no pool answering. *)
Fixpoint rotate_n (k : nat) (p : PoolManager) : option (outcome unit * PoolManager) :=
  match k with
  | O => Some (Ok tt, p)
  | S k =>
      '(o, p) ← rotate_n k p;
      match o with Ok _ => rotateConnect p | Throw e => Some (Throw e, p) end
  end.

(** C23: When no pool answers, the pools of a list of two or more are tried in
    their order, each of them as often as the maximum of attempts says, round
    robin: after [k + 1] rotations the client is made for the pool [k / max]
    places after the first, in its [k mod max + 1]st attempt. *)
Theorem rotation_order (p : PoolManager) (k : nat) :
  rotating p -> m_connectionAttempt p = 0 -> 2 <= size p ->
  let max := connectionMaxRetries (m_Settings p) in
  exists p', rotate_n (S k) p = Some (Ok tt, p') /\ connections p' = connections p /\
    m_activeConnectionIdx p' = (m_activeConnectionIdx p + Z.of_nat k / max) mod size p /\
    m_connectionAttempt p' = Z.of_nat k mod max + 1 /\
    exists c, p_client p' = Some c /\ c_conn c = getActiveConnection p'.
Proof.
  intros Hp H0 Hsz max. pose proof (rt_max p Hp) as Hmax. pose proof (rt_active p Hp) as Ha. fold max in Hmax.
  cut (exists p', rotate_n (S k) p = Some (Ok tt, p') /\ rotating p' /\ connections p' = connections p /\
    m_Settings p' = m_Settings p /\
    m_activeConnectionIdx p' = (m_activeConnectionIdx p + Z.of_nat k / max) mod size p /\
    m_connectionAttempt p' = Z.of_nat k mod max + 1 /\
    exists c, p_client p' = Some c /\ c_conn c = getActiveConnection p').
  { intros (p' & H1 & _ & H2 & _ & H3). eauto. }
  induction k as [|k IH].
  - destruct (rotate_step p Hp (or_introl Hsz)) as (p' & H1 & H2 & H3 & H4 & H5 & H6 & H7).
    assert (He : exhausted p = false) by (rewrite exhausted_spec by done; apply Z.eqb_neq; lia).
    rewrite He in H5, H6. exists p'. cbn [rotate_n mbind option_bind]. split_and!; try done.
    + rewrite H5, Z.div_0_l, Z.add_0_r, Z.mod_small by lia. done.
    + rewrite H6, H0, Z.mod_0_l by lia. done.
  - destruct IH as (q & Hq & Hrq & Hcq & Hsq & Hiq & Haq & _).
    assert (Hszq : size q = size p) by (unfold size; by rewrite Hcq).
    destruct (rotate_step q Hrq ltac:(left; lia)) as (p' & H1 & H2 & H3 & H4 & H5 & H6 & H7).
    assert (Hn : rotate_n (S (S k)) p = Some (Ok tt, p')).
    { change (rotate_n (S (S k)) p) with
        ('(o, p) ← rotate_n (S k) p; match o with Ok _ => rotateConnect p | Throw e => Some (Throw e, p) end).
      by rewrite Hq. }
    exists p'. split; [exact Hn|]. split; [done|]. split; [congruence|]. split; [congruence|].
    rewrite exhausted_spec, Hsq in H5, H6 by done. fold max in H5, H6. rewrite Haq, Hiq, Hszq in *.
    pose proof (Z.mod_pos_bound (Z.of_nat k) max ltac:(lia)) as Hb.
    pose proof (Z.div_mod (Z.of_nat k) max ltac:(lia)) as Hdm.
    replace (Z.of_nat (S k)) with (Z.of_nat k + 1) by lia.
    destruct (Z.eqb_spec (Z.of_nat k mod max + 1) max) as [Hlast|Hnot].
    + assert (Hdiv : (Z.of_nat k + 1) / max = Z.of_nat k / max + 1)
        by (symmetry; apply (Z.div_unique _ _ _ 0); lia).
      assert (Hmod : (Z.of_nat k + 1) mod max = 0)
        by (symmetry; apply (Z.mod_unique _ _ (Z.of_nat k / max + 1)); lia).
      rewrite Hdiv, Hmod. split_and!; [|lia|done].
      rewrite H5, Zplus_mod_idemp_l. f_equal. lia.
    + assert (Hdiv : (Z.of_nat k + 1) / max = Z.of_nat k / max)
        by (symmetry; apply (Z.div_unique _ _ _ (Z.of_nat k mod max + 1)); lia).
      assert (Hmod : (Z.of_nat k + 1) mod max = Z.of_nat k mod max + 1)
        by (symmetry; apply (Z.mod_unique _ _ (Z.of_nat k / max)); lia).
      rewrite Hdiv, Hmod. split_and!; [done|lia|done].
Qed.

Lemma pool_example_rotating : rotating pool_example.
Proof.
  split; try (vm_compute; intuition congruence).
  constructor; [|constructor; [|constructor]]; eexists; (split; [reflexivity|split; vm_compute; reflexivity]).
Qed.

(** The fifth rotation makes the second attempt of the second pool. *)
Lemma rotation_order_witness :
  exists p', rotate_n 5 pool_example = Some (Ok tt, p') /\ m_activeConnectionIdx p' = 1 /\
    m_connectionAttempt p' = 2.
Proof.
  destruct (rotation_order pool_example 4 pool_example_rotating eq_refl) as (p' & H1 & _ & H2 & H3 & _).
  - vm_compute. discriminate.
  - exists p'. split; [exact H1|]. split; [exact H2|exact H3].
Defined.

(** A manager whose only pool never answers stops after as many attempts as
    the settings allow: the next rotation drops the pool, stops the miners and
    ends the program. *)
Theorem single_pool_gives_up (p : PoolManager) :
  rotating p -> m_connectionAttempt p = 0 -> size p = 1 ->
  exists p', rotate_n (S (Z.to_nat (connectionMaxRetries (m_Settings p)))) p = Some (Ok tt, p') /\
    connections p' = [] /\ m_running p' = false /\ m_isMining (farm p') = false /\
    last (calls p') = Some CallSigterm.
Proof.
  intros Hp H0 Hs. pose proof (rt_max p Hp) as Hmax. set (max := connectionMaxRetries (m_Settings p)) in *.
  assert (Hk : forall k, (k <= Z.to_nat max)%nat -> exists q, rotate_n k p = Some (Ok tt, q) /\ rotating q /\
    connections q = connections p /\ m_Settings q = m_Settings p /\ m_connectionAttempt q = Z.of_nat k).
  { induction k as [|k IH]; intros Hk; [by exists p|].
    destruct (IH ltac:(lia)) as (q & Hq & Hrq & Hcq & Hsq & Haq).
    assert (He : exhausted q = false)
      by (rewrite exhausted_spec, Hsq by done; apply Z.eqb_neq; fold max; lia).
    destruct (rotate_step q Hrq (or_intror He)) as (p' & H1 & H2 & H3 & H4 & _ & H6 & _).
    rewrite He in H6. exists p'. cbn [rotate_n]. rewrite Hq. cbn [mbind option_bind].
    split_and!; [done|done|congruence|congruence|lia]. }
  destruct (Hk (Z.to_nat max) ltac:(lia)) as (q & Hq & Hrq & Hcq & Hsq & Haq).
  change (rotate_n (S (Z.to_nat max)) p) with
    ('(o, p) ← rotate_n (Z.to_nat max) p;
     match o with Ok _ => rotateConnect p | Throw e => Some (Throw e, p) end).
  rewrite Hq. cbn [mbind option_bind]. pose proof (rt_active q Hrq) as Ha.
  assert (Hszq : size q = 1) by (unfold size in *; by rewrite Hcq).
  unfold rotateConnect. rewrite (rt_off q Hrq).
  assert (Hw : wrap_active q = q).
  { unfold wrap_active. by destruct (Z.leb_spec (size q) (m_activeConnectionIdx q)); [lia|]. }
  rewrite Hw. destruct (rotating_connection q Hrq) as (i & u & -> & -> & [Hu1 Hu2]). cbn [mbind option_bind].
  assert (He : exhausted q = true) by (rewrite exhausted_spec, Hsq by done; apply Z.eqb_eq; fold max; lia).
  assert (Hd : rotate_discard u q = erase q (m_activeConnectionIdx q))
    by (unfold rotate_discard; by rewrite Hu1, Hszq, He).
  assert (Hes : size (erase q (m_activeConnectionIdx q)) = 0) by (rewrite size_erase by lia; lia).
  rewrite Hd. unfold rotate_next. rewrite Hes. cbn [negb andb Z.eqb].
  rewrite connection_none, Hes by done. cbn [Z.eqb]. eexists. split; [reflexivity|].
  unfold rotate_exit, stop_farm. set (r := erase q (m_activeConnectionIdx q)) in *.
  assert (Hr : connections r = []) by (unfold size in Hes; by destruct (connections r)).
  destruct (m_isMining (farm r)) eqn:Hm; cbn; rewrite last_snoc; split_and!; try done.
  change (farm r) with (farm q) in Hm. unfold stop. by rewrite Hm.
Qed.

Lemma single_pool_gives_up_witness :
  exists p', rotate_n 4 (set_connections pool_example [0%nat]) = Some (Ok tt, p') /\
    connections p' = [] /\ m_running p' = false.
Proof.
  destruct (single_pool_gives_up (set_connections pool_example [0%nat])) as (p' & H1 & H2 & H3 & _).
  - split; try (vm_compute; intuition congruence).
    constructor; [|constructor]. eexists. split; [reflexivity|split; vm_compute; reflexivity].
  - reflexivity.
  - reflexivity.
  - exists p'. split; [exact H1|]. split; [exact H2|exact H3].
Defined.

(** ** The epoch of the work *)

(** A package that begins a new epoch. *)
Lemma onWork_new {host : Host} e wp p ep c f :
  wp_bool wp = true -> is_newEpoch p wp = Some true -> work_epoch wp (search_cache p) = Some (ep, c) ->
  farm_setWork (farm p) (set_epoch wp ep) (e_rnd e) = Some f ->
  exists p', onWorkReceived e wp p = Some p' /\ farm p' = f /\ m_currentWp p' = set_epoch wp ep /\
    search_cache p' = c /\ m_epochChanges p' = u32 (m_epochChanges p + 1).
Proof.
  intros Hwp Hnew Hep Hf. unfold onWorkReceived, take_work. rewrite Hwp, Hnew. cbn [negb mbind option_bind].
  cbn [search_cache set_pool_wp]. rewrite Hep. cbn [mbind option_bind]. cbn. rewrite Hf.
  cbn [mbind option_bind]. by eexists.
Qed.

(** A package that continues the current epoch. *)
Lemma onWork_same {host : Host} e wp p f :
  wp_bool wp = true -> is_newEpoch p wp = Some false ->
  farm_setWork (farm p) (set_epoch wp (epoch (m_currentWp p))) (e_rnd e) = Some f ->
  exists p', onWorkReceived e wp p = Some p' /\ farm p' = f /\
    m_currentWp p' = set_epoch wp (epoch (m_currentWp p)) /\
    search_cache p' = search_cache p /\ m_epochChanges p' = m_epochChanges p.
Proof.
  intros Hwp Hnew Hf. unfold onWorkReceived, take_work. rewrite Hwp, Hnew. cbn [negb mbind option_bind].
  cbn. rewrite Hf. cbn [mbind option_bind]. by eexists.
Qed.

#[local] Opaque ethash_calculate_epoch_seed epoch_seed find_epoch_number.


(** A pool in stratum mode 0 with a farm of three miners, and work of epoch 2. *)
Definition working_example : PoolManager :=
  set_farm (set_client (set_uris pool_example [SetStratumMode (uri_example "one") 0 true])
    (Some (mk_PoolClient STRATUM true (Some 0%nat)))) (farm_example "ab").

Definition work_example : WorkPackage :=
  mk_WorkPackage "job" (replicate 32 255) (1 :: replicate 31 0)
    (@ethash_calculate_epoch_seed plain_host 2) (-1) (-1) 0 0 (S754_zero false).

