(* ===== verification/Json.v ===== *)
(** * JSON values

    The interface of the JSON library the sources use (jsoncpp) as a class of
    operations, and what its documentation says about them as a class of laws.
    Code that reads or builds JSON is written against the operations and proved
    against the laws; [json] is a value type that satisfies them. *)

From Stdlib Require Import ZArith Lia Bool Floats.SpecFloat.
From stdpp Require Import base numbers list gmap strings.
From S2P Require Import Prelude Outcome Floats.

Local Open Scope Z_scope.

(** ** The operations *)

(** [isMember], [member] (the subscript with a name, read) and [put] (assignment
    through it) throw on a value that is neither an object nor null. *)
Class JsonLib := {
  Value : Type;
  nullValue : Value;
  arrayValue : Value;
  json_bool : bool -> Value;
  json_int : Z -> Value;
  json_uint : Z -> Value;
  json_double : double -> Value;
  json_string : string -> Value;
  isBool : Value -> bool;
  isUInt : Value -> bool;
  isString : Value -> bool;
  isObject : Value -> bool;
  json_empty : Value -> bool;
  asBool : Value -> bool;
  asUInt : Value -> Z;
  asString : Value -> string;
  isMember : Value -> string -> outcome bool;
  member : Value -> string -> outcome Value;
  put : Value -> string -> Value -> outcome Value;
  append : Value -> Value -> Value
}.

(** More of the interface, for code that reads what it did not ask for.
    [element] is an array's element if it has it, [elements] and [named] what an
    iteration meets; the conversions throw where there is none. *)
Class JsonRead (lib : JsonLib) := {
  isNull : Value -> bool;
  isArray : Value -> bool;
  isConvertibleToString : Value -> bool;
  isConvertibleToArray : Value -> bool;
  isConvertibleToObject : Value -> bool;
  json_size : Value -> Z;
  element : Value -> Z -> option Value;
  elements : Value -> list Value;
  named : Value -> list (string * Value);
  toUInt : Value -> outcome Z;
  toDouble : Value -> outcome double;
  isConvertibleToBool : Value -> bool;
  toBool : Value -> outcome bool;
  toString : Value -> outcome string
}.

(** [v.get(k, d)]. *)
Definition json_get {lib : JsonLib} (v : Value) (k : string) (d : Value) : outcome Value :=
  found ← isMember v k; if (found : bool) then member v k else Ok d.

(** ** The laws *)

(** [members] is the object a value is, null being an empty one. *)
Class JsonLaws (lib : JsonLib) := {
  members : Value -> option (gmap string Value);
  members_null : members nullValue = Some ∅;
  members_object v : isObject v = true -> is_Some (members v);
  isMember_spec v k :
    isMember v k = match members v with
                   | Some o => Ok (bool_decide (is_Some (o !! k)))
                   | None => Throw JsonError
                   end;
  member_spec v k :
    member v k = match members v with
                 | Some o => Ok (default nullValue (o !! k))
                 | None => Throw JsonError
                 end;
  put_spec v k x :
    match members v with
    | Some o => exists v', put v k x = Ok v' /\ members v' = Some (<[k := x]> o)
    | None => put v k x = Throw JsonError
    end;
  empty_spec v :
    isBool v = true \/ isUInt v = true \/ isString v = true -> json_empty v = false;
  uint_range v : isUInt v = true -> in_word 32 (asUInt v);
  string_spec s : isString (json_string s) = true /\ asString (json_string s) = s;
  bool_spec b : isBool (json_bool b) = true /\ asBool (json_bool b) = b;
  uint_spec n : in_word 32 n -> isUInt (json_uint n) = true /\ asUInt (json_uint n) = n
}.

(** ** A value type *)

Inductive json :=
  | JNull
  | JBool (b : bool)
  | JInt (z : Z)
  | JReal (d : double)
  | JString (s : string)
  | JArray (l : list json)
  | JObject (l : list (string * json)).

Definition json_members (v : json) : option (gmap string json) :=
  match v with
  | JNull => Some ∅
  | JObject l => Some (list_to_map l)
  | _ => None
  end.

Definition json_small (z : Z) : bool := (0 <=? z) && (z <? 2 ^ 32).

#[local] Instance json_lib : JsonLib := {
  Value := json;
  nullValue := JNull;
  arrayValue := JArray [];
  json_bool := JBool;
  json_int := JInt;
  json_uint := JInt;
  json_double := JReal;
  json_string := JString;
  isBool v := match v with JBool _ => true | _ => false end;
  isUInt v := match v with JInt z => json_small z | _ => false end;
  isString v := match v with JString _ => true | _ => false end;
  isObject v := match v with JObject _ => true | _ => false end;
  json_empty v := match v with JNull | JArray [] | JObject [] => true | _ => false end;
  asBool v := match v with JBool b => b | _ => false end;
  asUInt v := match v with JInt z => z | _ => 0 end;
  asString v := match v with JString s => s | _ => "" end;
  isMember v k :=
    match json_members v with
    | Some o => Ok (bool_decide (is_Some (o !! k)))
    | None => Throw JsonError
    end;
  member v k :=
    match json_members v with
    | Some o => Ok (default JNull (o !! k))
    | None => Throw JsonError
    end;
  put v k x :=
    match v with
    | JNull => Ok (JObject [(k, x)])
    | JObject l => Ok (JObject ((k, x) :: l))
    | _ => Throw JsonError
    end;
  append v x :=
    match v with
    | JArray l => JArray (l ++ [x])
    | _ => JArray [x]
    end
}.

#[local] Instance json_read : JsonRead json_lib := {
  isNull v := match v with JNull => true | _ => false end;
  isArray v := match v with JArray _ => true | _ => false end;
  isConvertibleToString v := match v with JArray (_ :: _) | JObject (_ :: _) => false | _ => true end;
  isConvertibleToArray v := match v with JArray _ | JNull => true | _ => false end;
  isConvertibleToObject v := match v with JObject _ | JNull => true | _ => false end;
  json_size v := match v with JArray l => Z.of_nat (length l) | JObject l => Z.of_nat (length l) | _ => 0 end;
  element v i := match v with JArray l => array_get l i | _ => None end;
  elements v := match v with JArray l => l | JObject l => snd <$> l | _ => [] end;
  named v := match v with JObject l => l | _ => [] end;
  toUInt v :=
    match v with
    | JNull => Ok 0
    | JBool b => Ok (if b then 1 else 0)
    | JInt z => if json_small z then Ok z else Throw JsonError
    | _ => Throw JsonError
    end;
  toDouble v := match v with JInt z => Ok (double_of_Z z) | JReal d => Ok d | JNull => Ok (S754_zero false) | _ => Throw JsonError end;
  isConvertibleToBool v := match v with JBool _ | JInt _ | JReal _ | JNull => true | _ => false end;
  toBool v :=
    match v with
    | JBool b => Ok b
    | JInt z => Ok (negb (z =? 0))
    | JReal d => Ok (match d with S754_zero _ | S754_nan => false | _ => true end)
    | JNull => Ok false
    | _ => Throw JsonError
    end;
  toString v := match v with JString s => Ok s | JNull => Ok ""%string | JBool b => Ok (if b then "true" else "false")%string | JInt z => Ok (Floats.to_string z) | _ => Throw JsonError end
}.

#[local] Instance json_laws : JsonLaws json_lib.
Proof.
  refine {| members := (json_members : @Value json_lib -> _) |}; try done.
  - intros [] H; first [discriminate H|by eexists].
  - intros [] k x; cbn; first [reflexivity|eexists; split; reflexivity].
  - intros [] [H|[H|H]]; first [discriminate H|reflexivity].
  - intros [] H; try discriminate H. apply andb_true_iff in H as [H1%Z.leb_le H2%Z.ltb_lt]. by split.
  - intros n [H1 H2]. cbn. unfold json_small. split; [|done].
    apply andb_true_iff. by rewrite Z.leb_le, Z.ltb_lt.
Defined.
