(* ===== verification/Lines.v ===== *)
(** * Lines of text

    What the API server and the stratum client share to cut the text they
    receive into lines. *)

From Stdlib Require Import ZArith Lia Bool Ascii.
From stdpp Require Import base numbers list strings.
From S2P Require Import Prelude CommonData Farm PoolURI.

Local Open Scope Z_scope.

Definition newline : ascii := "010"%char.

(** [boost::trim]. *)
Definition trim (l : list ascii) : list ascii :=
  rev (span isspace (rev (span isspace l).2)).2.

(** [m_message.find(linedelimiter)]: the text before the first line end and the
    text after it. *)
Definition cut_line (s : list ascii) : option (list ascii * list ascii) :=
  match span (fun x => negb (Ascii.eqb x newline)) s with
  | (_, []) => None
  | (line, _ :: rest) => Some (line, rest)
  end.

(** The complete lines of a text and what follows the last of them. *)
Fixpoint split_lines (s : list ascii) : list (list ascii) * list ascii :=
  match s with
  | [] => ([], [])
  | c :: s =>
      let '(ls, rest) := split_lines s in
      if Ascii.eqb c newline then ([] :: ls, rest)
      else match ls with
           | [] => ([], c :: rest)
           | l :: ls => ((c :: l) :: ls, rest)
           end
  end.

Lemma cut_line_split s :
  match cut_line s with
  | None => (split_lines s).1 = [] /\ (split_lines s).2 = s
  | Some (l, rest) => split_lines s = (l :: (split_lines rest).1, (split_lines rest).2) /\
      (length rest < length s)%nat
  end.
Proof.
  unfold cut_line. induction s as [|c s IH]; cbn [span split_lines]; [done|].
  destruct (split_lines s) as [ls r] eqn:E. destruct (Ascii.eqb c newline) eqn:Ec; cbn [negb].
  { rewrite E. cbn. split; [done|lia]. }
  destruct (span _ s) as [p [|x rest]].
  - destruct IH as [H1 H2]. cbn in *. by rewrite H1, H2.
  - destruct IH as [H1 H2]. injection H1 as -> ->. cbn. split; [done|lia].
Qed.

Lemma split_app s t :
  split_lines (s ++ t) =
  ((split_lines s).1 ++ (split_lines ((split_lines s).2 ++ t)).1, (split_lines ((split_lines s).2 ++ t)).2).
Proof.
  induction s as [|c s IH]; [cbn; by destruct (split_lines t)|].
  cbn [app split_lines]. rewrite IH. destruct (split_lines s) as [ls r]. cbn [fst snd].
  destruct (Ascii.eqb c newline) eqn:Ec; [done|]. destruct ls as [|l ls]; [|done].
  cbn [app split_lines fst snd]. rewrite Ec. destruct (split_lines (r ++ t)) as [[|l ls] r']; done.
Qed.
