(* ===== verification/Api.v ===== *)
(** * The API server ([libapi/ApiServer])

    Connections that send JSON requests or HTTP requests: reading the values of
    a request, authentication and write access, the methods, the text received
    from a socket cut into requests, and the sessions of the server.  Requests
    act on the pool manager and its farm.  [None] is undefined behaviour. *)

From Stdlib Require Import ZArith Lia Bool Ascii String Floats.SpecFloat.
From stdpp Require Import base numbers list gmap strings relations.
From S2P Require Import Prelude Words EthashSpec Ethash Outcome CommonData FixedHash Floats.
From S2P Require Import Miner Farm PoolURI PoolManager Json Lines.

Local Open Scope Z_scope.

(** ** State *)

(** The members of an [ApiConnection] that requests use. *)
Record ApiConnection := mk_ApiConnection {
  m_sessionId : Z;
  m_readonly : bool;
  ac_password : string;
  m_is_authenticated : bool
}.

(** Its members for the exchange of text: [m_message], whether the socket is
    open and a read is outstanding, and what was given to the socket, each with
    the wish to disconnect after it. *)
Record ApiSocket := mk_ApiSocket {
  m_message : list ascii;
  so_open : bool;
  so_reading : bool;
  so_sent : list (list ascii * bool)
}.

Definition ApiConnection_new (id : Z) (readonly : bool) (password : string) : ApiConnection :=
  mk_ApiConnection id readonly password (if String.eqb password "" then true else false).
Definition ApiSocket_new : ApiSocket := mk_ApiSocket [] true false [].

Definition set_authenticated (c : ApiConnection) (b : bool) : ApiConnection :=
  mk_ApiConnection (m_sessionId c) (m_readonly c) (ac_password c) b.
Definition set_message (so : ApiSocket) (s : list ascii) : ApiSocket :=
  mk_ApiSocket s (so_open so) (so_reading so) (so_sent so).
Definition set_reading (so : ApiSocket) (b : bool) : ApiSocket :=
  mk_ApiSocket (m_message so) (so_open so) b (so_sent so).
Definition set_open (so : ApiSocket) (b : bool) : ApiSocket :=
  mk_ApiSocket (m_message so) b (so_reading so) (so_sent so).
Definition set_sent (so : ApiSocket) (l : list (list ascii * bool)) : ApiSocket :=
  mk_ApiSocket (m_message so) (so_open so) (so_reading so) l.

(** What a request finds: the clock and the times kept by the telemetry, the
    names of the program and of the host, the reboot script, the text of a
    standard exception, the parser of IP addresses, and the descriptors of the
    miners' devices. *)
Inductive DeviceTypeEnum := DtUnknown | DtCpu | DtGpu | DtAccelerator.

Record DeviceInfo := mk_DeviceInfo {
  di_subscription : DeviceSubscriptionTypeEnum;
  di_uniqueId : string;
  di_type : DeviceTypeEnum;
  di_boardName : string;
  di_totalMemory : Z
}.

Record api_env := mk_api_env {
  ae_now : Z;
  ae_start : Z;
  ae_version : string;
  ae_hostname : option string;
  ae_reboot : FileProbe;
  ae_what : exn -> string;
  ae_ip : list ascii -> option (bool * bool);
  ae_device : Z -> DeviceInfo;
  ae_dev_build : bool
}.

(** [_ex.what()]. *)
Definition what (env : api_env) (e : exn) : string :=
  match e with
  | RuntimeError s | StdException s => s
  | _ => ae_what env e
  end.

Definition LOG_NEXT (env : api_env) : Z := if ae_dev_build env then 256 else 4.

(** ** Values that may throw or be undefined *)

Definition partial (A : Type) : Type := option (outcome A).
#[local] Instance partial_ret : MRet partial := fun A a => Some (Ok a).
#[local] Instance partial_bind : MBind partial := fun A B f m =>
  match m with
  | Some (Ok a) => f a
  | Some (Throw e) => Some (Throw e)
  | None => None
  end.

Definition lift {A} (o : outcome A) : partial A := Some o.
Definition defined {A} (o : option A) : partial A := Ok <$> o.

Section Requests.
Context {lib : JsonLib} (env : api_env).

(** [v[k1] = x1; v[k2] = x2; ...]. *)
Definition put_all (v : Value) (l : list (string * Value)) : outcome Value :=
  foldl (fun o '(k, x) => v ← o; put v k x) (Ok v) l.

Definition object (l : list (string * Value)) : outcome Value := put_all nullValue l.
Definition array (l : list Value) : Value := foldl append arrayValue l.

(** ** Statistics *)

(** [<< (((numGpus - 1) > gpuIndex) ? ";" : "")] after each item. *)
Definition joined (l : list string) : string :=
  foldr String.append ""%string
    (imap (fun i s => String.append s (if (S i <? length l)%nat then ";" else "")%string) l).

Definition kilo (x : float) : string := fixed_string 0 (fdiv x (float_of_Z 1000)).

Definition seconds (d : Z) : Z := Z.quot d 1000000000.

Definition getMinerStat1 (p : PoolManager) : partial Value :=
  let f := farm p in
  let tf := telemetry_farm f in
  let miners := telemetry_miners f in
  let runningTime := Z.quot (seconds (ae_now env - ae_start env)) 60 in
  connection ← defined (getActiveConnection p);
  u ← defined (uris p !! connection);
  let sol := ta_solutions tf in
  let totalMhEth := (kilo (ta_hashrate tf) ++ ";" ++ Floats.to_string (accepted sol) ++ ";" ++
    Floats.to_string (rejected sol))%string in
  let invalidStats := (Floats.to_string (failed sol) ++ ";0" ++ ";0;0")%string in
  let poolAddresses := (text (m_host u) ++ ":" ++ Floats.to_string (m_port u))%string in
  let detailedMhEth := joined ((fun t => kilo (ta_hashrate t)) <$> miners) in
  let detailedMhDcr := joined ((fun _ => "off"%string) <$> miners) in
  let tempAndFans := joined ((fun t => Floats.to_string (ta_tempC t) ++ ";" ++
    Floats.to_string (ta_fanP t))%string <$> miners) in
  let memTemps := joined ((fun t => Floats.to_string (ta_memtempC t)) <$> miners) in
  mret (foldl append nullValue (json_string <$>
    [ae_version env; Floats.to_string runningTime; totalMhEth; detailedMhEth; "0;0;0"%string; detailedMhDcr;
     tempAndFans; poolAddresses; invalidStats; memTemps])).

Definition pci_text (uniqueId : string) : string :=
  if String.eqb (text (take 5 (chars uniqueId))) "0000:" then text (drop 5 (chars uniqueId)) else uniqueId.

Definition type_text (t : DeviceTypeEnum) : string :=
  match t with
  | DtGpu => "GPU"
  | DtAccelerator => "ACCELERATOR"
  | _ => "CPU"
  end.

Definition mode_text (s : DeviceSubscriptionTypeEnum) : string :=
  match s with SubCuda => "CUDA" | _ => "OpenCL" end.

(** The solutions of an account with the seconds since the last one. *)
Definition shares_json (sol : SolutionAccountType) : Value :=
  array [json_uint (accepted sol); json_uint (rejected sol); json_uint (failed sol);
         json_uint (u64 (seconds (ae_now env - sa_tstamp sol)))].

Definition getMinerStatDetailPerMiner (f : Farm) (_miner : Miner) : partial Value :=
  let _index := m_index _miner in
  let d := ae_device env _index in
  name ← defined (getFormattedMemory (double_of_Z (di_totalMemory d)) true 2);
  t ← lift (match array_get (telemetry_miners f) _index with Some t => Ok t | None => Throw OutOfRange end);
  let sensors := array [json_int (ta_tempC t); json_uint (ta_fanP t); json_double (ta_powerW t);
                        json_int (ta_memtempC t)] in
  hashrate ← defined (float_to_u32 (ta_hashrate t));
  hwinfo ← lift (object
    [("pci"%string, json_string (pci_text (di_uniqueId d)));
     ("type"%string, json_string (type_text (di_type d)));
     ("name"%string, json_string (di_boardName d ++ " " ++ name));
     ("sensors"%string, sensors)]);
  mininginfo ← lift (object
    [("shares"%string, shares_json (ta_solutions t));
     ("paused"%string, json_bool (paused _miner));
     ("pause_reason"%string, if paused _miner then json_string (pausedString _miner) else nullValue);
     ("hashrate"%string, json_string (toHex32 hashrate Add 8))]);
  lift (object
    [("_index"%string, json_uint _index);
     ("_mode"%string, json_string (mode_text (di_subscription d)));
     ("hardware"%string, hwinfo);
     ("mining"%string, mininginfo)]).

(** The miners' entries, in order. *)
Fixpoint devices_json (f : Farm) (l : list Miner) (devices : Value) : partial Value :=
  match l with
  | [] => mret devices
  | miner :: l => d ← getMinerStatDetailPerMiner f miner; devices_json f l (append devices d)
  end.

Definition monitors_json (f : Farm) : outcome Value :=
  let tstop := tempStop (Farm.m_Settings f) in
  if tstop =? 0 then Ok nullValue
  else object [("temperatures"%string, array [json_uint (tempStart (Farm.m_Settings f)); json_uint tstop])].

Definition getMinerStatDetail (p : PoolManager) : partial Value :=
  let f := farm p in
  let tf := telemetry_farm f in
  hostinfo ← lift (object
    [("version"%string, json_string (ae_version env));
     ("runtime"%string, json_uint (u64 (seconds (ae_now env - ae_start env))));
     ("name"%string, match ae_hostname env with Some n => json_string n | None => nullValue end)]);
  connection ← defined (getActiveConnection p);
  u ← defined (uris p !! connection);
  client ← defined (p_client p);
  connectioninfo ← lift (object
    [("uri"%string, json_string (text (m_uri u)));
     ("connected"%string, json_bool (c_connected client));
     ("switches"%string, json_uint (m_connectionSwitches p))]);
  hashrate ← defined (float_to_u32 (ta_hashrate tf));
  mininginfo ← lift (object
    [("hashrate"%string, json_string (toHex32 hashrate Add 8));
     ("epoch"%string, json_int (getCurrentEpoch p));
     ("epoch_changes"%string, json_uint (m_epochChanges p));
     ("difficulty"%string, json_double (getPoolDifficulty p));
     ("shares"%string, shares_json (ta_solutions tf))]);
  monitorinfo ← lift (monitors_json f);
  devices ← devices_json f (m_miners f) arrayValue;
  lift (object
    [("devices"%string, devices); ("monitors"%string, monitorinfo); ("connection"%string, connectioninfo);
     ("host"%string, hostinfo); ("mining"%string, mininginfo)]).

(** [PoolManager::getConnectionsJson]. *)
Definition connections_json (p : PoolManager) : partial Value :=
  entries ← defined (getConnectionsJson p);
  foldl (fun acc '(i, active, uri) =>
    jRes ← acc;
    JConn ← lift (object [("index"%string, json_uint i); ("active"%string, json_bool active);
                          ("uri"%string, json_string (text uri))]);
    mret (append jRes JConn)) (mret nullValue : partial Value) entries.
End Requests.

(** ** Requests *)

(** What a request may change: the connection, the pool manager with its farm,
    the verbosity, and the response being built. *)
Record api {lib : JsonLib} := mk_api {
  a_conn : ApiConnection;
  a_pool : PoolManager;
  g_logOptions : Z;
  jResponse : Value
}.

Definition api_m {lib : JsonLib} (A : Type) : Type := api -> option (outcome A * api).

#[local] Instance api_ret {lib : JsonLib} : MRet api_m := fun A x a => Some (Ok x, a).
#[local] Instance api_bind {lib : JsonLib} : MBind api_m := fun A B f m a =>
  match m a with
  | Some (Ok x, a) => f x a
  | Some (Throw e, a) => Some (Throw e, a)
  | None => None
  end.

Section Monad.
Context {lib : JsonLib}.

Definition gets {A} (f : api -> A) : api_m A := fun a => Some (Ok (f a), a).
Definition run {A} (m : partial A) : api_m A := fun a =>
  match m with Some o => Some (o, a) | None => None end.

Definition set_conn (c : ApiConnection) : api_m unit := fun a =>
  Some (Ok tt, mk_api _ c (a_pool a) (g_logOptions a) (jResponse a)).
Definition set_pool (p : PoolManager) : api_m unit := fun a =>
  Some (Ok tt, mk_api _ (a_conn a) p (g_logOptions a) (jResponse a)).
Definition set_logOptions (n : Z) : api_m unit := fun a =>
  Some (Ok tt, mk_api _ (a_conn a) (a_pool a) n (jResponse a)).

(** [jResponse[k] = x]. *)
Definition respond (k : string) (x : Value) : api_m unit := fun a =>
  match put (jResponse a) k x with
  | Ok r => Some (Ok tt, mk_api _ (a_conn a) (a_pool a) (g_logOptions a) r)
  | Throw e => Some (Throw e, a)
  end.

(** [jResponse["error"][k] = x]. *)
Definition respond_error (k : string) (x : Value) : api_m unit :=
  e ← (fun a => Some (member (jResponse a) "error", a) : option (outcome Value * api));
  e ← run (lift (put e k x));
  respond "error" e.

Definition error (code : Z) (message : string) : api_m unit :=
  _ ← respond_error "code" (json_int code);
  respond_error "message" (json_string message).

Definition result (x : Value) : api_m unit := respond "result" x.

(** The overloads of [getRequestValue]: the test and the conversion of the
    type, and the value of the reference when the member is optional and
    missing. *)
Definition getRequestValue {A} (isT : Value -> bool) (asT : Value -> A) (membername : string) (refValue : A)
    (jRequest : Value) (optional : bool) : api_m (bool * A) :=
  found ← run (lift (isMember jRequest membername));
  if negb (found : bool) then
    _ ← (if negb optional then error (-32602) ("Missing '" ++ membername ++ "'") else mret tt : api_m unit);
    mret (optional, refValue)
  else
    v ← run (lift (member jRequest membername));
    if negb (isT v) then
      _ ← error (-32602) ("Invalid type of value '" ++ membername ++ "'");
      mret (false, refValue)
    else if json_empty v then
      _ ← error (-32602) ("Empty '" ++ membername ++ "'");
      mret (false, refValue)
    else mret (true, asT v).

Definition get_string (k : string) (v : Value) : api_m (bool * string) :=
  getRequestValue isString asString k ""%string v false.
Definition get_object (k : string) (v : Value) : api_m (bool * Value) :=
  getRequestValue isObject id k nullValue v false.
Definition get_uint (k : string) (v : Value) : api_m (bool * Z) :=
  getRequestValue isUInt asUInt k 0 v false.
Definition get_bool (k : string) (v : Value) : api_m (bool * bool) :=
  getRequestValue isBool asBool k false v false.

Definition checkApiWriteAccess (is_read_only : bool) : api_m bool :=
  _ ← (if is_read_only then error (-32601) "Method not available" else mret tt : api_m unit);
  mret (negb is_read_only).

Definition parseRequestId (jRequest : Value) : api_m bool :=
  found ← run (lift (isMember jRequest "id"));
  v ← (if found : bool then run (lift (member jRequest "id")) else mret nullValue : api_m Value);
  if negb found || json_empty v then
    _ ← respond "id" nullValue;
    _ ← error (-32600) "Invalid Request (missing or empty id)";
    mret false
  else if isUInt v then
    _ ← respond "id" (json_uint (asUInt v));
    mret true
  else if isString v then
    _ ← respond "id" (json_string (asString v));
    mret true
  else
    _ ← respond "id" nullValue;
    _ ← error (-32600) "Invalid Request (id has invalid type)";
    mret false.
End Monad.

(** The comparison of passwords: both copied into 500 characters that were
    zero, then the differences of all positions collected. *)
Definition max_length : nat := 500.

Definition password_copy (s : string) : list ascii :=
  let l := take max_length (chars s) in l ++ replicate (max_length - length l) zero.

Definition password_differs (psw password : string) : Z :=
  foldl (fun result '(a, b) => Z.lor result (Z.lxor (code a) (code b))) 0
    (zip (password_copy psw) (password_copy password)).

Section Methods.
Context {lib : JsonLib} (env : api_env).

(** [catch (const exception& _ex)] around a call on the pool manager. *)
Definition on_pool (f : PoolManager -> option (outcome unit * PoolManager)) : api_m (option exn) := fun a =>
  match f (a_pool a) with
  | None => None
  | Some (o, p) =>
      Some (Ok (match o with Ok _ => None | Throw e => Some e end),
            mk_api _ (a_conn a) p (g_logOptions a) (jResponse a))
  end.

Definition on_farm {A} (f : Farm -> A * Farm) : api_m A := fun a =>
  let '(x, fm) := f (farm (a_pool a)) in
  Some (Ok x, mk_api _ (a_conn a) (set_farm (a_pool a) fm) (g_logOptions a) (jResponse a)).

(** [if (!checkApiWriteAccess(m_readonly, jResponse)) return;]. *)
Definition writing (m : api_m unit) : api_m unit :=
  c ← gets a_conn;
  ok ← checkApiWriteAccess (m_readonly c);
  if negb (ok : bool) then mret tt else m.

(** The parameters, or a return. *)
Definition with_params (jRequest : Value) (m : Value -> api_m unit) : api_m unit :=
  '(ok, jRequestParams) ← get_object "params" jRequest;
  if negb (ok : bool) then mret tt else m jRequestParams.

Definition api_authorize (jRequest : Value) : api_m unit :=
  c ← gets a_conn;
  _ ← set_conn (set_authenticated c false);
  with_params jRequest (fun jRequestParams =>
    '(ok, psw) ← get_string "psw" jRequestParams;
    if negb (ok : bool) then mret tt else
    c ← gets a_conn;
    if password_differs psw (ac_password c) =? 0 then set_conn (set_authenticated c true)
    else error (-401) "Invalid password").

Definition miner_restart : api_m unit :=
  writing (_ ← result (json_bool true); on_farm (fun f => (tt, restart true f))).

Definition miner_reboot : api_m unit :=
  writing (b ← on_farm (fun f => reboot (ae_reboot env) f "api_miner_reboot"); result (json_bool b)).

Definition miner_addconnection (jRequest : Value) : api_m unit :=
  writing (with_params jRequest (fun jRequestParams =>
    '(ok, sUri) ← get_string "uri" jRequestParams;
    if negb (ok : bool) then mret tt else
    r ← on_pool (fun p => Some (addConnection (URI_new (ae_ip env) (chars sUri) false) p));
    match r with
    | None => result (json_bool true)
    | Some _ => error (-422) ("Bad URI : " ++ sUri)
    end)).

(** Both ways to name the connection. *)
Definition activated (r : option exn) : api_m unit :=
  match r with
  | Some e => error (-422) (what env e)
  | None => result (json_bool true)
  end.

Definition miner_setactiveconnection (jRequest : Value) : api_m unit :=
  writing (with_params jRequest (fun jRequestParams =>
    by_index ← run (lift (isMember jRequestParams "index"));
    if by_index : bool then
      '(ok, index) ← get_uint "index" jRequestParams;
      if ok : bool then r ← on_pool (setActiveConnection index); activated r
      else error (-422) "Invalid index"
    else
      '(ok, uri) ← get_string "URI" jRequestParams;
      if ok : bool then r ← on_pool (setActiveConnection_str (chars uri)); activated r
      else error (-422) "Invalid index")).

Definition miner_removeconnection (jRequest : Value) : api_m unit :=
  writing (with_params jRequest (fun jRequestParams =>
    '(ok, index) ← get_uint "index" jRequestParams;
    if negb (ok : bool) then mret tt else
    r ← on_pool (fun p => Some (removeConnection index p));
    activated r)).

Definition pause_miner (f : Farm) (index : Z) (b : bool) : bool * Farm :=
  match getMiner f index with
  | None => (false, f)
  | Some miner =>
      let miner := if b then pause miner PauseDueToAPIRequest else resume miner PauseDueToAPIRequest in
      (true, set_miners f (<[Z.to_nat index := miner]> (m_miners f)))
  end.

Definition miner_pausegpu (jRequest : Value) : api_m unit :=
  writing (with_params jRequest (fun jRequestParams =>
    '(ok, index) ← get_uint "index" jRequestParams;
    if negb (ok : bool) then mret tt else
    '(ok, b) ← get_bool "pause" jRequestParams;
    if negb (ok : bool) then mret tt else
    found ← on_farm (fun f => pause_miner f index b);
    if found : bool then result (json_bool true) else error (-422) "Index out of bounds")).

Definition miner_setverbosity (jRequest : Value) : api_m unit :=
  writing (with_params jRequest (fun jRequestParams =>
    '(ok, verbosity) ← get_uint "verbosity" jRequestParams;
    if negb (ok : bool) then mret tt else
    if LOG_NEXT env <=? verbosity then
      error (-422) ("Verbosity out of bounds (0-" ++ Floats.to_string (LOG_NEXT env - 1) ++ ")")
    else
      _ ← set_logOptions verbosity;
      result (json_bool true))).

Definition is_xdigit (c : ascii) : bool :=
  let n := code c in
  ((48 <=? n) && (n <=? 57)) || ((97 <=? n) && (n <=? 102)) || ((65 <=? n) && (n <=? 70)).

Definition miner_setnonce (jRequest : Value) : api_m unit :=
  writing (with_params jRequest (fun jRequestParams =>
    given ← run (lift (isMember jRequestParams "nonce"));
    if given : bool then
      '(ok, nonce) ← get_string "nonce" jRequestParams;
      if ok : bool then
        if forallb is_xdigit (chars nonce) then
          _ ← on_farm (fun f => (tt, set_nonce f nonce));
          result (json_bool true)
        else error (-422) "Invalid nonce"
      else error (-422) "Invalid nonce"
    else result (json_bool true))).

Definition method_of (_method : string) (jRequest : Value) : api_m unit :=
  if String.eqb _method "miner_getstat1" then
    p ← gets a_pool; v ← run (getMinerStat1 env p); result v
  else if String.eqb _method "miner_getstatdetail" then
    p ← gets a_pool; v ← run (getMinerStatDetail env p); result v
  else if String.eqb _method "miner_ping" then result (json_string "pong")
  else if String.eqb _method "miner_restart" then miner_restart
  else if String.eqb _method "miner_reboot" then miner_reboot
  else if String.eqb _method "miner_getconnections" then
    p ← gets a_pool; v ← run (connections_json p); result v
  else if String.eqb _method "miner_addconnection" then miner_addconnection jRequest
  else if String.eqb _method "miner_setactiveconnection" then miner_setactiveconnection jRequest
  else if String.eqb _method "miner_removeconnection" then miner_removeconnection jRequest
  else if String.eqb _method "miner_pausegpu" then miner_pausegpu jRequest
  else if String.eqb _method "miner_setverbosity" then miner_setverbosity jRequest
  else if String.eqb _method "miner_setnonce" then miner_setnonce jRequest
  else if String.eqb _method "miner_getnonce" then
    p ← gets a_pool; result (json_string (nonce (Farm.m_Settings (farm p))))
  else error (-32601) "Method not found".

Definition processRequest (jRequest : Value) : api_m unit :=
  _ ← respond "jsonrpc" (json_string "2.0");
  id_ok ← parseRequestId jRequest;
  if negb (id_ok : bool) then mret tt else
  '(ok1, jsonrpc) ← get_string "jsonrpc" jRequest;
  '(ok2, _method) ←
    (if negb ok1 || negb (String.eqb jsonrpc "2.0") then mret (false, ""%string)
     else get_string "method" jRequest : api_m (bool * string));
  if negb ok2 then error (-32600) "Invalid Request" else
  c ← gets a_conn;
  if negb (m_is_authenticated c) || String.eqb _method "api_authorize" then
    if negb (String.eqb _method "api_authorize") then error (-403) "Authorization needed"
    else api_authorize jRequest
  else method_of _method jRequest.
End Methods.

(** ** Receiving *)

(** What the JSON reader and writer do with text, and the two pages served over
    HTTP; a page may throw, and is undefined where [getMinerStatDetail] is. *)
Record api_io {lib : JsonLib} := mk_api_io {
  io_env : api_env;
  io_parse : list ascii -> string + Value;
  io_write : Value -> list ascii;
  io_metrics : PoolManager -> partial (list ascii);
  io_page : PoolManager -> partial (list ascii)
}.

Definition is_upper (c : ascii) : bool := (65 <=? code c) && (code c <=? 90).
Definition is_digit (c : ascii) : bool := (48 <=? code c) && (code c <=? 57).

(** [regex_search] with the pattern of a request line at the start of the text:
    one to six capitals, a path up to the next blank and the version; the three
    groups.  A blank ends the first two, so there is one way to match. *)
Definition match_http (s : list ascii) : option (string * string * string) :=
  let '(http_method, s) := span is_upper s in
  if (length http_method =? 0)%nat || (6 <? length http_method)%nat then None else
  match s with
  | c1 :: c2 :: s =>
      if negb (Ascii.eqb c1 " " && Ascii.eqb c2 "/") then None else
      let '(path, s) := span (fun c => negb (isspace c)) s in
      match s with
      | c3 :: s =>
          if negb (Ascii.eqb c3 " " && String.eqb (text (take 7 s)) "HTTP/1.") then None else
          match drop 7 s with
          | d :: _ =>
              if is_digit d then Some (text http_method, text (c2 :: path), text (take 7 s ++ [d])) else None
          | [] => None
          end
      | [] => None
      end
  | _ => None
  end.

Definition crlf : string := String "013" (String "010" EmptyString).

Definition http_response (ver status version content_type : string) (body : list ascii) : list ascii :=
  chars (ver ++ " " ++ status ++ crlf ++ "Server: " ++ version ++ crlf ++
    "Content-Type: " ++ content_type ++ crlf ++
    "Content-Length: " ++ Floats.to_string (Z.of_nat (length body)) ++ crlf ++ crlf) ++ body.

(** What the requests of a connection find and leave. *)
Record world := mk_world {
  w_conn : ApiConnection;
  w_pool : PoolManager;
  w_log : Z
}.

Section Receive.
Context {lib : JsonLib} (io : api_io).

(** [sendSocketData(string)]. *)
Definition send_text (so : ApiSocket) (s : list ascii) (_disconnect : bool) : ApiSocket :=
  if so_open so then set_sent so (so_sent so ++ [(s, _disconnect)]) else so.

(** [sendSocketData(Json::Value)]. *)
Definition send_json (so : ApiSocket) (v : Value) : ApiSocket :=
  if so_open so then send_text so (io_write io v ++ [newline]) false else so.

Definition recvSocketData (so : ApiSocket) : ApiSocket := set_reading so true.

(** A response that replaces what was built. *)
Definition failure_response (errorcode message : string) : outcome Value :=
  e ← object [("errorcode"%string, json_string errorcode); ("message"%string, json_string message)];
  object [("jsonrpc"%string, json_string "2.0"); ("id"%string, nullValue); ("error"%string, e)].

(** The response to a line. *)
Definition serve (line : list ascii) (w : world) : option (outcome Value * world) :=
  match io_parse io line with
  | inr jMsg =>
      match processRequest (io_env io) jMsg (mk_api _ (w_conn w) (w_pool w) (w_log w) nullValue) with
      | None => None
      | Some (o, a) =>
          Some (match o with
                | Ok _ => Ok (jResponse a)
                | Throw e => failure_response "500" (what (io_env io) e)
                end, mk_world (a_conn a) (a_pool a) (g_logOptions a))
      end
  | inl errors =>
      let what := text (map (fun c => if Ascii.eqb c newline then " "%char else c) (chars errors)) in
      Some (failure_response "-32700" ("Json parse error : " ++ what), w)
  end.

(** The lines of [m_message], each removed when it has been processed; every
    round shortens the text, which bounds the loop. *)
Fixpoint process_lines (fuel : nat) (w : world) (so : ApiSocket) : option (outcome unit * world * ApiSocket) :=
  match fuel with
  | O => Some (Ok tt, w, so)
  | S fuel =>
      match cut_line (m_message so) with
      | None => Some (Ok tt, w, so)
      | Some (line, rest) =>
          match trim line with
          | [] => process_lines fuel w (set_message so rest)
          | line =>
              match serve line w with
              | None => None
              | Some (Throw e, w) => Some (Throw e, w, so)
              | Some (Ok jRes, w) => process_lines fuel w (set_message (send_json so jRes) rest)
              end
          end
      end
  end.

Definition http_answer (p : PoolManager) (http_method http_path http_ver : string) : option (list ascii) :=
  let version := ae_version (io_env io) in
  if negb (String.eqb http_method "GET") then
    Some (http_response http_ver "405 Method not allowed" version "text/plain"
      (chars ("Method " ++ http_method ++ " not allowed")))
  else if negb (String.eqb http_path "/" || String.eqb http_path "/getstat1" || String.eqb http_path "/metrics") then
    Some (http_response http_ver "404 Not Found" version "text/plain"
      (chars ("The requested resource " ++ http_path ++ " not found on this server")))
  else
    let metrics := String.eqb http_path "/metrics" in
    match (if metrics then io_metrics io p else io_page io p) with
    | None => None
    | Some (Ok body) =>
        Some (http_response http_ver "200 OK" version
          ((if metrics then "text/plain" else "text/html") ++ "; charset=utf-8") body)
    | Some (Throw e) =>
        Some (http_response http_ver "500 Internal Server Error" version "text/plain"
          (chars ("Internal error : " ++ what (io_env io) e)))
    end.

(** [onRecvSocketDataCompleted] without an error for at least one byte. *)
Definition on_data (data : list ascii) (w : world) (so : ApiSocket) : option (outcome unit * world * ApiSocket) :=
  let so := set_message (set_reading so false) (m_message so ++ data) in
  if (length (m_message so) <? 4)%nat then Some (Ok tt, w, so)
  else
    match match_http (m_message so) with
    | Some (http_method, http_path, http_ver) =>
        answer ← http_answer (w_pool w) http_method http_path http_ver;
        Some (Ok tt, w, set_message (send_text so answer true) [])
    | None =>
        r ← process_lines (S (length (m_message so))) w so;
        let '(o, w, so) := r in
        Some (o, w, match o with
                    | Ok _ => if so_open so then recvSocketData so else so
                    | Throw _ => so
                    end)
    end.
End Receive.

(** ** The server *)

(** [s_pending] is the session that waits to be accepted. *)
Record ApiServer := mk_ApiServer {
  s_password : string;
  s_portnumber : Z;
  s_readonly : bool;
  s_running : bool;
  lastSessionId : Z;
  m_sessions : list (ApiConnection * ApiSocket);
  s_pending : option (ApiConnection * ApiSocket)
}.

Definition ApiServer_new (portnum : Z) (password : string) : ApiServer :=
  if portnum <? 0 then mk_ApiServer password (u16 (- portnum)) true false 0 [] None
  else mk_ApiServer password (u16 portnum) false false 0 [] None.

(** [None]: the counter of sessions overflows. *)
Definition begin_accept (s : ApiServer) : option ApiServer :=
  if negb (s_running s) then Some s
  else if 2 ^ 31 <=? lastSessionId s + 1 then None
  else
    let id := lastSessionId s + 1 in
    Some (mk_ApiServer (s_password s) (s_portnumber s) (s_readonly s) (s_running s) id (m_sessions s)
      (Some (ApiConnection_new id (s_readonly s) (s_password s), ApiSocket_new))).

(** [bound]: whether the port could be opened. *)
Definition api_start (bound : bool) (s : ApiServer) : option ApiServer :=
  if s_portnumber s =? 0 then Some s
  else if negb bound then Some s
  else begin_accept (mk_ApiServer (s_password s) (s_portnumber s) (s_readonly s) true (lastSessionId s)
    (m_sessions s) (s_pending s)).

Definition api_stop (s : ApiServer) : ApiServer :=
  if negb (s_running s) then s
  else mk_ApiServer (s_password s) (s_portnumber s) (s_readonly s) false (lastSessionId s) [] (s_pending s).

(** [ec]: whether accepting failed. *)
Definition handle_accept (ec : bool) (s : ApiServer) : option ApiServer :=
  let sessions :=
    match s_pending s with
    | Some (c, so) => if negb ec then m_sessions s ++ [(c, recvSocketData so)] else m_sessions s
    | None => m_sessions s
    end in
  begin_accept (mk_ApiServer (s_password s) (s_portnumber s) (s_readonly s) (s_running s) (lastSessionId s)
    sessions None).

(** The handler a session calls when it disconnects: the first session with the
    number is erased. *)
Fixpoint erase_session (id : Z) (l : list (ApiConnection * ApiSocket)) : list (ApiConnection * ApiSocket) :=
  match l with
  | [] => []
  | (c, so) :: l => if m_sessionId c =? id then l else (c, so) :: erase_session id l
  end.

Definition on_disconnected (id : Z) (s : ApiServer) : ApiServer :=
  mk_ApiServer (s_password s) (s_portnumber s) (s_readonly s) (s_running s) (lastSessionId s)
    (erase_session id (m_sessions s)) (s_pending s).

(** What happens to a server: a session may also change, by what it receives. *)
Inductive server_step (s : ApiServer) : ApiServer -> Prop :=
  | ss_start b s' : s_pending s = None -> s_running s = false -> api_start b s = Some s' -> server_step s s'
  | ss_stop : server_step s (api_stop s)
  | ss_accept ec s' : is_Some (s_pending s) -> handle_accept ec s = Some s' -> server_step s s'
  | ss_disconnect id : server_step s (on_disconnected id s)
  | ss_session i c so b so' : m_sessions s !! i = Some (c, so) ->
      server_step s (mk_ApiServer (s_password s) (s_portnumber s) (s_readonly s) (s_running s) (lastSessionId s)
        (<[i := (set_authenticated c b, so')]> (m_sessions s)) (s_pending s)).

(** ** Reasoning about requests *)

Definition with_response {lib : JsonLib} (a : api) (v : Value) : api :=
  mk_api _ (a_conn a) (a_pool a) (g_logOptions a) v.

(** [m] run from [a] ends in a state with [Q], or is undefined and [U] holds. *)
Definition spec {lib : JsonLib} {A} (U : Prop) (m : api_m A) (a : api) (Q : outcome A -> api -> Prop) : Prop :=
  match m a with Some (o, a') => Q o a' | None => U end.

Section Rules.
Context {lib : JsonLib} {laws : JsonLaws lib}.

(** A response under construction: its [id] and whether it has an error and a
    result. *)
Definition response (v : Value) (id : Value) (err res : bool) : Prop :=
  exists r, members v = Some r /\ r !! "jsonrpc"%string = Some (json_string "2.0") /\
    r !! "id"%string = Some id /\ bool_decide (is_Some (r !! "error"%string)) = err /\
    bool_decide (is_Some (r !! "result"%string)) = res /\
    is_Some (members (default nullValue (r !! "error"%string))).

Lemma spec_bind {A B} U (m : api_m A) (f : A -> api_m B) a Q :
  spec U m a (fun o a' => match o with Ok x => spec U (f x) a' Q | Throw e => Q (Throw e) a' end) ->
  spec U (m ≫= f) a Q.
Proof.
  unfold spec, mbind, api_bind. by destruct (m a) as [[[x|e] a']|].
Qed.

Lemma spec_ret {A} U (x : A) a Q : Q (Ok x) a -> spec U (mret x) a Q.
Proof. auto. Qed.

Lemma spec_gets {A} U (f : api -> A) a Q : Q (Ok (f a)) a -> spec U (gets f) a Q.
Proof. auto. Qed.

Lemma spec_if {A} U (b : bool) (m n : api_m A) a Q :
  (b = true -> spec U m a Q) -> (b = false -> spec U n a Q) -> spec U (if b then m else n) a Q.
Proof. destruct b; auto. Qed.

Lemma spec_run {A} U (m : partial A) a Q :
  (forall o, m = Some o -> Q o a) -> (m = None -> U) -> spec U (run m) a Q.
Proof. unfold spec, run. destruct m as [o|]; auto. Qed.

Lemma spec_respond U k x a Q r :
  members (jResponse a) = Some r ->
  (forall v, members v = Some (<[k := x]> r) -> Q (Ok tt) (with_response a v)) -> spec U (respond k x) a Q.
Proof.
  intros Hr HQ. unfold spec, respond. pose proof (put_spec (jResponse a) k x) as H. rewrite Hr in H.
  destruct H as (v & -> & Hv). by apply HQ.
Qed.

Lemma response_result v id e s x v' r :
  response v id e s -> members v = Some r -> members v' = Some (<["result"%string := x]> r) ->
  response v' id e true.
Proof.
  intros (r0 & H1 & H2 & H3 & H4 & H5 & H6) Hr Hv. rewrite Hr in H1. injection H1 as <-.
  exists (<["result"%string := x]> r). rewrite lookup_insert_eq, !lookup_insert_ne by done. done.
Qed.

Lemma spec_result U x a id e s Q :
  response (jResponse a) id e s ->
  (forall v, response v id e true -> Q (Ok tt) (with_response a v)) -> spec U (result x) a Q.
Proof.
  intros Hr HQ. destruct Hr as (r & Hm & Hr). apply (spec_respond _ _ _ _ _ r Hm).
  intros v Hv. apply HQ. eapply response_result; [by exists r|done|done].
Qed.

Lemma spec_respond_error U k x a id e s Q :
  response (jResponse a) id e s ->
  (forall v, response v id true s -> Q (Ok tt) (with_response a v)) -> spec U (respond_error k x) a Q.
Proof.
  intros (r & H1 & H2 & H3 & H4 & H5 & [o Ho]) HQ. unfold respond_error.
  apply spec_bind. unfold spec at 1. rewrite member_spec, H1.
  apply spec_bind, spec_run; [|done]. intros o' [= <-].
  pose proof (put_spec (default nullValue (r !! "error"%string)) k x) as Hp. rewrite Ho in Hp.
  destruct Hp as (v & -> & Hv). apply (spec_respond _ _ _ _ _ r H1). intros v' Hv'. apply HQ.
  exists (<["error"%string := v]> r). rewrite lookup_insert_eq, !lookup_insert_ne by done.
  done.
Qed.

Lemma spec_error U code message a id e s Q :
  response (jResponse a) id e s ->
  (forall v, response v id true s -> Q (Ok tt) (with_response a v)) -> spec U (error code message) a Q.
Proof.
  intros Hr HQ. apply spec_bind, (spec_respond_error _ _ _ _ _ _ _ _ Hr). intros v Hv.
  apply (spec_respond_error _ _ _ _ id true s); [done|]. intros v' Hv'. exact (HQ v' Hv').
Qed.

(** A value of the request: found, or the request is answered with an error, or
    the request is no object. *)
Lemma spec_getRequestValue {A} U isT (asT : Value -> A) k ref jRequest a id e s Q :
  response (jResponse a) id e s ->
  (forall v, member jRequest k = Ok v -> isT v = true -> Q (Ok (true, asT v)) a) ->
  (forall v, response v id true s -> Q (Ok (false, ref)) (with_response a v)) ->
  (members jRequest = None -> Q (Throw JsonError) a) ->
  spec U (getRequestValue isT asT k ref jRequest false) a Q.
Proof.
  intros Hr HT HF HJ. unfold getRequestValue. apply spec_bind, spec_run; [|done].
  intros o [= <-]. rewrite isMember_spec. destruct (members jRequest) as [ms|] eqn:Hm; [|by apply HJ].
  apply spec_if; intros Hf.
  { apply spec_bind, (spec_error _ _ _ _ _ _ _ _ Hr). intros v Hv. by apply spec_ret, HF. }
  apply spec_bind, spec_run; [|done]. intros o [= <-]. rewrite member_spec, Hm.
  set (v := default nullValue (ms !! k)). apply spec_if; intros Ht.
  { apply spec_bind, (spec_error _ _ _ _ _ _ _ _ Hr). intros v' Hv. by apply spec_ret, HF. }
  apply spec_if; intros He.
  { apply spec_bind, (spec_error _ _ _ _ _ _ _ _ Hr). intros v' Hv. by apply spec_ret, HF. }
  apply spec_ret, HT; [by rewrite member_spec, Hm|by apply negb_false_iff].
Qed.
End Rules.

Section MethodProofs.
Context {lib : JsonLib} {laws : JsonLaws lib} {host : Host} (env : api_env) (a0 : api).

(** What a request did to the pool manager and the verbosity. *)
Definition world_kept (a : api) : Prop := a_pool a = a_pool a0 /\ g_logOptions a = g_logOptions a0.

Definition world_changed (a : api) : Prop :=
  m_readonly (a_conn a0) = false /\ rtc pool_step (a_pool a0) (a_pool a) /\
  (g_logOptions a = g_logOptions a0 \/ 0 <= g_logOptions a < LOG_NEXT env).

(** A method was answered with a result or with an error. *)
Definition method_post (o : outcome unit) (a : api) : Prop :=
  a_conn a = a_conn a0 /\ (world_kept a \/ world_changed a) /\
  (o = Ok tt -> exists id e, response (jResponse a) id e (negb e)).

(** Where a method is undefined. *)
Definition method_undefined : Prop :=
  getMinerStat1 env (a_pool a0) = None \/ getMinerStatDetail env (a_pool a0) = None \/
  connections_json (a_pool a0) = None \/ (exists idx, setActiveConnection idx (a_pool a0) = None) \/
  (exists s, setActiveConnection_str s (a_pool a0) = None).

Context (id : Value) (Hresponse : response (jResponse a0) id false false).

Abbreviation U := method_undefined.

Lemma kept_error v : response v id true false -> method_post (Ok tt) (with_response a0 v).
Proof. intros Hv. split; [done|]. split; [left; done|]. intros _. by exists id, true. Qed.

Lemma kept_result v : response v id false true -> method_post (Ok tt) (with_response a0 v).
Proof. intros Hv. split; [done|]. split; [left; done|]. intros _. by exists id, false. Qed.

Lemma kept_throw e : method_post (Throw e) a0.
Proof. split; [done|]. split; [left; done|done]. Qed.

Lemma spec_kept_error code message : spec U (error code message) a0 method_post.
Proof. apply (spec_error _ _ _ _ _ _ _ _ Hresponse). apply kept_error. Qed.

Lemma spec_kept_result x : spec U (result x) a0 method_post.
Proof. apply (spec_result _ _ _ _ _ _ _ Hresponse). apply kept_result. Qed.

(** A value computed from the state and returned. *)
Lemma spec_reading (f : PoolManager -> partial Value) :
  (f (a_pool a0) = None -> U) ->
  spec U (p ← gets a_pool; v ← run (f p); result v) a0 method_post.
Proof.
  intros HU. apply spec_bind, spec_gets, spec_bind, spec_run; [|done].
  intros [v|e] _; [apply spec_kept_result|apply kept_throw].
Qed.

Lemma spec_writing m :
  (m_readonly (a_conn a0) = false -> spec U m a0 method_post) -> spec U (writing m) a0 method_post.
Proof.
  intros Hm. apply spec_bind, spec_gets. unfold checkApiWriteAccess.
  apply spec_bind, spec_bind. destruct (m_readonly (a_conn a0)).
  - apply (spec_error _ _ _ _ _ _ _ _ Hresponse). intros v Hv. by apply kept_error.
  - by apply Hm.
Qed.

(** Reading a value of the request; a failure is answered with an error. *)
Lemma spec_get {A} isT (asT : Value -> A) k ref v (m : A -> api_m unit) :
  (forall x, member v k = Ok x -> isT x = true -> spec U (m (asT x)) a0 method_post) ->
  spec U ('(ok, x) ← getRequestValue isT asT k ref v false; if negb (ok : bool) then mret tt else m x)
    a0 method_post.
Proof.
  intros Hm. apply spec_bind, (spec_getRequestValue _ _ _ _ _ _ _ _ _ _ _ Hresponse).
  - intros x Hx Ht. by apply Hm.
  - intros r Hr. by apply kept_error.
  - intros _. apply kept_throw.
Qed.

Lemma spec_params jRequest m :
  (forall params, isObject params = true -> spec U (m params) a0 method_post) ->
  spec U (with_params jRequest m) a0 method_post.
Proof. intros Hm. apply spec_get. intros x _ Hx. by apply Hm. Qed.

(** A result or an error after a change of the pool manager. *)
Lemma changed_result p n x :
  m_readonly (a_conn a0) = false -> rtc pool_step (a_pool a0) p ->
  (n = g_logOptions a0 \/ 0 <= n < LOG_NEXT env) ->
  spec U (result x) (mk_api _ (a_conn a0) p n (jResponse a0)) method_post.
Proof.
  intros Hw Hp Hn. apply (spec_result _ _ (mk_api _ (a_conn a0) p n (jResponse a0)) _ _ _ _ Hresponse).
  intros v Hv. split; [done|]. split; [right; done|]. intros _. by exists id, false.
Qed.

Lemma changed_error p code message :
  m_readonly (a_conn a0) = false -> rtc pool_step (a_pool a0) p ->
  spec U (error code message) (mk_api _ (a_conn a0) p (g_logOptions a0) (jResponse a0)) method_post.
Proof.
  intros Hw Hp. apply (spec_error _ _ _ (mk_api _ (a_conn a0) p (g_logOptions a0) (jResponse a0)) _ _ _ _ Hresponse).
  intros v Hv. split; [done|]. split; [right; split_and!; auto|]. intros _. by exists id, true.
Qed.

Lemma spec_on_pool f (m : option exn -> api_m unit) :
  m_readonly (a_conn a0) = false ->
  (f (a_pool a0) = None -> U) ->
  (forall o p, f (a_pool a0) = Some (o, p) -> rtc pool_step (a_pool a0) p) ->
  (forall r p, rtc pool_step (a_pool a0) p ->
     spec U (m r) (mk_api _ (a_conn a0) p (g_logOptions a0) (jResponse a0)) method_post) ->
  spec U (r ← on_pool f; m r) a0 method_post.
Proof.
  intros Hw HU Hf Hm. apply spec_bind. unfold spec at 1, on_pool.
  destruct (f (a_pool a0)) as [[o p]|]; [|by apply HU]. by apply Hm, (Hf o).
Qed.

Lemma spec_activated r p :
  m_readonly (a_conn a0) = false -> rtc pool_step (a_pool a0) p ->
  spec U (activated env r) (mk_api _ (a_conn a0) p (g_logOptions a0) (jResponse a0)) method_post.
Proof. intros Hw Hp. destruct r; [by apply changed_error|apply changed_result; auto]. Qed.

Lemma farm_steps f : farm_step (farm (a_pool a0)) f -> rtc pool_step (a_pool a0) (set_farm (a_pool a0) f).
Proof. intros Hf. by apply rtc_once, ps_farm. Qed.

Lemma miner_restart_spec : spec U miner_restart a0 method_post.
Proof.
  apply spec_writing. intros Hw. apply spec_bind, (spec_result _ _ _ _ _ _ _ Hresponse). intros v Hv.
  split; [done|]. split; [|intros _; by exists id, false].
  right. split; [done|]. split; [|by left]. apply farm_steps, (fs_restart _ true).
Qed.

Lemma miner_reboot_spec : spec U (miner_reboot env) a0 method_post.
Proof.
  apply spec_writing. intros Hw. apply spec_bind. unfold spec at 1, on_farm.
  apply changed_result; [done| |by left]. apply farm_steps, (fs_reboot _ (ae_reboot env)).
Qed.

Lemma miner_addconnection_spec jRequest :
  size (a_pool a0) + 1 < 2 ^ 32 -> spec U (miner_addconnection env jRequest) a0 method_post.
Proof.
  intros Hsize. apply spec_writing. intros Hw. apply spec_params. intros params _.
  apply spec_get. intros x _ _. apply spec_on_pool; [done|done| |].
  - intros o p H. injection H as H. apply rtc_once.
    replace p with (addConnection (URI_new (ae_ip env) (chars (asString x)) false) (a_pool a0)).2
      by (by rewrite H). by apply ps_add.
  - intros [e|] p Hp; [by apply changed_error|apply changed_result; auto].
Qed.

Lemma miner_setactiveconnection_spec jRequest : spec U (miner_setactiveconnection env jRequest) a0 method_post.
Proof.
  apply spec_writing. intros Hw. apply spec_params. intros params Hp.
  apply spec_bind, spec_run; [|done]. intros o [= <-]. rewrite isMember_spec.
  destruct (members_object params Hp) as [ms Hms]. rewrite Hms.
  apply spec_if; intros _; apply spec_bind, (spec_getRequestValue _ _ _ _ _ _ _ _ _ _ _ Hresponse).
  - intros x _ Hx. apply spec_on_pool; [done| | |by intros r p; apply spec_activated].
    + intros HN. right. right. right. left. by exists (asUInt x).
    + intros o p H. apply rtc_once, (ps_active _ (asUInt x) o); [by apply uint_range|done].
  - intros v Hv. apply (spec_error _ _ _ (with_response a0 v) _ _ _ _ Hv). intros v' Hv'. by apply kept_error.
  - congruence.
  - intros x _ Hx. apply spec_on_pool; [done| | |by intros r p; apply spec_activated].
    + intros HN. right. right. right. right. by exists (chars (asString x)).
    + intros o p H. apply rtc_once, (ps_active_str _ (chars (asString x)) o). done.
  - intros v Hv. apply (spec_error _ _ _ (with_response a0 v) _ _ _ _ Hv). intros v' Hv'. by apply kept_error.
  - congruence.
Qed.

Lemma miner_removeconnection_spec jRequest : spec U (miner_removeconnection env jRequest) a0 method_post.
Proof.
  apply spec_writing. intros Hw. apply spec_params. intros params _. apply spec_get. intros x _ Hx.
  apply spec_on_pool; [done|done| |by intros r p; apply spec_activated].
  intros o p H. injection H as H. apply rtc_once.
  replace p with (removeConnection (asUInt x) (a_pool a0)).2 by (by rewrite H).
  apply ps_remove. by apply uint_range.
Qed.

Lemma pause_miner_step f index b : in_word 32 index -> (pause_miner f index b).1 = true ->
  farm_step f (pause_miner f index b).2.
Proof.
  intros Hi. unfold pause_miner, getMiner, array_get. destruct (0 <=? index); [|done].
  destruct (m_miners f !! Z.to_nat index) as [m|] eqn:Hm; [|done]. intros _.
  apply (fs_miner _ _ m); [done|]. destruct b; auto with farm.
Qed.

Lemma set_farm_same p : set_farm p (farm p) = p.
Proof. by destruct p. Qed.

Lemma miner_pausegpu_spec jRequest : spec U (miner_pausegpu jRequest) a0 method_post.
Proof.
  apply spec_writing. intros Hw. apply spec_params. intros params _. apply spec_get. intros x _ Hx.
  apply spec_get. intros y _ Hy. apply spec_bind. unfold spec at 1, on_farm.
  pose proof (pause_miner_step (farm (a_pool a0)) (asUInt x) (asBool y) (uint_range x Hx)) as Hstep.
  destruct (pause_miner _ _ _) as [found f] eqn:E. cbn [fst snd] in Hstep.
  apply spec_if; intros Hf.
  - apply changed_result; [done|by apply farm_steps, Hstep|by left].
  - assert (Hs : f = farm (a_pool a0)) by (unfold pause_miner in E; by destruct (getMiner _ _); simplify_eq).
    apply changed_error; [done|]. by rewrite Hs, set_farm_same.
Qed.

Lemma miner_setverbosity_spec jRequest : spec U (miner_setverbosity env jRequest) a0 method_post.
Proof.
  apply spec_writing. intros Hw. apply spec_params. intros params _. apply spec_get. intros x _ Hx.
  apply spec_if; intros Hn; [apply spec_kept_error|]. apply spec_bind.
  apply changed_result; [done|done|]. right. apply Z.leb_gt in Hn. pose proof (uint_range x Hx) as [H _]. done.
Qed.

Lemma miner_setnonce_spec jRequest : spec U (miner_setnonce jRequest) a0 method_post.
Proof.
  apply spec_writing. intros Hw. apply spec_params. intros params Hp.
  apply spec_bind, spec_run; [|done]. intros o [= <-]. rewrite isMember_spec.
  destruct (members_object params Hp) as [ms Hms]. rewrite Hms.
  apply spec_if; intros _; [|apply spec_kept_result].
  apply spec_bind, (spec_getRequestValue _ _ _ _ _ _ _ _ _ _ _ Hresponse).
  - intros x _ Hx. apply spec_if; intros _; [|apply spec_kept_error]. apply spec_bind.
    unfold spec at 1, on_farm. apply changed_result; [done|by apply farm_steps, fs_nonce|by left].
  - intros v Hv. apply (spec_error _ _ _ (with_response a0 v) _ _ _ _ Hv). intros v' Hv'. by apply kept_error.
  - congruence.
Qed.

Lemma method_of_spec _method jRequest :
  size (a_pool a0) + 1 < 2 ^ 32 -> spec U (method_of env _method jRequest) a0 method_post.
Proof.
  intros Hsize. unfold method_of.
  apply spec_if; intros _; [apply spec_reading; by left|].
  apply spec_if; intros _; [apply spec_reading; right; by left|].
  apply spec_if; intros _; [apply spec_kept_result|].
  apply spec_if; intros _; [apply miner_restart_spec|].
  apply spec_if; intros _; [apply miner_reboot_spec|].
  apply spec_if; intros _; [apply spec_reading; right; right; by left|].
  apply spec_if; intros _; [by apply miner_addconnection_spec|].
  apply spec_if; intros _; [apply miner_setactiveconnection_spec|].
  apply spec_if; intros _; [apply miner_removeconnection_spec|].
  apply spec_if; intros _; [apply miner_pausegpu_spec|].
  apply spec_if; intros _; [apply miner_setverbosity_spec|].
  apply spec_if; intros _; [apply miner_setnonce_spec|].
  apply spec_if; intros _; [|apply spec_kept_error]. apply spec_bind, spec_gets, spec_kept_result.
Qed.
End MethodProofs.

(** The collected differences vanish exactly for equal copies. *)
Lemma differences_zero (l : list (ascii * ascii)) (r : Z) :
  foldl (fun result '(a, b) => Z.lor result (Z.lxor (code a) (code b))) r l = 0 <->
  r = 0 /\ Forall (fun p => p.1 = p.2) l.
Proof.
  revert r. induction l as [|[a b] l IH]; intros r; cbn [foldl].
  - split; [done|by intros [? _]].
  - rewrite IH, Z.lor_eq_0_iff, Z.lxor_eq_0_iff, Forall_cons. cbn [fst snd].
    assert (H : code a = code b <-> a = b).
    { split; [|by intros ->]. unfold code. intros H%N2Z.inj. apply (f_equal ascii_of_N) in H.
      by rewrite !ascii_N_embedding in H. }
    rewrite H. tauto.
Qed.

Lemma length_password_copy s : length (password_copy s) = max_length.
Proof. unfold password_copy. rewrite length_app, length_replicate, length_take. lia. Qed.

Lemma zip_equal (l l' : list ascii) :
  length l = length l' -> Forall (fun p => p.1 = p.2) (zip l l') <-> l = l'.
Proof.
  revert l'. induction l as [|x l IH]; intros [|y l'] H; try discriminate H; cbn.
  - split; [done|]. intros _. constructor.
  - rewrite Forall_cons, IH by (cbn in H; lia). cbn. split; [by intros [-> ->]|by intros [= -> ->]].
Qed.

Lemma password_differs_spec a b : password_differs a b = 0 <-> password_copy a = password_copy b.
Proof.
  unfold password_differs. rewrite differences_zero, zip_equal by (by rewrite !length_password_copy). tauto.
Qed.

(** ** Every request *)

Section RequestProofs.
Context {lib : JsonLib} {laws : JsonLaws lib} {host : Host} (env : api_env).

(** The request carries a password that passes the comparison. *)
Definition proves_password (jRequest : Value) (password : string) : Prop :=
  exists params psw, member jRequest "params" = Ok params /\ member params "psw" = Ok psw /\
    isString psw = true /\ password_copy (asString psw) = password_copy password.

(** The effect of a request on a connection, on the rest of the program and on
    the response. *)
Record request_post (jRequest : Value) (a0 : api) (o : outcome unit) (a : api) : Prop := {
  rp_conn : a_conn a = set_authenticated (a_conn a0) (m_is_authenticated (a_conn a));
  rp_auth : m_is_authenticated (a_conn a) = true ->
    m_is_authenticated (a_conn a0) = true \/ proves_password jRequest (ac_password (a_conn a0));
  rp_world : world_kept a0 a \/ (m_is_authenticated (a_conn a0) = true /\ world_changed env a0 a);
  rp_response : o = Ok tt -> exists id e s, response (jResponse a) id e s /\ e && s = false /\
    (s = true -> m_is_authenticated (a_conn a0) = true) /\
    (e || s = false -> m_is_authenticated (a_conn a) = true /\ proves_password jRequest (ac_password (a_conn a0)))
}.

Lemma set_authenticated_same c : set_authenticated c (m_is_authenticated c) = c.
Proof. by destruct c. Qed.

Lemma post_error jRequest a0 v id :
  response v id true false -> request_post jRequest a0 (Ok tt) (with_response a0 v).
Proof.
  intros Hv. split; cbn; [by rewrite set_authenticated_same|by left|by left|].
  intros _. by exists id, true, false.
Qed.

Lemma post_throw jRequest a0 v e : request_post jRequest a0 (Throw e) (with_response a0 v).
Proof. split; cbn; [by rewrite set_authenticated_same|by left|by left|done]. Qed.

Lemma method_request_post jRequest a0 v o a :
  m_is_authenticated (a_conn a0) = true ->
  method_post env (with_response a0 v) o a -> request_post jRequest a0 o a.
Proof.
  intros Hauth (Hc & Hw & Hr). cbn in Hc. split; rewrite ?Hc.
  - by rewrite set_authenticated_same.
  - by left.
  - destruct Hw as [Hw|Hw]; [by left|by right].
  - intros Ho. destruct (Hr Ho) as (id & e & He). exists id, e, (negb e).
    split; [done|]. by destruct e.
Qed.

Lemma spec_mono {A} (U : Prop) (m : api_m A) a (Q Q' : outcome A -> api -> Prop) :
  spec U m a Q -> (forall o a', Q o a' -> Q' o a') -> spec U m a Q'.
Proof. unfold spec. intros H HQ. destruct (m a) as [[o a']|]; auto. Qed.

Lemma parseRequestId_spec U jRequest a Q :
  members (jResponse a) = Some {["jsonrpc"%string := json_string "2.0"]} ->
  (forall v id, response v id false false -> Q (Ok true) (with_response a v)) ->
  (forall v id, response v id true false -> Q (Ok false) (with_response a v)) ->
  (forall e, Q (Throw e) a) -> spec U (parseRequestId jRequest) a Q.
Proof.
  intros Hr HT HF HJ.
  assert (Hid : forall x v, members v = Some (<["id"%string := x]> {["jsonrpc"%string := json_string "2.0"]}) ->
    response v x false false).
  { intros x v Hv. eexists. split; [exact Hv|]. cbn. split_and!; try done. exists ∅. apply members_null. }
  assert (Hbad : forall x message, spec U (_ ← respond "id" x; _ ← error (-32600) message; mret false) a Q).
  { intros x message. apply spec_bind, (spec_respond _ _ _ _ _ _ Hr). intros v Hv.
    apply spec_bind, (spec_error _ _ _ (with_response a v) _ _ _ _ (Hid _ _ Hv)). intros v' Hv'.
    apply spec_ret. by apply (HF _ x). }
  assert (Hgood : forall x, spec U (_ ← respond "id" x; mret true) a Q).
  { intros x. apply spec_bind, (spec_respond _ _ _ _ _ _ Hr). intros v Hv. apply spec_ret, (HT _ x), Hid, Hv. }
  unfold parseRequestId. apply spec_bind, spec_run; [|done]. intros o [= <-]. rewrite isMember_spec.
  destruct (members jRequest) as [ms|] eqn:Hm; [|apply HJ]. apply spec_bind.
  apply spec_if; intros Hf; rewrite Hf; cbn [negb orb]; [|apply spec_ret, Hbad].
  apply spec_run; [|done]. intros o [= <-]. rewrite member_spec, Hm.
  apply spec_if; intros _; [apply Hbad|]. apply spec_if; intros _; [apply Hgood|].
  apply spec_if; intros _; [apply Hgood|apply Hbad].
Qed.

Lemma api_authorize_spec U jRequest a id :
  response (jResponse a) id false false ->
  spec U (api_authorize jRequest) a (request_post jRequest a).
Proof.
  intros Hr. apply spec_bind, spec_gets, spec_bind. unfold spec at 1, set_conn.
  set (a1 := mk_api _ _ _ _ _).
  assert (Hno : forall v, response v id true false -> request_post jRequest a (Ok tt) (with_response a1 v)).
  { intros v Hv. split; cbn; [done|done|by left|]. intros _. by exists id, true, false. }
  unfold with_params. apply spec_bind, (spec_getRequestValue _ _ _ _ _ _ a1 _ _ _ _ Hr); [|done|].
  2: { intros _. split; cbn; [done|done|by left|done]. }
  intros params Hp Ho. apply spec_bind, (spec_getRequestValue _ _ _ _ _ _ a1 _ _ _ _ Hr); [|done|].
  2: { intros _. split; cbn; [done|done|by left|done]. }
  intros psw Hpsw Hs. apply spec_bind, spec_gets. apply spec_if; intros Hd.
  - apply Z.eqb_eq, password_differs_spec in Hd.
    assert (Hprove : proves_password jRequest (ac_password (a_conn a))) by (by exists params, psw).
    split; cbn; [done|by right|by left|]. intros _. by exists id, false, false.
  - by apply (spec_error _ _ _ a1 _ _ _ _ Hr).
Qed.

Lemma processRequest_spec jRequest a0 :
  members (jResponse a0) = Some ∅ -> size (a_pool a0) + 1 < 2 ^ 32 ->
  spec (method_undefined env a0) (processRequest env jRequest) a0 (request_post jRequest a0).
Proof.
  intros H0 Hsize. unfold processRequest. apply spec_bind, (spec_respond _ _ _ _ _ _ H0). intros v0 Hv0.
  apply spec_bind, (parseRequestId_spec _ _ (with_response a0 v0)); [done|..].
  2: { intros v id Hv. exact (post_error jRequest a0 v id Hv). }
  2: { intros e. exact (post_throw jRequest a0 v0 e). }
  intros v id Hv. change (with_response (with_response a0 v0) v) with (with_response a0 v).
  set (a1 := with_response a0 v).
  assert (Hinv : forall r e, response r id e false ->
    spec (method_undefined env a0) (error (-32600) "Invalid Request") (with_response a0 r) (request_post jRequest a0)).
  { intros r e Hre. apply (spec_error _ _ _ (with_response a0 r) _ _ _ _ Hre). intros v' Hv'.
    exact (post_error jRequest a0 v' id Hv'). }
  apply spec_bind, (spec_getRequestValue _ _ _ _ _ _ a1 _ _ _ _ Hv).
  2: { intros r Hre. cbn [negb orb]. apply spec_bind, spec_ret. by apply (Hinv r true). }
  2: { intros _. exact (post_throw jRequest a0 v JsonError). }
  intros jsonrpc _ _. cbn [negb orb]. apply spec_bind. apply spec_if; intros Hver.
  { apply spec_ret. by apply (Hinv v false). }
  apply (spec_getRequestValue _ _ _ _ _ _ a1 _ _ _ _ Hv).
  2: { intros r Hre. by apply (Hinv r true). }
  2: { intros _. exact (post_throw jRequest a0 v JsonError). }
  intros m _ _. cbn [negb]. apply spec_bind, spec_gets. apply spec_if; intros Hauth.
  - apply spec_if; intros Hm.
    + apply (spec_error _ _ _ a1 _ _ _ _ Hv). intros v' Hv'. exact (post_error jRequest a0 v' id Hv').
    + apply (spec_mono _ _ _ _ _ (api_authorize_spec _ jRequest a1 id Hv)).
      intros o a [P1 P2 P3 P4]. by split.
  - apply orb_false_iff in Hauth as [Hauth%negb_false_iff _].
    apply (spec_mono _ _ _ _ _ (method_of_spec env a1 id Hv (asString m) jRequest Hsize)).
    intros o a Hpost. by apply (method_request_post _ _ v).
Qed.
End RequestProofs.

(** ** Where requests are defined *)

(** The rates fit their 32-bit text and the sizes of memory have a suffix. *)
Definition stats_defined (env : api_env) (p : PoolManager) : Prop :=
  is_Some (float_to_u32 (ta_hashrate (telemetry_farm (farm p)))) /\
  Forall (fun t => is_Some (float_to_u32 (ta_hashrate t))) (telemetry_miners (farm p)) /\
  (forall i, is_Some (getFormattedMemory (double_of_Z (di_totalMemory (ae_device env i))) true 2)).

Section Defined.
Context {lib : JsonLib} (env : api_env) (p : PoolManager).
Context (Hp : pool_ok p) (Hne : connections p <> []) (Hcl : is_Some (p_client p)) (Hst : stats_defined env p).

Lemma bind_defined {A B} (m : partial A) (f : A -> partial B) :
  is_Some m -> (forall x, m = Some (Ok x) -> is_Some (f x)) -> is_Some (m ≫= f).
Proof. intros [[x|e] ->] Hf; cbn; [by apply Hf|by eexists]. Qed.

Lemma lift_defined {A} (o : outcome A) : is_Some (lift o).
Proof. by eexists. Qed.

Lemma defined_some {A} (o : option A) : is_Some o -> is_Some (defined o).
Proof. intros [x ->]. by eexists. Qed.

Lemma active_defined : exists i u, getActiveConnection p = Some i /\ uris p !! i = Some u.
Proof.
  destruct (connection_some p Hp) as (i & u & Hi & _ & Hu); [|by exists i, u].
  unfold size. destruct (connections p); [done|cbn; lia].
Qed.

Lemma getMinerStat1_defined : is_Some (getMinerStat1 env p).
Proof.
  destruct active_defined as (i & u & Hi & Hu). unfold getMinerStat1. rewrite Hi. cbn. rewrite Hu. by eexists.
Qed.

Lemma perMiner_defined m : is_Some (getMinerStatDetailPerMiner env (farm p) m).
Proof.
  destruct Hst as (_ & Hrates & Hmem). unfold getMinerStatDetailPerMiner.
  apply bind_defined; [apply defined_some, Hmem|]. intros name _.
  apply bind_defined; [apply lift_defined|]. intros t Ht.
  assert (Hr : is_Some (float_to_u32 (ta_hashrate t))).
  { injection Ht as Ht. unfold array_get in Ht. destruct (0 <=? m_index m); [|done].
    destruct (telemetry_miners (farm p) !! _) as [t'|] eqn:E; [|done]. injection Ht as <-.
    exact (Forall_lookup_1 _ _ _ _ Hrates E). }
  apply bind_defined; [by apply defined_some|]. intros rate _.
  apply bind_defined; [apply lift_defined|]. intros hw _.
  apply bind_defined; [apply lift_defined|]. intros mi _. apply lift_defined.
Qed.

Lemma devices_defined l v : is_Some (devices_json env (farm p) l v).
Proof.
  revert v. induction l as [|m l IH]; intros v; cbn [devices_json]; [by eexists|].
  apply bind_defined; [apply perMiner_defined|]. intros d _. apply IH.
Qed.

Lemma getMinerStatDetail_defined : is_Some (getMinerStatDetail env p).
Proof.
  destruct active_defined as (i & u & Hi & Hu), Hst as (Hrate & _ & _). unfold getMinerStatDetail.
  apply bind_defined; [apply lift_defined|]. intros hi _.
  apply bind_defined; [by rewrite Hi; eexists|]. intros c Hc. rewrite Hi in Hc. injection Hc as <-.
  apply bind_defined; [by rewrite Hu; eexists|]. intros u' _.
  apply bind_defined; [by apply defined_some|]. intros cl _.
  apply bind_defined; [apply lift_defined|]. intros ci _.
  apply bind_defined; [by apply defined_some|]. intros rate _.
  apply bind_defined; [apply lift_defined|]. intros mi _.
  apply bind_defined; [apply lift_defined|]. intros mo _.
  apply bind_defined; [apply devices_defined|]. intros dv _. apply lift_defined.
Qed.

Lemma connections_json_defined : is_Some (connections_json p).
Proof.
  unfold connections_json. apply bind_defined.
  - apply defined_some. unfold getConnectionsJson. apply mapM_is_Some_2.
    apply Forall_lookup_2. intros k [i c] Hk. apply list_lookup_imap_Some in Hk as (c' & Hc & Heq).
    injection Heq as -> ->. pose proof (Forall_lookup_1 _ _ _ _ (po_conns p Hp) Hc) as Hlt. apply lookup_lt_is_Some_2 in Hlt as [u Hu].
    cbn. rewrite Hu. by eexists.
  - intros l _. generalize (@nullValue lib). intros v.
    assert (H : forall (acc : partial Value), is_Some acc ->
      is_Some (foldl (fun acc '(i, active, uri) =>
        jRes ← acc;
        JConn ← lift (object [("index"%string, json_uint i); ("active"%string, json_bool active);
                              ("uri"%string, json_string (text uri))]);
        mret (append jRes JConn)) acc l)).
    { induction l as [|[[i b] u] l IH]; intros acc Hacc; [done|]. cbn [foldl]. apply IH.
      apply bind_defined; [done|]. intros j _. apply bind_defined; [apply lift_defined|].
      intros c _. by eexists. }
    apply H. by eexists.
Qed.

Lemma setActiveCommon_defined idx : is_Some (setActiveConnectionCommon idx p).
Proof.
  unfold setActiveConnectionCommon. destruct (m_async_pending p); [by eexists|].
  destruct (negb _); [|by eexists]. destruct Hcl as [c Hc].
  cbn [p_client set_attempt set_active set_switches set_pending]. rewrite Hc. by eexists.
Qed.

Lemma find_connection_defined conns s k :
  Forall (fun i => (i < length (uris p))%nat) conns -> is_Some (find_connection (uris p) conns s k).
Proof.
  revert k. induction conns as [|i conns IH]; intros k Hc; cbn [find_connection]; [by eexists|].
  apply Forall_cons in Hc as [Hi Hc]. apply lookup_lt_is_Some_2 in Hi as [u ->]. cbn [mbind option_bind].
  destruct (iequals _ _); [by eexists|]. by apply IH.
Qed.

Lemma requests_defined a : a_pool a = p -> ~ method_undefined env a.
Proof.
  intros Ha. unfold method_undefined. rewrite Ha.
  pose proof getMinerStat1_defined as [? H1]. pose proof getMinerStatDetail_defined as [? H2].
  pose proof connections_json_defined as [? H3]. rewrite H1, H2, H3.
  intros [H|[H|[H|[[idx H]|[s H]]]]]; try discriminate H.
  - unfold setActiveConnection in H. destruct (size p <=? idx); [done|].
    destruct (setActiveCommon_defined idx) as [? E]. by rewrite E in H.
  - unfold setActiveConnection_str in H.
    destruct (find_connection_defined (connections p) s 0 (po_conns p Hp)) as [[idx|] E]; rewrite E in H;
      [|done]. cbn [mbind option_bind] in H. destruct (setActiveCommon_defined idx) as [? E']. by rewrite E' in H.
Qed.
End Defined.

(** ** The theorems about requests *)

(** The members of a response. *)
Definition has_member {lib : JsonLib} (v : Value) (k : string) : bool :=
  match isMember v k with Ok b => b | Throw _ => false end.

Lemma response_members {lib : JsonLib} {laws : JsonLaws lib} v id e s :
  response v id e s -> has_member v "jsonrpc" = true /\ has_member v "id" = true /\
    has_member v "error" = e /\ has_member v "result" = s.
Proof.
  intros (r & Hm & Hj & Hi & He & Hs & _). unfold has_member. rewrite !isMember_spec, Hm, Hj, Hi. auto.
Qed.

Definition initial {lib : JsonLib} (c : ApiConnection) (p : PoolManager) (log : Z) : api :=
  mk_api _ c p log nullValue.


Section Found.
Context {lib : JsonLib} {laws : JsonLaws lib}.

Lemma get_found {A} isT (asT : Value -> A) k ref v o x a :
  members v = Some o -> o !! k = Some x -> isT x = true -> json_empty x = false ->
  getRequestValue isT asT k ref v false a = Some (Ok (true, asT x), a).
Proof.
  intros Hv Hx Ht He. unfold getRequestValue, run, lift, mbind, api_bind.
  rewrite isMember_spec, member_spec, Hv, Hx. cbn. by rewrite Ht, He.
Qed.

Lemma get_string_found k v o s a :
  members v = Some o -> o !! k = Some (json_string s) -> get_string k v a = Some (Ok (true, s), a).
Proof.
  intros Hv Hx. destruct (string_spec s) as [H1 H2]. unfold get_string.
  rewrite (get_found _ _ _ _ _ _ _ _ Hv Hx H1), H2; [done|]. apply empty_spec. auto.
Qed.

Lemma parse_found v o n a :
  members v = Some o -> o !! "id"%string = Some (json_uint n) -> in_word 32 n ->
  parseRequestId v a = (_ ← respond "id" (json_uint n); mret true) a.
Proof.
  intros Hv Hx Hn. destruct (uint_spec n Hn) as [H1 H2]. unfold parseRequestId, run, lift, mbind, api_bind.
  rewrite isMember_spec, member_spec, Hv, Hx. cbn. rewrite (empty_spec (json_uint n)) by auto. by rewrite H1, H2.
Qed.
End Found.

(** A password without NUL characters of at most 500 characters is not changed
    by the copy. *)
Definition plain (s : string) : Prop :=
  (length (chars s) <= max_length)%nat /\ Forall (fun c => c <> zero) (chars s).

Lemma copy_prefix (l l' : list ascii) n m :
  Forall (fun c => c <> zero) l -> Forall (fun c => c <> zero) l' ->
  l ++ replicate n zero = l' ++ replicate m zero -> l = l'.
Proof.
  revert l'. induction l as [|x l IH]; intros [|y l'] Hl Hl' H; cbn in *; try done.
  - destruct n; [done|]. cbn in H. injection H as <- _. by apply Forall_cons in Hl' as [? _].
  - destruct m; [done|]. cbn in H. injection H as -> _. by apply Forall_cons in Hl as [? _].
  - injection H as -> H. apply Forall_cons in Hl as [_ Hl], Hl' as [_ Hl']. f_equal. by apply (IH l').
Qed.

Lemma password_copy_plain a b : plain a -> plain b -> password_copy a = password_copy b <-> a = b.
Proof.
  intros [Ha Ha'] [Hb Hb']. split; [|by intros ->]. unfold password_copy. rewrite !take_ge by done.
  intros H%copy_prefix; [|done|done]. rewrite <-(string_of_list_ascii_of_string a), <-(string_of_list_ascii_of_string b).
  unfold chars in H. by rewrite H.
Qed.

(** A request to authorise with a password. *)
Definition authorisation {lib : JsonLib} {laws : JsonLaws lib} (v : Value) (n : Z) (psw : string) : Prop :=
  exists r params q, members v = Some r /\ r !! "id"%string = Some (json_uint n) /\
    r !! "jsonrpc"%string = Some (json_string "2.0") /\
    r !! "method"%string = Some (json_string "api_authorize") /\
    r !! "params"%string = Some params /\ isObject params = true /\ json_empty params = false /\
    members params = Some q /\ q !! "psw"%string = Some (json_string psw).

Lemma authorise_eq {lib : JsonLib} {laws : JsonLaws lib} v n psw a :
  authorisation v n psw ->
  let c := set_authenticated (a_conn a) false in
  let a1 := mk_api _ c (a_pool a) (g_logOptions a) (jResponse a) in
  api_authorize v a =
    (if password_differs psw (ac_password c) =? 0 then set_conn (set_authenticated c true)
     else error (-401) "Invalid password") a1.
Proof.
  intros (r & params & q & Hr & _ & _ & _ & Hp & Ho & He & Hq & Hs) c a1.
  unfold api_authorize, with_params, get_object. unfold mbind at 1 2 3, api_bind at 1 2 3, gets, set_conn at 1.
  fold c. fold a1. rewrite (get_found _ _ _ _ _ _ _ _ Hr Hp Ho He). cbn [negb]. unfold id.
  unfold mbind, api_bind. by rewrite (get_string_found _ _ _ _ _ Hq Hs).
Qed.

Lemma spec_eq {lib : JsonLib} {A} U (m m' : api_m A) a a' Q : m a = m' a' -> spec U m' a' Q -> spec U m a Q.
Proof. unfold spec. by intros ->. Qed.

Lemma spec_found {lib : JsonLib} {A} U (m : api_m A) a x Q :
  m a = Some (Ok x, a) -> spec U m a Q = Q (Ok x) a.
Proof. unfold spec. by intros ->. Qed.

(** A request to authorise leaves the connection authenticated exactly if the
    password it carries and the configured one agree when both are cut to 500
    characters and filled up with NUL characters, so for passwords of at most 500
    characters without NUL exactly if they are equal; otherwise the answer is
    an error, and the rest of the program is left alone in any case.  The
    answer to a successful request has neither a result nor an error. *)
Theorem api_authorize_correct (lib : JsonLib) (laws : JsonLaws lib) (env : api_env) (jRequest : Value)
    (n : Z) (psw : string) (c : ApiConnection) (p : PoolManager) (log : Z) :
  authorisation jRequest n psw -> in_word 32 n ->
  exists a, processRequest env jRequest (initial c p log) = Some (Ok tt, a) /\
    a_pool a = p /\ g_logOptions a = log /\
    (m_is_authenticated (a_conn a) = true <-> password_copy psw = password_copy (ac_password c)) /\
    (plain psw -> plain (ac_password c) -> (m_is_authenticated (a_conn a) = true <-> psw = ac_password c)) /\
    has_member (jResponse a) "error" = negb (m_is_authenticated (a_conn a)) /\
    has_member (jResponse a) "result" = false.
Proof.
  intros Hauth Hn. pose proof Hauth as (r & params & q & Hr & Hid & Hj & Hm & _).
  pose (Q o a := o = Ok tt /\ a_pool a = p /\ g_logOptions a = log /\
    (m_is_authenticated (a_conn a) = true <-> password_copy psw = password_copy (ac_password c)) /\
    has_member (jResponse a) "error" = negb (m_is_authenticated (a_conn a)) /\
    has_member (jResponse a) "result" = false).
  assert (H : spec False (processRequest env jRequest) (initial c p log) Q).
  { unfold processRequest. apply spec_bind, (spec_respond _ _ _ (initial c p log) _ _ members_null). intros v0 Hv0.
    apply spec_bind, (spec_eq _ _ _ _ _ _ (parse_found _ _ _ _ Hr Hid Hn)).
    apply spec_bind, (spec_respond _ _ _ (with_response _ v0) _ _ Hv0). intros v Hv. apply spec_ret.
    apply spec_bind. rewrite (spec_found _ _ _ _ _ (get_string_found _ _ _ _ _ Hr Hj)). cbn [negb orb String.eqb].
    apply spec_bind. rewrite (spec_found _ _ _ _ _ (get_string_found _ _ _ _ _ Hr Hm)). cbn [negb].
    apply spec_bind, spec_gets. rewrite orb_true_r. cbn [negb String.eqb Ascii.eqb Bool.eqb].
    assert (Hres : response v (json_uint n) false false).
    { eexists. split; [exact Hv|]. cbn. split_and!; try done. exists ∅. apply members_null. }
    apply (spec_eq _ _ _ _ _ _ (authorise_eq _ _ _ _ Hauth)). apply spec_if; intros Hd.
    - apply Z.eqb_eq, password_differs_spec in Hd. destruct (response_members _ _ _ _ Hres) as (_ & _ & He & Hs).
      unfold spec, set_conn, Q. cbn. by rewrite He, Hs.
    - apply Z.eqb_neq in Hd. rewrite password_differs_spec in Hd.
      apply (spec_error _ _ _ (mk_api _ _ _ _ v) _ _ _ _ Hres). intros v' Hv'.
      destruct (response_members _ _ _ _ Hv') as (_ & _ & He & Hs). unfold Q. cbn. by rewrite He, Hs. }
  unfold spec in H. destruct (processRequest _ _ _) as [[o a]|]; [|done]. destruct H as (-> & H1 & H2 & H3 & H4 & H5).
  exists a. split_and!; try done. intros Hp Hq. rewrite H3. by apply password_copy_plain.
Qed.

(** ** Cutting the received text into requests *)

Section Lines.
Context {lib : JsonLib} {laws : JsonLaws lib} (io : api_io).

(** The responses to lines, blank ones being skipped. *)
Fixpoint serve_lines (ls : list (list ascii)) (w : world) : option (list Value * world) :=
  match ls with
  | [] => Some ([], w)
  | l :: ls =>
      match trim l with
      | [] => serve_lines ls w
      | l =>
          match serve io l w with
          | Some (Ok v, w) => '(vs, w) ← serve_lines ls w; Some (v :: vs, w)
          | _ => None
          end
      end
  end.

Lemma put_all_ok l (v : Value) o :
  members v = Some o -> exists v' o', put_all v l = Ok v' /\ members v' = Some o'.
Proof.
  revert v o. induction l as [|[k x] l IH]; intros v o Hv; [by exists v, o|].
  pose proof (put_spec v k x) as Hp. rewrite Hv in Hp. destruct Hp as (v' & E & Hv').
  destruct (IH v' _ Hv') as (v'' & o'' & E' & H''). exists v'', o''. split; [|done].
  unfold put_all in *. cbn. by rewrite E.
Qed.

Lemma failure_response_ok code message : exists v, failure_response code message = Ok v.
Proof.
  unfold failure_response, object.
  destruct (put_all_ok [("errorcode"%string, json_string code); ("message"%string, json_string message)]
    nullValue ∅ members_null) as (e & _ & -> & _).
  destruct (put_all_ok [("jsonrpc"%string, json_string "2.0"); ("id"%string, nullValue); ("error"%string, e)]
    nullValue ∅ members_null) as (v & _ & E & _).
  exists v. exact E.
Qed.

Lemma serve_no_throw l w o w' : serve io l w = Some (o, w') -> exists v, o = Ok v.
Proof.
  unfold serve. destruct (io_parse io l) as [errors|jMsg].
  - intros [= <- <-]. apply failure_response_ok.
  - destruct (processRequest _ _ _) as [[[[]|e] a]|]; intros H; [|injection H as <- <-; apply failure_response_ok|done].
    injection H as <- <-. by eexists.
Qed.

(** What the socket has been given after the responses. *)
Definition sent (so : ApiSocket) (vs : list Value) : list (list ascii * bool) :=
  so_sent so ++ ((fun v => (io_write io v ++ [newline], false)) <$> vs).

Lemma process_lines_eq fuel w so :
  so_open so = true -> (length (m_message so) < fuel)%nat ->
  process_lines io fuel w so =
  '(vs, w') ← serve_lines (split_lines (m_message so)).1 w;
  Some (Ok tt, w', mk_ApiSocket (split_lines (m_message so)).2 true (so_reading so) (sent so vs)).
Proof.
  revert w so. induction fuel as [|fuel IH]; intros w so Ho Hf; [lia|]. cbn [process_lines].
  pose proof (cut_line_split (m_message so)) as Hcut.
  destruct (cut_line (m_message so)) as [[l rest]|].
  - destruct Hcut as [-> Hlen]. cbn [fst snd serve_lines].
    destruct (trim l) as [|c l'].
    { rewrite IH; [done|done|cbn; lia]. }
    destruct (serve io (c :: l') w) as [[o w']|] eqn:Es; [|done].
    destruct (serve_no_throw _ _ _ _ Es) as [v ->].
    rewrite IH; [|unfold send_json, send_text; by rewrite !Ho|cbn; lia].
    unfold send_json, send_text. rewrite Ho. cbn [m_message set_message so_reading set_sent so_sent].
    destruct (serve_lines _ w') as [[vs w'']|]; [|done]. cbn [mbind option_bind].
    unfold sent. cbn [so_sent set_message set_sent fmap list_fmap]. by rewrite <-app_assoc.
  - destruct Hcut as [-> ->]. cbn [serve_lines mbind option_bind]. unfold sent. cbn [fmap list_fmap].
    rewrite app_nil_r, <-Ho. by destruct so.
Qed.

Lemma serve_lines_app ls ls' w :
  serve_lines (ls ++ ls') w =
  '(vs, w1) ← serve_lines ls w; '(vs', w2) ← serve_lines ls' w1; Some (vs ++ vs', w2).
Proof.
  revert w. induction ls as [|l ls IH]; intros w; cbn [app serve_lines].
  - cbn [mbind option_bind]. by destruct (serve_lines ls' w) as [[vs w2]|].
  - destruct (trim l); [apply IH|]. destruct (serve io _ w) as [[[v|e] w1]|]; [|done|done].
    rewrite IH. destruct (serve_lines ls w1) as [[vs w2]|]; [|done]. cbn [mbind option_bind].
    by destruct (serve_lines ls' w2) as [[vs' w3]|].
Qed.

Lemma on_data_eq data w so :
  so_open so = true -> (4 <= length (m_message so ++ data))%nat -> match_http (m_message so ++ data) = None ->
  on_data io data w so =
  '(vs, w') ← serve_lines (split_lines (m_message so ++ data)).1 w;
  Some (Ok tt, w', mk_ApiSocket (split_lines (m_message so ++ data)).2 true true (sent so vs)).
Proof.
  intros Ho Hl Hh. unfold on_data. cbn [m_message set_message set_reading].
  rewrite (proj2 (Nat.ltb_ge _ _) Hl), Hh. rewrite process_lines_eq; [|done|cbn; lia].
  cbn [m_message set_message]. by destruct (serve_lines _ w) as [[vs w']|].
Qed.
End Lines.


(** A request that arrives in pieces so small that less than four characters are
    there leaves the connection without an outstanding read, so that the rest of
    the request is never received. *)
Theorem api_short_read_stalls (lib : JsonLib) (io : api_io) (data : list ascii) (w : world) (so : ApiSocket) :
  (length (m_message so ++ data) < 4)%nat ->
  on_data io data w so = Some (Ok tt, w, mk_ApiSocket (m_message so ++ data) (so_open so) false (so_sent so)).
Proof. intros Hl. unfold on_data. cbn [m_message set_message]. by rewrite (proj2 (Nat.ltb_lt _ _) Hl). Qed.

(** The pages served over HTTP are served whether the connection is
    authenticated or not. *)
Theorem http_ignores_password (lib : JsonLib) (io : api_io) (w : world) (rest body : list ascii) :
  io_page io (w_pool w) = Some (Ok body) ->
  let request := chars "GET / HTTP/1.1" ++ rest in
  forall b, exists answer, on_data io request
      (mk_world (set_authenticated (w_conn w) b) (w_pool w) (w_log w)) ApiSocket_new =
    Some (Ok tt, mk_world (set_authenticated (w_conn w) b) (w_pool w) (w_log w),
          mk_ApiSocket [] true false [(answer ++ body, true)]).
Proof.
  intros Hpage request b. eexists. unfold on_data. cbn [m_message set_message set_reading ApiSocket_new app].
  replace (length request <? 4)%nat with false by (by destruct rest).
  replace (match_http request) with (Some ("GET", "/", "HTTP/1.1")%string) by reflexivity.
  unfold http_answer. cbn. rewrite Hpage. reflexivity.
Qed.

(** ** Examples *)

Definition env_example : api_env :=
  mk_api_env 0 0 "etcminer" None (mk_FileProbe (Ok false) (Ok 0) None (Ok tt)) (fun _ => "exception"%string)
    (fun _ => None) (fun _ => mk_DeviceInfo SubCuda "0000:01:00.0" DtGpu "board" 4294967296) false.

Definition api_pool_example : PoolManager := set_client pool_example (Some (mk_PoolClient STRATUM true (Some 0%nat))).

Lemma api_pool_example_ok : pool_ok api_pool_example.
Proof.
  apply (pool_ok_same pool_example); try done.
  apply PoolManager_new_ok; [|done|apply Farm_new_ok]. refine (bool_decide_unpack _ _). vm_compute. exact I.
Qed.

Definition request_example (method : string) (params : json) : json :=
  JObject [("id"%string, JInt 1); ("jsonrpc"%string, JString "2.0"); ("method"%string, JString method);
           ("params"%string, params)].


Lemma api_authorize_correct_witness :
  exists a, @processRequest json_lib env_example
      (request_example "api_authorize" (JObject [("psw"%string, JString "secret")]))
      (@initial json_lib (ApiConnection_new 1 false "secret") api_pool_example 0) = Some (Ok tt, a) /\
    (m_is_authenticated (a_conn a) = true <-> password_copy "secret" = password_copy "secret").
Proof.
  destruct (api_authorize_correct json_lib json_laws env_example
    (request_example "api_authorize" (JObject [("psw"%string, JString "secret")])) 1 "secret"
    (ApiConnection_new 1 false "secret") api_pool_example 0) as (a & E & _ & _ & H & _).
  - eexists _, _, _. split; [reflexivity|]. do 3 (split; [vm_compute; reflexivity|]).
    split; [vm_compute; reflexivity|]. split; [reflexivity|]. split; [reflexivity|]. split; [reflexivity|].
    vm_compute. reflexivity.
  - unfold in_word. lia.
  - exists a. exact (conj E H).
Defined.

Definition io_example : @api_io json_lib :=
  mk_api_io json_lib env_example
    (fun l => if String.eqb (text l) "ping" then inr (request_example "miner_ping" JNull) else inl "bad"%string)
    (fun v => match v with JObject _ => chars "object" | _ => chars "value" end)
    (fun _ => Some (Ok [])) (fun _ => Some (Ok [])).


(** ** Sessions *)

Definition session_ids (s : ApiServer) : list Z := (fun x => m_sessionId x.1) <$> m_sessions s.

Record server_ok (s : ApiServer) : Prop := {
  so_distinct : NoDup (session_ids s);
  so_below : Forall (fun id => 0 < id <= lastSessionId s) (session_ids s);
  so_next : forall x, s_pending s = Some x -> m_sessionId x.1 = lastSessionId s /\ 0 < lastSessionId s /\
    lastSessionId s ∉ session_ids s;
  so_mode : Forall (fun x => m_readonly x.1 = s_readonly s /\ ac_password x.1 = s_password s)
    (m_sessions s ++ option_list (s_pending s));
  so_counter : 0 <= lastSessionId s < 2 ^ 31
}.

Lemma erase_sublist id l : sublist (erase_session id l) l.
Proof.
  induction l as [|[c so] l IH]; cbn; [constructor|]. destruct (m_sessionId c =? id); by constructor.
Qed.

Lemma begin_accept_ok s s' :
  server_ok s -> s_pending s = None -> begin_accept s = Some s' -> server_ok s'.
Proof.
  intros [H1 H2 H3 H4 H5] Hp. unfold begin_accept. destruct (negb (s_running s)); [by intros [= <-]|].
  destruct (Z.leb_spec (2 ^ 31) (lastSessionId s + 1)) as [|Hlt]; [done|]. intros [= <-].
  split; unfold session_ids in *; cbn; try done.
  - apply (Forall_impl _ _ _ H2). lia.
  - intros x [= <-]. split; [done|]. split; [lia|]. intros Hin. rewrite Forall_forall in H2. apply H2 in Hin. lia.
  - rewrite Hp in H4. apply Forall_app in H4 as [H4 _]. apply Forall_app. split; [done|].
    by repeat constructor.
  - lia.
Qed.

(** A change of the sessions that keeps a part of their numbers and their modes. *)
Lemma sessions_ok s l p :
  server_ok s -> sublist ((fun x => m_sessionId x.1) <$> l) (session_ids s) ->
  Forall (fun x => m_readonly x.1 = s_readonly s /\ ac_password x.1 = s_password s) l ->
  p = s_pending s \/ p = None ->
  forall r, server_ok (mk_ApiServer (s_password s) (s_portnumber s) (s_readonly s) r (lastSessionId s) l p).
Proof.
  intros [H1 H2 H3 H4 H5] Hl Hm Hp r. split; unfold session_ids in *; cbn.
  - by apply (sublist_NoDup _ _ H1).
  - apply Forall_forall. intros id Hid. rewrite Forall_forall in H2. by apply H2, (elem_of_sublist _ _ _ Hid).
  - intros x Hx. destruct Hp as [-> | ->]; [|done]. destruct (H3 x Hx) as (? & ? & Hn). do 2 (split; [done|]).
    intros Hin. by apply Hn, (elem_of_sublist _ _ _ Hin).
  - apply Forall_app in H4 as [_ H4]. apply Forall_app. split; [done|].
    destruct Hp as [-> | ->]; [done|constructor].
  - done.
Qed.

Lemma server_step_ok s s' : server_step s s' -> server_ok s -> server_ok s'.
Proof.
  intros Hstep Hok. pose proof Hok as [H1 H2 H3 H4 H5]. apply Forall_app in H4 as [Hm Hpm].
  destruct Hstep as [b s' Hp Hrun Hs| |ec s' [[c so] Hp] Hs|id|i c so b so' Hi].
  - unfold api_start in Hs. destruct (s_portnumber s =? 0); [by injection Hs as <-|].
    destruct b; [|by injection Hs as <-]. refine (begin_accept_ok _ _ _ _ Hs); [|done].
    apply (sessions_ok s); [done|reflexivity|done|by left].
  - unfold api_stop. destruct (negb (s_running s)); [done|].
    apply (sessions_ok s); [done|apply sublist_nil_l|constructor|by left].
  - unfold handle_accept in Hs. rewrite Hp in Hs. refine (begin_accept_ok _ _ _ _ Hs); [|done].
    destruct ec; cbn [negb]; [apply (sessions_ok s); [done|reflexivity|done|by right]|].
    destruct (H3 _ Hp) as (Hid & Hpos & Hnin). cbn in Hid. rewrite Hp in Hpm. cbn in Hpm.
    split; unfold session_ids in *; cbn; rewrite ?fmap_app; cbn; [| |done| |done].
    + apply NoDup_app. split; [done|]. rewrite Hid. split; [|apply NoDup_singleton].
      intros x Hx ->%list_elem_of_singleton. done.
    + apply Forall_app. split; [done|]. constructor; [lia|constructor].
    + rewrite app_nil_r. apply Forall_app. split; [done|]. apply Forall_singleton.
      by apply Forall_cons in Hpm as [? _].
  - apply (sessions_ok s); [done| | |by left].
    + apply fmap_sublist, erase_sublist.
    + apply Forall_forall. intros x Hx. rewrite Forall_forall in Hm.
      apply Hm, (elem_of_sublist _ _ _ Hx), erase_sublist.
  - apply (sessions_ok s); [done| | |by left].
    + rewrite list_fmap_insert. cbn. rewrite list_insert_id; [reflexivity|].
      by rewrite list_lookup_fmap, Hi.
    + apply Forall_insert; [done|]. exact (Forall_lookup_1 _ _ _ _ Hm Hi).
Qed.

Lemma erase_session_spec id l :
  NoDup ((fun x : ApiConnection * ApiSocket => m_sessionId x.1) <$> l) ->
  forall x, x ∈ erase_session id l <-> x ∈ l /\ m_sessionId x.1 <> id.
Proof.
  induction l as [|[c so] l IH]; intros Hnd x; cbn [erase_session].
  - rewrite elem_of_nil. tauto.
  - cbn in Hnd. apply NoDup_cons in Hnd as [Hn Hnd]. destruct (Z.eqb_spec (m_sessionId c) id) as [E|E].
    + rewrite elem_of_cons. split.
      * intros Hx. split; [by right|]. intros Hx'. apply Hn. rewrite E, <-Hx'.
        apply list_elem_of_fmap. by exists x.
      * by intros [[-> | Hx] Hne].
    + rewrite !elem_of_cons, IH by done. split; [|tauto]. intros [-> | ?]; [by split; [left|]|tauto].
Qed.

Lemma begin_accept_mode s s' :
  begin_accept s = Some s' -> s_readonly s' = s_readonly s /\ s_password s' = s_password s.
Proof. unfold begin_accept. repeat case_match; intros [= <-]; done. Qed.

Lemma server_step_mode s s' :
  server_step s s' -> s_readonly s' = s_readonly s /\ s_password s' = s_password s.
Proof.
  intros [b s'' _ _ Hs| |ec s'' _ Hs|id|i c so b so' _]; try done.
  - unfold api_start in Hs. destruct (_ =? _); [by injection Hs as <-|].
    destruct b; [|by injection Hs as <-]. by apply begin_accept_mode in Hs.
  - unfold api_stop. by destruct (negb _).
  - by apply begin_accept_mode in Hs.
Qed.

(** Whatever happens to a server, each of its sessions has a number of its own,
    with the password and the mode of the server; the session that waits to be accepted has the
    last number; and a session that disconnects is removed and no other.  A
    negative port number, and nothing else, makes every session read-only. *)
Theorem api_sessions_correct (portnum : Z) (password : string) (s : ApiServer) :
  rtc server_step (ApiServer_new portnum password) s ->
  NoDup (session_ids s) /\
  Forall (fun x => m_readonly x.1 = (portnum <? 0) /\ ac_password x.1 = password) (m_sessions s) /\
  (forall x, s_pending s = Some x -> m_sessionId x.1 = lastSessionId s) /\
  (forall id x, x ∈ m_sessions (on_disconnected id s) <-> x ∈ m_sessions s /\ m_sessionId x.1 <> id).
Proof.
  intros Hr.
  assert (H : server_ok s /\ s_readonly s = (portnum <? 0) /\ s_password s = password).
  { assert (H0 : server_ok (ApiServer_new portnum password) /\
      s_readonly (ApiServer_new portnum password) = (portnum <? 0) /\
      s_password (ApiServer_new portnum password) = password).
    { unfold ApiServer_new. destruct (portnum <? 0); (split; [split; cbn; try done; constructor|done]). }
    revert H0. induction Hr as [|s1 s2 s3 Hs _ IH]; [done|]. intros (Hok & Hro & Hpw). apply IH.
    split; [by apply (server_step_ok s1)|]. apply server_step_mode in Hs as [-> ->]. done. }
  destruct H as (Hok & Hro & Hpw). split; [apply Hok|]. split; [|split].
  - rewrite <-Hro, <-Hpw. pose proof (so_mode s Hok) as Hm. by apply Forall_app in Hm as [? _].
  - intros x Hx. by apply (so_next s Hok).
  - intros id x. apply erase_session_spec, (so_distinct s Hok).
Qed.

Lemma api_sessions_correct_witness :
  exists s, rtc server_step (ApiServer_new (-3333) "x") s /\ session_ids s = [1] /\
    Forall (fun x => m_readonly x.1 = true /\ ac_password x.1 = "x"%string) (m_sessions s).
Proof.
  destruct (api_start true (ApiServer_new (-3333) "x")) as [s1|] eqn:E1; [|discriminate E1].
  destruct (handle_accept false s1) as [s2|] eqn:E2; [|injection E1 as <-; discriminate E2].
  assert (Hr : rtc server_step (ApiServer_new (-3333) "x") s2).
  { eapply rtc_l; [by apply (ss_start _ true s1)|]. apply rtc_once, (ss_accept _ false); [|done].
    injection E1 as <-. by eexists. }
  exists s2. split; [exact Hr|]. split.
  - injection E1 as <-. injection E2 as <-. reflexivity.
  - exact (proj1 (proj2 (api_sessions_correct (-3333) "x" s2 Hr))).
Defined.

(** The detailed statistics, of a request or of a page, are undefined until the
    pool manager has made its first client. *)
Theorem stat_without_client (lib : JsonLib) (laws : JsonLaws lib) (env : api_env) (p : PoolManager) :
  p_client p = None -> getMinerStatDetail env p = None.
Proof.
  intros Hc. unfold getMinerStatDetail.
  destruct (put_all_ok
    [("version"%string, json_string (ae_version env));
     ("runtime"%string, json_uint (u64 (seconds (ae_now env - ae_start env))));
     ("name"%string, match ae_hostname env with Some n => json_string n | None => nullValue end)]
    nullValue ∅ members_null) as (hi & _ & E & _).
  unfold object. rewrite E. unfold mbind, partial_bind, lift.
  destruct (getActiveConnection p) as [i|]; [|done]. cbn. destruct (uris p !! i) as [u|]; [|done]. cbn.
  by rewrite Hc.
Qed.
