(* ===== verification/PoolClient.v ===== *)
(** * Clients of a pool ([libpool/PoolClient.h])

    What the clients have in common: the session, handlers as functions on the
    state of a client, rules to reason about them, and reading the values of
    responses.  [None] is undefined behaviour. *)

From Stdlib Require Import ZArith Lia Bool Ascii String Floats.SpecFloat.
From stdpp Require Import base numbers list strings.
From S2P Require Import Prelude Words Outcome CommonData FixedHash Floats Json.

Local Open Scope Z_scope.

(** ** The session *)

Definition default_boundary : list Z := [0; 0; 0; 0; 255; 255] ++ replicate 26 0.

(** [Session] (PoolClient.h). *)
Record Session := mk_Session {
  s_start : Z;
  s_subscribed : bool;
  s_authorized : bool;
  extraNonce : Z;
  extraNonceSizeBytes : Z;
  nextWorkBoundary : list Z;
  nextWorkDifficulty : double;
  firstMiningSet : bool;
  s_timeout : Z;
  sessionId : string;
  workerId : string;
  s_epoch : Z;
  lastTxStamp : Z
}.

Definition Session_new (now : Z) : Session :=
  mk_Session now false false 0 0 default_boundary (S754_zero false) false 30 "" "" 0 now.

Definition session_subscribed (x : bool) (s : Session) : Session :=
  mk_Session (s_start s) x (s_authorized s) (extraNonce s) (extraNonceSizeBytes s) (nextWorkBoundary s) (nextWorkDifficulty s)
    (firstMiningSet s) (s_timeout s) (sessionId s) (workerId s) (s_epoch s) (lastTxStamp s).
Definition session_authorized (x : bool) (s : Session) : Session :=
  mk_Session (s_start s) (s_subscribed s) x (extraNonce s) (extraNonceSizeBytes s) (nextWorkBoundary s) (nextWorkDifficulty s)
    (firstMiningSet s) (s_timeout s) (sessionId s) (workerId s) (s_epoch s) (lastTxStamp s).
Definition session_extraNonce (x : Z) (s : Session) : Session :=
  mk_Session (s_start s) (s_subscribed s) (s_authorized s) x (extraNonceSizeBytes s) (nextWorkBoundary s) (nextWorkDifficulty s)
    (firstMiningSet s) (s_timeout s) (sessionId s) (workerId s) (s_epoch s) (lastTxStamp s).
Definition session_extraNonceSizeBytes (x : Z) (s : Session) : Session :=
  mk_Session (s_start s) (s_subscribed s) (s_authorized s) (extraNonce s) x (nextWorkBoundary s) (nextWorkDifficulty s)
    (firstMiningSet s) (s_timeout s) (sessionId s) (workerId s) (s_epoch s) (lastTxStamp s).
Definition session_nextWorkBoundary (x : list Z) (s : Session) : Session :=
  mk_Session (s_start s) (s_subscribed s) (s_authorized s) (extraNonce s) (extraNonceSizeBytes s) x (nextWorkDifficulty s)
    (firstMiningSet s) (s_timeout s) (sessionId s) (workerId s) (s_epoch s) (lastTxStamp s).
Definition session_nextWorkDifficulty (x : double) (s : Session) : Session :=
  mk_Session (s_start s) (s_subscribed s) (s_authorized s) (extraNonce s) (extraNonceSizeBytes s) (nextWorkBoundary s) x
    (firstMiningSet s) (s_timeout s) (sessionId s) (workerId s) (s_epoch s) (lastTxStamp s).
Definition session_firstMiningSet (x : bool) (s : Session) : Session :=
  mk_Session (s_start s) (s_subscribed s) (s_authorized s) (extraNonce s) (extraNonceSizeBytes s) (nextWorkBoundary s) (nextWorkDifficulty s)
    x (s_timeout s) (sessionId s) (workerId s) (s_epoch s) (lastTxStamp s).
Definition session_timeout (x : Z) (s : Session) : Session :=
  mk_Session (s_start s) (s_subscribed s) (s_authorized s) (extraNonce s) (extraNonceSizeBytes s) (nextWorkBoundary s) (nextWorkDifficulty s)
    (firstMiningSet s) x (sessionId s) (workerId s) (s_epoch s) (lastTxStamp s).
Definition session_sessionId (x : string) (s : Session) : Session :=
  mk_Session (s_start s) (s_subscribed s) (s_authorized s) (extraNonce s) (extraNonceSizeBytes s) (nextWorkBoundary s) (nextWorkDifficulty s)
    (firstMiningSet s) (s_timeout s) x (workerId s) (s_epoch s) (lastTxStamp s).
Definition session_workerId (x : string) (s : Session) : Session :=
  mk_Session (s_start s) (s_subscribed s) (s_authorized s) (extraNonce s) (extraNonceSizeBytes s) (nextWorkBoundary s) (nextWorkDifficulty s)
    (firstMiningSet s) (s_timeout s) (sessionId s) x (s_epoch s) (lastTxStamp s).
Definition session_epoch (x : Z) (s : Session) : Session :=
  mk_Session (s_start s) (s_subscribed s) (s_authorized s) (extraNonce s) (extraNonceSizeBytes s) (nextWorkBoundary s) (nextWorkDifficulty s)
    (firstMiningSet s) (s_timeout s) (sessionId s) (workerId s) x (lastTxStamp s).
Definition session_lastTxStamp (x : Z) (s : Session) : Session :=
  mk_Session (s_start s) (s_subscribed s) (s_authorized s) (extraNonce s) (extraNonceSizeBytes s) (nextWorkBoundary s) (nextWorkDifficulty s)
    (firstMiningSet s) (s_timeout s) (sessionId s) (workerId s) (s_epoch s) x.

(** ** Handlers *)

(** A handler changes the state of its client and may throw. *)
Definition client_m (St A : Type) : Type := St -> option (outcome A * St).

Section Handlers.
Context {St : Type}.

#[export] Instance st_ret : MRet (client_m St) := fun A x s => Some (Ok x, s).
#[export] Instance st_bind : MBind (client_m St) := fun A B f m s =>
  match m s with
  | Some (Ok x, s) => f x s
  | Some (Throw e, s) => Some (Throw e, s)
  | None => None
  end.

Definition get {A} (f : St -> A) : client_m St A := fun s => Some (Ok (f s), s).
Definition update (f : St -> St) : client_m St unit := fun s => Some (Ok tt, f s).
Definition throwing {A} (o : outcome A) : client_m St A := fun s => Some (o, s).

Definition when (b : bool) (m : client_m St unit) : client_m St unit := if b then m else mret tt.

(** [try { ... } catch (const exception&) { ... }]. *)
Definition guarded (m : client_m St unit) : client_m St unit := fun s =>
  match m s with
  | Some (Throw e, s) => if bool_decide (e = ThrownPointer) then Some (Throw e, s) else Some (Ok tt, s)
  | r => r
  end.

(** *** Rules *)

(** [m] ends in a state with [Q], or [U] holds and it may be undefined. *)
Definition spec {A} (U : Prop) (m : client_m St A) (s : St) (Q : outcome A -> St -> Prop) : Prop :=
  match m s with Some (o, s') => Q o s' | None => U end.

(** [I] is an invariant of [m], whether it throws or not. *)
Definition keeps {A} (U : Prop) (I : St -> Prop) (m : client_m St A) : Prop :=
  forall s, I s -> spec U m s (fun _ => I).

Lemma spec_seq {A B} U (m : client_m St A) (f : A -> client_m St B) s Q :
  spec U m s (fun o s' => match o with Ok x => spec U (f x) s' Q | Throw e => Q (Throw e) s' end) ->
  spec U (m ≫= f) s Q.
Proof. unfold spec, mbind, st_bind. by destruct (m s) as [[[x|e] s']|]. Qed.

Lemma spec_weaken {A} U (m : client_m St A) s (P Q : outcome A -> St -> Prop) :
  spec U m s P -> (forall o s', P o s' -> Q o s') -> spec U m s Q.
Proof. unfold spec. destruct (m s) as [[o s']|]; auto. Qed.

Lemma spec_state {B} U (f : St -> client_m St B) s Q : spec U (f s) s Q -> spec U (get id ≫= f) s Q.
Proof. done. Qed.

Lemma spec_update {B} U g (f : unit -> client_m St B) s Q : spec U (f tt) (g s) Q -> spec U (update g ≫= f) s Q.
Proof. done. Qed.

Lemma spec_assign U g s (Q : outcome unit -> St -> Prop) : Q (Ok tt) (g s) -> spec U (update g) s Q.
Proof. done. Qed.

Lemma spec_throwing {A B} U (o : outcome A) (f : A -> client_m St B) s Q :
  (forall x, o = Ok x -> spec U (f x) s Q) -> (forall e, Q (Throw e) s) -> spec U (throwing o ≫= f) s Q.
Proof. intros Hf He. apply spec_seq. unfold spec at 1, throwing. destruct o; auto. Qed.

Lemma bind_update {A} g (f : unit -> client_m St A) s : (update g ≫= f) s = f tt (g s).
Proof. done. Qed.

Lemma bind_ret {A B} (x : B) (f : B -> client_m St A) s : (mret x ≫= f) s = f x s.
Proof. done. Qed.

Lemma bind_state {A} (f : St -> client_m St A) s : (get id ≫= f) s = f s s.
Proof. done. Qed.

Section Keeps.
Context (U : Prop) (I : St -> Prop).

Lemma keeps_bind {A B} (m : client_m St A) (f : A -> client_m St B) :
  keeps U I m -> (forall x, keeps U I (f x)) -> keeps U I (m ≫= f).
Proof.
  intros Hm Hf s Hs. apply spec_seq. apply (spec_weaken _ _ _ _ _ (Hm s Hs)).
  intros [x|e] s' Hs'; [by apply Hf|done].
Qed.

Lemma spec_keeps {A} (m : client_m St A) s : keeps U I m -> I s -> spec U m s (fun _ => I).
Proof. intros Hm. apply Hm. Qed.

Lemma keeps_ret {A} (x : A) : keeps U I (mret x : client_m St A).
Proof. by intros s Hs. Qed.

Lemma keeps_get {A} (f : St -> A) : keeps U I (get f).
Proof. by intros s Hs. Qed.

Lemma keeps_throwing {A} (o : outcome A) : keeps U I (throwing o).
Proof. by intros s Hs. Qed.

Lemma keeps_update f : (forall s, I s -> I (f s)) -> keeps U I (update f).
Proof. intros Hf s Hs. by apply Hf. Qed.

Lemma keeps_when b m : keeps U I m -> keeps U I (when b m).
Proof. intros Hm. unfold when. destruct b; [done|apply keeps_ret]. Qed.

Lemma keeps_if {A} (b : bool) (m n : client_m St A) : keeps U I m -> keeps U I n -> keeps U I (if b then m else n).
Proof. by destruct b. Qed.

Lemma keeps_guarded m : keeps U I m -> keeps U I (guarded m).
Proof.
  intros Hm s Hs. specialize (Hm s Hs). unfold spec, guarded in *.
  destruct (m s) as [[[x|e] s']|]; [done| |done]. by destruct (bool_decide _).
Qed.

End Keeps.

End Handlers.

(** Following the structure of a handler. *)
Ltac keeps_step :=
  lazymatch goal with
  | |- keeps _ _ (mbind _ _) => apply keeps_bind; [|intros ?]
  | |- keeps _ _ (mret _) => apply keeps_ret
  | |- keeps _ _ (get _) => apply keeps_get
  | |- keeps _ _ (throwing _) => apply keeps_throwing
  | |- keeps _ _ (when _ _) => apply keeps_when
  | |- keeps _ _ (guarded _) => apply keeps_guarded
  | |- keeps _ _ (match ?x with _ => _ end) => destruct x
  | |- keeps _ _ (let _ := _ in _) => cbv zeta
  end.

(** ** Values *)

(** Clocks count nanoseconds. *)
Definition milliseconds (d : Z) : Z := Z.quot d 1000000.
Definition in_seconds (d : Z) : Z := Z.quot d 1000000000.

(** [bounded_push] to a queue with room for [capacity] elements. *)
Definition push_within {A} (capacity : nat) (x : A) (q : list A) : list A :=
  if (length q <? capacity)%nat then q ++ [x] else q.

Lemma push_within_length {A} capacity (x : A) q :
  (length q <= capacity)%nat -> (length (push_within capacity x q) <= capacity)%nat.
Proof.
  intros Hq. unfold push_within. destruct (Nat.ltb_spec (length q) capacity); [|done].
  rewrite length_app. cbn. lia.
Qed.

(** Hashes are written and read as hexadecimal digits. *)
Lemma h_of_string_hex h p : hash_wf 32 h -> h_of_string 32 (h_hex h p) = Ok h.
Proof.
  intros [Hl Hb]. unfold h_of_string, h_hex. rewrite fromHex_toHex_bytes by done.
  cbn [mbind outcome_bind]. unfold h_of_bytes. rewrite Hl. cbn [Nat.eqb]. by rewrite take_ge by lia.
Qed.

Section Responses.
Context {lib : JsonLib} {rd : JsonRead lib}.

(** [jPrm.get(i, "").asString()]. *)
Definition text_at (v : Value) (i : Z) : outcome string :=
  toString (default (json_string "") (element v i)).

Definition text_of (v : Value) (k : string) : outcome string :=
  x ← json_get v k (json_string ""); toString x.

(** The text of an error: a string, or the elements or members of a composite
    ([processError] of both clients). *)
Definition error_text (responseObject : Value) : outcome string :=
  found ← isMember responseObject "error";
  e ← json_get responseObject "error" nullValue;
  if (found : bool) && negb (isNull e) then
    if isConvertibleToString e then toString e
    else if isConvertibleToArray e then
      foldl (fun acc i => r ← acc; t ← toString i; Ok (r +:+ t +:+ " ")%string) (Ok ""%string) (elements e)
    else if isConvertibleToObject e then
      foldl (fun acc '(k, v) => r ← acc; t ← toString v; Ok (r +:+ k +:+ ":" +:+ t +:+ " ")%string)
        (Ok ""%string) (named e)
    else Ok ""%string
  else Ok "Unknown error"%string.

End Responses.
