(* ===== verification/Getwork.v ===== *)
(** * The getwork client ([libpool/getwork/EthGetworkClient])

    A node that is asked for work over HTTP: one request per connection, asked
    again after a delay.  The state holds the operations that are outstanding;
    what the network reports when one of them completes is an argument of its
    handler.  [None] is undefined behaviour. *)

From Stdlib Require Import ZArith Lia Bool Ascii String Floats.SpecFloat.
From stdpp Require Import base numbers list gmap strings.
From S2P Require Import Prelude Outcome CommonData FixedHash Floats Miner Farm PoolURI Json Lines PoolClient.

Local Open Scope Z_scope.

(** ** State *)

(** How an operation ended. *)
Inductive error_code := Success | Aborted | Eof | Failure.

#[export] Instance error_code_eq_dec : EqDecision error_code.
Proof. solve_decision. Defined.

(** Operations of the resolver and the socket that are outstanding. *)
Inductive gw_op := OpResolve | OpConnect | OpWrite | OpRead.

#[export] Instance gw_op_eq_dec : EqDecision gw_op.
Proof. solve_decision. Defined.

(** Calls of the handlers the pool manager installed, and what is given to the
    socket. *)
Inductive gw_call :=
  | GwConnected
  | GwDisconnected
  | GwWork (w : WorkPackage)
  | GwAccepted (ms : Z) (miner : Z) (stale : bool)
  | GwRejected (ms : Z) (miner : Z)
  | GwConnectTo (endpoint : Z)
  | GwWrite (request : list ascii).

Section Getwork.
Context {lib : JsonLib} {rd : JsonRead lib}.

(** The members of [EthGetworkClient].  [gw_socket] tells whether the socket is
    open, [m_getwork_timer] the milliseconds the timer waits for if it is set. *)
Record getwork := mk_getwork {
  m_conn : option URI;
  m_connected : bool;
  m_session : option Session;
  m_connecting : bool;
  m_txPending : bool;
  m_txQueue : list (list ascii);
  gw_socket : bool;
  m_endpoints : list Z;
  m_endpoint : Z;
  m_request : list ascii;
  m_response : list ascii;
  m_pendingJReq : Value;
  m_pending_tstamp : Z;
  m_getwork_timer : option Z;
  m_farmRecheckPeriod : Z;
  m_worktimeout : Z;
  m_current : WorkPackage;
  m_current_tstamp : Z;
  m_solution_submitted_max_id : Z;
  gw_ops : list gw_op;
  gw_calls : list gw_call
}.

(** Assignments. *)
Definition put_conn (x : option URI) (s : getwork) : getwork :=
  mk_getwork x (m_connected s) (m_session s) (m_connecting s) (m_txPending s) (m_txQueue s) (gw_socket
    s) (m_endpoints s) (m_endpoint s) (m_request s) (m_response s) (m_pendingJReq s) (m_pending_tstamp
    s) (m_getwork_timer s) (m_farmRecheckPeriod s) (m_worktimeout s) (m_current s) (m_current_tstamp s)
    (m_solution_submitted_max_id s) (gw_ops s) (gw_calls s).
Definition put_connected (x : bool) (s : getwork) : getwork :=
  mk_getwork (m_conn s) x (m_session s) (m_connecting s) (m_txPending s) (m_txQueue s) (gw_socket s)
    (m_endpoints s) (m_endpoint s) (m_request s) (m_response s) (m_pendingJReq s) (m_pending_tstamp s)
    (m_getwork_timer s) (m_farmRecheckPeriod s) (m_worktimeout s) (m_current s) (m_current_tstamp s)
    (m_solution_submitted_max_id s) (gw_ops s) (gw_calls s).
Definition put_session (x : option Session) (s : getwork) : getwork :=
  mk_getwork (m_conn s) (m_connected s) x (m_connecting s) (m_txPending s) (m_txQueue s) (gw_socket s)
    (m_endpoints s) (m_endpoint s) (m_request s) (m_response s) (m_pendingJReq s) (m_pending_tstamp s)
    (m_getwork_timer s) (m_farmRecheckPeriod s) (m_worktimeout s) (m_current s) (m_current_tstamp s)
    (m_solution_submitted_max_id s) (gw_ops s) (gw_calls s).
Definition put_connecting (x : bool) (s : getwork) : getwork :=
  mk_getwork (m_conn s) (m_connected s) (m_session s) x (m_txPending s) (m_txQueue s) (gw_socket s)
    (m_endpoints s) (m_endpoint s) (m_request s) (m_response s) (m_pendingJReq s) (m_pending_tstamp s)
    (m_getwork_timer s) (m_farmRecheckPeriod s) (m_worktimeout s) (m_current s) (m_current_tstamp s)
    (m_solution_submitted_max_id s) (gw_ops s) (gw_calls s).
Definition put_txPending (x : bool) (s : getwork) : getwork :=
  mk_getwork (m_conn s) (m_connected s) (m_session s) (m_connecting s) x (m_txQueue s) (gw_socket s)
    (m_endpoints s) (m_endpoint s) (m_request s) (m_response s) (m_pendingJReq s) (m_pending_tstamp s)
    (m_getwork_timer s) (m_farmRecheckPeriod s) (m_worktimeout s) (m_current s) (m_current_tstamp s)
    (m_solution_submitted_max_id s) (gw_ops s) (gw_calls s).
Definition put_txQueue (x : list (list ascii)) (s : getwork) : getwork :=
  mk_getwork (m_conn s) (m_connected s) (m_session s) (m_connecting s) (m_txPending s) x (gw_socket s)
    (m_endpoints s) (m_endpoint s) (m_request s) (m_response s) (m_pendingJReq s) (m_pending_tstamp s)
    (m_getwork_timer s) (m_farmRecheckPeriod s) (m_worktimeout s) (m_current s) (m_current_tstamp s)
    (m_solution_submitted_max_id s) (gw_ops s) (gw_calls s).
Definition put_socket (x : bool) (s : getwork) : getwork :=
  mk_getwork (m_conn s) (m_connected s) (m_session s) (m_connecting s) (m_txPending s) (m_txQueue s) x
    (m_endpoints s) (m_endpoint s) (m_request s) (m_response s) (m_pendingJReq s) (m_pending_tstamp s)
    (m_getwork_timer s) (m_farmRecheckPeriod s) (m_worktimeout s) (m_current s) (m_current_tstamp s)
    (m_solution_submitted_max_id s) (gw_ops s) (gw_calls s).
Definition put_endpoints (x : list Z) (s : getwork) : getwork :=
  mk_getwork (m_conn s) (m_connected s) (m_session s) (m_connecting s) (m_txPending s) (m_txQueue s)
    (gw_socket s) x (m_endpoint s) (m_request s) (m_response s) (m_pendingJReq s) (m_pending_tstamp s)
    (m_getwork_timer s) (m_farmRecheckPeriod s) (m_worktimeout s) (m_current s) (m_current_tstamp s)
    (m_solution_submitted_max_id s) (gw_ops s) (gw_calls s).
Definition put_endpoint (x : Z) (s : getwork) : getwork :=
  mk_getwork (m_conn s) (m_connected s) (m_session s) (m_connecting s) (m_txPending s) (m_txQueue s)
    (gw_socket s) (m_endpoints s) x (m_request s) (m_response s) (m_pendingJReq s) (m_pending_tstamp s)
    (m_getwork_timer s) (m_farmRecheckPeriod s) (m_worktimeout s) (m_current s) (m_current_tstamp s)
    (m_solution_submitted_max_id s) (gw_ops s) (gw_calls s).
Definition put_request (x : list ascii) (s : getwork) : getwork :=
  mk_getwork (m_conn s) (m_connected s) (m_session s) (m_connecting s) (m_txPending s) (m_txQueue s)
    (gw_socket s) (m_endpoints s) (m_endpoint s) x (m_response s) (m_pendingJReq s) (m_pending_tstamp s)
    (m_getwork_timer s) (m_farmRecheckPeriod s) (m_worktimeout s) (m_current s) (m_current_tstamp s)
    (m_solution_submitted_max_id s) (gw_ops s) (gw_calls s).
Definition put_response (x : list ascii) (s : getwork) : getwork :=
  mk_getwork (m_conn s) (m_connected s) (m_session s) (m_connecting s) (m_txPending s) (m_txQueue s)
    (gw_socket s) (m_endpoints s) (m_endpoint s) (m_request s) x (m_pendingJReq s) (m_pending_tstamp s)
    (m_getwork_timer s) (m_farmRecheckPeriod s) (m_worktimeout s) (m_current s) (m_current_tstamp s)
    (m_solution_submitted_max_id s) (gw_ops s) (gw_calls s).
Definition put_pendingJReq (x : Value) (s : getwork) : getwork :=
  mk_getwork (m_conn s) (m_connected s) (m_session s) (m_connecting s) (m_txPending s) (m_txQueue s)
    (gw_socket s) (m_endpoints s) (m_endpoint s) (m_request s) (m_response s) x (m_pending_tstamp s)
    (m_getwork_timer s) (m_farmRecheckPeriod s) (m_worktimeout s) (m_current s) (m_current_tstamp s)
    (m_solution_submitted_max_id s) (gw_ops s) (gw_calls s).
Definition put_pending_tstamp (x : Z) (s : getwork) : getwork :=
  mk_getwork (m_conn s) (m_connected s) (m_session s) (m_connecting s) (m_txPending s) (m_txQueue s)
    (gw_socket s) (m_endpoints s) (m_endpoint s) (m_request s) (m_response s) (m_pendingJReq s) x
    (m_getwork_timer s) (m_farmRecheckPeriod s) (m_worktimeout s) (m_current s) (m_current_tstamp s)
    (m_solution_submitted_max_id s) (gw_ops s) (gw_calls s).
Definition put_getwork_timer (x : option Z) (s : getwork) : getwork :=
  mk_getwork (m_conn s) (m_connected s) (m_session s) (m_connecting s) (m_txPending s) (m_txQueue s)
    (gw_socket s) (m_endpoints s) (m_endpoint s) (m_request s) (m_response s) (m_pendingJReq s)
    (m_pending_tstamp s) x (m_farmRecheckPeriod s) (m_worktimeout s) (m_current s) (m_current_tstamp s)
    (m_solution_submitted_max_id s) (gw_ops s) (gw_calls s).
Definition put_current (x : WorkPackage) (s : getwork) : getwork :=
  mk_getwork (m_conn s) (m_connected s) (m_session s) (m_connecting s) (m_txPending s) (m_txQueue s)
    (gw_socket s) (m_endpoints s) (m_endpoint s) (m_request s) (m_response s) (m_pendingJReq s)
    (m_pending_tstamp s) (m_getwork_timer s) (m_farmRecheckPeriod s) (m_worktimeout s) x
    (m_current_tstamp s) (m_solution_submitted_max_id s) (gw_ops s) (gw_calls s).
Definition put_current_tstamp (x : Z) (s : getwork) : getwork :=
  mk_getwork (m_conn s) (m_connected s) (m_session s) (m_connecting s) (m_txPending s) (m_txQueue s)
    (gw_socket s) (m_endpoints s) (m_endpoint s) (m_request s) (m_response s) (m_pendingJReq s)
    (m_pending_tstamp s) (m_getwork_timer s) (m_farmRecheckPeriod s) (m_worktimeout s) (m_current s) x
    (m_solution_submitted_max_id s) (gw_ops s) (gw_calls s).
Definition put_solution_submitted_max_id (x : Z) (s : getwork) : getwork :=
  mk_getwork (m_conn s) (m_connected s) (m_session s) (m_connecting s) (m_txPending s) (m_txQueue s)
    (gw_socket s) (m_endpoints s) (m_endpoint s) (m_request s) (m_response s) (m_pendingJReq s)
    (m_pending_tstamp s) (m_getwork_timer s) (m_farmRecheckPeriod s) (m_worktimeout s) (m_current s)
    (m_current_tstamp s) x (gw_ops s) (gw_calls s).
Definition put_ops (x : list gw_op) (s : getwork) : getwork :=
  mk_getwork (m_conn s) (m_connected s) (m_session s) (m_connecting s) (m_txPending s) (m_txQueue s)
    (gw_socket s) (m_endpoints s) (m_endpoint s) (m_request s) (m_response s) (m_pendingJReq s)
    (m_pending_tstamp s) (m_getwork_timer s) (m_farmRecheckPeriod s) (m_worktimeout s) (m_current s)
    (m_current_tstamp s) (m_solution_submitted_max_id s) x (gw_calls s).
Definition put_calls (x : list gw_call) (s : getwork) : getwork :=
  mk_getwork (m_conn s) (m_connected s) (m_session s) (m_connecting s) (m_txPending s) (m_txQueue s)
    (gw_socket s) (m_endpoints s) (m_endpoint s) (m_request s) (m_response s) (m_pendingJReq s)
    (m_pending_tstamp s) (m_getwork_timer s) (m_farmRecheckPeriod s) (m_worktimeout s) (m_current s)
    (m_current_tstamp s) (m_solution_submitted_max_id s) (gw_ops s) x.

Abbreviation gw_m := (client_m getwork).

(** Dereferencing [m_conn]. *)
Definition conn : gw_m URI := fun s =>
  match m_conn s with Some u => Some (Ok u, s) | None => None end.
Definition set_conn (f : URI -> URI) : gw_m unit := u ← conn; update (put_conn (Some (f u))).
Definition call (c : gw_call) : gw_m unit := update (fun s => put_calls (gw_calls s ++ [c]) s).
Definition start (op : gw_op) : gw_m unit := update (fun s => put_ops (gw_ops s ++ [op]) s).

(** [m_endpoints.pop()], undefined on an empty queue. *)
Definition pop_endpoint : gw_m unit := fun s =>
  match m_endpoints s with _ :: l => Some (Ok tt, put_endpoints l s) | [] => None end.

(** ** Handlers *)

(** The clock, the elements the queue of requests has room for, the writer and
    the reader of JSON (a flag and the value read). *)
Context (now : Z) (capacity : nat) (writeString : json -> list ascii) (parse : list ascii -> bool * Value).

(** *** Connecting *)

(** The handler of the pool manager takes the connection away. *)
Definition report_disconnected : gw_m unit := _ ← call GwDisconnected; update (put_conn None).

Definition disconnect : gw_m unit :=
  _ ← update (put_connected false);
  s ← get id;
  _ ← (match m_session s with
       | Some x => set_conn (fun u => addDuration u (Z.quot (in_seconds (now - s_start x)) 60))
       | None => mret tt
       end);
  _ ← update (fun s => put_getwork_timer None (put_txPending false (put_connecting false (put_session None s))));
  _ ← update (fun s => put_response [] (put_request [] (put_txQueue [] s)));
  report_disconnected.

Definition begin_connect : gw_m unit :=
  s ← get id;
  match m_endpoints s with
  | ep :: _ =>
      _ ← update (fun s => put_socket true (put_endpoint ep s));
      _ ← call (GwConnectTo ep);
      start OpConnect
  | [] => _ ← conn; disconnect
  end.

Definition send (sReq : list ascii) : gw_m unit :=
  _ ← update (fun s => put_txQueue (push_within capacity sReq (m_txQueue s)) s);
  s ← get id;
  if m_txPending s then mret tt
  else _ ← update (put_txPending true); begin_connect.

Definition send_json (jReq : json) : gw_m unit := send (writeString jReq).

(** [m_jsonGetWork], which the constructor writes. *)
Definition getwork_request : json :=
  JObject [("id"%string, JInt 1); ("jsonrpc"%string, JString "2.0"); ("method"%string, JString "eth_getWork");
           ("params"%string, JArray [])].
Definition m_jsonGetWork : list ascii := writeString getwork_request.

(** An address is endpoint 1. *)
Definition connect : gw_m unit :=
  s ← get id;
  if m_connecting s then mret tt else
  _ ← update (fun s => put_endpoint 0 (put_endpoints [] (put_getwork_timer None (put_connecting true s))));
  u ← conn;
  match m_hostType u with
  | HostDns | HostBasic => start OpResolve
  | _ =>
      _ ← update (fun s => put_endpoints (m_endpoints s ++ [1]) s);
      send m_jsonGetWork
  end.

Definition handle_resolve (ec : error_code) (endpoints : list Z) : gw_m unit :=
  if decide (ec = Success) then
    _ ← update (fun s => put_endpoints (m_endpoints s ++ endpoints) s);
    send m_jsonGetWork
  else _ ← conn; disconnect.

(** *** Requests *)

Definition crlf : list ascii := ["013"; "010"]%char.

Definition http_request (u : URI) (line : list ascii) : list ascii :=
  chars "POST " ++ (match m_path u with [] => chars "/" | p => p end) ++ chars " HTTP/1.0" ++ crlf ++
  chars "Host: " ++ m_host u ++ crlf ++
  chars "Content-Type: application/json" ++ crlf ++
  chars "Content-Length: " ++ dec_list (Z.of_nat (length line)) ++ crlf ++
  chars "Connection: close" ++ crlf ++ crlf ++
  line.

(** The first line of the queue that is not empty and what follows it. *)
Fixpoint next_line (q : list (list ascii)) : option (list ascii) * list (list ascii) :=
  match q with
  | [] => (None, [])
  | [] :: q => next_line q
  | line :: q => (Some line, q)
  end.

(** The first request waiting in the queue. *)
Definition transmit (q : list (list ascii)) : gw_m unit :=
  match q with
  | [] => update (put_txPending false)
  | _ =>
      let '(line, rest) := next_line q in
      _ ← update (put_txQueue rest);
      match line with
      | None => mret tt
      | Some line =>
          _ ← update (fun s => put_pending_tstamp now (put_pendingJReq (parse line).2 s));
          u ← conn;
          _ ← update (fun s => put_request (m_request s ++ http_request u line) s);
          s ← get id;
          _ ← call (GwWrite (m_request s));
          start OpWrite
      end
  end.

Definition handle_connect (ec : error_code) : gw_m unit :=
  s ← get id;
  if bool_decide (ec = Success) && gw_socket s then
    _ ← when (m_connecting s)
          (_ ← update (put_connected true);
           _ ← update (put_session (Some (session_authorized true (session_subscribed true (Session_new now)))));
           _ ← update (put_connecting false);
           _ ← call GwConnected;
           update (put_current_tstamp now));
    transmit (m_txQueue s)
  else if bool_decide (ec = Aborted) then mret tt
  else _ ← conn; _ ← pop_endpoint; begin_connect.

(** [sent] characters of the request were written. *)
Definition handle_write (ec : error_code) (sent : nat) : gw_m unit :=
  _ ← update (fun s => put_request (drop sent (m_request s)) s);
  if bool_decide (ec = Success) then start OpRead
  else if bool_decide (ec = Aborted) then mret tt
  else _ ← conn; _ ← pop_endpoint; begin_connect.

(** *** Responses *)

Definition processError (JRes : Value) : outcome string := error_text JRes.

(** [JPrm.get(i, "").asString()], which throws on a value that has no elements. *)
Definition parameter (v : Value) (i : Z) : outcome string :=
  if isNull v || isArray v then text_at v i else Throw JsonError.

Definition new_work (JPrm : Value) : outcome WorkPackage :=
  t ← parameter JPrm 0; header ← h_of_string 32 t;
  t ← parameter JPrm 1; seed ← h_of_string 32 t;
  t ← parameter JPrm 2; boundary ← h_of_string 32 t;
  Ok (mk_WorkPackage (h_hex header DontAdd) boundary header seed (-1) (-1) 0 0 (S754_zero false)).

Definition wait (ms : Z) : gw_m unit := update (put_getwork_timer (Some ms)).

(** The response to a request for work. *)
Definition work_response (_isSuccess : bool) (JRes : Value) : gw_m unit :=
  if negb _isSuccess then _ ← conn; wait 30000
  else
    found ← throwing (isMember JRes "result");
    if negb (found : bool) then _ ← conn; mret tt
    else
      newWp ← throwing (JPrm ← json_get JRes "result" nullValue; new_work JPrm);
      s ← get id;
      _ ← when (negb (h_eq (header (m_current s)) (header newWp)))
            (_ ← update (fun s => put_current_tstamp now (put_current newWp s));
             call (GwWork newWp));
      wait (m_farmRecheckPeriod s).

(** The response to a solution; the number of the request is that of the miner
    plus 40. *)
Definition solution_response (_id : Z) (_isSuccess : bool) (JRes : Value) : gw_m unit :=
  ok ← throwing (if _isSuccess then
                   result ← member JRes "result";
                   if isConvertibleToBool result then toBool result else Ok true
                 else Ok false);
  s ← get id;
  let _delay := milliseconds (now - m_pending_tstamp s) in
  call (if ok : bool then GwAccepted _delay (_id - 40) false else GwRejected _delay (_id - 40)).

Definition processResponse (JRes : Value) : gw_m unit :=
  found ← throwing (isMember JRes "id");
  if negb (found : bool) then _ ← conn; mret tt else
  s ← get id;
  _id ← throwing (v ← json_get (m_pendingJReq s) "id" (json_uint 0); toUInt v);
  e ← throwing (json_get JRes "error" nullValue);
  let _isSuccess := json_empty e in
  _ ← throwing (if _isSuccess then Ok ""%string else processError JRes);
  if (_id =? 0) || (_id =? 1) then work_response _isSuccess JRes
  else if _id =? 9 then mret tt
  else if (40 <=? _id) && (_id <=? m_solution_submitted_max_id s) then solution_response _id _isSuccess JRes
  else mret tt.

(** *** Receiving *)

(** [find(linedelimiter)]: the text before the first line end and after it. *)
Fixpoint cut_crlf (s : list ascii) : option (list ascii * list ascii) :=
  match s with
  | [] => None
  | c :: s' =>
      match s' with
      | d :: rest =>
          if Ascii.eqb c "013" && Ascii.eqb d "010" then Some ([], rest)
          else match cut_crlf s' with Some (line, rest) => Some (c :: line, rest) | None => None end
      | [] => None
      end
  end.

Definition starts_with (p l : list ascii) : bool := bool_decide (take (length p) l = p).

(** The first line of a response. *)
Definition http_status_ok (line : list ascii) : bool :=
  starts_with (chars "HTTP/1.") line &&
  match span (fun c => negb (Ascii.eqb c " ")) line with
  | (_, _ :: status) => starts_with (chars "200") status
  | (_, []) => false
  end.

Definition process_body (line : list ascii) : gw_m unit :=
  let '(ok, jRes) := parse line in
  if (ok : bool) then processResponse jRes else mret tt.

(** The lines of a response from [linenum] on; the value tells whether the
    connection is still open.  Every line has its end, so the length of the text
    is enough fuel. *)
Fixpoint read_lines (fuel : nat) (linenum : Z) (isHeader : bool) (rx_message : list ascii) : gw_m bool :=
  match fuel with
  | O => fun _ => None
  | S fuel =>
      match cut_crlf rx_message with
      | None => mret true
      | Some (line, rest) =>
          match line, cut_crlf rest with
          | [], Some _ => read_lines fuel (linenum + 1) false rest
          | [], None =>
              _ ← process_body (filter (fun c => negb (Ascii.eqb c "010")) rest);
              mret true
          | _, _ =>
              if isHeader && (linenum =? 1) && negb (http_status_ok line) then
                _ ← conn; _ ← disconnect; mret false
              else
                _ ← when (negb isHeader) (process_body line);
                read_lines fuel (linenum + 1) isHeader rest
          end
      end
  end.

(** [data] is what was read. *)
Definition handle_read (ec : error_code) (data : list ascii) : gw_m unit :=
  _ ← update (fun s => put_response (m_response s ++ data) s);
  if bool_decide (ec = Success) || bool_decide (ec = Eof) then
    _ ← update (put_socket false);
    s ← get id;
    let rx_message := take (length data) (m_response s) in
    _ ← update (put_response (drop (length data) (m_response s)));
    match rx_message with
    | [] => _ ← conn; disconnect
    | _ =>
        still ← read_lines (S (length rx_message)) 1 true rx_message;
        if negb (still : bool) then mret tt else
        s ← get id;
        match m_txQueue s with
        | [] => update (put_txPending false)
        | _ => begin_connect
        end
    end
  else if bool_decide (ec = Aborted) then mret tt
  else _ ← conn; disconnect.

(** *** Submissions *)

(** [rate] has 64 bits; [id] has its prefix. *)
Definition submitHashrate (rate : Z) (id : string) : gw_m unit :=
  s ← get Datatypes.id;
  match m_session s with
  | None => mret tt
  | Some _ =>
      send_json (JObject [("id"%string, JInt 9); ("jsonrpc"%string, JString "2.0");
                          ("method"%string, JString "eth_submitHashrate");
                          ("params"%string, JArray [JString (toHex64 rate Add 16); JString id])])
  end.

Definition solution_request (solution : Solution) : json :=
  JObject [("id"%string, JInt (u32 (40 + s_midx solution))); ("jsonrpc"%string, JString "2.0");
           ("method"%string, JString "eth_submitWork");
           ("params"%string, JArray [JString ("0x" +:+ toHex64 (s_nonce solution) DontAdd 16);
                                     JString ("0x" +:+ h_hex (header (s_work solution)) DontAdd);
                                     JString ("0x" +:+ h_hex (s_mixHash solution) DontAdd)])].

Definition submitSolution (solution : Solution) : gw_m unit :=
  s ← get id;
  match m_session s with
  | None => mret tt
  | Some _ =>
      _ ← update (fun s => put_solution_submitted_max_id
                             (Z.max (m_solution_submitted_max_id s) (u32 (40 + s_midx solution))) s);
      send_json (solution_request solution)
  end.

(** [ec]: the wait was cancelled. *)
Definition getwork_timer_elapsed (ec : bool) : gw_m unit :=
  if ec then mret tt else
  _ ← update (put_getwork_timer None);
  s ← get id;
  if m_worktimeout s <? in_seconds (now - m_current_tstamp s) then
    _ ← pop_endpoint;
    disconnect
  else send m_jsonGetWork.

(** ** The client *)

(** [max_id] is what the memory of a member that is not initialised holds. *)
Definition EthGetworkClient_new (worktimeout farmRecheckPeriod max_id : Z) : getwork :=
  mk_getwork None false None false false [] false [] 0 [] [] nullValue 0 None farmRecheckPeriod worktimeout
    WorkPackage_default 0 max_id [] [].

Definition setConnection (u : URI) : gw_m unit := update (put_conn (Some (set_Responds u false))).

(** What can happen to a client: calls of the pool manager and completions of
    what it started. *)
Inductive gw_event :=
  | GwSetConnection (u : URI)
  | GwConnect
  | GwDisconnect
  | GwHashrate (rate : Z) (rate_id : string)
  | GwSolution (solution : Solution)
  | GwResolved (ec : error_code) (endpoints : list Z)
  | GwConnectDone (ec : error_code)
  | GwWriteDone (ec : error_code) (sent : nat)
  | GwReadDone (ec : error_code) (data : list ascii)
  | GwTimer (ec : bool).

(** The operation an event completes. *)
Definition completes (e : gw_event) : option gw_op :=
  match e with
  | GwResolved _ _ => Some OpResolve
  | GwConnectDone _ => Some OpConnect
  | GwWriteDone _ _ => Some OpWrite
  | GwReadDone _ _ => Some OpRead
  | _ => None
  end.

Fixpoint remove_op (op : gw_op) (l : list gw_op) : list gw_op :=
  match l with
  | [] => []
  | x :: l => if decide (x = op) then l else x :: remove_op op l
  end.

Definition finish (e : gw_event) : gw_m unit :=
  match completes e with
  | Some op => update (fun s => put_ops (remove_op op (gw_ops s)) s)
  | None => mret tt
  end.

Definition handler (e : gw_event) : gw_m unit :=
  _ ← finish e;
  match e with
  | GwSetConnection u => setConnection u
  | GwConnect => connect
  | GwDisconnect => disconnect
  | GwHashrate rate id => submitHashrate rate id
  | GwSolution solution => submitSolution solution
  | GwResolved ec endpoints => handle_resolve ec endpoints
  | GwConnectDone ec => handle_connect ec
  | GwWriteDone ec sent => handle_write ec sent
  | GwReadDone ec data => handle_read ec data
  | GwTimer ec => getwork_timer_elapsed ec
  end.

Definition is_aborted (e : gw_event) : bool :=
  match e with
  | GwResolved ec _ | GwConnectDone ec | GwWriteDone ec _ | GwReadDone ec _ => bool_decide (ec = Aborted)
  | _ => false
  end.

(** The pool manager makes a client for a connection, connects it and
    disconnects it only when it is connected; operations complete and the timer
    runs out when they were started, and nothing aborts an operation but the end
    of the client. *)
Definition enabled (e : gw_event) (s : getwork) : bool :=
  match e with
  | GwSetConnection _ => bool_decide (m_conn s = None) && negb (m_connected s) && bool_decide (gw_ops s = [])
  | GwConnect => bool_decide (is_Some (m_conn s)) && negb (m_connected s)
  | GwDisconnect => m_connected s
  | GwTimer ec => ec || bool_decide (is_Some (m_getwork_timer s))
  | _ => match completes e with Some op => bool_decide (op ∈ gw_ops s) && negb (is_aborted e) | None => true end
  end.

End Getwork.
