(* ===== verification/GetworkCorrect.v ===== *)
(** * Correctness of the getwork client

    The safety of every sequence of events, the text of requests and responses,
    work and solutions, and what happens when a node does not answer. *)

From Stdlib Require Import ZArith Lia Bool Ascii String Floats.SpecFloat.
From stdpp Require Import base numbers list gmap strings.
From S2P Require Import Prelude Outcome CommonData FixedHash Floats Miner Farm PoolURI Json Lines PoolClient Getwork.

Local Open Scope Z_scope.

(** ** What the pool manager sees *)

(** A client is connected, gives work and verdicts while it is, and is
    disconnected: the state after these calls, if they are in such an order. *)
Fixpoint protocol (connected : bool) (l : list gw_call) : option bool :=
  match l with
  | [] => Some connected
  | c :: l =>
      match c with
      | GwConnected => if connected then None else protocol true l
      | GwDisconnected => protocol false l
      | GwWork _ | GwAccepted _ _ _ | GwRejected _ _ => if connected then protocol true l else None
      | GwConnectTo _ | GwWrite _ => protocol connected l
      end
  end.

Lemma protocol_app b l l' : protocol b (l ++ l') = b' ← protocol b l; protocol b' l'.
Proof.
  revert b. induction l as [|[] l IH]; intros b; cbn; try done; destruct b; auto.
Qed.

(** The miner a verdict is about. *)
Definition verdict_miner (c : gw_call) : option Z :=
  match c with GwAccepted _ i _ | GwRejected _ i => Some i | _ => None end.

Section Correct.
Context {lib : JsonLib} {rd : JsonRead lib}.

(** The number of a request. *)
Definition id_of (v : Value) : outcome Z := x ← json_get v "id" (json_uint 0); toUInt x.

(** What is relied on: a request that was written is not empty and is read with
    its number, and a value without a number has the default. *)
Class JsonText (writeString : json -> list ascii) (parse : list ascii -> bool * Value) : Prop := {
  text_request n l : in_word 32 n -> Forall (fun kv => kv.1 <> "id"%string) l ->
    let line := writeString (JObject (("id"%string, JInt n) :: l)) in
    line <> [] /\ id_of (parse line).2 = Ok n;
  text_null : id_of nullValue = Ok 0
}.

(** The connection is given up, by the pool manager or because there was no work
    for too long, only between two requests. *)
Definition settled (now : Z) (e : gw_event) (s : getwork) : bool :=
  match e with
  | GwDisconnect => bool_decide (gw_ops s = [])
  | GwTimer false =>
      negb (m_worktimeout s <? in_seconds (now - m_current_tstamp s)) || bool_decide (gw_ops s = [])
  | _ => true
  end.

(** ** Invariant *)

Section Invariant.
Context (capacity : nat) (writeString : json -> list ascii) (parse : list ascii -> bool * Value).

(** The numbers requests may have. *)
Context (K : Z -> Prop).

Definition asks (v : Value) : Prop := exists n, K n /\ id_of v = Ok n.
Definition request_line (line : list ascii) : Prop := line <> [] /\ asks (parse line).2.

Record core (s : getwork) : Prop := {
  core_session : m_connected s = true <-> is_Some (m_session s);
  core_conn : m_connected s = true -> is_Some (m_conn s);
  core_connecting : m_connected s = true -> m_connecting s = false;
  core_timer : is_Some (m_getwork_timer s) -> m_connected s = true;
  core_calls : protocol false (gw_calls s) = Some (m_connected s);
  core_queue : Forall request_line (m_txQueue s);
  core_pending : asks (m_pendingJReq s);
  core_verdicts : Forall (fun c => forall i, verdict_miner c = Some i -> 0 <= i /\ K (40 + i)) (gw_calls s)
}.

(** What is outstanding. *)
Definition phase (s : getwork) : Prop :=
  match gw_ops s with
  | [] => m_txPending s = false /\ m_connecting s = false /\ (m_connected s = true -> m_endpoints s <> [])
  | [OpResolve] =>
      m_txPending s = false /\ m_connecting s = true /\ m_connected s = false /\ m_endpoints s = [] /\ is_Some (m_conn s)
  | [OpConnect] =>
      m_txPending s = true /\ m_connecting s = negb (m_connected s) /\ m_endpoints s <> [] /\ is_Some (m_conn s)
  | [OpWrite] | [OpRead] => m_txPending s = true /\ m_connected s = true /\ m_endpoints s <> []
  | _ => False
  end.

Definition inv (s : getwork) : Prop :=
  core s /\ phase s /\ (m_txPending s = false -> m_txQueue s = []).

(** While a response is read. *)
Definition reading (s : getwork) : Prop :=
  core s /\ gw_ops s = [] /\ m_txPending s = true /\ m_connected s = true /\ m_endpoints s <> [].

(** *** Changes that keep it *)

Lemma core_same s s' :
  (m_connected s', m_session s', m_conn s', m_connecting s', m_getwork_timer s', gw_calls s', m_txQueue s', m_pendingJReq s') =
  (m_connected s, m_session s, m_conn s, m_connecting s, m_getwork_timer s, gw_calls s, m_txQueue s, m_pendingJReq s) ->
  core s -> core s'.
Proof. intros [= E1 E2 E3 E4 E5 E6 E7 E8] []. split; by rewrite ?E1, ?E2, ?E3, ?E4, ?E5, ?E6, ?E7, ?E8. Qed.

Lemma core_call c s :
  protocol (m_connected s) [c] = Some (m_connected s) ->
  (forall i, verdict_miner c = Some i -> 0 <= i /\ K (40 + i)) ->
  core s -> core (put_calls (gw_calls s ++ [c]) s).
Proof.
  intros Hc Hv []. split; try done.
  - cbn [gw_calls put_calls m_connected]. rewrite protocol_app, core_calls0. exact Hc.
  - apply Forall_app. split; [done|]. by apply Forall_singleton.
Qed.

(** The state after [disconnect]. *)
Definition closed (s : getwork) : getwork :=
  put_conn None (put_calls (gw_calls s ++ [GwDisconnected])
    (put_response [] (put_request [] (put_txQueue [] (put_getwork_timer None (put_txPending false
      (put_connecting false (put_session None (put_connected false s))))))))).

Lemma disconnect_closed now s :
  (is_Some (m_session s) -> is_Some (m_conn s)) -> disconnect now s = Some (Ok tt, closed s).
Proof.
  intros H. destruct s as [? ? [x|]]; cbn in H;
    unfold disconnect, report_disconnected, call, mbind, st_bind, get, update; cbn; [|reflexivity].
  destruct H as [u ->]; [done|]. reflexivity.
Qed.

Lemma closed_inv s : core s -> gw_ops s = [] -> inv (closed s).
Proof.
  intros [] Hops. split; [split; cbn; try done|split; [|done]].
  - by rewrite protocol_app, core_calls0.
  - apply Forall_app. split; [done|]. by apply Forall_singleton.
  - unfold phase. cbn. by rewrite Hops.
Qed.

Lemma disconnect_spec now s : core s -> gw_ops s = [] -> spec False (disconnect now) s (fun _ => inv).
Proof.
  intros Hs Hops. unfold spec. rewrite disconnect_closed; [by apply closed_inv|].
  intros Hx. apply (core_conn _ Hs), (core_session _ Hs), Hx.
Qed.

Lemma spec_gwconn {B} U (f : URI -> client_m getwork B) s Q :
  is_Some (m_conn s) -> (forall u, m_conn s = Some u -> spec U (f u) s Q) -> spec U (conn ≫= f) s Q.
Proof. intros [u Hu] Hf. unfold spec, mbind, st_bind, conn. rewrite Hu. by apply Hf. Qed.

(** A connection attempt, with an endpoint or without. *)
Lemma begin_connect_spec now s :
  core s -> gw_ops s = [] -> m_txPending s = true -> is_Some (m_conn s) ->
  (m_endpoints s <> [] -> m_connecting s = negb (m_connected s)) ->
  spec False (begin_connect now) s (fun _ => inv).
Proof.
  intros Hs Hops Hp Hu Hc. unfold begin_connect. apply spec_state.
  destruct (m_endpoints s) as [|ep l] eqn:E.
  { apply spec_gwconn; [done|]. intros _ _. by apply disconnect_spec. }
  cbn -[inv]. split; [|split].
  - eapply core_same; [|apply (core_call (GwConnectTo ep) s)]; done.
  - unfold phase. cbn. rewrite Hops, E. cbn. split; [done|]. by rewrite Hc.
  - cbn. by rewrite Hp.
Qed.

(** *** Requests *)

Lemma push_within_Forall {A} (P : A -> Prop) n x q : Forall P q -> P x -> Forall P (push_within n x q).
Proof.
  intros Hq Hx. unfold push_within. destruct (_ <? _)%nat; [|done].
  apply Forall_app. split; [done|]. by apply Forall_singleton.
Qed.

Lemma core_send line s :
  request_line line -> core s -> core (put_txQueue (push_within capacity line (m_txQueue s)) s).
Proof. intros Hl []. split; try done. by apply push_within_Forall. Qed.

(** The first request of a connection. *)
Lemma send_first now line s :
  core s -> request_line line -> gw_ops s = [] -> m_txPending s = false -> is_Some (m_conn s) ->
  m_connecting s = negb (m_connected s) ->
  spec False (send now capacity line) s (fun _ => inv).
Proof.
  intros Hs Hl Hops Hp Hu Hc. unfold send, spec, mbind, st_bind, get, update. cbn [id].
  change (m_txPending (put_txQueue ?q s)) with (m_txPending s). rewrite Hp.
  apply begin_connect_spec; try done. eapply core_same; [|by apply (core_send line s)]. done.
Qed.

(** Any request of a client that is connected. *)
Lemma send_connected now line s :
  inv s -> m_connected s = true -> request_line line ->
  spec False (send now capacity line) s (fun _ => inv).
Proof.
  intros (Hs & Hph & Hq) Hc Hl. destruct (m_txPending s) eqn:Hp.
  - unfold send, spec, mbind, st_bind, get, update. cbn [id].
    change (m_txPending (put_txQueue ?q s)) with (m_txPending s). rewrite Hp.
    split; [by apply core_send|]. split; [exact Hph|]. cbn. by rewrite Hp.
  - apply send_first; try done; try (by apply (core_conn _ Hs)).
    + unfold phase in Hph. rewrite Hp, Hc in Hph. destruct (gw_ops s) as [|[] []]; naive_solver.
    + rewrite Hc. by apply (core_connecting _ Hs).
Qed.

Context `{!JsonText writeString parse} (K0 : K 0) (K1 : K 1) (K9 : K 9).

Lemma asks_request n l :
  K n -> in_word 32 n -> Forall (fun kv => kv.1 <> "id"%string) l ->
  request_line (writeString (JObject (("id"%string, JInt n) :: l))).
Proof. intros HK Hn Hl. destruct (text_request n l Hn Hl) as [H1 H2]. split; [done|]. by exists n. Qed.

Lemma asks_getwork : request_line (m_jsonGetWork writeString).
Proof. apply asks_request; [done|done|]. by repeat constructor. Qed.

(** *** Handlers *)

Lemma connect_spec now s :
  inv s -> is_Some (m_conn s) -> m_connected s = false -> spec False (connect now capacity writeString) s (fun _ => inv).
Proof.
  intros Hi [u Hu] Hc. unfold connect. apply spec_state.
  destruct (m_connecting s) eqn:Hcon; [exact Hi|]. destruct Hi as (Hs & Hph & Hq).
  assert (Hops : gw_ops s = [] /\ m_txPending s = false).
  { unfold phase in Hph. rewrite Hc, Hcon in Hph. destruct (gw_ops s) as [|[] []]; naive_solver. }
  destruct Hops as [Hops Hp]. apply spec_update.
  set (s1 := put_endpoint 0 _).
  assert (Hs1 : core s1).
  { destruct Hs. split; try done; cbn; rewrite ?Hc; try done. }
  assert (Hresolve : spec False (start OpResolve) s1 (fun _ => inv)).
  { apply spec_assign. split; [by apply (core_same s1)|]. split; [|done]. unfold phase. cbn. rewrite Hops. cbn. by eauto 10. }
  assert (Hsend : spec False (_ ← update (fun s => put_endpoints (m_endpoints s ++ [1]) s);
            send now capacity (m_jsonGetWork writeString)) s1 (fun _ => inv)).
  { apply spec_update, send_first; try done; [by apply (core_same s1)|apply asks_getwork|cbn; by rewrite Hc]. }
  apply spec_gwconn; [by exists u|]. intros u' _. by destruct (m_hostType u').
Qed.

Lemma handle_resolve_spec now ec l s :
  core s -> gw_ops s = [] -> m_txPending s = false -> m_connecting s = true -> m_connected s = false ->
  is_Some (m_conn s) ->
  spec False (handle_resolve now capacity writeString ec l) s (fun _ => inv).
Proof.
  intros Hs Hops Hp Hcon Hc Hu. unfold handle_resolve. destruct (decide _).
  - apply spec_update, send_first; try done; [by apply (core_same s)|apply asks_getwork|]. cbn. by rewrite Hc.
  - apply spec_gwconn; [done|]. intros _ _. by apply disconnect_spec.
Qed.

Lemma spec_pop {B} U (f : unit -> client_m getwork B) s Q :
  (forall ep l, m_endpoints s = ep :: l -> spec U (f tt) (put_endpoints l s) Q) -> m_endpoints s <> [] ->
  spec U (pop_endpoint ≫= f) s Q.
Proof.
  intros Hf Hne. unfold spec, mbind, st_bind, pop_endpoint. destruct (m_endpoints s) as [|ep l]; [done|]. by eapply Hf.
Qed.

(** An endpoint that failed. *)
Lemma next_endpoint_spec now s :
  core s -> gw_ops s = [] -> m_txPending s = true -> is_Some (m_conn s) -> m_endpoints s <> [] ->
  m_connecting s = negb (m_connected s) ->
  spec False (_ ← conn; _ ← pop_endpoint; begin_connect now) s (fun _ => inv).
Proof.
  intros Hs Hops Hp Hu He Hc. apply spec_gwconn; [done|]. intros _ _. apply spec_pop; [|done].
  intros ep l E. apply begin_connect_spec; try done. by apply (core_same s).
Qed.

(** The session a first connection opens. *)
Lemma core_open now s :
  core s -> is_Some (m_conn s) -> m_connected s = false ->
  core (put_current_tstamp now (put_calls (gw_calls s ++ [GwConnected])
    (put_connecting false (put_session (Some (session_authorized true (session_subscribed true (Session_new now))))
      (put_connected true s))))).
Proof.
  intros [] Hu Hc. split; cbn; try done.
  - by rewrite protocol_app, core_calls0, Hc.
  - apply Forall_app. split; [done|]. by apply Forall_singleton.
Qed.

Lemma next_line_first q :
  Forall request_line q -> q <> [] -> exists line rest, next_line q = (Some line, rest) /\ request_line line /\ Forall request_line rest.
Proof.
  intros Hq Hne. destruct Hq as [|[|c line] q [Hl Ha] Hq]; [done|done|]. by exists (c :: line), q.
Qed.

(** The next request, on a connection that was made. *)
Lemma transmit_spec now s :
  core s -> gw_ops s = [] -> m_txPending s = true -> m_connected s = true -> m_endpoints s <> [] ->
  spec False (transmit now parse (m_txQueue s)) s (fun _ => inv).
Proof.
  intros Hs Hops Hp Hc He. unfold transmit. destruct (m_txQueue s) as [|l q] eqn:Eq.
  { apply spec_assign. split; [by apply (core_same s)|]. split; [|by cbn].
    unfold phase. cbn. rewrite Hops. split; [done|]. split; [by apply (core_connecting _ Hs)|done]. }
  destruct (next_line_first (l :: q)) as (line & rest & -> & [_ Hl] & Hrest); [rewrite <- Eq; apply (core_queue _ Hs)|done|].
  apply spec_update. apply spec_update. apply spec_gwconn; [by apply (core_conn _ Hs)|]. intros u _.
  apply spec_update, spec_state. unfold call. apply spec_update, spec_assign.
  split; [|split; [|cbn; by rewrite Hp]].
  - eapply core_same; [|eapply (core_call (GwWrite _) (put_pendingJReq (parse line).2 (put_txQueue rest s)))]; try done.
    by destruct Hs.
  - unfold phase. cbn. by rewrite Hops.
Qed.

Lemma handle_connect_spec now ec s :
  core s -> gw_ops s = [] -> m_txPending s = true -> m_connecting s = negb (m_connected s) ->
  m_endpoints s <> [] -> is_Some (m_conn s) -> ec <> Aborted ->
  spec False (handle_connect now parse ec) s (fun _ => inv).
Proof.
  intros Hs Hops Hp Hc He Hu Hec. unfold handle_connect. apply spec_state.
  rewrite (bool_decide_false (ec = Aborted)) by done.
  destruct (_ && gw_socket s); [|by apply next_endpoint_spec].
  destruct (m_connecting s) eqn:Hcon; cbn [when].
  - apply spec_seq, spec_update, spec_update, spec_update. unfold call. apply spec_update, spec_assign.
    set (s1 := put_current_tstamp _ _). change (m_txQueue s) with (m_txQueue s1).
    apply transmit_spec; try done. apply (core_open now s Hs Hu). by destruct (m_connected s).
  - apply spec_seq. change (spec False (mret tt) s ?Q) with (Q (Ok tt) s). cbn beta iota.
    apply transmit_spec; try done. by destruct (m_connected s).
Qed.

Lemma handle_write_spec now ec sent s :
  core s -> gw_ops s = [] -> m_txPending s = true -> m_connected s = true -> m_endpoints s <> [] -> ec <> Aborted ->
  spec False (handle_write now ec sent) s (fun _ => inv).
Proof.
  intros Hs Hops Hp Hc He Hec. unfold handle_write. apply spec_update.
  rewrite (bool_decide_false (ec = Aborted)) by done. destruct (bool_decide _).
  - apply spec_assign. split; [by apply (core_same s)|]. split; [|cbn; by rewrite Hp]. unfold phase. cbn. by rewrite Hops.
  - apply next_endpoint_spec; try done; [by apply (core_same s)|by apply (core_conn _ Hs)|].
    cbn. rewrite Hc. by apply (core_connecting _ Hs).
Qed.

(** *** Responses *)

Lemma reading_conn : keeps False reading conn.
Proof.
  intros s (Hs & Hr). unfold spec, conn. destruct (core_conn _ Hs) as [u ->]; [by destruct Hr as (_ & _ & ? & _)|done].
Qed.

Lemma reading_wait ms : keeps False reading (wait ms).
Proof. apply keeps_update. intros s ([] & Hr & Hp & Hc & He). split; [by split|done]. Qed.

Lemma reading_work w : keeps False reading (call (GwWork w)).
Proof.
  apply keeps_update. intros s (Hs & Hr & Hp & Hc & He). split; [|done]. apply core_call; [|done|done]. cbn. by rewrite Hc.
Qed.

Lemma work_response_keeps now ok v : keeps False reading (work_response now ok v).
Proof.
  pose proof reading_conn. pose proof reading_wait. pose proof reading_work.
  unfold work_response. repeat first [keeps_step|solve [auto]].
  apply keeps_update. intros s (Hs & Hr). split; [by apply (core_same s)|done].
Qed.

Lemma solution_response_keeps now n ok v : 40 <= n -> K n -> keeps False reading (solution_response now n ok v).
Proof.
  intros Hn HK s Hs. unfold solution_response. apply spec_throwing; [|done]. intros b _. apply spec_state, spec_assign.
  destruct Hs as (Hs & Hr & Hp & Hc & He). split; [|done].
  apply core_call; [cbn; rewrite Hc; by destruct b| |done].
  intros i Hi. assert (i = n - 40) as -> by (destruct b; by injection Hi). split; [lia|].
  by replace (40 + (n - 40)) with n by lia.
Qed.

Lemma processResponse_keeps now v : keeps False reading (processResponse now v).
Proof.
  intros s Hs. unfold processResponse. apply spec_throwing; [|done]. intros found _. destruct found; cbn [negb].
  2: { apply spec_keeps; [|done]. apply keeps_bind; [apply reading_conn|]. intros _. apply keeps_ret. }
  apply spec_state, spec_throwing; [|done]. intros n Hn. apply spec_throwing; [|done]. intros e _. cbv zeta.
  apply spec_throwing; [|done]. intros t _. assert (K n).
  { destruct Hs as (Hs & _). destruct (core_pending _ Hs) as (m & Hm & E). unfold id_of in E. rewrite Hn in E. by injection E as ->. }
  destruct (_ || _); [by apply work_response_keeps|]. destruct (n =? 9); [exact Hs|].
  destruct (_ && _) eqn:E; [|exact Hs]. apply andb_true_iff in E as [E%Z.leb_le _].
  by apply solution_response_keeps.
Qed.

Lemma process_body_keeps now line : keeps False reading (process_body now parse line).
Proof.
  pose proof (processResponse_keeps now). unfold process_body. destruct (parse line) as [[] v]; [done|apply keeps_ret].
Qed.

Lemma cut_crlf_cons c d l :
  cut_crlf (c :: d :: l) =
  if Ascii.eqb c "013" && Ascii.eqb d "010" then Some ([], l)
  else match cut_crlf (d :: l) with Some (line, rest) => Some (c :: line, rest) | None => None end.
Proof. done. Qed.

Lemma cut_crlf_shorter l line rest : cut_crlf l = Some (line, rest) -> (length rest < length l)%nat.
Proof.
  revert line. induction l as [|c [|d l] IH]; intros line; [done|done|]. rewrite cut_crlf_cons.
  destruct (_ && _); [intros [= <- <-]; cbn; lia|].
  destruct (cut_crlf (d :: l)) as [[line' rest']|]; [|done]. intros [= <- <-]. specialize (IH _ eq_refl). cbn in *. lia.
Qed.

(** Either the response is still being read or the connection was closed. *)
Definition read_result (o : outcome bool) (s : getwork) : Prop :=
  match o with Ok true => reading s | Ok false => inv s | Throw _ => True end.

Lemma spec_keeps_reading {A B} (m : client_m getwork A) (f : A -> client_m getwork B) s (Q : outcome B -> getwork -> Prop) :
  keeps False reading m -> reading s -> (forall x s', reading s' -> spec False (f x) s' Q) ->
  (forall e s', Q (Throw e) s') -> spec False (m ≫= f) s Q.
Proof.
  intros Hm Hs Hf He. apply spec_seq. apply (spec_weaken _ _ _ _ _ (Hm s Hs)). intros [x|e] s' Hs'; auto.
Qed.

Lemma read_lines_spec now fuel n h rx s :
  (length rx < fuel)%nat -> reading s -> spec False (read_lines now parse fuel n h rx) s read_result.
Proof.
  revert n h rx s. induction fuel as [|fuel IH]; [lia|]. intros n h rx s Hf Hs. cbn [read_lines].
  destruct (cut_crlf rx) as [[line rest]|] eqn:E; [|exact Hs]. apply cut_crlf_shorter in E.
  assert (Hbody : forall l, spec False (_ ← process_body now parse l; mret true) s read_result).
  { intros l. apply spec_keeps_reading; [apply process_body_keeps|done|by intros|by intros]. }
  assert (Hline : spec False
    (if h && (n =? 1) && negb (http_status_ok line) then _ ← conn; _ ← disconnect now; mret false
     else _ ← when (negb h) (process_body now parse line); read_lines now parse fuel (n + 1) h rest) s read_result).
  { destruct (_ && negb _).
    - apply spec_keeps_reading; [apply reading_conn|done| |by intros]. intros u s' Hs'. apply spec_seq.
      destruct Hs' as (H1 & H2 & _). eapply spec_weaken; [by apply disconnect_spec|]. by intros [[]|] s2.
    - apply spec_keeps_reading; [by apply keeps_when, process_body_keeps|done| |by intros]. intros _ s' Hs'. apply IH; [lia|done]. }
  destruct line; [|exact Hline]. destruct (cut_crlf rest); [|apply Hbody]. apply IH; [lia|done].
Qed.

Lemma handle_read_spec now ec data s :
  reading s -> ec <> Aborted ->
  spec False (handle_read now parse ec data) s (fun o s' => forall x, o = Ok x -> inv s').
Proof.
  intros Hs Hec. unfold handle_read. apply spec_update.
  set (s1 := put_response _ s). assert (Hs1 : reading s1) by (destruct Hs as [Hs Hr]; split; [by apply (core_same s)|exact Hr]).
  assert (Hclose : forall s, reading s -> spec False (_ ← conn; disconnect now) s (fun o s' => forall x, o = Ok x -> inv s')).
  { intros s2 Hs2. apply spec_keeps_reading; [apply reading_conn|done| |by intros]. intros u s' (H1 & H2 & _).
    eapply spec_weaken; [by apply disconnect_spec|]. auto. }
  rewrite (bool_decide_false (ec = Aborted)) by done. destruct (_ || _); [|by apply Hclose].
  apply spec_update, spec_state. cbv zeta. apply spec_update.
  set (s2 := put_response _ _). assert (Hs2 : reading s2) by (destruct Hs1 as [Hs1 Hr]; split; [by apply (core_same s1)|exact Hr]).
  destruct (take _ _) as [|c rx]; [by apply Hclose|]. apply spec_seq.
  eapply spec_weaken; [apply read_lines_spec; [lia|done]|]. intros [[]|e] s' Hs'; cbn [negb]; [| |done].
  2: { intros x _. exact Hs'. }
  apply spec_state. pose proof Hs' as (H1 & H2 & H3 & H4 & H5). destruct (m_txQueue s') eqn:Eq.
  - apply spec_assign. intros x _. split; [by apply (core_same s')|]. split; [|by cbn].
    unfold phase. cbn. rewrite H2. split; [done|]. split; [by apply (core_connecting _ H1)|done].
  - eapply spec_weaken; [apply begin_connect_spec; try done|auto].
    + by apply (core_conn _ H1).
    + intros _. rewrite H4. by apply (core_connecting _ H1).
Qed.

(** *** Submissions and the timer *)

Lemma submitHashrate_spec now rate id s :
  inv s -> spec False (submitHashrate now capacity writeString rate id) s (fun _ => inv).
Proof.
  intros Hs. unfold submitHashrate. apply spec_state. destruct (m_session s) eqn:Hx; [|exact Hs].
  apply send_connected; [done| |].
  - destruct Hs as [Hs _]. apply (core_session _ Hs). by eexists.
  - apply asks_request; [done|done|]. by repeat constructor.
Qed.

Lemma u32_word n : in_word 32 (u32 n).
Proof. apply Z.mod_pos_bound. lia. Qed.

Lemma submitSolution_spec now solution s :
  inv s -> K (u32 (40 + s_midx solution)) ->
  spec False (submitSolution now capacity writeString solution) s (fun _ => inv).
Proof.
  intros Hs HK. unfold submitSolution. apply spec_state. destruct (m_session s) eqn:Hx; [|exact Hs].
  apply spec_update. apply send_connected.
  - destruct Hs as (H1 & H2 & H3). split; [by apply (core_same s)|done].
  - destruct Hs as [Hs _]. apply (core_session _ Hs). by eexists.
  - apply asks_request; [done|apply u32_word|]. by repeat constructor.
Qed.

Lemma timer_spec now ec s :
  inv s -> enabled (GwTimer ec) s = true -> settled now (GwTimer ec) s = true ->
  spec False (getwork_timer_elapsed now capacity writeString ec) s (fun _ => inv).
Proof.
  intros Hs He Hq. unfold getwork_timer_elapsed. destruct ec; [exact Hs|]. cbn in He. apply bool_decide_eq_true in He.
  pose proof Hs as (H1 & H2 & H3). assert (Hc : m_connected s = true) by by apply (core_timer _ H1).
  assert (Hs1 : core (put_getwork_timer None s)) by (destruct H1; split; try done; by intros []).
  apply spec_update, spec_state. change (m_worktimeout (put_getwork_timer None s)) with (m_worktimeout s).
  change (m_current_tstamp (put_getwork_timer None s)) with (m_current_tstamp s). cbn [settled] in Hq. destruct (_ <? _).
  - apply bool_decide_eq_true in Hq. apply spec_pop.
    + intros ep l _. apply disconnect_spec; [by apply (core_same (put_getwork_timer None s))|done].
    + unfold phase in H2. rewrite Hq in H2. by apply H2.
  - apply send_connected; [|done|apply asks_getwork]. by split.
Qed.

(** *** Every event *)

Lemma remove_only op l : op ∈ l -> (length l <= 1)%nat -> l = [op] /\ remove_op op l = [].
Proof.
  intros Hin Hl. destruct l as [|x [|]]; [by apply elem_of_nil in Hin| |cbn in Hl; lia].
  apply list_elem_of_singleton in Hin as ->. split; [done|]. cbn. by rewrite decide_True.
Qed.

Lemma phase_one s : phase s -> (length (gw_ops s) <= 1)%nat.
Proof. unfold phase. destruct (gw_ops s) as [|[] []]; cbn; (lia || done). Qed.

Definition goes_on (o : outcome unit) (s : getwork) : Prop := forall x, o = Ok x -> inv s.

Lemma goes_on_inv (m : client_m getwork unit) s : spec False m s (fun _ => inv) -> spec False m s goes_on.
Proof. intros Hm. eapply spec_weaken; [apply Hm|]. by intros o s' Hs' x _. Qed.

Lemma setConnection_spec u s : inv s -> gw_ops s = [] -> m_connected s = false -> spec False (setConnection u) s (fun _ => inv).
Proof.
  intros (H1 & H2 & H3) Hops Hc. apply spec_assign. split; [|split; [|done]].
  - destruct H1. split; try done.
  - unfold phase in *. cbn. by rewrite Hops in *.
Qed.

(** A completed operation was the only one. *)
Lemma finish_spec op (m : client_m getwork unit) s :
  inv s -> op ∈ gw_ops s ->
  (gw_ops s = [op] -> core (put_ops [] s) -> spec False m (put_ops [] s) goes_on) ->
  spec False (_ ← update (fun s => put_ops (remove_op op (gw_ops s)) s); m) s goes_on.
Proof.
  intros (H1 & H2 & H3) Hin Hm. apply spec_update. destruct (remove_only op _ Hin (phase_one _ H2)) as [E1 E2]. rewrite E2.
  apply Hm; [done|by apply (core_same s)].
Qed.

Lemma handler_spec now e s :
  inv s -> enabled e s = true -> settled now e s = true ->
  (forall solution, e = GwSolution solution -> K (u32 (40 + s_midx solution))) ->
  spec False (handler now capacity writeString parse e) s goes_on.
Proof.
  intros Hs He Hq HK. pose proof Hs as (H1 & H2 & H3). unfold handler, finish.
  destruct e; cbn [enabled completes is_aborted] in He; cbn [completes];
    rewrite ?andb_true_iff, ?negb_true_iff, ?bool_decide_eq_true, ?bool_decide_eq_false in He;
    try (apply (goes_on_inv (_ ← mret tt; _)); change (spec False (mret tt ≫= ?f) s ?Q) with (spec False (f tt) s Q); cbn beta).
  - destruct He as [[_ Hc] Hops]. by apply setConnection_spec.
  - destruct He as [Hu Hc]. by apply connect_spec.
  - cbn [settled] in Hq. apply bool_decide_eq_true in Hq. by apply disconnect_spec.
  - by apply submitHashrate_spec.
  - by apply submitSolution_spec, HK.
  - destruct He as [He Hec]. apply finish_spec; [done|done|]. intros E Hc. unfold phase in H2. rewrite E in H2.
    destruct H2 as (P1 & P2 & P3 & _ & P5). apply goes_on_inv. by apply handle_resolve_spec.
  - destruct He as [He Hec]. apply finish_spec; [done|done|]. intros E Hc. unfold phase in H2. rewrite E in H2.
    destruct H2 as (P1 & P2 & P3 & P4). apply goes_on_inv. by apply handle_connect_spec.
  - destruct He as [He Hec]. apply finish_spec; [done|done|]. intros E Hc. unfold phase in H2. rewrite E in H2.
    destruct H2 as (P1 & P2 & P3). apply goes_on_inv. by apply handle_write_spec.
  - destruct He as [He Hec]. apply finish_spec; [done|done|]. intros E Hc. unfold phase in H2. rewrite E in H2.
    apply handle_read_spec; [|done]. by split.
  - apply timer_spec; [done| |done]. cbn. by rewrite orb_true_iff in *.
Qed.

Lemma new_inv worktimeout period max_id : inv (EthGetworkClient_new worktimeout period max_id).
Proof.
  split; [|by split]. split; cbn; try done; try (by intros []).
  - exists 0. split; [done|apply text_null].
Qed.

End Invariant.

(** ** Runs *)

Section Runs.
Context (capacity : nat) (writeString : json -> list ascii) (parse : list ascii -> bool * Value).

(** Events with the times at which they are handled; a handler that throws ends
    the program. *)
Inductive gw_run : getwork -> list (Z * gw_event) -> getwork -> Prop :=
  | run_end s : gw_run s [] s
  | run_event now e l s s1 s2 :
      enabled e s = true -> settled now e s = true ->
      handler now capacity writeString parse e s = Some (Ok tt, s1) -> gw_run s1 l s2 ->
      gw_run s ((now, e) :: l) s2.

Context `{!JsonText writeString parse}.

Lemma gw_run_inv (K : Z -> Prop) s l s' :
  K 0 -> K 1 -> K 9 ->
  (forall now solution, (now, GwSolution solution) ∈ l -> K (u32 (40 + s_midx solution))) ->
  gw_run s l s' -> inv parse K s -> inv parse K s'.
Proof.
  intros K0 K1 K9 HK Hr Hs. induction Hr as [|now e l s s1 s2 He Hq Hh Hr IH]; [done|]. apply IH.
  { intros now' sol Hin. apply (HK now'). by right. }
  pose proof (handler_spec capacity writeString parse K K1 K9 now e s Hs He Hq) as H. unfold spec in H. rewrite Hh in H.
  apply (H ltac:(intros sol ->; apply (HK now); left) tt). done.
Qed.


(** A run as a function. *)
Fixpoint exec (l : list (Z * gw_event)) (s : getwork) : option getwork :=
  match l with
  | [] => Some s
  | (now, e) :: l =>
      if enabled e s && settled now e s then
        match handler now capacity writeString parse e s with
        | Some (Ok _, s1) => exec l s1
        | _ => None
        end
      else None
  end.

Lemma exec_gw_run l s s' : exec l s = Some s' -> gw_run s l s'.
Proof.
  revert s. induction l as [|[now e] l IH]; intros s; cbn [exec]; [intros [= ->]; constructor|].
  destruct (enabled e s) eqn:E1; [|done]. destruct (settled now e s) eqn:E2; [|done]. cbn [andb].
  destruct (handler _ _ _ _ e s) as [[[[]|] s1]|] eqn:E3; [|done|done]. intros H. eapply run_event; eauto.
Qed.

End Runs.
End Correct.

(** ** An example *)

(** Requests are written as their numbers; [table] holds the other texts. *)
Definition write_example (j : json) : list ascii :=
  match j with
  | JObject ((_, JInt n) :: _) => "#"%char :: dec_list n
  | _ => []
  end.

Definition parse_example (table : list (list ascii * json)) (l : list ascii) : bool * json :=
  match l with
  | c :: l' =>
      if Ascii.eqb c "#" then (true, JObject [("id"%string, JInt (digits_value l'))])
      else match list_find (fun p => p.1 = l) table with
           | Some (_, (_, v)) => (true, v)
           | None => (false, JNull)
           end
  | [] => (false, JNull)
  end.

#[export] Instance text_example table : JsonText (lib := json_lib) (rd := json_read) write_example (parse_example table).
Proof.
  split; [|reflexivity]. intros n l [Hn1 Hn2] Hl. split; [done|]. cbn [write_example parse_example].
  change (Ascii.eqb "#" "#") with true. cbn [snd]. destruct (dec_list_spec n Hn1) as [_ ->].
  assert (E : json_small n = true) by (unfold json_small; rewrite (proj2 (Z.leb_le _ _) Hn1), (proj2 (Z.ltb_lt _ _) Hn2); done).
  change (toUInt (JsonRead := json_read) (JInt n) = Ok n). cbn. by rewrite E.
Qed.

Definition node_uri : URI :=
  mk_URI (chars "http") [] [] [] [] [] (chars "127.0.0.1") [] [] [] [] (chars "X") [] (chars "http://127.0.0.1:8545") 999 8545
    false false false IPV4 None None.

Definition hash_text (n : Z) : string := h_hex (replicate 31 0 ++ [n]) Add.

Definition work_answer : json :=
  JObject [("id"%string, JInt 1); ("result"%string, JArray [JString (hash_text 1); JString (hash_text 2); JString (hash_text 3)])].

Definition answers_example : list (list ascii * json) :=
  [(chars "work", work_answer);
   (chars "yes", JObject [("id"%string, JInt 40); ("result"%string, JBool true)]);
   (chars "null", JNull); (chars "[]", JArray []); (chars "{}", JObject []);
   (chars "text", JObject [("id"%string, JInt 1); ("result"%string, JString "x")])].

Definition reply (body : string) : list ascii := chars "HTTP/1.1 200 OK" ++ crlf ++ crlf ++ chars body.

Definition solution_zero : Solution := mk_Solution 5 (h_zero 32) WorkPackage_default 0 0.

Abbreviation exec_example := (exec (lib := json_lib) (rd := json_read) 8 write_example (parse_example answers_example)).
Abbreviation new_example := (EthGetworkClient_new (lib := json_lib) 180 500 7).

(** The client is connected, asks for work and gets it, submits a solution and
    is told that it was accepted. *)
Definition events_example : list (Z * @gw_event) :=
  [(0, GwSetConnection node_uri); (0, GwConnect); (1, GwConnectDone Success); (2, GwWriteDone Success 200);
   (3, GwReadDone Eof (reply "work")); (4, GwSolution solution_zero); (5, GwConnectDone Success);
   (6, GwWriteDone Success 200); (7, GwReadDone Eof (reply "yes"))].

Definition state_example : @getwork json_lib := default new_example (exec_example events_example new_example).

Definition has_value {A} (o : option A) : bool := match o with Some _ => true | None => false end.

Lemma value_default {A} (d : A) o : has_value o = true -> o = Some (default d o).
Proof. by destruct o. Qed.

Lemma exec_events_example : exec_example events_example new_example = Some state_example.
Proof. apply value_default. vm_compute. reflexivity. Qed.

