(* ===== verification/GetworkProtocol.v ===== *)
(** * Requests and responses of the getwork client

    The text of a response, a round of polling for work, a solution and its
    verdict, and the endpoints of a host that does not answer. *)

From Stdlib Require Import ZArith Lia Bool Ascii String Floats.SpecFloat.
From stdpp Require Import base numbers list gmap strings.
From S2P Require Import Prelude Words Outcome CommonData FixedHash Floats Miner Farm PoolURI Json Lines PoolClient.
From S2P Require Import Getwork GetworkCorrect.

Local Open Scope Z_scope.

(** ** The text of a response *)

(** A status line and headers, an empty line and a body. *)
Definition http_response (headers : list (list ascii)) (body : list ascii) : list ascii :=
  concat ((fun l => l ++ crlf) <$> headers) ++ crlf ++ body.

Definition no_newlines (body : list ascii) : list ascii := filter (fun c => negb (Ascii.eqb c "010")) body.

(** A header has a character and no line end. *)
Definition header_line (l : list ascii) : Prop := l <> [] /\ "013"%char ∉ l.

Lemma cut_crlf_line l rest : "013"%char ∉ l -> cut_crlf (l ++ crlf ++ rest) = Some (l, rest).
Proof.
  induction l as [|c l IH]; intros Hl; [done|]. apply not_elem_of_cons in Hl as [Hc Hl]. specialize (IH Hl).
  unfold crlf in *. destruct l as [|d l]; cbn [app] in *; rewrite cut_crlf_cons, IH;
    (destruct (Ascii.eqb_spec c "013"); [by subst c|done]).
Qed.

(** Evaluation of assignments and of a handler on a state that is spelled out. *)
Ltac literal :=
  cbv beta iota delta [put_conn put_connected put_session put_connecting put_txPending put_txQueue put_socket
    put_endpoints put_endpoint put_request put_response put_pendingJReq put_pending_tstamp put_getwork_timer put_current
    put_current_tstamp put_solution_submitted_max_id put_ops put_calls m_conn m_connected m_session m_connecting m_txPending
    m_txQueue gw_socket m_endpoints m_endpoint m_request m_response m_pendingJReq m_pending_tstamp m_getwork_timer
    m_farmRecheckPeriod m_worktimeout m_current m_current_tstamp m_solution_submitted_max_id gw_ops gw_calls].

Ltac evaluate :=
  unfold handler, finish, call, start, conn, mbind, st_bind, mret, st_ret, get, update, throwing;
  cbn -[http_request http_response read_lines processResponse take drop]; literal;
  repeat match goal with
         | |- context [bool_decide ?P] => let b := eval vm_compute in (bool_decide P) in change (bool_decide P) with b
         | |- context [decide (?x = ?x)] => rewrite (decide_True (P := x = x)) by done
         end;
  cbn -[http_request http_response read_lines processResponse take drop]; literal.

Section Protocol.
Context {lib : JsonLib} {rd : JsonRead lib}.
Context (capacity : nat) (writeString : json -> list ascii) (parse : list ascii -> bool * Value).

Lemma read_headers now fuel n headers body s :
  Forall header_line headers -> (n = 1 -> match headers with l :: _ => http_status_ok l = true | [] => True end) ->
  1 <= n -> cut_crlf body = None -> (length (http_response headers body) < fuel)%nat ->
  read_lines now parse fuel n true (http_response headers body) s =
  (_ ← process_body now parse (no_newlines body); mret true) s.
Proof.
  intros Hh Hst Hn Hb. revert n Hst Hn fuel. induction Hh as [|l headers [Hl Hcr] Hh IH]; intros n Hst Hn fuel Hf;
    (destruct fuel as [|fuel]; [cbn in Hf; lia|]).
  - cbn. by rewrite Hb.
  - assert (E : http_response (l :: headers) body = l ++ crlf ++ http_response headers body).
    { unfold http_response. cbn. by rewrite <- !app_assoc. }
    rewrite E in *. cbn [read_lines]. rewrite cut_crlf_line by done. destruct l as [|c l]; [done|]. cbn [andb].
    assert (Hok : (n =? 1) && negb (http_status_ok (c :: l)) = false).
    { destruct (Z.eqb_spec n 1) as [->|]; [|done]. by rewrite Hst. }
    rewrite Hok. cbn [negb when]. apply IH; [lia|lia|]. rewrite !length_app in Hf. cbn in Hf. lia.
Qed.

(** ** An exchange *)

(** A client that is connected and has nothing to do; [ep] is the endpoint it uses. *)
Definition idle (u : URI) (ep : Z) (s : getwork) : Prop :=
  m_conn s = Some u /\ m_connected s = true /\ m_connecting s = false /\ m_txPending s = false /\ m_txQueue s = [] /\
  (exists l, m_endpoints s = ep :: l) /\ m_request s = [] /\ m_response s = [] /\ gw_ops s = [].

(** The same client when it waits for the response to a request. *)
Definition awaiting (t : Z) (u : URI) (ep : Z) (line : list ascii) (s : getwork) : getwork :=
  put_ops [OpRead] (put_calls (gw_calls s ++ [GwConnectTo ep; GwWrite (m_request s ++ http_request u line)])
    (put_pending_tstamp t (put_pendingJReq (parse line).2 (put_endpoint ep (put_socket true (put_txPending true s)))))).

(** Its states on the way there. *)
Definition started (ep : Z) (line : list ascii) (s : getwork) : getwork :=
  put_ops [OpConnect] (put_calls (gw_calls s ++ [GwConnectTo ep])
    (put_endpoint ep (put_socket true (put_txPending true (put_txQueue [line] s))))).

Definition written (t : Z) (u : URI) (ep : Z) (line : list ascii) (s : getwork) : getwork :=
  put_request (m_request s ++ http_request u line) (put_ops [OpWrite] (awaiting t u ep line s)).

Lemma send_when_idle u ep line s now :
  idle u ep s -> (0 < capacity)%nat -> send now capacity line s = Some (Ok tt, started ep line s).
Proof.
  intros (H1 & H2 & H3 & H4 & H5 & [l H6] & H7 & H8 & H9) Hc. destruct s. cbn in *. subst.
  destruct capacity as [|k]; [lia|]. reflexivity.
Qed.

Lemma connect_done u ep line s now :
  idle u ep s -> line <> [] ->
  handler now capacity writeString parse (GwConnectDone Success) (started ep line s) = Some (Ok tt, written now u ep line s).
Proof.
  intros (H1 & H2 & H3 & H4 & H5 & [l H6] & _) Hl. destruct s. cbn in H1, H2, H3, H4, H5, H6. subst.
  destruct line as [|c line]; [done|]. unfold handler, handle_connect, transmit, started, written, awaiting.
  evaluate. by rewrite <- app_assoc.
Qed.
Lemma drop_prefixed {A} (q r : list A) : q = [] -> drop (length r) (q ++ r) = q.
Proof. intros ->. apply drop_all. Qed.

Lemma write_done u ep line s t now :
  idle u ep s ->
  handler now capacity writeString parse (GwWriteDone Success (length (http_request u line))) (written t u ep line s) =
  Some (Ok tt, awaiting t u ep line s).
Proof.
  intros (_ & _ & _ & _ & _ & _ & H7 & _). destruct s. cbn in H7.
  unfold handler, handle_write, written, awaiting. evaluate. by rewrite drop_prefixed.
Qed.

Definition after_response now : client_m getwork unit :=
  s ← get id; match m_txQueue s with [] => update (put_txPending false) | _ => begin_connect now end.

Lemma handle_read_eof now data s :
  m_response s = [] -> data <> [] ->
  handle_read now parse Eof data s =
  (still ← read_lines now parse (S (length data)) 1 true data;
   if negb still then mret tt else after_response now) (put_socket false s).
Proof.
  intros Hr Hd. unfold handle_read. rewrite bind_update.
  rewrite (bool_decide_false (Eof = Success)), (bool_decide_true (Eof = Eof)) by done. cbn [orb].
  rewrite bind_update, bind_state. cbv zeta. rewrite bind_update. set (s1 := put_socket false _).
  assert (E1 : take (length data) (m_response s1) = data).
  { subst s1. destruct s. cbn in Hr. subst. literal. cbn [app]. apply firstn_all. }
  assert (E2 : put_response (drop (length data) (m_response s1)) s1 = put_socket false s).
  { subst s1. destruct s. cbn in Hr. subst. literal. cbn [app]. by rewrite drop_all. }
  rewrite E1, E2. by destruct data.
Qed.

(** The response is read and the client has nothing to do again. *)
Lemma read_done u ep line s t now headers body v s' :
  idle u ep s -> Forall header_line headers ->
  match headers with l :: _ => http_status_ok l = true | [] => True end ->
  cut_crlf body = None -> parse (no_newlines body) = (true, v) ->
  processResponse now v (put_socket false (put_ops [] (awaiting t u ep line s))) = Some (Ok tt, s') -> m_txQueue s' = [] ->
  handler now capacity writeString parse (GwReadDone Eof (http_response headers body)) (awaiting t u ep line s) =
  Some (Ok tt, put_txPending false s').
Proof.
  intros (H1 & H2 & H3 & H4 & H5 & H6 & H7 & H8 & H9) Hh Hst Hb Hp Hs' Hq.
  unfold handler, finish. cbn [completes]. rewrite bind_update.
  assert (E : put_ops (remove_op OpRead (gw_ops (awaiting t u ep line s))) (awaiting t u ep line s) =
    put_ops [] (awaiting t u ep line s)) by (cbn; by rewrite decide_True).
  rewrite E, handle_read_eof; [|done|unfold http_response; by destruct (concat _)].
  unfold mbind, st_bind. rewrite read_headers; [|done|done|lia|done|lia].
  unfold process_body. rewrite Hp. unfold mbind, st_bind. rewrite Hs'. cbn [mret st_ret negb].
  unfold after_response. rewrite bind_state. by rewrite Hq.
Qed.

(** ** Work *)

Definition work_of (hdr seed b : list Z) : WorkPackage :=
  mk_WorkPackage (h_hex hdr DontAdd) b hdr seed (-1) (-1) 0 0 (S754_zero false).

(** A response without an error. *)
Definition succeeds (v : Value) : Prop :=
  isMember v "id" = Ok true /\ exists e, json_get v "error" nullValue = Ok e /\ json_empty e = true.

(** The result is an array with the three hashes. *)
Definition answers (v : Value) (hdr seed b : list Z) : Prop :=
  succeeds v /\ isMember v "result" = Ok true /\ exists r p, json_get v "result" nullValue = Ok r /\ isArray r = true /\
  text_at r 0 = Ok (h_hex hdr p) /\ text_at r 1 = Ok (h_hex seed p) /\ text_at r 2 = Ok (h_hex b p).

Lemma new_work_of r p hdr seed b :
  isArray r = true -> text_at r 0 = Ok (h_hex hdr p) -> text_at r 1 = Ok (h_hex seed p) -> text_at r 2 = Ok (h_hex b p) ->
  hash_wf 32 hdr -> hash_wf 32 seed -> hash_wf 32 b -> new_work r = Ok (work_of hdr seed b).
Proof.
  intros Ha E0 E1 E2 Hh Hs Hb. unfold new_work, parameter. rewrite Ha, orb_true_r, E0, E1, E2. cbn [mbind outcome_bind].
  by rewrite !h_of_string_hex by done.
Qed.

Definition with_work (now : Z) (w : WorkPackage) (s : getwork) : getwork :=
  if h_eq (header (m_current s)) (header w) then s
  else put_calls (gw_calls s ++ [GwWork w]) (put_current_tstamp now (put_current w s)).

Lemma process_work now v hdr seed b s :
  id_of (m_pendingJReq s) = Ok 1 -> answers v hdr seed b -> hash_wf 32 hdr -> hash_wf 32 seed -> hash_wf 32 b ->
  processResponse now v s =
  Some (Ok tt, put_getwork_timer (Some (m_farmRecheckPeriod s)) (with_work now (work_of hdr seed b) s)).
Proof.
  intros Hid ((Hm & e & He & Hee) & Hr & r & p & Hg & Ha & E0 & E1 & E2) Hh Hs Hb.
  unfold processResponse, mbind at 1, st_bind at 1, throwing at 1. rewrite Hm. cbn [negb]. rewrite bind_state.
  unfold mbind at 1, st_bind at 1, throwing at 1. fold (id_of (m_pendingJReq s)). rewrite Hid.
  unfold mbind at 1, st_bind at 1, throwing at 1. rewrite He. cbv zeta. rewrite Hee.
  unfold mbind at 1, st_bind at 1, throwing at 1. cbn [Z.eqb orb].
  unfold work_response. cbn [negb]. unfold mbind at 1, st_bind at 1, throwing at 1. rewrite Hr. cbn [negb].
  unfold mbind at 1, st_bind at 1, throwing at 1. rewrite Hg. cbn [mbind outcome_bind].
  rewrite (new_work_of r p hdr seed b) by done. cbn [Pos.eqb]. rewrite bind_state. unfold with_work. destruct (h_eq _ _); reflexivity.
Qed.

Lemma run_app s l s1 l' s2 :
  gw_run capacity writeString parse s l s1 -> gw_run capacity writeString parse s1 l' s2 ->
  gw_run capacity writeString parse s (l ++ l') s2.
Proof. induction 1; [done|]. intros H'. cbn. eapply run_event; eauto. Qed.

(** A request and its response. *)
Lemma exchange u ep line s t1 t2 t3 headers body v s' :
  idle u ep s -> line <> [] -> Forall header_line headers ->
  match headers with l :: _ => http_status_ok l = true | [] => True end ->
  cut_crlf body = None -> parse (no_newlines body) = (true, v) ->
  processResponse t3 v (put_socket false (put_ops [] (awaiting t1 u ep line s))) = Some (Ok tt, s') -> m_txQueue s' = [] ->
  gw_run capacity writeString parse (started ep line s)
    [(t1, GwConnectDone Success); (t2, GwWriteDone Success (length (http_request u line)));
     (t3, GwReadDone Eof (http_response headers body))] (put_txPending false s').
Proof.
  intros Hi Hl Hh Hst Hb Hp Hs' Hq.
  eapply run_event; [done|done|by apply (connect_done u)|].
  eapply run_event; [done|done|by apply write_done|].
  eapply run_event; [done|done|by eapply read_done|constructor].
Qed.

Context `{!JsonText writeString parse}.

Lemma getwork_line : m_jsonGetWork writeString <> [] /\ id_of (parse (m_jsonGetWork writeString)).2 = Ok 1.
Proof. apply text_request; [done|]. by repeat constructor. Qed.


(** ** Solutions *)

(** The verdict of a response: an error, a result that is or can be taken as a
    truth value, or another result, which counts as success. *)
Definition verdict (v : Value) (ok : bool) : Prop :=
  isMember v "id" = Ok true /\ exists e, json_get v "error" nullValue = Ok e /\
  if json_empty e then
    exists r, member v "result" = Ok r /\ if isConvertibleToBool r then toBool r = Ok ok else ok = true
  else ok = false /\ exists t, error_text v = Ok t.

Lemma process_verdict now v ok n s :
  id_of (m_pendingJReq s) = Ok n -> 40 <= n <= m_solution_submitted_max_id s -> verdict v ok ->
  processResponse now v s =
  Some (Ok tt, put_calls (gw_calls s ++
    [if ok then GwAccepted (milliseconds (now - m_pending_tstamp s)) (n - 40) false
     else GwRejected (milliseconds (now - m_pending_tstamp s)) (n - 40)]) s).
Proof.
  intros Hid Hn (Hm & e & He & Hv).
  unfold processResponse, mbind at 1, st_bind at 1, throwing at 1. rewrite Hm. cbn [negb]. rewrite bind_state.
  unfold mbind at 1, st_bind at 1, throwing at 1. fold (id_of (m_pendingJReq s)). rewrite Hid.
  unfold mbind at 1, st_bind at 1, throwing at 1. rewrite He. cbv zeta.
  assert (E1 : (n =? 0) || (n =? 1) = false) by (rewrite !(proj2 (Z.eqb_neq _ _)) by lia; done).
  assert (E2 : (n =? 9) = false) by (apply Z.eqb_neq; lia).
  assert (E3 : (40 <=? n) && (n <=? m_solution_submitted_max_id s) = true).
  { apply andb_true_iff. rewrite !Z.leb_le. lia. }
  destruct (json_empty e).
  - unfold mbind at 1, st_bind at 1, throwing at 1. rewrite E1, E2, E3. destruct Hv as (r & Hr & Hb).
    unfold solution_response, mbind at 1, st_bind at 1, throwing at 1. rewrite Hr. cbn [mbind outcome_bind].
    destruct (isConvertibleToBool r); [rewrite Hb|subst ok]; by rewrite bind_state.
  - destruct Hv as (-> & t & Ht). unfold mbind at 1, st_bind at 1, throwing at 1, processError. rewrite Ht.
    rewrite E1, E2, E3. reflexivity.
Qed.

(** The texts of a solution denote its parts. *)
Lemma solution_texts solution :
  0 <= s_midx solution < 2 ^ 32 - 40 -> in_word 64 (s_nonce solution) ->
  hash_wf 32 (header (s_work solution)) -> hash_wf 32 (s_mixHash solution) ->
  exists nonce hdr mix bytes,
    solution_request solution =
      JObject [("id"%string, JInt (40 + s_midx solution)); ("jsonrpc"%string, JString "2.0");
               ("method"%string, JString "eth_submitWork");
               ("params"%string, JArray [JString nonce; JString hdr; JString mix])] /\
    fromHex nonce ThrowOnError = Ok bytes /\ be_number bytes = s_nonce solution /\
    h_of_string 32 hdr = Ok (header (s_work solution)) /\ h_of_string 32 mix = Ok (s_mixHash solution).
Proof.
  intros Hm [Hn1 Hn2] Wh Wm.
  assert (Hid : u32 (40 + s_midx solution) = 40 + s_midx solution) by (apply Z.mod_small; lia).
  destruct (proj1 (hex_integers_roundtrip (s_nonce solution) Add ThrowOnError 16 Hn1 ltac:(lia) Hn2)) as (bytes & Hb & Hv).
  exists (toHex64 (s_nonce solution) Add 16), (h_hex (header (s_work solution)) Add), (h_hex (s_mixHash solution) Add), bytes.
  unfold solution_request. rewrite Hid. rewrite !h_of_string_hex by done. by split.
Qed.

(** The client that submits it. *)
Definition submitting (solution : Solution) (s : getwork) : getwork :=
  put_solution_submitted_max_id (Z.max (m_solution_submitted_max_id s) (40 + s_midx solution)) s.

Lemma submit_idle u ep x s solution now :
  idle u ep s -> (0 < capacity)%nat -> m_session s = Some x -> u32 (40 + s_midx solution) = 40 + s_midx solution ->
  handler now capacity writeString parse (GwSolution solution) s =
  Some (Ok tt, started ep (writeString (solution_request solution)) (submitting solution s)).
Proof.
  intros Hi Hcap Hx Hid. unfold handler, finish. cbn [completes]. rewrite bind_ret.
  unfold submitSolution. rewrite bind_state, Hx, bind_update, Hid. by apply (send_when_idle u).
Qed.


(** ** A host that does not answer *)

Definition trying (u : URI) (eps : list Z) (s : getwork) : Prop :=
  m_conn s = Some u /\ m_session s = None /\ gw_ops s = [OpConnect] /\ m_endpoints s = eps.

(** The next endpoint is tried; after the last one the client gives up. *)
Lemma begin_connect_next u now s :
  m_conn s = Some u -> m_session s = None -> gw_ops s = [] ->
  exists s', begin_connect now s = Some (Ok tt, s') /\
  match m_endpoints s with
  | [] => s' = closed s
  | ep :: l => trying u (ep :: l) s' /\ gw_calls s' = gw_calls s ++ [GwConnectTo ep]
  end.
Proof.
  intros Hu Hx Hops. unfold begin_connect. rewrite bind_state. destruct (m_endpoints s) as [|ep l] eqn:E.
  - unfold mbind, st_bind, conn. rewrite Hu, disconnect_closed by (rewrite Hx; by intros []). by eexists.
  - eexists. split; [reflexivity|]. cbn. unfold trying. cbn. by rewrite Hops.
Qed.

Lemma connect_failed u ep eps now s :
  trying u (ep :: eps) s ->
  handler now capacity writeString parse (GwConnectDone Failure) s = begin_connect now (put_endpoints eps (put_ops [] s)).
Proof.
  intros (Hu & Hx & Hops & Heps). unfold handler, finish. cbn [completes]. rewrite bind_update, Hops. cbn [remove_op].
  rewrite decide_True by done. unfold handle_connect. rewrite bind_state.
  rewrite (bool_decide_false (Failure = Success)), (bool_decide_false (Failure = Aborted)) by done. cbn [andb].
  unfold mbind, st_bind, conn. cbn [m_conn put_ops]. rewrite Hu. unfold pop_endpoint. cbn [m_endpoints put_ops]. by rewrite Heps.
Qed.

Lemma endpoints_fail u eps : forall ts s,
  trying u eps s -> eps <> [] -> length ts = length eps ->
  exists s', gw_run capacity writeString parse s ((fun t => (t, GwConnectDone Failure)) <$> ts) s' /\
    gw_calls s' = gw_calls s ++ (GwConnectTo <$> tail eps) ++ [GwDisconnected] /\ m_conn s' = None /\ gw_ops s' = [].
Proof.
  induction eps as [|ep eps IH]; intros ts s Ht Hne Hl; [done|]. destruct ts as [|t ts]; [done|]. injection Hl as Hl.
  pose proof Ht as (Hu & Hx & Hops & Heps).
  destruct (begin_connect_next u t (put_endpoints eps (put_ops [] s)) Hu Hx eq_refl) as (s1 & E & H1). cbn in H1.
  assert (Hstep : forall l s2, gw_run capacity writeString parse s1 l s2 ->
    gw_run capacity writeString parse s ((t, GwConnectDone Failure) :: l) s2).
  { intros l s2. eapply run_event; [cbn; by rewrite Hops|done|]. by rewrite (connect_failed u ep eps). }
  destruct eps as [|ep' eps].
  - destruct ts; [|done]. exists s1. split; [apply Hstep; constructor|]. by subst s1.
  - destruct H1 as [H1 H2]. destruct (IH ts s1 H1) as (s' & Hr & Hcalls & Hend); [done|done|].
    exists s'. split; [by apply Hstep|]. split; [|done]. rewrite Hcalls, H2. by rewrite <- app_assoc.
Qed.

(** A client that was given a connection. *)
Definition fresh (u : URI) (s : getwork) : Prop :=
  m_conn s = Some u /\ m_connected s = false /\ m_session s = None /\ m_connecting s = false /\ m_txPending s = false /\
  gw_ops s = [].

(** A client whose host has the endpoints [eps] and whose connection attempts
    all fail tries every endpoint once, in the order in which they were resolved,
    and then reports the disconnection. *)
Theorem getwork_endpoints_tried (u : URI) (s : getwork) (eps : list Z) (t0 t1 : Z) (ts : list Z) :
  fresh u s -> m_hostType u = HostDns \/ m_hostType u = HostBasic -> length ts = length eps ->
  exists s',
    gw_run capacity writeString parse s
      ((t0, GwConnect) :: (t1, GwResolved Success eps) :: ((fun t => (t, GwConnectDone Failure)) <$> ts)) s' /\
    gw_calls s' = gw_calls s ++ (GwConnectTo <$> eps) ++ [GwDisconnected] /\ m_conn s' = None /\ gw_ops s' = [].
Proof.
  intros (Hu & Hc & Hx & Hcon & Hp & Hops) Hty Hl.
  set (s1 := put_ops [OpResolve] (put_endpoint 0 (put_endpoints [] (put_getwork_timer None (put_connecting true s))))).
  assert (E1 : handler t0 capacity writeString parse GwConnect s = Some (Ok tt, s1)).
  { unfold handler, finish. cbn [completes]. rewrite bind_ret. unfold connect. rewrite bind_state, Hcon, bind_update.
    unfold mbind, st_bind, conn. cbn [m_conn put_endpoint put_endpoints put_getwork_timer put_connecting]. rewrite Hu.
    subst s1. destruct Hty as [-> | ->]; unfold start, update; cbn [gw_ops put_endpoint put_endpoints put_getwork_timer put_connecting];
      by rewrite Hops. }
  set (s2 := put_txPending true (put_txQueue (push_within capacity (m_jsonGetWork writeString) (m_txQueue s))
               (put_endpoints eps (put_ops [] s1)))).
  assert (E2 : handler t1 capacity writeString parse (GwResolved Success eps) s1 = begin_connect t1 s2).
  { unfold handler, finish. cbn [completes]. rewrite bind_update. cbn [remove_op s1 gw_ops put_ops]. rewrite decide_True by done.
    unfold handle_resolve. rewrite decide_True by done. rewrite bind_update. unfold send. rewrite bind_update, bind_state.
    cbn [m_txPending put_txQueue put_endpoints put_ops s1 put_endpoint put_getwork_timer put_connecting]. by rewrite Hp, bind_update. }
  destruct (begin_connect_next u t1 s2 Hu Hx eq_refl) as (s3 & E3 & H3).
  assert (Hrun : forall l s', gw_run capacity writeString parse s3 l s' ->
    gw_run capacity writeString parse s ((t0, GwConnect) :: (t1, GwResolved Success eps) :: l) s').
  { intros l s' Hr. eapply run_event; [cbn; by rewrite Hu, Hc|done|exact E1|].
    eapply run_event; [done|done| |exact Hr]. by rewrite E2. }
  change (m_endpoints s2) with eps in H3. change (gw_calls s2) with (gw_calls s) in H3. destruct eps as [|ep eps].
  - destruct ts; [|done]. exists s3. split; [apply Hrun; constructor|]. by subst s3.
  - destruct H3 as [H3 Hcalls]. destruct (endpoints_fail u _ ts s3 H3) as (s' & Hr & Hc' & Hend); [done|done|].
    exists s'. split; [by apply Hrun|]. split; [|done]. rewrite Hc', Hcalls. by rewrite <- app_assoc.
Qed.

End Protocol.

(** ** Examples *)

Abbreviation exec_node :=
  (exec (lib := json_lib) (rd := json_read) 8 write_example (parse_example answers_example)).

(** A client that got work. *)
Definition working_example : @getwork json_lib := default new_example (exec_node (take 5 events_example) new_example).

Lemma working_idle : idle node_uri 1 working_example.
Proof. unfold idle. repeat split; try (vm_compute; reflexivity). exists []. vm_compute. reflexivity. Qed.

Lemma example_headers : Forall header_line [chars "HTTP/1.1 200 OK"; chars "Server: node"].
Proof. repeat constructor; try done; refine (bool_decide_unpack _ _); vm_compute; exact I. Qed.

Lemma example_hash n : 0 <= n < 256 -> hash_wf 32 (replicate 31 0 ++ [n]).
Proof.
  intros Hn. split; [done|]. apply Forall_app. split; [apply Forall_replicate|apply Forall_singleton]; unfold is_byte, in_word; lia.
Qed.

Lemma answers_work : answers (lib := json_lib) (rd := json_read) work_answer
  (replicate 31 0 ++ [1]) (replicate 31 0 ++ [2]) (replicate 31 0 ++ [3]).
Proof.
  split; [split; [reflexivity|]; exists JNull; by split|]. split; [reflexivity|].
  eexists _, Add. split; [reflexivity|]. split; [reflexivity|]. split; [reflexivity|]. by split.
Qed.



Definition pool_host : URI :=
  mk_URI (chars "http") [] [] [] [] [] (chars "node.example") [] [] [] [] (chars "X") [] (chars "http://node.example:8545") 999 8545
    false false false HostDns None None.

Lemma getwork_endpoints_tried_witness :
  exists s',
    gw_run (lib := json_lib) (rd := json_read) 8 write_example (parse_example []) (put_conn (Some pool_host) new_example)
      [(0, GwConnect); (1, GwResolved Success [4; 6]); (2, GwConnectDone Failure); (3, GwConnectDone Failure)] s' /\
    gw_calls s' = [GwConnectTo 4; GwConnectTo 6; GwDisconnected].
Proof.
  destruct (getwork_endpoints_tried (lib := json_lib) (rd := json_read) 8 write_example (parse_example [])
    pool_host (put_conn (Some pool_host) new_example) [4; 6] 0 1 [2; 3]) as (s' & Hr & Hc & _).
  - unfold fresh. repeat split; reflexivity.
  - left. reflexivity.
  - reflexivity.
  - exists s'. split; [exact Hr|exact Hc].
Defined.
