(* ===== verification/GetworkFindings.v ===== *)
(** * Findings about the getwork client

    Behaviour of the handlers that their comments or their purpose contradict,
    each as a theorem about the model. *)

From Stdlib Require Import ZArith Lia Bool Ascii String Floats.SpecFloat.
From stdpp Require Import base numbers list gmap strings.
From S2P Require Import Prelude Words Outcome CommonData FixedHash Floats Miner Farm PoolURI Json Lines PoolClient.
From S2P Require Import Getwork GetworkCorrect GetworkProtocol.

Local Open Scope Z_scope.

Section Findings.
Context {lib : JsonLib} {rd : JsonRead lib}.
Context (writeString : json -> list ascii) (parse : list ascii -> bool * Value).

(** ** A queue without room *)

Definition is_write (c : gw_call) : bool := match c with GwWrite _ => true | _ => false end.

(** Nothing waits and nothing was written. *)
Definition silent (s : getwork) : Prop := m_txQueue s = [] /\ Forall (fun c => is_write c = false) (gw_calls s).

Lemma silent_update f :
  (forall s, m_txQueue (f s) = m_txQueue s /\ gw_calls (f s) = gw_calls s) -> keeps True silent (update f).
Proof. intros Hf. apply keeps_update. intros s Hs. unfold silent. by destruct (Hf s) as [-> ->]. Qed.

Lemma silent_call c : is_write c = false -> keeps True silent (call c).
Proof.
  intros Hc. apply keeps_update. intros s [H1 H2]. split; [done|]. apply Forall_app. split; [done|]. by apply Forall_singleton.
Qed.

Lemma silent_any {A} (m : client_m getwork A) : (forall s o s', m s = Some (o, s') -> silent s -> silent s') -> keeps True silent m.
Proof. intros Hm s Hs. unfold spec. destruct (m s) as [[o s']|] eqn:E; [by apply (Hm s o)|done]. Qed.

Lemma silent_conn : keeps True silent conn.
Proof. apply silent_any. intros s o s'. unfold conn. destruct (m_conn s); [by intros [= <- <-]|done]. Qed.

Lemma silent_pop : keeps True silent pop_endpoint.
Proof. apply silent_any. intros s o s'. unfold pop_endpoint. destruct (m_endpoints s); [done|]. by intros [= <- <-]. Qed.

Create HintDb silence discriminated.
Hint Resolve silent_conn silent_pop silent_call : silence.
Hint Extern 1 (is_write ?c = false) => (match c with if ?b then _ else _ => destruct b | _ => idtac end; reflexivity) : silence.
Hint Extern 2 (keeps _ _ (update _)) => (apply silent_update; done) : silence.

Ltac silence := repeat first [keeps_step|solve [eauto 3 with silence nocore]].

Lemma silent_disconnect now : keeps True silent (disconnect now).
Proof.
  unfold disconnect, set_conn, report_disconnected. silence. apply keeps_update. by intros s [H1 H2].
Qed.

Lemma silent_begin_connect now : keeps True silent (begin_connect now).
Proof. pose proof (silent_disconnect now). unfold begin_connect, start. silence. Qed.

Lemma silent_send now line : keeps True silent (send now 0 line).
Proof.
  pose proof (silent_begin_connect now). unfold send. silence.
Qed.

Lemma silent_processResponse now v : keeps True silent (processResponse now v).
Proof.
  unfold processResponse, work_response, solution_response, wait. silence.
Qed.

Lemma silent_body now l : keeps True silent (process_body now parse l).
Proof. pose proof (silent_processResponse now). unfold process_body. silence. Qed.

Lemma silent_lines now fuel n h rx : keeps True silent (read_lines now parse fuel n h rx).
Proof.
  pose proof (silent_body now). pose proof (silent_disconnect now). revert n h rx.
  induction fuel as [|fuel IH]; intros n h rx; cbn [read_lines]; [by intros s Hs|]. silence.
Qed.

Lemma silent_connected now ec : keeps True silent (handle_connect now parse ec).
Proof.
  intros s Hs. pose proof (silent_begin_connect now). unfold handle_connect. apply spec_state.
  pose proof Hs as [Hq _]. rewrite Hq. unfold transmit. apply spec_keeps; [|done]. silence.
Qed.

Lemma silent_handler now e : keeps True silent (handler now 0 writeString parse e).
Proof.
  pose proof (silent_disconnect now). pose proof (silent_begin_connect now). pose proof (silent_send now).
  pose proof (silent_connected now). pose proof (silent_lines now).
  unfold handler, finish. destruct e; cbn [completes];
    unfold setConnection, connect, submitHashrate, submitSolution, send_json, handle_resolve, handle_write, handle_read,
      getwork_timer_elapsed, start; silence.
Qed.

(** The queue of requests is made without a capacity, but requests are added
    with [bounded_push], which takes its room from it (the stratum client asks
    for 64 entries): with no room a client never sends a request, whatever
    happens to it. *)
Theorem getwork_without_room_silent (worktimeout period max_id : Z) (l : list (Z * gw_event)) (s : getwork) (request : list ascii) :
  gw_run 0 writeString parse (EthGetworkClient_new worktimeout period max_id) l s -> GwWrite request ∉ gw_calls s.
Proof.
  intros Hr. assert (Hs : silent s).
  { assert (H0 : silent (EthGetworkClient_new worktimeout period max_id)) by (split; [done|constructor]). revert H0.
    induction Hr as [|now e l s s1 s2 _ _ Hh _ IH]; [done|]. intros H0. apply IH.
    pose proof (silent_handler now e s H0) as H1. unfold spec in H1. by rewrite Hh in H1. }
  destruct Hs as [_ Hs]. intros Hin. by apply (proj1 (Forall_forall _ _) Hs) in Hin.
Qed.

(** ** Polling that ends *)

(** Nothing is outstanding: no event of the network or the timer can happen. *)
Definition stalled (s : getwork) : Prop :=
  m_connected s = true /\ gw_ops s = [] /\ m_getwork_timer s = None.

Lemma stalled_dead s e :
  stalled s -> match e with GwResolved _ _ | GwConnectDone _ | GwWriteDone _ _ | GwReadDone _ _ | GwTimer false => True | _ => False end ->
  enabled e s = false.
Proof.
  intros (_ & Ho & Ht) He. destruct e as [| | | | | | | | |[]]; try done; cbn; rewrite ?Ho, ?Ht; done.
Qed.

(** A response to a request for work that is not JSON is reported and ignored:
    the timer is not set again and the client stays connected without asking
    for work any more; the limit on the time without work is checked only by
    the timer. *)
Theorem getwork_bad_body_stalls capacity (u : URI) (ep : Z) (s : getwork) (line : list ascii) (t now : Z)
    (headers : list (list ascii)) (body : list ascii) (v : Value) :
  idle u ep s -> m_getwork_timer s = None -> Forall header_line headers ->
  match headers with l :: _ => http_status_ok l = true | [] => True end ->
  cut_crlf body = None -> parse (no_newlines body) = (false, v) ->
  exists s', handler now capacity writeString parse (GwReadDone Eof (http_response headers body)) (awaiting parse t u ep line s) =
    Some (Ok tt, s') /\ stalled s'.
Proof.
  intros (H1 & H2 & H3 & H4 & H5 & H6 & H7 & H8 & H9) Ht Hh Hst Hb Hp.
  unfold handler, finish. cbn [completes]. rewrite bind_update.
  assert (E : put_ops (remove_op OpRead (gw_ops (awaiting parse t u ep line s))) (awaiting parse t u ep line s) =
    put_ops [] (awaiting parse t u ep line s)) by (cbn; by rewrite decide_True).
  rewrite E, handle_read_eof; [|done|unfold http_response; by destruct (concat _)].
  unfold mbind, st_bind. rewrite read_headers; [|done|done|lia|done|lia].
  unfold process_body. rewrite Hp, bind_ret. cbn [mret st_ret negb].
  unfold after_response. rewrite bind_state. change (m_txQueue (put_socket _ _)) with (m_txQueue s). rewrite H5. eexists. by split.
Qed.

End Findings.

(** A request that could not be written is lost: the next endpoint is connected,
    finds nothing to send, and the client is connected without ever asking for
    work. *)
Theorem getwork_lost_request_stalls :
  exists s, gw_run (lib := json_lib) (rd := json_read) 8 write_example (parse_example []) (put_conn (Some pool_host) new_example)
    [(0, GwConnect); (1, GwResolved Success [4; 6]); (2, GwConnectDone Success); (3, GwWriteDone Failure 0);
     (4, GwConnectDone Success)] s /\ stalled s.
Proof.
  eexists. split; [apply exec_gw_run, (value_default new_example); vm_compute; reflexivity|]. split; [vm_compute; reflexivity|].
  split; vm_compute; reflexivity.
Qed.

(** How a handler ended. *)
Definition ending {A} (r : option (outcome unit * A)) : option (option exn) :=
  match r with
  | Some (Ok _, _) => Some None
  | Some (Throw e, _) => Some (Some e)
  | None => None
  end.

(** A response that is JSON but not an object, or whose result is no array, ends
    the program: the exception of the JSON library leaves the handler. *)
Theorem getwork_json_escapes :
  let state := awaiting (lib := json_lib) (parse_example answers_example) 11 node_uri 1 (m_jsonGetWork write_example) working_example in
  let read body := ending (handler (lib := json_lib) (rd := json_read) 13 8 write_example (parse_example answers_example)
                             (GwReadDone Eof (reply body)) state) in
  read "[]"%string = Some (Some JsonError) /\ read "text"%string = Some (Some JsonError).
Proof. vm_compute. by split. Qed.

(** A client that gives a connection up because there was no work for too long
    leaves the operation of a request that is under way; when this fails, its
    handler reads the connection, which the pool manager took away. *)
Theorem getwork_stale_operation_undefined :
  exists s, exec (lib := json_lib) (rd := json_read) 8 write_example (parse_example answers_example)
      [(10, GwHashrate 1 ""); (11, GwConnectDone Success); (12, GwWriteDone Success 200)] working_example = Some s /\
    enabled (GwTimer false) s = true /\
    match handler (rd := json_read) 999000000000 8 write_example (parse_example answers_example) (GwTimer false) s with
    | Some (Ok _, s1) =>
        enabled (GwReadDone Failure []) s1 = true /\
        ending (handler (rd := json_read) 999000000001 8 write_example (parse_example answers_example) (GwReadDone Failure []) s1) = None
    | _ => False
    end.
Proof.
  eexists. split; [apply (value_default new_example); vm_compute; reflexivity|]. split; [vm_compute; reflexivity|].
  vm_compute. by split.
Qed.
