(* ===== verification/Simulate.v ===== *)
(** * The simulation ([libpool/testing/SimulateClient])

    A client without a pool: it hands over one job of its own, judges the
    solutions itself and keeps the largest and the mean hash rate. *)

From Stdlib Require Import ZArith Lia Bool Ascii String Floats.SpecFloat.
From stdpp Require Import base numbers list gmap strings.
From S2P Require Import Prelude Words EthashSpec Ethash EthashHash Managed Outcome CommonData FixedHash Floats.
From S2P Require Import Miner Farm PoolURI Target Json PoolClient.

Local Open Scope Z_scope.

(** ** State *)

(** Calls of the handlers of the pool manager, and the start of the thread. *)
Inductive sim_call :=
  | SimConnected
  | SimDisconnected
  | SimStartWorking
  | SimWork (w : WorkPackage)
  | SimAccepted (ms : Z) (miner : Z) (stale : bool)
  | SimRejected (ms : Z) (miner : Z).

Record simulate := mk_simulate {
  m_block : Z;
  m_conn : option URI;
  m_connected : bool;
  m_session : option Session;
  hr_max : float;
  hr_mean : float;
  sim_calls : list sim_call
}.

Definition SimulateClient_new (block : Z) : simulate := mk_simulate block None false None fzero fzero [].

Definition put_link (u : option URI) (c : bool) (x : option Session) (s : simulate) : simulate :=
  mk_simulate (m_block s) u c x (hr_max s) (hr_mean s) (sim_calls s).
Definition put_rates (mx mean : float) (s : simulate) : simulate :=
  mk_simulate (m_block s) (m_conn s) (m_connected s) (m_session s) mx mean (sim_calls s).
Definition sim_emit (c : sim_call) (s : simulate) : simulate :=
  mk_simulate (m_block s) (m_conn s) (m_connected s) (m_session s) (hr_max s) (hr_mean s) (sim_calls s ++ [c]).

Abbreviation sim_m := (client_m simulate).

(** ** Operations *)

Definition connect (now : Z) : sim_m unit :=
  _ ← update (fun s =>
        put_link (m_conn s) true (Some (session_authorized true (session_subscribed true (Session_new now)))) s);
  _ ← update (sim_emit SimConnected);
  update (sim_emit SimStartWorking).

(** What is undefined: a rate without a suffix, no connection or no session. *)
Definition disconnect (now : Z) : sim_m unit := fun s =>
  _ ← getFormattedHashes (hr_max s) true 6;
  _ ← getFormattedHashes (hr_mean s) true 6;
  u ← m_conn s;
  x ← m_session s;
  Some (Ok tt, sim_emit SimDisconnected
    (put_link (Some (addDuration u (Z.quot (in_seconds (now - s_start x)) 60))) false None s)).

Definition submitHashrate (rate : Z) (id : string) : sim_m unit := mret tt.

Section Submit.
Context {host : Host}.

(** [t0] and [t1] are the times before and after the evaluation, [t] the thread
    and [g] the state of the epoch contexts. *)
Definition submitSolution (a : allocator) (t : thread) (t0 t1 : Z) (solution : Solution) (s : simulate)
    (g : managed epoch_context) : option (simulate * managed epoch_context) :=
  '(r, g) ← eval a t (epoch (s_work solution)) (header (s_work solution)) (s_nonce solution) g;
  let accepted := h_le r.1 (boundary (s_work solution)) in
  let response_delay_ms := milliseconds (t1 - t0) in
  Some (sim_emit (if accepted then SimAccepted response_delay_ms (s_midx solution) false
                  else SimRejected response_delay_ms (s_midx solution)) s, g).

End Submit.

Section Work.
Context {boost : Boost}.

(** The job; [seed] and [header] are random. *)
Definition simulated_work (block : Z) (seed header : list Z) : outcome WorkPackage :=
  t ← getTargetFromDiff (double_of_Z 1) Add;
  boundary ← h_of_string 32 t;
  Ok (mk_WorkPackage "" boundary header seed (-1) (i32 block) 0 0 (S754_zero false)).

(** The thread before its loop. *)
Definition workLoop_begin (seed header : list Z) : sim_m unit :=
  s ← get id;
  w ← throwing (simulated_work (m_block s) seed header);
  update (sim_emit (SimWork w)).

End Work.

Definition fmul : float -> float -> float := SFmul 24 128.
Definition fsub : float -> float -> float := SFsub 24 128.
Definition hr_alpha : float := fdiv (float_of_Z 45) (float_of_Z 100).
Definition fmax (a b : float) : float := if SFltb a b then b else a.

(** An iteration; the value tells whether there is another one.  [hr] is the
    hash rate of the farm. *)
Definition workLoop_step (hr : float) (s : simulate) : bool * simulate :=
  match m_session s with
  | None => (false, s)
  | Some _ =>
      (true, put_rates (fmax (hr_max s) hr)
               (fadd (fmul hr_alpha (hr_mean s)) (fmul (fsub (float_of_Z 1) hr_alpha) hr)) s)
  end.

Definition workLoop (hrs : list float) (s : simulate) : simulate :=
  fold_left (fun s hr => (workLoop_step hr s).2) hrs s.

(** ** Correctness *)

#[local] Opaque hashimoto mkcache epoch_seed.

(** The simulation accepts exactly the solutions whose value under the Ethash
    specification does not exceed the boundary of their work. *)
Theorem simulation_judges (host : Host) (ts : list thread) (g : managed epoch_context) (t : thread) (t0 t1 : Z)
    (solution : Solution) (s : simulate) :
  steps epoch_number ethash_create_epoch_context managed_init ts g -> waiting g !! t = None ->
  0 <= epoch (s_work solution) <= 2 * max_epoch + 1 -> hash256_wf (header (s_work solution)) ->
  in_word 64 (s_nonce solution) -> hash256_wf (boundary (s_work solution)) ->
  exists ln fn g',
    let e := epoch (s_work solution) in
    let r := hashimoto (mkcache (Z.to_nat ln) (epoch_seed (Z.to_nat e))) fn (header (s_work solution)) (s_nonce solution) in
    ethash_calculate_light_cache_num_items (epoch_ecip1099 e) = Some ln /\
    ethash_calculate_full_dataset_num_items (epoch_ecip1099 e) = Some fn /\
    submitSolution (fun _ => true) t t0 t1 solution s g =
      Some (sim_emit (if be_number r.1 <=? be_number (boundary (s_work solution))
                      then SimAccepted (milliseconds (t1 - t0)) (s_midx solution) false
                      else SimRejected (milliseconds (t1 - t0)) (s_midx solution)) s, g').
Proof.
  intros Hs Hw He Hh Hn [Hb1 Hb2].
  destruct (eval_spec ts g t (epoch (s_work solution)) (header (s_work solution)) (s_nonce solution) Hs Hw He Hh Hn)
    as (ln & fn & g' & Hln & Hfn & Heval).
  exists ln, fn, g'. cbv zeta. split; [exact Hln|]. split; [exact Hfn|].
  unfold submitSolution. rewrite Heval. cbn [mbind option_bind]. set (r := hashimoto _ _ _ _).
  assert (Hr : hash256_wf r.1) by apply hashimoto_final_wf. destruct Hr as [Hr1 Hr2].
  pose proof (h_gt_spec r.1 (boundary (s_work solution)) ltac:(done) ltac:(done) ltac:(congruence)) as H.
  unfold h_gt in H. rewrite Z.leb_antisym, <- H, negb_involutive. reflexivity.
Qed.

(** The farm has checked the solutions it hands over: the simulation accepts
    them. *)
Lemma found_below (host : Host) (ts : list thread) (g : managed epoch_context) (t : thread) (now : Z)
    (found solution : Solution) (f : Farm) g' :
  steps epoch_number ethash_create_epoch_context managed_init ts g -> waiting g !! t = None ->
  0 <= epoch (s_work found) <= 2 * max_epoch + 1 -> hash256_wf (header (s_work found)) ->
  in_word 64 (s_nonce found) -> hash256_wf (boundary (s_work found)) ->
  submitProofAsync (fun _ => true) t now found f g = Some (Ok tt, emit f (EvSolutionFound solution), g') ->
  exists ln fn,
    let e := epoch (s_work found) in
    let r := hashimoto (mkcache (Z.to_nat ln) (epoch_seed (Z.to_nat e))) fn (header (s_work found)) (s_nonce found) in
    ethash_calculate_light_cache_num_items (epoch_ecip1099 e) = Some ln /\
    ethash_calculate_full_dataset_num_items (epoch_ecip1099 e) = Some fn /\
    be_number r.1 <= be_number (boundary (s_work found)) /\
    solution = mk_Solution (s_nonce found) r.2 (s_work found) (s_tstamp found) (s_midx found).
Proof.
  intros Hs Hw He Hh Hn [Hb1 Hb2] Hf.
  destruct (eval_spec ts g t (epoch (s_work found)) (header (s_work found)) (s_nonce found) Hs Hw He Hh Hn)
    as (ln & fn & g1 & Hln & Hfn & Heval).
  exists ln, fn. cbv zeta. split; [exact Hln|]. split; [exact Hfn|].
  unfold submitProofAsync in Hf. rewrite Heval in Hf. cbn [mbind option_bind] in Hf. set (r := hashimoto _ _ _ _) in *.
  assert (Hr : hash256_wf r.1) by apply hashimoto_final_wf. destruct Hr as [Hr1 Hr2].
  injection Hf as Hj _. unfold judge_proof in Hj. rewrite h_gt_spec in Hj by (done || congruence).
  destruct (Z.ltb_spec (be_number (boundary (s_work found))) (be_number r.1)).
  - apply (f_equal (fun p => length (trace p.2))) in Hj. rewrite accountSolution_trace in Hj. cbn in Hj.
    rewrite length_app in Hj. cbn in Hj. lia.
  - split; [lia|]. apply (f_equal (fun p => last (trace p.2))) in Hj. cbn in Hj. rewrite !last_snoc in Hj. by injection Hj as <-.
Qed.

(** C37: a solution the farm hands over after its check is accepted by the
    simulation, whichever threads evaluate it. *)
Theorem simulation_accepts_found (host : Host) (ts1 ts2 : list thread) (g1 g2 g1' : managed epoch_context) (t1 t2 : thread)
    (now ta tb : Z) (found solution : Solution) (f : Farm) (s : simulate) :
  steps epoch_number ethash_create_epoch_context managed_init ts1 g1 -> waiting g1 !! t1 = None ->
  steps epoch_number ethash_create_epoch_context managed_init ts2 g2 -> waiting g2 !! t2 = None ->
  0 <= epoch (s_work found) <= 2 * max_epoch + 1 -> hash256_wf (header (s_work found)) ->
  in_word 64 (s_nonce found) -> hash256_wf (boundary (s_work found)) ->
  submitProofAsync (fun _ => true) t1 now found f g1 = Some (Ok tt, emit f (EvSolutionFound solution), g1') ->
  exists g2', submitSolution (fun _ => true) t2 ta tb solution s g2 =
    Some (sim_emit (SimAccepted (milliseconds (tb - ta)) (s_midx found) false) s, g2').
Proof.
  intros Hs1 Hw1 Hs2 Hw2 He Hh Hn Hb Hf.
  destruct (found_below host ts1 g1 t1 now found solution f g1' Hs1 Hw1 He Hh Hn Hb Hf) as (ln & fn & Hln & Hfn & Hle & ->).
  destruct (eval_spec ts2 g2 t2 (epoch (s_work found)) (header (s_work found)) (s_nonce found) Hs2 Hw2 He Hh Hn)
    as (ln2 & fn2 & g2' & Hln2 & Hfn2 & Heval).
  rewrite Hln in Hln2. injection Hln2 as <-. rewrite Hfn in Hfn2. injection Hfn2 as <-.
  exists g2'. unfold submitSolution. cbn [s_work s_nonce s_midx]. rewrite Heval. cbn [mbind option_bind].
  set (r := hashimoto _ _ _ _) in *. assert (Hr : hash256_wf r.1) by apply hashimoto_final_wf.
  destruct Hr as [Hr1 Hr2], Hb as [Hb1 Hb2].
  pose proof (h_gt_spec r.1 (boundary (s_work found)) ltac:(done) ltac:(done) ltac:(congruence)) as H.
  rewrite (proj2 (Z.ltb_ge _ _)) in H by exact Hle. unfold h_gt in H. apply negb_false_iff in H. by rewrite H.
Qed.

Lemma workLoop_keeps l s :
  sim_calls (workLoop l s) = sim_calls s /\
  (is_Some (m_session s) -> hr_max (workLoop l s) = fold_left fmax l (hr_max s)).
Proof.
  revert s. induction l as [|hr l IH]; intros s; [done|]. cbn [workLoop fold_left].
  destruct (IH (workLoop_step hr s).2) as [H1 H2]. unfold workLoop in H1, H2. unfold workLoop_step in *.
  destruct (m_session s) as [x|] eqn:E; cbn [snd] in *.
  - split; [exact H1|]. intros _. apply H2. cbn. rewrite E. by eexists.
  - split; [exact H1|]. by intros [].
Qed.

(** The job is handed over once, before the loop, with the target of difficulty
    one; the loop does not touch the connection, and the largest rate is kept. *)
Theorem simulation_job (boost : Boost) (seed header : list Z) (s : simulate) (hrs : list float) :
  BoostLaws boost -> cpp_int_of_double (ddiv (double_of_Z 1) (double_of_Z 1)) = Ok 1 ->
  lexical_cast (ddiv (double_of_Z 1) (double_of_Z 1)) = chars "1" ->
  exists w s', workLoop_begin seed header s = Some (Ok tt, s') /\ be_number (boundary w) = target_base /\
    Miner.header w = header /\ block w = i32 (m_block s) /\
    sim_calls (workLoop hrs s') = sim_calls s ++ [SimWork w] /\
    (is_Some (m_session s) -> hr_max (workLoop hrs s') = fold_left fmax hrs (hr_max s)).
Proof.
  intros HB Hi Hl.
  assert (Hp : target_product (double_of_Z 1) = Ok target_base).
  { unfold target_product. change (double_of_Z 1) with (S754_finite false 4503599627370496 (-52)) in *.
    rewrite Hi, Hl. cbn [mbind outcome_bind]. change (split_first "." (chars "1")) with (@None (list ascii * list ascii)). cbn.
    by rewrite Z.mul_1_r. }
  destruct (target_text Add target_base) as (h & Hh & _ & Hv); [unfold target_base; lia|].
  set (w := mk_WorkPackage "" h header seed (-1) (i32 (m_block s)) 0 0 (S754_zero false)).
  exists w, (sim_emit (SimWork w) s). split.
  { assert (Ht : getTargetFromDiff (double_of_Z 1) Add = Ok (text (to_lower (add_prefix Add (put_hex 64 target_base))))).
    { unfold getTargetFromDiff. rewrite Hp. cbn [mbind outcome_bind].
      destruct (Z.ltb_spec target_base 0) as [H|_]; [unfold target_base in H; lia|reflexivity]. }
    assert (Hw : simulated_work (m_block s) seed header = Ok w).
    { unfold simulated_work. rewrite Ht. cbn [mbind outcome_bind]. by rewrite Hh. }
    unfold workLoop_begin. rewrite bind_state. unfold mbind, st_bind, throwing. by rewrite Hw. }
  split; [exact Hv|]. split; [reflexivity|]. split; [reflexivity|].
  exact (workLoop_keeps hrs (sim_emit (SimWork w) s)).
Qed.

(** ** An example *)

Lemma found_example :
  exists solution g', @submitProofAsync plain_host (fun _ => true) 1%nat 0 solution_example (farm_example "") managed_init =
    Some (Ok tt, emit (farm_example "") (EvSolutionFound solution), g').
Proof.
  destruct (eval_spec (host := plain_host) [] managed_init 1%nat 10 (h_zero 32) 42 (steps_nil _ _ _) eq_refl)
    as (ln & fn & g' & _ & _ & Heval); [by vm_compute|by split; [|apply zeros_ok]|by split|].
  unfold submitProofAsync. change (epoch (s_work solution_example)) with 10. change (header (s_work solution_example)) with (h_zero 32).
  change (s_nonce solution_example) with 42. rewrite Heval. cbn [mbind option_bind]. set (r := hashimoto _ _ _ _).
  assert (Hr : hash256_wf r.1) by apply hashimoto_final_wf. destruct Hr as [Hr1 Hr2].
  unfold judge_proof. rewrite h_gt_spec; [|done|by apply (bool_decide_unpack _); vm_compute|by rewrite Hr1].
  pose proof (be_number_range _ Hr2) as Hb. rewrite Hr1 in Hb.
  assert (Hmax : be_number (boundary (s_work solution_example)) = 2 ^ 256 - 1) by (vm_compute; reflexivity).
  rewrite Hmax, (proj2 (Z.ltb_ge _ _)) by (change (2 ^ (8 * Z.of_nat 32)) with (2 ^ 256) in Hb; lia). by eexists _, g'.
Qed.

Lemma simulation_accepts_found_witness :
  exists solution g2', @submitSolution plain_host (fun _ => true) 2%nat 0 5000000 solution (SimulateClient_new 300000) managed_init =
    Some (sim_emit (SimAccepted 5 1 false) (SimulateClient_new 300000), g2').
Proof.
  destruct found_example as (solution & g' & Hf). exists solution.
  refine (simulation_accepts_found plain_host [] [] managed_init managed_init g' 1%nat 2%nat 0 0 5000000 solution_example solution
    (farm_example "") (SimulateClient_new 300000) (steps_nil _ _ _) eq_refl (steps_nil _ _ _) eq_refl _ _ _ _ Hf).
  - vm_compute. intuition congruence.
  - split; [reflexivity|apply zeros_ok].
  - unfold in_word. simpl. lia.
  - split; [reflexivity|]. refine (bool_decide_unpack _ _). vm_compute. exact I.
Defined.
