(* ===== verification/Stratum.v ===== *)
(** * The stratum client ([libpool/stratum/EthStratumClient])

    The connection to a stratum pool: its phases, the detection of the dialect
    the pool speaks, the session, the handling of every message, and the
    requests sent.  The network is an input: what the resolver, the socket and
    the timer report are arguments of the handlers, and work handed to the
    event loop is queued in the state.  [None] is undefined behaviour. *)

From Stdlib Require Import ZArith Lia Bool Ascii String Floats.SpecFloat.
From stdpp Require Import base numbers list gmap strings relations.
From S2P Require Import Prelude Words EthashSpec Ethash Outcome CommonData FixedHash Floats.
From S2P Require Import Miner Farm PoolURI Target Json Lines PoolClient.

Local Open Scope Z_scope.

(** ** State *)

(** Handlers given to the event loop; [PostResolve] is an outstanding query of
    the resolver. *)
Inductive posted :=
  | PostStartConnect
  | PostDisconnect
  | PostFinalize
  | PostResolve
  | PostLoginTimeout.

(** Calls of the handlers the pool manager installed, and messages given to the
    socket. *)
Inductive st_call :=
  | CallConnected
  | CallDisconnected
  | CallWork (w : WorkPackage)
  | CallAccepted (ms : Z) (miner : Z) (stale : bool)
  | CallRejected (ms : Z) (miner : Z)
  | CallWrite (lines : list json).

(** The members of [EthStratumClient].  [st_socket] is [None] when [m_socket] is
    null and otherwise whether the socket is open; [st_reading], [st_writing] and
    [st_timer] tell which operations are outstanding; an endpoint is a number. *)
Record stratum := mk_stratum {
  m_conn : option URI;
  m_connected : bool;
  m_connecting : bool;
  m_disconnecting : bool;
  m_authpending : bool;
  m_worktimeout : Z;
  m_responsetimeout : Z;
  m_current : WorkPackage;
  m_current_timestamp : Z;
  st_socket : option bool;
  st_message : list ascii;
  m_newjobprocessed : bool;
  st_timer : bool;
  m_response_pleas_count : Z;
  m_response_plea_older : Z;
  m_response_plea_times : list Z;
  m_txPending : bool;
  m_txQueue : list json;
  m_endpoints : list Z;
  m_endpoint : Z;
  m_solution_submitted_max_id : option Z;
  m_session : option Session;
  st_reading : bool;
  st_posted : list posted;
  st_calls : list st_call
}.

(** Assignments. *)
Definition put_conn (x : option URI) (s : stratum) : stratum :=
  mk_stratum x (m_connected s) (m_connecting s) (m_disconnecting s) (m_authpending s)
     (m_worktimeout s) (m_responsetimeout s) (m_current s) (m_current_timestamp s) (st_socket s)
     (st_message s) (m_newjobprocessed s) (st_timer s) (m_response_pleas_count s)
     (m_response_plea_older s) (m_response_plea_times s) (m_txPending s) (m_txQueue s) (m_endpoints s)
     (m_endpoint s) (m_solution_submitted_max_id s) (m_session s) (st_reading s) (st_posted s)
     (st_calls s).
Definition put_connected (x : bool) (s : stratum) : stratum :=
  mk_stratum (m_conn s) x (m_connecting s) (m_disconnecting s) (m_authpending s) (m_worktimeout s)
     (m_responsetimeout s) (m_current s) (m_current_timestamp s) (st_socket s) (st_message s)
     (m_newjobprocessed s) (st_timer s) (m_response_pleas_count s) (m_response_plea_older s)
     (m_response_plea_times s) (m_txPending s) (m_txQueue s) (m_endpoints s) (m_endpoint s)
     (m_solution_submitted_max_id s) (m_session s) (st_reading s) (st_posted s) (st_calls s).
Definition put_connecting (x : bool) (s : stratum) : stratum :=
  mk_stratum (m_conn s) (m_connected s) x (m_disconnecting s) (m_authpending s) (m_worktimeout s)
     (m_responsetimeout s) (m_current s) (m_current_timestamp s) (st_socket s) (st_message s)
     (m_newjobprocessed s) (st_timer s) (m_response_pleas_count s) (m_response_plea_older s)
     (m_response_plea_times s) (m_txPending s) (m_txQueue s) (m_endpoints s) (m_endpoint s)
     (m_solution_submitted_max_id s) (m_session s) (st_reading s) (st_posted s) (st_calls s).
Definition put_disconnecting (x : bool) (s : stratum) : stratum :=
  mk_stratum (m_conn s) (m_connected s) (m_connecting s) x (m_authpending s) (m_worktimeout s)
     (m_responsetimeout s) (m_current s) (m_current_timestamp s) (st_socket s) (st_message s)
     (m_newjobprocessed s) (st_timer s) (m_response_pleas_count s) (m_response_plea_older s)
     (m_response_plea_times s) (m_txPending s) (m_txQueue s) (m_endpoints s) (m_endpoint s)
     (m_solution_submitted_max_id s) (m_session s) (st_reading s) (st_posted s) (st_calls s).
Definition put_authpending (x : bool) (s : stratum) : stratum :=
  mk_stratum (m_conn s) (m_connected s) (m_connecting s) (m_disconnecting s) x (m_worktimeout s)
     (m_responsetimeout s) (m_current s) (m_current_timestamp s) (st_socket s) (st_message s)
     (m_newjobprocessed s) (st_timer s) (m_response_pleas_count s) (m_response_plea_older s)
     (m_response_plea_times s) (m_txPending s) (m_txQueue s) (m_endpoints s) (m_endpoint s)
     (m_solution_submitted_max_id s) (m_session s) (st_reading s) (st_posted s) (st_calls s).
Definition put_current (x : WorkPackage) (s : stratum) : stratum :=
  mk_stratum (m_conn s) (m_connected s) (m_connecting s) (m_disconnecting s) (m_authpending s)
     (m_worktimeout s) (m_responsetimeout s) x (m_current_timestamp s) (st_socket s) (st_message s)
     (m_newjobprocessed s) (st_timer s) (m_response_pleas_count s) (m_response_plea_older s)
     (m_response_plea_times s) (m_txPending s) (m_txQueue s) (m_endpoints s) (m_endpoint s)
     (m_solution_submitted_max_id s) (m_session s) (st_reading s) (st_posted s) (st_calls s).
Definition put_current_timestamp (x : Z) (s : stratum) : stratum :=
  mk_stratum (m_conn s) (m_connected s) (m_connecting s) (m_disconnecting s) (m_authpending s)
     (m_worktimeout s) (m_responsetimeout s) (m_current s) x (st_socket s) (st_message s)
     (m_newjobprocessed s) (st_timer s) (m_response_pleas_count s) (m_response_plea_older s)
     (m_response_plea_times s) (m_txPending s) (m_txQueue s) (m_endpoints s) (m_endpoint s)
     (m_solution_submitted_max_id s) (m_session s) (st_reading s) (st_posted s) (st_calls s).
Definition put_socket (x : option bool) (s : stratum) : stratum :=
  mk_stratum (m_conn s) (m_connected s) (m_connecting s) (m_disconnecting s) (m_authpending s)
     (m_worktimeout s) (m_responsetimeout s) (m_current s) (m_current_timestamp s) x (st_message s)
     (m_newjobprocessed s) (st_timer s) (m_response_pleas_count s) (m_response_plea_older s)
     (m_response_plea_times s) (m_txPending s) (m_txQueue s) (m_endpoints s) (m_endpoint s)
     (m_solution_submitted_max_id s) (m_session s) (st_reading s) (st_posted s) (st_calls s).
Definition put_message (x : list ascii) (s : stratum) : stratum :=
  mk_stratum (m_conn s) (m_connected s) (m_connecting s) (m_disconnecting s) (m_authpending s)
     (m_worktimeout s) (m_responsetimeout s) (m_current s) (m_current_timestamp s) (st_socket s) x
     (m_newjobprocessed s) (st_timer s) (m_response_pleas_count s) (m_response_plea_older s)
     (m_response_plea_times s) (m_txPending s) (m_txQueue s) (m_endpoints s) (m_endpoint s)
     (m_solution_submitted_max_id s) (m_session s) (st_reading s) (st_posted s) (st_calls s).
Definition put_newjobprocessed (x : bool) (s : stratum) : stratum :=
  mk_stratum (m_conn s) (m_connected s) (m_connecting s) (m_disconnecting s) (m_authpending s)
     (m_worktimeout s) (m_responsetimeout s) (m_current s) (m_current_timestamp s) (st_socket s)
     (st_message s) x (st_timer s) (m_response_pleas_count s) (m_response_plea_older s)
     (m_response_plea_times s) (m_txPending s) (m_txQueue s) (m_endpoints s) (m_endpoint s)
     (m_solution_submitted_max_id s) (m_session s) (st_reading s) (st_posted s) (st_calls s).
Definition put_timer (x : bool) (s : stratum) : stratum :=
  mk_stratum (m_conn s) (m_connected s) (m_connecting s) (m_disconnecting s) (m_authpending s)
     (m_worktimeout s) (m_responsetimeout s) (m_current s) (m_current_timestamp s) (st_socket s)
     (st_message s) (m_newjobprocessed s) x (m_response_pleas_count s) (m_response_plea_older s)
     (m_response_plea_times s) (m_txPending s) (m_txQueue s) (m_endpoints s) (m_endpoint s)
     (m_solution_submitted_max_id s) (m_session s) (st_reading s) (st_posted s) (st_calls s).
Definition put_response_pleas_count (x : Z) (s : stratum) : stratum :=
  mk_stratum (m_conn s) (m_connected s) (m_connecting s) (m_disconnecting s) (m_authpending s)
     (m_worktimeout s) (m_responsetimeout s) (m_current s) (m_current_timestamp s) (st_socket s)
     (st_message s) (m_newjobprocessed s) (st_timer s) x (m_response_plea_older s)
     (m_response_plea_times s) (m_txPending s) (m_txQueue s) (m_endpoints s) (m_endpoint s)
     (m_solution_submitted_max_id s) (m_session s) (st_reading s) (st_posted s) (st_calls s).
Definition put_response_plea_older (x : Z) (s : stratum) : stratum :=
  mk_stratum (m_conn s) (m_connected s) (m_connecting s) (m_disconnecting s) (m_authpending s)
     (m_worktimeout s) (m_responsetimeout s) (m_current s) (m_current_timestamp s) (st_socket s)
     (st_message s) (m_newjobprocessed s) (st_timer s) (m_response_pleas_count s) x
     (m_response_plea_times s) (m_txPending s) (m_txQueue s) (m_endpoints s) (m_endpoint s)
     (m_solution_submitted_max_id s) (m_session s) (st_reading s) (st_posted s) (st_calls s).
Definition put_response_plea_times (x : list Z) (s : stratum) : stratum :=
  mk_stratum (m_conn s) (m_connected s) (m_connecting s) (m_disconnecting s) (m_authpending s)
     (m_worktimeout s) (m_responsetimeout s) (m_current s) (m_current_timestamp s) (st_socket s)
     (st_message s) (m_newjobprocessed s) (st_timer s) (m_response_pleas_count s)
     (m_response_plea_older s) x (m_txPending s) (m_txQueue s) (m_endpoints s) (m_endpoint s)
     (m_solution_submitted_max_id s) (m_session s) (st_reading s) (st_posted s) (st_calls s).
Definition put_txPending (x : bool) (s : stratum) : stratum :=
  mk_stratum (m_conn s) (m_connected s) (m_connecting s) (m_disconnecting s) (m_authpending s)
     (m_worktimeout s) (m_responsetimeout s) (m_current s) (m_current_timestamp s) (st_socket s)
     (st_message s) (m_newjobprocessed s) (st_timer s) (m_response_pleas_count s)
     (m_response_plea_older s) (m_response_plea_times s) x (m_txQueue s) (m_endpoints s)
     (m_endpoint s) (m_solution_submitted_max_id s) (m_session s) (st_reading s) (st_posted s)
     (st_calls s).
Definition put_txQueue (x : list json) (s : stratum) : stratum :=
  mk_stratum (m_conn s) (m_connected s) (m_connecting s) (m_disconnecting s) (m_authpending s)
     (m_worktimeout s) (m_responsetimeout s) (m_current s) (m_current_timestamp s) (st_socket s)
     (st_message s) (m_newjobprocessed s) (st_timer s) (m_response_pleas_count s)
     (m_response_plea_older s) (m_response_plea_times s) (m_txPending s) x (m_endpoints s)
     (m_endpoint s) (m_solution_submitted_max_id s) (m_session s) (st_reading s) (st_posted s)
     (st_calls s).
Definition put_endpoints (x : list Z) (s : stratum) : stratum :=
  mk_stratum (m_conn s) (m_connected s) (m_connecting s) (m_disconnecting s) (m_authpending s)
     (m_worktimeout s) (m_responsetimeout s) (m_current s) (m_current_timestamp s) (st_socket s)
     (st_message s) (m_newjobprocessed s) (st_timer s) (m_response_pleas_count s)
     (m_response_plea_older s) (m_response_plea_times s) (m_txPending s) (m_txQueue s) x
     (m_endpoint s) (m_solution_submitted_max_id s) (m_session s) (st_reading s) (st_posted s)
     (st_calls s).
Definition put_endpoint (x : Z) (s : stratum) : stratum :=
  mk_stratum (m_conn s) (m_connected s) (m_connecting s) (m_disconnecting s) (m_authpending s)
     (m_worktimeout s) (m_responsetimeout s) (m_current s) (m_current_timestamp s) (st_socket s)
     (st_message s) (m_newjobprocessed s) (st_timer s) (m_response_pleas_count s)
     (m_response_plea_older s) (m_response_plea_times s) (m_txPending s) (m_txQueue s)
     (m_endpoints s) x (m_solution_submitted_max_id s) (m_session s) (st_reading s) (st_posted s)
     (st_calls s).
Definition put_solution_submitted_max_id (x : option Z) (s : stratum) : stratum :=
  mk_stratum (m_conn s) (m_connected s) (m_connecting s) (m_disconnecting s) (m_authpending s)
     (m_worktimeout s) (m_responsetimeout s) (m_current s) (m_current_timestamp s) (st_socket s)
     (st_message s) (m_newjobprocessed s) (st_timer s) (m_response_pleas_count s)
     (m_response_plea_older s) (m_response_plea_times s) (m_txPending s) (m_txQueue s) (m_endpoints s)
     (m_endpoint s) x (m_session s) (st_reading s) (st_posted s) (st_calls s).
Definition put_session (x : option Session) (s : stratum) : stratum :=
  mk_stratum (m_conn s) (m_connected s) (m_connecting s) (m_disconnecting s) (m_authpending s)
     (m_worktimeout s) (m_responsetimeout s) (m_current s) (m_current_timestamp s) (st_socket s)
     (st_message s) (m_newjobprocessed s) (st_timer s) (m_response_pleas_count s)
     (m_response_plea_older s) (m_response_plea_times s) (m_txPending s) (m_txQueue s) (m_endpoints s)
     (m_endpoint s) (m_solution_submitted_max_id s) x (st_reading s) (st_posted s) (st_calls s).
Definition put_reading (x : bool) (s : stratum) : stratum :=
  mk_stratum (m_conn s) (m_connected s) (m_connecting s) (m_disconnecting s) (m_authpending s)
     (m_worktimeout s) (m_responsetimeout s) (m_current s) (m_current_timestamp s) (st_socket s)
     (st_message s) (m_newjobprocessed s) (st_timer s) (m_response_pleas_count s)
     (m_response_plea_older s) (m_response_plea_times s) (m_txPending s) (m_txQueue s) (m_endpoints s)
     (m_endpoint s) (m_solution_submitted_max_id s) (m_session s) x (st_posted s) (st_calls s).
Definition put_posted (x : list posted) (s : stratum) : stratum :=
  mk_stratum (m_conn s) (m_connected s) (m_connecting s) (m_disconnecting s) (m_authpending s)
     (m_worktimeout s) (m_responsetimeout s) (m_current s) (m_current_timestamp s) (st_socket s)
     (st_message s) (m_newjobprocessed s) (st_timer s) (m_response_pleas_count s)
     (m_response_plea_older s) (m_response_plea_times s) (m_txPending s) (m_txQueue s) (m_endpoints s)
     (m_endpoint s) (m_solution_submitted_max_id s) (m_session s) (st_reading s) x (st_calls s).
Definition put_calls (x : list st_call) (s : stratum) : stratum :=
  mk_stratum (m_conn s) (m_connected s) (m_connecting s) (m_disconnecting s) (m_authpending s)
     (m_worktimeout s) (m_responsetimeout s) (m_current s) (m_current_timestamp s) (st_socket s)
     (st_message s) (m_newjobprocessed s) (st_timer s) (m_response_pleas_count s)
     (m_response_plea_older s) (m_response_plea_times s) (m_txPending s) (m_txQueue s) (m_endpoints s)
     (m_endpoint s) (m_solution_submitted_max_id s) (m_session s) (st_reading s) (st_posted s) x.

(** ** Handlers *)

(** What a handler finds: the clock, the name of the program, what cancelling
    the operations of an open or closed socket does, and the numbers of Boost,
    with which targets and difficulties are converted. *)
Record st_env := mk_st_env {
  e_now : Z;
  e_version : string;
  e_cancel : bool -> outcome unit;
  e_boost : Boost
}.

Definition e_targetFromDiff (env : st_env) (d : double) : outcome string := getTargetFromDiff (boost := e_boost env) d Add.
Definition e_hashesToTarget (env : st_env) (t : string) : outcome double := getHashesToTarget (boost := e_boost env) t.

Abbreviation st_m := (client_m stratum).

(** Dereferencing [m_conn] and [m_session]. *)
Definition conn : st_m URI := fun s =>
  match m_conn s with Some u => Some (Ok u, s) | None => None end.
Definition session : st_m Session := fun s =>
  match m_session s with Some x => Some (Ok x, s) | None => None end.
Definition set_session (f : Session -> Session) : st_m unit :=
  x ← session; update (put_session (Some (f x))).
Definition set_conn (f : URI -> URI) : st_m unit :=
  u ← conn; update (put_conn (Some (f u))).

Definition post (p : posted) : st_m unit := update (fun s => put_posted (st_posted s ++ [p]) s).
Definition call (c : st_call) : st_m unit := update (fun s => put_calls (st_calls s ++ [c]) s).

Definition isPendingState (s : stratum) : bool := m_connecting s || m_disconnecting s.
Definition isConnected (s : stratum) : bool := m_connected s && negb (isPendingState s).
Definition isSubscribed (s : stratum) : bool :=
  match m_session s with Some x => s_subscribed x | None => false end.
Definition isAuthorized (s : stratum) : bool :=
  match m_session s with Some x => s_authorized x | None => false end.

Section Handlers.
Context (env : st_env).

(** *** Requests that wait for a response *)

(** The queues are made with 64 entries and [bounded_push] does not grow them. *)
Definition queue_size : nat := 64.
Definition bounded_push {A} (x : A) (q : list A) : list A := push_within queue_size x q.

Definition enqueue_response_plea : st_m unit := update (fun s =>
  let s := if m_response_pleas_count s =? 0 then put_response_plea_older (e_now env) s else s in
  let s := put_response_pleas_count (m_response_pleas_count s + 1) s in
  put_response_plea_times (bounded_push (e_now env) (m_response_plea_times s)) s).

Definition dequeue_response_plea : st_m Z := fun s =>
  let response_delay_ms := milliseconds (e_now env - m_response_plea_older s) in
  let s := match m_response_plea_times s with
           | t :: ts => put_response_plea_older t (put_response_plea_times ts s)
           | [] => s
           end in
  if 0 <? m_response_pleas_count s then
    Some (Ok response_delay_ms, put_response_pleas_count (m_response_pleas_count s - 1) s)
  else Some (Ok 0, s).

Definition clear_response_pleas : st_m unit := update (fun s =>
  put_response_plea_older (e_now env) (put_response_plea_times [] (put_response_pleas_count 0 s))).

(** *** Sending *)

Definition sendSocketData : st_m unit :=
  s ← get id;
  if negb (isConnected s) || (match m_txQueue s with [] => true | _ => false end) then
    update (fun s => put_txPending false (put_txQueue [] s))
  else
    _ ← conn;
    _ ← call (CallWrite (m_txQueue s));
    update (put_txQueue []).

Definition send (jReq : json) : st_m unit :=
  _ ← update (fun s => put_txQueue (bounded_push jReq (m_txQueue s)) s);
  s ← get id;
  if m_txPending s then mret tt
  else _ ← update (put_txPending true); sendSocketData.

(** [ec] is the error, if there was one, and whether it says that the secure
    stream is shut down. *)
Definition onSendSocketDataCompleted (ec : option bool) : st_m unit :=
  match ec with
  | Some is_shutdown =>
      _ ← update (fun s => put_txPending false (put_txQueue [] s));
      _ ← when is_shutdown (post PostDisconnect);
      s ← get id;
      when (isConnected s) (post PostDisconnect)
  | None =>
      u ← conn;
      s ← get id;
      _ ← when ((match m_session s with Some _ => true | None => false end) && (m_stratumMode u =? 3))
            (set_session (session_lastTxStamp (e_now env)));
      match m_txQueue s with
      | [] => update (put_txPending false)
      | _ => sendSocketData
      end
  end.

Definition recvSocketData : st_m unit := _ ← conn; update (put_reading true).

(** *** Connecting *)

Definition is_secure (u : URI) : bool := match SecLevel u with SecNONE => false | _ => true end.

(** The pointer to the socket, which is closed until it is connected. *)
Definition init_socket : st_m unit := _ ← conn; update (put_socket (Some false)).

Definition connect : st_m unit :=
  s ← get id;
  if m_connecting s then mret tt else
  _ ← update (fun s => put_authpending false (put_timer true s));
  _ ← (match st_socket s with None => init_socket | Some _ => mret tt end);
  _ ← update (fun s => put_endpoint 0 (put_endpoints [] s));
  u ← conn;
  match m_hostType u with
  | HostDns | HostBasic => post PostResolve
  | _ =>
      _ ← update (fun s => put_endpoints (m_endpoints s ++ [1]) s);
      post PostStartConnect
  end.

Definition disconnect_finalize : st_m unit :=
  _ ← update (put_socket None);
  s ← get id;
  _ ← (match m_session s with
       | Some x => set_conn (fun u => addDuration u (Z.quot (in_seconds (e_now env - s_start x)) 60))
       | None => mret tt
       end);
  _ ← update (fun s => put_txPending false (put_disconnecting false (put_authpending false (put_session None s))));
  u ← conn;
  if negb (m_unrecoverable u) && negb (m_stratumModeConfirmed u) && m_responds u && (0 <? m_stratumMode u) then
    _ ← set_conn (fun u => SetStratumMode_only u (m_stratumMode u - 1));
    post PostStartConnect
  else
    _ ← when (negb (m_unrecoverable u) && negb (m_stratumModeConfirmed u) && m_responds u)
          (set_conn MarkUnrecoverable);
    _ ← clear_response_pleas;
    _ ← update (fun s => put_timer false (put_solution_submitted_max_id (Some 0) s));
    call CallDisconnected.

Definition disconnect : st_m unit :=
  s ← get id;
  if m_disconnecting s then mret tt else
  _ ← update (fun s => put_connected false (put_disconnecting true s));
  match st_socket s with
  | None => disconnect_finalize
  | Some open =>
      _ ← throwing (e_cancel env open);
      if open then
        u ← conn;
        if is_secure u then enqueue_response_plea
        else _ ← update (put_socket (Some false)); disconnect_finalize
      else disconnect_finalize
  end.

Definition onSSLShutdownCompleted : st_m unit := _ ← clear_response_pleas; post PostFinalize.

(** [None]: the resolver failed. *)
Definition resolve_handler (endpoints : option (list Z)) : st_m unit :=
  match endpoints with
  | Some l =>
      _ ← update (fun s => put_endpoints (m_endpoints s ++ l) s);
      post PostStartConnect
  | None => _ ← update (put_connecting false); disconnect_finalize
  end.

Definition start_connect : st_m unit :=
  s ← get id;
  if m_connecting s then mret tt else
  _ ← update (put_connecting true);
  match m_endpoints s with
  | ep :: _ =>
      _ ← update (put_endpoint ep);
      _ ← (match st_socket s with None => init_socket | Some _ => mret tt end);
      _ ← clear_response_pleas;
      _ ← enqueue_response_plea;
      _ ← update (put_solution_submitted_max_id (Some 0));
      _ ← conn;
      update (put_socket (Some true))
  | [] => _ ← update (put_connecting false); disconnect_finalize
  end.

(** [m_endpoints.pop()], undefined on an empty queue. *)
Definition pop_endpoint : st_m unit := fun s =>
  match m_endpoints s with _ :: l => Some (Ok tt, put_endpoints l s) | [] => None end.

Definition mode_STRATUM : Z := 0.
Definition mode_ETHPROXY : Z := 1.
Definition mode_ETHEREUMSTRATUM : Z := 2.
Definition mode_ETHEREUMSTRATUM2 : Z := 3.

Definition str (l : list ascii) : json := JString (text l).

(** The first message, by dialect. *)
Definition login_request (u : URI) : json :=
  let mode := m_stratumMode u in
  let hello id method params rest :=
    JObject ([("id"%string, JInt id); ("method"%string, JString method); ("params"%string, params)] ++ rest) in
  if mode =? mode_STRATUM then
    hello 1 "mining.subscribe"%string (JArray []) [("jsonrpc"%string, JString "2.0")]
  else if mode =? mode_ETHPROXY then
    hello 1 "eth_submitLogin"%string
      (JArray (str (m_user u ++ m_path u) :: match m_password u with [] => [] | p => [str p] end))
      (match m_worker u with [] => [] | w => [("worker"%string, str w)] end)
  else if mode =? mode_ETHEREUMSTRATUM then
    hello 1 "mining.subscribe"%string
      (JArray [JString (e_version env); JString "EthereumStratum/1.0.0"]) []
  else if mode =? mode_ETHEREUMSTRATUM2 then
    hello 1 "mining.hello"%string
      (JObject [("agent"%string, JString (e_version env)); ("host"%string, str (m_host u));
                ("port"%string, JString (toCompactHex (m_port u) DontAdd));
                ("proto"%string, JString "EthereumStratum/2.0.0")]) []
  else hello 1 "mining.subscribe"%string (JArray []) [].

(** [ec]: connecting failed; [hec]: the handshake failed. *)
Definition connect_handler (ec hec : bool) : st_m unit :=
  _ ← update (put_connecting false);
  open ← ((fun s => match st_socket s with Some b => Some (Ok b, s) | None => None end) : st_m bool);
  if ec || negb open then
    _ ← update (put_socket (Some false));
    _ ← pop_endpoint;
    post PostStartConnect
  else
    _ ← set_conn (fun u => set_Responds u true);
    _ ← update (fun s => put_txQueue [] (put_message [] (put_connected true s)));
    u ← conn;
    if is_secure u && hec then _ ← set_conn MarkUnrecoverable; post PostDisconnect
    else
      _ ← clear_response_pleas;
      _ ← set_conn (fun u =>
            if Version u <? 999 then SetStratumMode u (Version u) true
            else if negb (m_stratumModeConfirmed u) && (m_stratumMode u =? 999) then SetStratumMode u 3 false
            else u);
      u ← conn;
      let jReq := login_request u in
      _ ← recvSocketData;
      _ ← enqueue_response_plea;
      send jReq.

(** [ec]: the wait was cancelled. *)
Definition workloop_timer_elapsed (ec : bool) : st_m unit :=
  if ec then mret tt else
  s ← get id;
  _ ← update (put_timer false);
  match m_conn s with
  | None => mret tt
  | Some u =>
      let again := update (put_timer true) in
      _ ← (match m_session s with
           | Some x =>
               when ((m_stratumMode u =? 3) && (s_timeout x - 5 <? in_seconds (e_now env - lastTxStamp x)))
                 (send (JObject [("id"%string, JInt 7); ("method"%string, JString "mining.noop")]))
           | None => mret tt
           end);
      if m_response_pleas_count s =? 0 then again else
      let response_delay_ms := milliseconds (e_now env - m_response_plea_older s) in
      if isPendingState s && (response_delay_ms <=? m_responsetimeout s * 1000) && m_connecting s then
        match st_socket s with
        | Some _ => update (put_socket (Some false))
        | None => fun _ => None
        end
      else if isPendingState s && (response_delay_ms <=? m_responsetimeout s * 1000) && m_disconnecting s &&
              is_secure u && bool_decide (st_socket s = Some true) then
        update (put_socket (Some false))
      else if isConnected s then
        if m_responsetimeout s * 1000 <=? response_delay_ms then
          if negb (m_stratumModeConfirmed u) && negb (m_unrecoverable u) then
            _ ← clear_response_pleas;
            post PostLoginTimeout
          else
            _ ← pop_endpoint;
            _ ← clear_response_pleas;
            _ ← post PostDisconnect;
            again
        else if (match m_session s with Some _ => true | None => false end) &&
                (m_worktimeout s <? in_seconds (e_now env - m_current_timestamp s)) then
          _ ← pop_endpoint;
          _ ← clear_response_pleas;
          _ ← post PostDisconnect;
          again
        else again
      else again
  end.

(** *** Values of messages *)

Context {lib : JsonLib} {rd : JsonRead lib}.

(** The sign and the digits the standard conversions read with base 16. *)
Definition parse_hex (s : string) : option (bool * Z) :=
  let l := skip_spaces (chars s) in
  let neg := match l with c :: _ => Ascii.eqb c "-" | [] => false end in
  let l := match l with
           | c :: l' => if Ascii.eqb c "-" || Ascii.eqb c "+" then l' else l
           | [] => []
           end in
  match hex_prefix (skip_0x l) with [] => None | digits => Some (neg, hex_value digits) end.

(** [stoul(s, nullptr, 16)] and [stoull(s, nullptr, 16)]. *)
Definition sto_hex (s : string) : outcome Z :=
  match parse_hex s with
  | None => Throw InvalidArgument
  | Some (neg, v) => if 2 ^ 64 <=? v then Throw OutOfRange else Ok (if (neg : bool) then u64 (- v) else v)
  end.

(** [stoi(s, nullptr, 16)]. *)
Definition stoi_hex (s : string) : outcome Z :=
  match parse_hex s with
  | None => Throw InvalidArgument
  | Some (neg, v) =>
      let v := if (neg : bool) then - v else v in
      if (- 2 ^ 31 <=? v) && (v <? 2 ^ 31) then Ok v else Throw OutOfRange
  end.

Definition processError (responseObject : Value) : outcome string := error_text responseObject.

(** *** The session *)

Definition startSession : st_m unit :=
  _ ← update (fun s => put_current_timestamp (e_now env) (put_session (Some (Session_new (e_now env))) s));
  call CallConnected.

Definition resize16 (s : string) : string := text (take 16 (chars s ++ replicate 16 "0"%char)).

Definition processExtranonce (enonce : string) : st_m unit :=
  _ ← set_session (session_extraNonceSizeBytes (u32 (Z.of_nat (String.length enonce))));
  n ← throwing (sto_hex (resize16 enonce));
  set_session (session_extraNonce n).

(** *** Responses *)

(** A dialect that was not confirmed is given up for the next one; a confirmed
    one makes the connection useless. *)
Definition negotiation_failed (u : URI) : st_m bool :=
  _ ← when (m_stratumModeConfirmed u) (set_conn MarkUnrecoverable);
  _ ← post PostDisconnect;
  mret false.

Definition authorize_request (u : URI) (rest : list (string * json)) : json :=
  JObject ([("id"%string, JInt 3)] ++ rest ++
    [("method"%string, JString "mining.authorize");
     ("params"%string, JArray [str (UserDotWorker u ++ m_path u); str (m_password u)])]).

(** [a && b && ...] over calls that may throw. *)
Fixpoint all_of (l : list (outcome bool)) : outcome bool :=
  match l with
  | [] => Ok true
  | o :: l => b ← o; if (b : bool) then all_of l else Ok false
  end.

Definition is_text (o : outcome string) (t : string) : outcome bool := s ← o; Ok (String.eqb s t).

Definition hello_ok (jResult : Value) : outcome bool :=
  all_of [Ok (isConvertibleToObject jResult); isMember jResult "proto";
          is_text (v ← member jResult "proto"; toString v) "EthereumStratum/2.0.0";
          isMember jResult "encoding"; isMember jResult "resume"; isMember jResult "timeout";
          isMember jResult "maxerrors"; isMember jResult "node"].

Definition subscribe_ok (jResult : Value) : outcome bool :=
  let first := default nullValue (element jResult 0) in
  all_of [Ok (isArray jResult); Ok (isArray first); Ok (json_size first =? 3);
          is_text (text_at first 2) "EthereumStratum/1.0.0"].

(** The response to the first message. *)
Definition first_response (_isSuccess : bool) (jResult : Value) : st_m bool :=
  _ ← dequeue_response_plea;
  u ← conn;
  let mode := m_stratumMode u in
  if negb _isSuccess && negb (m_stratumModeConfirmed u) then _ ← post PostDisconnect; mret false
  else if mode =? mode_ETHEREUMSTRATUM2 then
    ok ← throwing (hello_ok jResult);
    if negb (ok : bool) then negotiation_failed u else
    _ ← set_conn (fun u => SetStratumMode u 3 true);
    _ ← startSession;
    _ ← enqueue_response_plea;
    _ ← send (JObject [("id"%string, JInt 2); ("method"%string, JString "mining.subscribe")]);
    mret false
  else if mode =? mode_ETHEREUMSTRATUM then
    ok ← throwing (subscribe_ok jResult);
    if negb (ok : bool) then negotiation_failed u else
    _ ← set_conn (fun u => SetStratumMode u 2 true);
    _ ← startSession;
    _ ← set_session (session_subscribed true);
    _ ← send (JObject [("id"%string, JInt 2); ("method"%string, JString "mining.extranonce.subscribe");
                       ("params"%string, JArray [])]);
    enonce ← throwing (text_at jResult 1);
    _ ← when (negb (String.eqb enonce "")) (processExtranonce enonce);
    _ ← update (put_authpending true);
    _ ← enqueue_response_plea;
    _ ← send (authorize_request u []);
    mret false
  else if mode =? mode_ETHPROXY then
    if negb _isSuccess then negotiation_failed u else
    _ ← set_conn (fun u => SetStratumMode u 1 true);
    _ ← startSession;
    _ ← set_session (session_subscribed true);
    _ ← set_session (session_authorized true);
    _ ← send (JObject [("id"%string, JInt 5); ("method"%string, JString "eth_getWork");
                       ("params"%string, JArray [])]);
    mret false
  else if mode =? mode_STRATUM then
    if negb _isSuccess then negotiation_failed u else
    _ ← set_conn (fun u => SetStratumMode u 0 true);
    _ ← startSession;
    _ ← set_session (session_subscribed true);
    _ ← update (put_authpending true);
    _ ← enqueue_response_plea;
    _ ← send (authorize_request u [("jsonrpc"%string, JString "2.0")]);
    mret false
  else _ ← send JNull; mret false.

Definition unusable : st_m bool :=
  _ ← set_conn MarkUnrecoverable;
  _ ← post PostDisconnect;
  mret false.

(** A string that is not empty. *)
Definition named_string (v : Value) : bool := isString v && negb (String.eqb (asString v) "").

Definition subscribe_response (jResult : Value) : st_m bool :=
  u ← conn;
  if negb (m_stratumMode u =? 3) then mret false else
  _ ← dequeue_response_plea;
  if negb (named_string jResult) then unusable else
  _ ← set_session (session_sessionId (asString jResult));
  _ ← set_session (session_subscribed true);
  _ ← update (put_authpending true);
  _ ← enqueue_response_plea;
  _ ← send (authorize_request u []);
  mret false.

Definition authorize_response (_isSuccess : bool) (jResult : Value) : st_m bool :=
  u ← conn;
  _ ← dequeue_response_plea;
  if negb (m_stratumMode u =? mode_ETHEREUMSTRATUM2) then
    let ok := if _isSuccess && isBool jResult then asBool jResult else _isSuccess in
    _ ← update (put_authpending false);
    _ ← set_session (session_authorized ok);
    if ok then mret false else unusable
  else if negb _isSuccess || negb (named_string jResult) then unusable
  else
    _ ← update (put_authpending false);
    _ ← set_session (session_authorized true);
    _ ← set_session (session_workerId (asString jResult));
    mret false.

(** The response to a solution; the number of the request is that of the miner
    plus 40. *)
Definition submit_response (_id : Z) (_isSuccess : bool) (jResult responseObject : Value) : st_m bool :=
  u ← conn;
  response_delay_ms ← dequeue_response_plea;
  '(ok, stale) ←
    (if negb (m_stratumMode u =? mode_ETHEREUMSTRATUM2) then
       mret (if _isSuccess && isBool jResult then asBool jResult else _isSuccess, false)
     else if _isSuccess then mret (true, false)
     else
       errCode ← throwing (e ← member responseObject "error"; text_of e "code");
       let stale := String.eqb (text (take 1 (chars errCode))) "2" in
       mret (stale, stale) : st_m (bool * bool));
  _ ← call (if ok : bool then CallAccepted response_delay_ms (_id - 40) stale
            else CallRejected response_delay_ms (_id - 40));
  mret false.

(** A response with a number no request has: some pools answer so to a login. *)
Definition stray_response (_isSuccess : bool) : st_m bool :=
  u ← conn;
  s ← get id;
  _ ← when (negb _isSuccess &&
            (negb (m_stratumModeConfirmed u) || negb (isSubscribed s) || negb (isAuthorized s)))
        (post PostDisconnect);
  mret false.

(** The value tells whether the message turned out to be a notification. *)
Definition handle_response (_id : Z) (_isSuccess : bool) (responseObject : Value) : st_m bool :=
  jResult ← throwing (json_get responseObject "result" nullValue);
  if _id =? 1 then first_response _isSuccess jResult
  else if _id =? 2 then subscribe_response jResult
  else if _id =? 3 then authorize_response _isSuccess jResult
  else
    submitted ← (if 40 <=? _id
                 then fun s => match m_solution_submitted_max_id s with
                               | Some max_id => Some (Ok (_id <=? max_id), s)
                               | None => None
                               end
                 else mret false : st_m bool);
    if submitted : bool then submit_response _id _isSuccess jResult responseObject
    else if _id =? 5 then
      u ← conn;
      result ← throwing (member responseObject "result");
      mret ((m_stratumMode u =? mode_ETHPROXY) && isArray result)
    else if _id =? 9 then mret false
    else if _id =? 999 then stray_response _isSuccess
    else mret false.

(** *** Notifications *)

(** Assignments to members of [m_current]. *)
Definition current (f : WorkPackage -> WorkPackage) : st_m unit :=
  update (fun s => put_current (f (m_current s)) s).
Definition work_job (x : string) (w : WorkPackage) : WorkPackage :=
  mk_WorkPackage x (boundary w) (header w) (wp_seed w) (epoch w) (block w) (startNonce w) (exSizeBytes w) (difficulty w).
Definition work_boundary (x : list Z) (w : WorkPackage) : WorkPackage :=
  mk_WorkPackage (job w) x (header w) (wp_seed w) (epoch w) (block w) (startNonce w) (exSizeBytes w) (difficulty w).
Definition work_header (x : list Z) (w : WorkPackage) : WorkPackage :=
  mk_WorkPackage (job w) (boundary w) x (wp_seed w) (epoch w) (block w) (startNonce w) (exSizeBytes w) (difficulty w).
Definition work_seed (x : list Z) (w : WorkPackage) : WorkPackage :=
  mk_WorkPackage (job w) (boundary w) (header w) x (epoch w) (block w) (startNonce w) (exSizeBytes w) (difficulty w).
Definition work_epoch (x : Z) (w : WorkPackage) : WorkPackage :=
  mk_WorkPackage (job w) (boundary w) (header w) (wp_seed w) x (block w) (startNonce w) (exSizeBytes w) (difficulty w).
Definition work_block (x : Z) (w : WorkPackage) : WorkPackage :=
  mk_WorkPackage (job w) (boundary w) (header w) (wp_seed w) (epoch w) x (startNonce w) (exSizeBytes w) (difficulty w).
Definition work_nonce (n size : Z) (w : WorkPackage) : WorkPackage :=
  mk_WorkPackage (job w) (boundary w) (header w) (wp_seed w) (epoch w) (block w) n (u16 size) (difficulty w).
Definition work_difficulty (x : double) (w : WorkPackage) : WorkPackage :=
  mk_WorkPackage (job w) (boundary w) (header w) (wp_seed w) (epoch w) (block w) (startNonce w) (exSizeBytes w) x.

Definition is_zero (d : double) : bool := match d with S754_zero _ => true | _ => false end.

(** The difficulty the pool set, or else that of the boundary. *)
Definition current_difficulty : st_m unit :=
  x ← session;
  if negb (is_zero (nextWorkDifficulty x)) then current (work_difficulty (nextWorkDifficulty x))
  else
    s ← get id;
    d ← throwing (e_hashesToTarget env (h_hex (boundary (m_current s)) Add));
    current (work_difficulty d).

Definition hash_of (s : string) : st_m (list Z) := throwing (h_of_string 32 s).

(** A job of EthereumStratum/1.0.0. *)
Definition nicehash_job (jPrm : Value) : st_m unit :=
  sSeedHash ← throwing (text_at jPrm 1);
  sHeaderHash ← throwing (text_at jPrm 2);
  if String.eqb sHeaderHash "" || String.eqb sSeedHash "" then mret tt else
  seed ← hash_of sSeedHash;
  _ ← current (work_seed seed);
  header ← hash_of sHeaderHash;
  _ ← current (work_header header);
  x ← session;
  _ ← current (work_boundary (nextWorkBoundary x));
  _ ← current (work_nonce (extraNonce x) (extraNonceSizeBytes x));
  _ ← update (put_current_timestamp (e_now env));
  _ ← current (work_block (-1));
  _ ← current_difficulty;
  update (put_newjobprocessed true).

(** The limit beyond which a block number is thrown away, or rather thrown. *)
Definition max_block : Z := 0x9660180.

Definition proxy_block (t : string) : st_m unit :=
  match sto_hex t with
  | Throw _ => current (work_block (-1))
  | Ok v =>
      _ ← current (work_block (i32 v));
      if max_block <? i32 v then throwing (Throw ThrownPointer) else mret tt
  end.

(** A target shorter than 64 digits is filled up behind its prefix. *)
Definition fix_target (t : string) : outcome string :=
  let l := String.length t in
  if (l <? 66)%nat then
    if (l <? 2)%nat then Throw OutOfRange
    else Ok ("0x" +:+ text (replicate (66 - l) "0"%char) +:+ text (drop 2 (chars t)))%string
  else Ok t.

(** A job of the other two dialects. *)
Definition classic_job (u : URI) (jPrm : Value) (prmIdx : Z) : st_m unit :=
  sHeaderHash ← throwing (text_at jPrm prmIdx);
  sSeedHash ← throwing (text_at jPrm (prmIdx + 1));
  sShareTarget ← throwing (text_at jPrm (prmIdx + 2));
  _ ← current (work_block (-1));
  _ ← (if (m_stratumMode u =? mode_ETHPROXY) && (prmIdx + 3 <? json_size jPrm) then
         t ← throwing (text_at jPrm (prmIdx + 3));
         when (String.eqb (text (take 2 (chars t))) "0x") (proxy_block t)
       else mret tt);
  sShareTarget ← throwing (fix_target sShareTarget);
  seed ← hash_of sSeedHash;
  _ ← current (work_seed seed);
  header ← hash_of sHeaderHash;
  _ ← current (work_header header);
  boundary ← hash_of sShareTarget;
  _ ← current (work_boundary boundary);
  _ ← update (put_current_timestamp (e_now env));
  _ ← current_difficulty;
  update (put_newjobprocessed true).

Definition notify (u : URI) (responseObject : Value) : st_m unit :=
  s ← get id;
  if negb (isSubscribed s) || m_newjobprocessed s then mret tt else
  has_result ← throwing (isMember responseObject "result");
  let by_result := (m_stratumMode u =? mode_ETHPROXY) && has_result in
  jPrm ← throwing (json_get responseObject (if by_result then "result" else "params") nullValue);
  if negb (isArray jPrm) || json_empty jPrm then mret tt else
  job ← throwing (text_at jPrm 0);
  _ ← current (work_job job);
  if m_stratumMode u =? mode_ETHEREUMSTRATUM then nicehash_job jPrm
  else classic_job u jPrm (if by_result then 0 else 1).

Definition notify2 (responseObject : Value) : st_m unit :=
  s ← get id;
  match m_session s with
  | None => mret tt
  | Some x =>
      if negb (firstMiningSet x) then mret tt else
      jPrm ← throwing (member responseObject "params");
      if negb (isArray jPrm) || json_empty jPrm || negb (json_size jPrm =? 4) then mret tt else
      job ← throwing (text_at jPrm 0);
      _ ← current (work_job job);
      block ← throwing (t ← text_at jPrm 1; sto_hex t);
      _ ← current (work_block (i32 block));
      t ← throwing (text_at jPrm 2);
      header ← hash_of ("0x" +:+ padLeft t 64 "0");
      _ ← current (work_header header);
      boundary ← hash_of (h_hex (nextWorkBoundary x) Add);
      _ ← current (work_boundary boundary);
      _ ← current (work_epoch (i32 (s_epoch x)));
      _ ← current (work_nonce (extraNonce x) (extraNonceSizeBytes x));
      _ ← update (put_current_timestamp (e_now env));
      _ ← current_difficulty;
      update (put_newjobprocessed true)
  end.

Definition set_boundary (t : string) : st_m unit :=
  b ← hash_of t;
  set_session (session_nextWorkBoundary b).

Definition set_target (responseObject : Value) : st_m unit :=
  jPrm ← throwing (json_get responseObject "params" nullValue);
  when (isArray jPrm)
    (target ← throwing (toString (default nullValue (element jPrm 0)));
     set_boundary ("0x" +:+ padLeft target 64 "0")).

(** [0.0001]. *)
Definition min_difficulty : double := ddiv (double_of_Z 1) (double_of_Z 10000).
Definition dmax (a b : double) : double := if SFltb a b then b else a.

Definition set_difficulty (responseObject : Value) : st_m unit :=
  jPrm ← throwing (json_get responseObject "params" nullValue);
  when (isArray jPrm)
    (d ← throwing (toDouble (default (json_int 1) (element jPrm 0)));
     t ← throwing (e_targetFromDiff env (dmax d min_difficulty));
     _ ← set_boundary t;
     set_session (session_nextWorkDifficulty (dmax d min_difficulty))).

Definition set_extranonce (responseObject : Value) : st_m unit :=
  jPrm ← throwing (json_get responseObject "params" nullValue);
  when (isArray jPrm)
    (enonce ← throwing (text_at jPrm 0);
     when (negb (String.eqb enonce "")) (processExtranonce enonce)).

(** [mining.set] of EthereumStratum/2.0.0. *)
Definition mining_set (responseObject : Value) : st_m unit :=
  jPrm ← throwing (member responseObject "params");
  if negb (isObject jPrm) || json_empty jPrm then mret tt else
  _ ← set_session (session_firstMiningSet true);
  timeout ← throwing (text_of jPrm "timeout");
  epoch ← throwing (text_of jPrm "epoch");
  target ← throwing (text_of jPrm "target");
  _ ← when (negb (String.eqb timeout "")) (n ← throwing (stoi_hex timeout); set_session (session_timeout n));
  _ ← when (negb (String.eqb epoch "")) (n ← throwing (sto_hex epoch); set_session (session_epoch (u32 n)));
  _ ← when (negb (String.eqb target ""))
        (_ ← set_boundary ("0x" +:+ padLeft target 64 "0");
         x ← session;
         d ← throwing (e_hashesToTarget env (h_hex (nextWorkBoundary x) Add));
         set_session (session_nextWorkDifficulty d));
  enonce ← throwing (text_of jPrm "extranonce");
  when (negb (String.eqb enonce "")) (processExtranonce enonce).

Definition version_answer (_id _rpcVer : Z) : json :=
  JObject ([("id"%string, JInt _id); ("result"%string, JString (e_version env))] ++
           (if _rpcVer =? 1 then [("error"%string, JNull)] else []) ++
           (if _rpcVer =? 2 then [("jsonrpc"%string, JString "2.0")] else [])).

Definition unknown_answer (_id _rpcVer : Z) : json :=
  JObject ((if _rpcVer =? 2 then [("jsonrpc"%string, JString "2.0")] else []) ++
           [("id"%string, JInt _id); ("error"%string, JString "Method not found")]).

Definition handle_notification (_method : string) (_id _rpcVer : Z) (responseObject : Value) : st_m unit :=
  u ← conn;
  let method m := String.eqb _method m in
  let mode := m_stratumMode u in
  if method "mining.notify" && negb (mode =? mode_ETHEREUMSTRATUM2) then notify u responseObject
  else if method "mining.notify" && (mode =? mode_ETHEREUMSTRATUM2) then notify2 responseObject
  else if method "mining.set_target" then set_target responseObject
  else if method "mining.set_difficulty" && (mode =? mode_ETHEREUMSTRATUM) then set_difficulty responseObject
  else if method "mining.set_extranonce" && (mode =? mode_ETHEREUMSTRATUM) then set_extranonce responseObject
  else if method "mining.set" && (mode =? mode_ETHEREUMSTRATUM2) then mining_set responseObject
  else if method "mining.bye" && (mode =? mode_ETHEREUMSTRATUM2) then post PostDisconnect
  else if method "client.get_version" then send (version_answer _id _rpcVer)
  else send (unknown_answer _id _rpcVer).

(** *** A message *)

(** What is read of a message before it is handled. *)
Record message := mk_message {
  msg_rpcVer : Z;
  msg_id : Z;
  msg_success : bool;
  msg_method : string;
  msg_notification : bool
}.

Definition read_message (responseObject : Value) : st_m message :=
  rpc2 ← throwing (isMember responseObject "jsonrpc");
  _id ← throwing (v ← json_get responseObject "id" (json_uint 0); toUInt v);
  e ← throwing (json_get responseObject "error" nullValue);
  let _isSuccess := json_empty e in
  _ ← (if _isSuccess then mret tt else _ ← throwing (processError responseObject); mret tt : st_m unit);
  _method ← throwing (text_of responseObject "method");
  let _isNotification := negb (String.eqb _method "") || (_id =? 0) in
  let m x := mk_message (if rpc2 : bool then 2 else 1) _id _isSuccess x _isNotification in
  if _isNotification && String.eqb _method "" then
    u ← conn;
    result ← throwing (member responseObject "result");
    mret (m (if (m_stratumMode u =? mode_ETHPROXY) && isArray result then "mining.notify"%string else _method))
  else mret (m _method).

(** A notification has parameters or a result, and a version has to be the right one. *)
Definition is_sane (m : message) (responseObject : Value) : outcome bool :=
  version ← member responseObject "jsonrpc";
  params ← member responseObject "params";
  result ← member responseObject "result";
  Ok (negb ((msg_rpcVer m =? 2) && negb (isString version && String.eqb (asString version) "2.0")) &&
      negb (msg_notification m && json_empty params && json_empty result)).

Definition processResponse (responseObject : Value) : st_m unit :=
  m ← read_message responseObject;
  sane ← throwing (is_sane m responseObject);
  if negb (sane : bool) then post PostDisconnect else
  again ← (if msg_notification m then mret false
           else handle_response (msg_id m) (msg_success m) responseObject);
  if negb (msg_notification m || again) then mret tt else
  u ← conn;
  when (m_stratumModeConfirmed u)
    (handle_notification (if again : bool then "mining.notify"%string else msg_method m)
       (msg_id m) (msg_rpcVer m) responseObject).

(** *** Submissions *)

Definition worker_member (u : URI) : list (string * json) :=
  match m_worker u with [] => [] | w => [("worker"%string, str w)] end.

(** [rate] has 64 bits; [id] has its prefix. *)
Definition submitHashrate (rate : Z) (id : string) : st_m unit :=
  s ← get Datatypes.id;
  if negb (isConnected s) then mret tt else
  u ← conn;
  if negb (m_stratumMode u =? 3) then
    send (JObject ([("id"%string, JInt 9); ("jsonrpc"%string, JString "2.0")] ++ worker_member u ++
                   [("method"%string, JString "eth_submitHashrate");
                    ("params"%string, JArray [JString (toHex64 rate Add 32); JString id])]))
  else
    x ← session;
    send (JObject [("id"%string, JInt 9); ("method"%string, JString "mining.hashrate");
                   ("params"%string, JArray [JString (toCompactHex rate DontAdd); JString (workerId x)])]).

(** [toHex(nonce).substr(exSizeBytes)]. *)
Definition nonce_suffix (nonce exSize : Z) : outcome string :=
  let digits := chars (toHex64 nonce DontAdd 16) in
  if Z.of_nat (length digits) <? exSize then Throw OutOfRange
  else Ok (text (drop (Z.to_nat exSize) digits)).

Definition submission (u : URI) (x : Session) (solution : Solution) : outcome (list (string * json)) :=
  let w := s_work solution in
  let proof := [JString (toHex64 (s_nonce solution) Add 16); JString (h_hex (header w) Add);
                JString (h_hex (s_mixHash solution) Add)] in
  let req method params rest :=
    Ok ([("method"%string, JString method); ("params"%string, JArray params)] ++ rest) in
  if m_stratumMode u =? mode_STRATUM then
    req "mining.submit"%string (str (m_user u) :: JString (job w) :: proof)
      (("jsonrpc"%string, JString "2.0") :: worker_member u)
  else if m_stratumMode u =? mode_ETHPROXY then
    req "eth_submitWork"%string proof (worker_member u)
  else if m_stratumMode u =? mode_ETHEREUMSTRATUM then
    n ← nonce_suffix (s_nonce solution) (exSizeBytes w);
    req "mining.submit"%string [str (UserDotWorker u); JString (job w); JString n] []
  else if m_stratumMode u =? mode_ETHEREUMSTRATUM2 then
    n ← nonce_suffix (s_nonce solution) (exSizeBytes w);
    req "mining.submit"%string [JString (job w); JString n; JString (workerId x)] []
  else req "mining.submit"%string [] [].

Definition submitSolution (solution : Solution) : st_m unit :=
  s ← get id;
  if negb (isAuthorized s) then mret tt else
  let _id := u32 (40 + s_midx solution) in
  _ ← ((fun s => match m_solution_submitted_max_id s with
                 | Some max_id => Some (Ok tt, put_solution_submitted_max_id (Some (Z.max max_id _id)) s)
                 | None => None
                 end) : st_m unit);
  u ← conn;
  x ← session;
  req ← throwing (submission u x solution);
  _ ← enqueue_response_plea;
  send (JObject (("id"%string, JInt _id) :: req)).

(** *** Receiving *)

(** [jRdr.parse]. *)
Context (parse : list ascii -> option Value).

Definition process_line (line : list ascii) : st_m unit :=
  match trim line with
  | [] => mret tt
  | line => match parse line with Some v => guarded (processResponse v) | None => mret tt end
  end.

(** A line stays in [m_message] while it is processed. *)
Fixpoint process_message (fuel : nat) : st_m unit := fun s =>
  match fuel with
  | O => None
  | S fuel =>
      match cut_line (st_message s) with
      | None => Some (Ok tt, s)
      | Some (line, rest) =>
          (_ ← process_line line; _ ← update (put_message rest); process_message fuel) s
      end
  end.

(** [None]: the read failed.  Every line has at least its end, so the length of
    the text is enough fuel. *)
Definition onRecvSocketDataCompleted (data : option (list ascii)) : st_m unit :=
  _ ← update (put_reading false);
  match data with
  | Some data =>
      _ ← update (fun s => put_newjobprocessed false (put_message (st_message s ++ data) s));
      s ← get id;
      _ ← process_message (S (length (st_message s)));
      s ← get id;
      _ ← when (m_newjobprocessed s) (call (CallWork (m_current s)));
      when (isConnected s) recvSocketData
  | None =>
      s ← get id;
      when (isConnected s)
        (_ ← when (m_authpending s) (set_conn MarkUnrecoverable);
         post PostDisconnect)
  end.

(** ** The client *)

Definition EthStratumClient_new (worktimeout responsetimeout : Z) : stratum :=
  mk_stratum None false false false false worktimeout responsetimeout WorkPackage_default 0 None [] false
    false 0 (e_now env) [] false [] [] 0 None None false [] [].

Definition setConnection (u : URI) : st_m unit := update (put_conn (Some (set_Responds u false))).
Definition unsetConnection : st_m unit := update (put_conn None).

(** The message a client sends itself when a login is not answered in time. *)
Definition login_timeout : outcome Value :=
  v ← put nullValue "id" (json_uint 1);
  v ← put v "result" nullValue;
  put v "error" (json_bool true).

(** A handler the event loop runs. *)
Definition run_posted (p : posted) : st_m unit :=
  match p with
  | PostStartConnect => start_connect
  | PostDisconnect => disconnect
  | PostFinalize => disconnect_finalize
  | PostResolve => mret tt
  | PostLoginTimeout => v ← throwing login_timeout; processResponse v
  end.

(** What can happen to a client: calls of the pool manager and completions of
    what it started. *)
Inductive st_event :=
  | EvSetConnection (u : URI)
  | EvConnect
  | EvDisconnect
  | EvHashrate (rate : Z) (rate_id : string)
  | EvSolution (solution : Solution)
  | EvPosted (p : posted)
  | EvResolved (endpoints : option (list Z))
  | EvConnected (ec hec : bool)
  | EvTimer (ec : bool)
  | EvSent (ec : option bool)
  | EvReceived (data : option (list ascii))
  | EvShutdown.

Definition handler (e : st_event) : st_m unit :=
  match e with
  | EvSetConnection u => setConnection u
  | EvConnect => connect
  | EvDisconnect => disconnect
  | EvHashrate rate id => submitHashrate rate id
  | EvSolution solution => submitSolution solution
  | EvPosted p => run_posted p
  | EvResolved endpoints => resolve_handler endpoints
  | EvConnected ec hec => connect_handler ec hec
  | EvTimer ec => workloop_timer_elapsed ec
  | EvSent ec => onSendSocketDataCompleted ec
  | EvReceived data => onRecvSocketDataCompleted data
  | EvShutdown => onSSLShutdownCompleted
  end.

End Handlers.

(** Handlers run one at a time, in any order, each in an environment of its own;
    the pool manager changes the connection when no session is open. *)
Definition enabled (e : st_event) (s : stratum) : bool :=
  match e with
  | EvSetConnection _ => bool_decide (m_session s = None)
  | _ => true
  end.
