(* ===== verification/StratumCorrect.v ===== *)
(** * Correctness of the stratum client

    The safety of every sequence of events, the receive
    path, jobs, shares and the detection of the dialect. *)

From Stdlib Require Import ZArith Lia Bool Ascii String Floats.SpecFloat.
From stdpp Require Import base numbers list gmap strings relations.
From S2P Require Import Prelude Words EthashSpec Ethash Outcome CommonData FixedHash Floats.
From S2P Require Import Miner Farm PoolURI Target Json Lines PoolClient Stratum.

Local Open Scope Z_scope.

(** ** Rules *)

Lemma spec_conn {B} U (f : URI -> st_m B) s Q :
  (forall u, m_conn s = Some u -> spec U (f u) s Q) -> (m_conn s = None -> U) -> spec U (conn ≫= f) s Q.
Proof.
  intros Hf HU. apply spec_seq. unfold spec at 1, conn. destruct (m_conn s); auto.
Qed.

(** ** What the handling of messages relies on *)

(** The calls that are about work or shares. *)
Definition is_verdict (c : st_call) : bool :=
  match c with CallWork _ | CallAccepted _ _ _ | CallRejected _ _ => true | _ => false end.
Definition verdicts (s : stratum) : list st_call := filter is_verdict (st_calls s).

(** The part of the state the invariants are about. *)
Definition core (s : stratum) :=
  (m_conn s, m_session s, m_solution_submitted_max_id s, m_newjobprocessed s, verdicts s).

(** An invariant of code that only reads the connection, and where dereferencing
    a null pointer is excluded or accepted. *)
Class Tame (U : Prop) (I : stratum -> Prop) := {
  tame_core s s' : core s' = core s -> I s -> I s';
  tame_conn s : I s -> m_conn s = None -> U;
  tame_session s : I s -> m_session s = None -> U;
  tame_max s : I s -> m_solution_submitted_max_id s = None -> U;
  tame_set_session f s x :
    (forall x, s_subscribed x = true -> s_subscribed (f x) = true) ->
    I s -> m_session s = Some x -> I (put_session (Some (f x)) s)
}.

(** A session is known to be logged in: the dialect is confirmed, and, except in
    EthereumStratum/2.0.0, it is subscribed. *)
Definition logged_in (u : URI) (x : Session) : Prop :=
  m_stratumModeConfirmed u = true /\ (m_stratumMode u = mode_ETHEREUMSTRATUM2 \/ s_subscribed x = true).

(** An invariant of the handling of messages. *)
Class MessageInvariant (U : Prop) (I : stratum -> Prop) := {
  inv_tame :: Tame U I;
  inv_unrecoverable s u : I s -> m_conn s = Some u -> I (put_conn (Some (MarkUnrecoverable u)) s);
  inv_login s u x : I s -> is_Some (m_conn s) -> logged_in u x -> I (put_session (Some x) (put_conn (Some u) s));
  inv_job s u x : I s -> m_conn s = Some u -> m_session s = Some x -> logged_in u x -> I (put_newjobprocessed true s);
  inv_credit s m c i :
    I s -> m_solution_submitted_max_id s = Some m -> 0 <= i -> 40 + i <= m ->
    (exists d stale, c = CallAccepted d i stale \/ c = CallRejected d i) ->
    I (put_calls (st_calls s ++ [c]) s)
}.


(** Following the structure of a handler; what is left is looked up. *)
Create HintDb stratum discriminated.

Ltac keeps := repeat first [keeps_step|solve [eauto 3 with stratum nocore typeclass_instances]].

Lemma verdicts_silent s c : is_verdict c = false -> verdicts (put_calls (st_calls s ++ [c]) s) = verdicts s.
Proof.
  intros Hc. unfold verdicts. cbn. rewrite filter_app, filter_cons, Hc. cbn. apply app_nil_r.
Qed.

Lemma tame_and U (I J : stratum -> Prop) :
  Tame U I -> (forall s s', core s' = core s -> J s -> J s') ->
  (forall f s x, (forall x, s_subscribed x = true -> s_subscribed (f x) = true) -> J s ->
     m_session s = Some x -> J (put_session (Some (f x)) s)) ->
  Tame U (fun s => I s /\ J s).
Proof.
  intros HI HJ HS. split.
  - intros s s' Hc [H1 H2]. split; [by apply (tame_core s)|by apply (HJ s)].
  - intros s [Hs _]. exact (tame_conn s Hs).
  - intros s [Hs _]. exact (tame_session s Hs).
  - intros s [Hs _]. exact (tame_max s Hs).
  - intros f s x Hf [H1 H2] Hx. split; [by apply tame_set_session|by apply (HS f s x)].
Qed.

Section Tame.
Context (env : st_env) (U : Prop) (I : stratum -> Prop) `{!Tame U I}.

Lemma keeps_silent f : (forall s, core (f s) = core s) -> keeps U I (update f).
Proof. intros Hf. apply keeps_update. intros s. apply tame_core, Hf. Qed.

Lemma keeps_conn : keeps U I conn.
Proof.
  intros s Hs. unfold spec, conn. destruct (m_conn s) eqn:E; [done|]. by apply (tame_conn s).
Qed.

Lemma keeps_session : keeps U I session.
Proof.
  intros s Hs. unfold spec, session. destruct (m_session s) eqn:E; [done|]. by apply (tame_session s).
Qed.

Lemma keeps_set_session f :
  (forall x, s_subscribed x = true -> s_subscribed (f x) = true) -> keeps U I (set_session f).
Proof.
  intros Hf s Hs. unfold set_session. apply spec_seq. unfold spec at 1, session.
  destruct (m_session s) as [x|] eqn:E; [|by apply (tame_session s)].
  by apply (tame_set_session f s x).
Qed.

Lemma keeps_post p : keeps U I (post p).
Proof. by apply keeps_silent. Qed.

Lemma keeps_call c : is_verdict c = false -> keeps U I (call c).
Proof. intros Hc. apply keeps_silent. intros s. unfold core. by rewrite verdicts_silent. Qed.

Lemma keeps_current f : keeps U I (current f).
Proof. by apply keeps_silent. Qed.

Lemma keeps_enqueue : keeps U I (enqueue_response_plea env).
Proof. apply keeps_silent. intros s. by destruct (m_response_pleas_count s =? 0). Qed.

Lemma keeps_dequeue : keeps U I (dequeue_response_plea env).
Proof.
  intros s Hs. unfold spec, dequeue_response_plea.
  destruct (m_response_plea_times s) as [|t ts]; (destruct (0 <? _); [by apply (tame_core s)|by apply (tame_core s)]).
Qed.

Lemma keeps_clear : keeps U I (clear_response_pleas env).
Proof. by apply keeps_silent. Qed.

Lemma keeps_sendSocketData : keeps U I sendSocketData.
Proof.
  unfold sendSocketData. keeps; [by apply keeps_silent|apply keeps_conn|by apply keeps_call|by apply keeps_silent].
Qed.

Lemma keeps_send j : keeps U I (send j).
Proof.
  unfold send. keeps; [by apply keeps_silent|by apply keeps_silent|apply keeps_sendSocketData].
Qed.

Lemma keeps_recvSocketData : keeps U I recvSocketData.
Proof. unfold recvSocketData. keeps; [apply keeps_conn|by apply keeps_silent]. Qed.

End Tame.

#[export] Hint Resolve keeps_conn keeps_session keeps_set_session keeps_post keeps_call keeps_current keeps_enqueue keeps_dequeue
  keeps_clear keeps_sendSocketData keeps_send keeps_recvSocketData : stratum.
#[export] Hint Extern 1 (is_verdict _ = false) => reflexivity : stratum.
#[export] Hint Extern 1 (forall x, s_subscribed x = true -> s_subscribed (_ x) = true) => (intros ? ?; done) : stratum.
#[export] Hint Extern 2 (keeps _ _ (update _)) => (apply keeps_silent; [|intros ?; reflexivity]) : stratum.

(** ** Messages *)

Section Messages.
Context (env : st_env) {lib : JsonLib} {rd : JsonRead lib}.

Section TameMessages.
Context (U : Prop) (I : stratum -> Prop) `{!Tame U I}.

Lemma keeps_hash_of t : keeps U I (hash_of t).
Proof. apply keeps_throwing. Qed.

Lemma keeps_processExtranonce e : keeps U I (processExtranonce e).
Proof. unfold processExtranonce. keeps. Qed.

Lemma keeps_set_boundary t : keeps U I (set_boundary t).
Proof. unfold set_boundary, hash_of. keeps. Qed.

Lemma keeps_current_difficulty : keeps U I (current_difficulty env).
Proof. unfold current_difficulty. keeps. Qed.

Lemma keeps_set_target v : keeps U I (set_target v).
Proof. pose proof keeps_set_boundary. unfold set_target. keeps. Qed.

Lemma keeps_set_difficulty v : keeps U I (set_difficulty env v).
Proof. pose proof keeps_set_boundary. unfold set_difficulty. keeps. Qed.

Lemma keeps_set_extranonce v : keeps U I (set_extranonce v).
Proof. pose proof keeps_processExtranonce. unfold set_extranonce. keeps. Qed.

Lemma keeps_mining_set v : keeps U I (mining_set env v).
Proof. pose proof keeps_processExtranonce. pose proof keeps_set_boundary. unfold mining_set. keeps. Qed.

Lemma keeps_proxy_block t : keeps U I (proxy_block t).
Proof. unfold proxy_block. keeps. Qed.

Lemma keeps_read_message v : keeps U I (read_message v).
Proof. unfold read_message. keeps. Qed.

(** A job sets [m_newjobprocessed] when all of it was accepted. *)
Lemma keeps_nicehash_job v :
  keeps U I (update (put_newjobprocessed true)) -> keeps U I (nicehash_job env v).
Proof. pose proof keeps_hash_of. pose proof keeps_current_difficulty. intros Hn. unfold nicehash_job. keeps. Qed.

Lemma keeps_classic_job u v i :
  keeps U I (update (put_newjobprocessed true)) -> keeps U I (classic_job env u v i).
Proof.
  pose proof keeps_hash_of. pose proof keeps_current_difficulty. pose proof keeps_proxy_block.
  intros Hn. unfold classic_job. keeps.
Qed.

End TameMessages.

Section Invariant.
Context (U : Prop) (I : stratum -> Prop) `{!MessageInvariant U I}.

(** The invariant together with who is logged in. *)
Definition as_user (u : URI) (s : stratum) : Prop :=
  I s /\ m_conn s = Some u /\ exists x, m_session s = Some x /\ logged_in u x.

#[local] Instance as_user_tame u : Tame U (as_user u).
Proof.
  apply tame_and; [apply _| |].
  - intros s s' [= E1 E2 _ _ _]. by rewrite E1, E2.
  - intros f s x Hf (Hu & x' & Hx & Hc & Hl) E. rewrite Hx in E. injection E as ->. split; [done|].
    exists (f x). split; [done|]. split; [done|]. destruct Hl; [by left|right; by apply Hf].
Qed.

Lemma as_user_job u : keeps U (as_user u) (update (put_newjobprocessed true)).
Proof.
  apply keeps_update. intros s (Hs & Hu & x & Hx & Hl). split; [by apply (inv_job s u x)|].
  split; [done|]. by exists x.
Qed.

Lemma spec_as_user {A} u (m : st_m A) s :
  keeps U (as_user u) m -> as_user u s -> spec U m s (fun _ => I).
Proof. intros Hm Hs. apply (spec_weaken _ _ _ _ _ (Hm s Hs)). by intros o s' [H _]. Qed.

Lemma notify_spec u v s :
  I s -> m_conn s = Some u -> m_stratumModeConfirmed u = true -> spec U (notify env u v) s (fun _ => I).
Proof.
  intros Hs Hu Hc. unfold notify. apply spec_state.
  destruct (isSubscribed s) eqn:Hsub; [|exact Hs]. cbn [negb orb].
  destruct (m_newjobprocessed s); [exact Hs|]. apply (spec_as_user u).
  - pose proof (as_user_job u) as Hj. pose proof (keeps_nicehash_job U (as_user u)).
    pose proof (keeps_classic_job U (as_user u)). keeps.
  - unfold isSubscribed in Hsub. destruct (m_session s) as [x|] eqn:Hx; [|done].
    split; [done|]. split; [done|]. exists x. split; [done|]. split; [done|by right].
Qed.

Lemma notify2_spec u v s :
  I s -> m_conn s = Some u -> m_stratumModeConfirmed u = true -> m_stratumMode u = mode_ETHEREUMSTRATUM2 ->
  spec U (notify2 env v) s (fun _ => I).
Proof.
  intros Hs Hu Hc Hm. unfold notify2. apply spec_state.
  destruct (m_session s) as [x|] eqn:Hx; [|exact Hs]. apply (spec_as_user u).
  - pose proof (as_user_job u) as Hj. pose proof (keeps_hash_of U (as_user u)).
    pose proof (keeps_current_difficulty U (as_user u)). keeps.
  - split; [done|]. split; [done|]. exists x. split; [done|]. split; [done|by left].
Qed.

Lemma handle_notification_spec method i r v s u :
  I s -> m_conn s = Some u -> m_stratumModeConfirmed u = true ->
  spec U (handle_notification env method i r v) s (fun _ => I).
Proof.
  intros Hs Hu Hc. unfold handle_notification. apply spec_conn; [|congruence].
  intros u' E. rewrite Hu in E. injection E as <-.
  destruct (_ && negb _) eqn:E1; [by apply notify_spec|].
  destruct (_ && (m_stratumMode u =? mode_ETHEREUMSTRATUM2)) eqn:E2.
  { apply andb_true_iff in E2 as [_ E2%Z.eqb_eq]. by apply (notify2_spec u). }
  pose proof (keeps_set_target U I). pose proof (keeps_set_difficulty U I).
  pose proof (keeps_set_extranonce U I). pose proof (keeps_mining_set U I).
  apply spec_keeps; [keeps|done].
Qed.

Lemma keeps_unrecoverable : keeps U I (set_conn MarkUnrecoverable).
Proof.
  intros s Hs. apply spec_conn; [|exact (tame_conn s Hs)]. intros u Hu. exact (inv_unrecoverable s u Hs Hu).
Qed.

Lemma keeps_negotiation_failed u : keeps U I (negotiation_failed u).
Proof. pose proof keeps_unrecoverable. unfold negotiation_failed. keeps. Qed.

Lemma keeps_unusable : keeps U I unusable.
Proof. pose proof keeps_unrecoverable. unfold unusable. keeps. Qed.

(** The state after a login that the pool confirmed. *)
Definition started (k : Z) (u : URI) (s : stratum) : stratum :=
  let s := put_conn (Some (SetStratumMode u k true)) s in
  let s := put_current_timestamp (e_now env) (put_session (Some (Session_new (e_now env))) s) in
  put_calls (st_calls s ++ [CallConnected]) s.

Lemma spec_started {B} k u (f : unit -> st_m B) s Q :
  m_conn s = Some u -> spec U (f tt) (started k u s) Q ->
  spec U (_ ← set_conn (fun u => SetStratumMode u k true); x ← startSession env; f x) s Q.
Proof.
  intros Hu Hf. unfold spec, mbind, st_bind, set_conn, startSession, mbind, st_bind, conn. rewrite Hu. exact Hf.
Qed.

Lemma spec_subscribed {B} k u (f : unit -> st_m B) s Q :
  spec U (f tt) (put_session (Some (session_subscribed true (Session_new (e_now env)))) (started k u s)) Q ->
  spec U (x ← set_session (session_subscribed true); f x) (started k u s) Q.
Proof. intros Hf. exact Hf. Qed.

Lemma started_core k u s x :
  core (put_session (Some x) (started k u s)) =
  core (put_session (Some x) (put_conn (Some (SetStratumMode u k true)) s)).
Proof.
  unfold core. f_equal. unfold started. cbv zeta. unfold verdicts. cbn. rewrite filter_app. apply app_nil_r.
Qed.

Lemma started_inv k u s x :
  I s -> m_conn s = Some u -> k = mode_ETHEREUMSTRATUM2 \/ s_subscribed x = true ->
  I (put_session (Some x) (started k u s)).
Proof.
  intros Hs Hu Hx. apply (tame_core (U := U) (put_session (Some x) (put_conn (Some (SetStratumMode u k true)) s))).
  - apply started_core.
  - apply inv_login; [done|by exists u|]. split; [done|]. destruct Hx as [->|Hx]; [by left|by right].
Qed.

Lemma first_response_spec ok v s : I s -> spec U (first_response env ok v) s (fun _ => I).
Proof.
  intros Hs. unfold first_response. apply spec_seq. apply (spec_weaken _ _ _ _ _ (keeps_dequeue env U I s Hs)).
  intros [d|e] s1 Hs1; [|done]. apply spec_conn; [|exact (tame_conn s1 Hs1)]. intros u Hu. cbv zeta.
  pose proof keeps_negotiation_failed as Hnf.
  assert (Hsub : forall k (m : st_m bool), keeps U I m ->
    spec U (_ ← set_conn (fun u => SetStratumMode u k true); _ ← startSession env;
            _ ← set_session (session_subscribed true); m) s1 (fun _ => I)).
  { intros k m Hm. apply spec_started with u; [done|]. apply spec_subscribed, Hm, started_inv; auto. }
  destruct (negb ok && _); [apply spec_keeps; [keeps|done]|].
  destruct (_ =? mode_ETHEREUMSTRATUM2); [|destruct (_ =? mode_ETHEREUMSTRATUM);
    [|destruct (_ =? mode_ETHPROXY); [|destruct (_ =? mode_STRATUM)]]].
  - apply spec_throwing; [|done]. intros [] _; [|by apply Hnf]. cbn [negb].
    apply spec_started with u; [done|]. apply spec_keeps; [keeps|].
    apply (started_inv _ _ _ (Session_new (e_now env))); auto.
  - apply spec_throwing; [|done]. intros [] _; [|by apply Hnf]. cbn [negb].
    apply Hsub. pose proof (keeps_processExtranonce U I). keeps.
  - destruct (negb ok); [by apply Hnf|]. apply Hsub. keeps.
  - destruct (negb ok); [by apply Hnf|]. apply Hsub. keeps.
  - apply spec_keeps; [keeps|done].
Qed.

Lemma keeps_subscribe_response v : keeps U I (subscribe_response env v).
Proof. pose proof keeps_unusable. unfold subscribe_response. keeps. Qed.

Lemma keeps_authorize_response ok v : keeps U I (authorize_response env ok v).
Proof. pose proof keeps_unusable. unfold authorize_response. keeps. Qed.

Lemma keeps_stray_response ok : keeps U I (stray_response ok).
Proof. unfold stray_response. keeps. Qed.

Lemma submit_response_spec i ok v r s m :
  I s -> m_solution_submitted_max_id s = Some m -> 40 <= i <= m ->
  spec U (submit_response env i ok v r) s (fun _ => I).
Proof.
  intros Hs Hm Hi. set (J := fun s => I s /\ m_solution_submitted_max_id s = Some m).
  assert (HJ : Tame U J) by (apply tame_and; [apply _|intros s1 s2 [=]; congruence|done]).
  assert (H : keeps U J (submit_response env i ok v r)).
  { assert (Hc : forall (b stale : bool) d,
      keeps U J (call (if b then CallAccepted d (i - 40) stale else CallRejected d (i - 40)))).
    { intros b stale d. apply keeps_update. intros s1 [H1 H2]. split; [|done].
      apply (inv_credit s1 m _ (i - 40)); try done; try lia. exists d, stale. destruct b; auto. }
    unfold submit_response. keeps. }
  apply (spec_weaken _ _ _ _ _ (H s (conj Hs Hm))). by intros o s' [H' _].
Qed.

Lemma keeps_handle_response i ok v : keeps U I (handle_response env i ok v).
Proof.
  intros s Hs. unfold handle_response. apply spec_throwing; [|done]. intros r _.
  destruct (i =? 1); [by apply first_response_spec|].
  destruct (i =? 2); [by apply keeps_subscribe_response|].
  destruct (i =? 3); [by apply keeps_authorize_response|].
  apply spec_seq. pose proof keeps_stray_response as Hstray.
  assert (Hrest : forall s, I s -> spec U
    (if i =? 5 then u ← conn; result ← throwing (member v "result");
                    mret ((m_stratumMode u =? mode_ETHPROXY) && isArray result)
     else if i =? 9 then mret false else if i =? 999 then stray_response ok else mret false) s (fun _ => I)).
  { intros s' Hs'. apply spec_keeps; [keeps|done]. }
  destruct (Z.leb_spec 40 i); [|by apply Hrest].
  unfold spec at 1. destruct (m_solution_submitted_max_id s) as [m|] eqn:Hm; [|exact (tame_max s Hs Hm)].
  destruct (Z.leb_spec i m); [by apply (submit_response_spec _ _ _ _ _ m)|by apply Hrest].
Qed.

Lemma keeps_processResponse v : keeps U I (processResponse env v).
Proof.
  unfold processResponse. apply keeps_bind; [apply keeps_read_message; apply _|]. intros m.
  apply keeps_bind; [apply keeps_throwing|]. intros sane. destruct (negb sane); [keeps|].
  apply keeps_bind.
  { pose proof keeps_handle_response. keeps. }
  intros again. destruct (negb _); [keeps|]. intros s Hs.
  apply spec_conn; [|exact (tame_conn s Hs)]. intros u Hu. unfold when.
  destruct (m_stratumModeConfirmed u) eqn:Hc; [by apply (handle_notification_spec _ _ _ _ _ u)|exact Hs].
Qed.

Lemma keeps_process_line parse l : keeps U I (process_line env parse l).
Proof. pose proof keeps_processResponse. unfold process_line. keeps. Qed.

End Invariant.

Section Lines.
Context (parse : list ascii -> option Value) (U : Prop) (I : stratum -> Prop) `{!MessageInvariant U I}.
Context (Hmessage : forall t s, I s -> I (put_message t s)).

Lemma process_line_throws l s e s' :
  process_line env parse l s = Some (Throw e, s') -> e = ThrownPointer.
Proof.
  unfold process_line. destruct (trim l); [done|]. destruct (parse _); [|done]. unfold guarded.
  destruct (processResponse env v s) as [[[[]|x] s1]|]; try done. case_bool_decide; [|done]. by intros [= -> ->].
Qed.

(** Every complete line is processed; an exception that is not caught ends it. *)
Lemma process_message_spec fuel : forall s,
  I s -> (length (st_message s) < fuel)%nat ->
  spec U (process_message env parse fuel) s (fun o s' =>
    I s' /\ (o = Ok tt /\ st_message s' = (split_lines (st_message s)).2 \/ o = Throw ThrownPointer)).
Proof.
  induction fuel as [|fuel IH]; intros s Hs Hf; [lia|]. pose proof (cut_line_split (st_message s)) as Hcut.
  unfold spec. cbn [process_message]. destruct (cut_line (st_message s)) as [[l rest]|].
  - destruct Hcut as [-> Hlen]. cbn [snd].
    change (spec U (_ ← process_line env parse l; _ ← update (put_message rest); process_message env parse fuel) s
      (fun o s' => I s' /\ (o = Ok tt /\ st_message s' = (split_lines rest).2 \/ o = Throw ThrownPointer))).
    apply spec_seq. pose proof (process_line_throws l s) as Hthrow.
    pose proof (keeps_process_line U I parse l s Hs) as Hline. unfold spec in Hline. unfold spec at 1.
    destruct (process_line env parse l s) as [[[[]|e] s1]|]; [| |done].
    + exact (IH (put_message rest s1) (Hmessage rest s1 Hline) ltac:(cbn; lia)).
    + split; [done|]. right. by rewrite (Hthrow e s1).
  - destruct Hcut as [_ ->]. split; [done|]. by left.
Qed.

End Lines.

(** *** The receive path of an open session *)

Definition works (s : stratum) : list WorkPackage :=
  omap (fun c => match c with CallWork w => Some w | _ => None end) (st_calls s).

Lemma works_verdicts s :
  works s = omap (fun c => match c with CallWork w => Some w | _ => None end) (verdicts s).
Proof.
  unfold works, verdicts. induction (st_calls s) as [|c l IH]; [done|].
  rewrite filter_cons. destruct c; case_decide as D; cbn in D; try tauto; cbn; first [exact IH|f_equal; exact IH].
Qed.

Definition open_session (s : stratum) : Prop :=
  is_Some (m_conn s) /\ is_Some (m_session s) /\ is_Some (m_solution_submitted_max_id s).

(** What holds while a transmission is processed: the work handed over so far is
    [ws], and a job waits only if the session is logged in. *)
Definition receiving (ws : list WorkPackage) (s : stratum) : Prop :=
  open_session s /\ works s = ws /\
  (m_newjobprocessed s = true -> exists u x, m_conn s = Some u /\ m_session s = Some x /\ logged_in u x).

#[local] Instance receiving_tame ws : Tame False (receiving ws).
Proof.
  split.
  - intros s s' [= E1 E2 E3 E4 E5]. unfold receiving, open_session. by rewrite !works_verdicts, E1, E2, E3, E4, E5.
  - intros s (((u & ->) & _) & _). done.
  - intros s ((_ & (x & ->) & _) & _). done.
  - intros s ((_ & _ & (m & ->)) & _). done.
  - intros f s x Hf ((Hu & Hx & Hm) & Hw & Hj) E. split; [done|]. split; [done|]. intros Hn.
    destruct (Hj Hn) as (u & x' & E1 & E2 & Hc & Hl). exists u, (f x). split; [done|]. split; [done|].
    rewrite E in E2. injection E2 as <-. split; [done|]. destruct Hl; [by left|right; by apply Hf].
Qed.

#[local] Instance receiving_invariant ws : MessageInvariant False (receiving ws).
Proof.
  split; [apply _| | | |].
  - intros s u ((Hu & Hx & Hm) & Hw & Hj) E. split; [done|]. split; [done|]. intros Hn.
    destruct (Hj Hn) as (u' & x & E1 & E2 & Hl). rewrite E in E1. injection E1 as <-.
    by exists (MarkUnrecoverable u), x.
  - intros s u x ((Hu & Hx & Hm) & Hw & Hj) _ Hl. split; [done|]. split; [done|]. intros Hn. by exists u, x.
  - intros s u x (Ho & Hw & Hj) Hu Hx Hl. split; [done|]. split; [done|]. intros _. by exists u, x.
  - intros s m c i (Ho & Hw & Hj) Hm H0 Hi (d & stale & Hc). split; [done|]. split; [|done].
    unfold works in *. cbn. rewrite omap_app, Hw. destruct Hc as [-> | ->]; apply app_nil_r.
Qed.

(** What a transmission leaves: the text behind its last complete line, a read
    outstanding unless the client disconnects, and at most one job handed over,
    which is the current one. *)
Definition received (t : list ascii) (s : stratum) (o : outcome unit) (s' : stratum) : Prop :=
  open_session s' /\
  match o with
  | Ok _ =>
      st_message s' = (split_lines t).2 /\ (isConnected s' = true -> st_reading s' = true) /\
      (works s' = works s \/
       works s' = works s ++ [m_current s'] /\
       exists u x, m_conn s' = Some u /\ m_session s' = Some x /\ logged_in u x)
  | Throw e => e = ThrownPointer /\ works s' = works s
  end.

Lemma receive_ends t s0 s :
  receiving (works s0) s -> st_message s = (split_lines t).2 ->
  spec False (_ ← when (m_newjobprocessed s) (call (CallWork (m_current s)));
              when (isConnected s) recvSocketData) s (received t s0).
Proof.
  intros (Ho & Hw & Hj) Ht.
  assert (Hend : forall s1, m_conn s1 = m_conn s -> m_session s1 = m_session s ->
    m_solution_submitted_max_id s1 = m_solution_submitted_max_id s -> st_message s1 = st_message s ->
    isConnected s1 = isConnected s -> m_current s1 = m_current s ->
    (works s1 = works s0 \/ works s1 = works s0 ++ [m_current s] /\
       exists u x, m_conn s = Some u /\ m_session s = Some x /\ logged_in u x) ->
    spec False (when (isConnected s) recvSocketData) s1 (received t s0)).
  { intros s1 E1 E2 E3 E4 E5 E6 Hv. pose proof Ho as [[u Hu] [Hx Hm]].
    assert (Hr : open_session s1) by (unfold open_session; by rewrite E1, E2, E3).
    unfold when. destruct (isConnected s) eqn:Hc.
    - apply spec_conn; [|congruence]. intros u' Hu'. cbn. split; [exact Hr|]. cbn.
      rewrite E4. split; [done|]. split; [done|]. destruct Hv as [Hv|[Hv Hl]]; [by left|right].
      rewrite E1, E2, E6. by split.
    - split; [done|]. rewrite E4, E5. split; [done|]. split; [congruence|].
      destruct Hv as [Hv|[Hv Hl]]; [by left|right]. rewrite E1, E2, E6. by split. }
  destruct (m_newjobprocessed s) eqn:Hn; apply Hend; try done; [|by left].
  right. split; [|by apply Hj]. unfold works in *. cbn. by rewrite omap_app, Hw.
Qed.

(** A transmission, once its text is appended to what was left. *)
Definition with_text (t : list ascii) (s : stratum) : stratum :=
  put_newjobprocessed false (put_message t (put_reading false s)).

Lemma onRecv_eq parse data s :
  onRecvSocketDataCompleted env parse (Some data) s =
  (_ ← process_message env parse (S (length (st_message s ++ data)));
   s ← get id; _ ← when (m_newjobprocessed s) (call (CallWork (m_current s)));
   when (isConnected s) recvSocketData) (with_text (st_message s ++ data) s).
Proof. done. Qed.

Lemma receive_spec parse data s :
  open_session s ->
  spec False (onRecvSocketDataCompleted env parse (Some data)) s (received (st_message s ++ data) s).
Proof.
  intros Ho. unfold spec. rewrite onRecv_eq. set (t := st_message s ++ data). set (s1 := with_text t s).
  match goal with |- match ?m s1 with _ => _ end => change (spec False m s1 (received t s)) end.
  assert (H1 : receiving (works s) s1) by (split; [exact Ho|]; split; [done|]; discriminate).
  apply spec_seq. refine (spec_weaken _ _ _ _ _ (process_message_spec parse False (receiving (works s)) _ _ s1 H1 _) _).
  - intros t' s' (H & H' & H''). by repeat split; try apply H.
  - cbn. lia.
  - intros o s2 [H2 [[-> Ht]| ->]].
    + by apply spec_state, receive_ends.
    + split; [apply H2|]. split; [done|]. apply H2.
Qed.

End Messages.

(** C7: receiving text while a session is open is always defined and keeps it
    open.  Unless an exception escapes, which only a thrown pointer does, every
    complete line is consumed and the rest kept, reading goes on while connected,
    and at most one job is handed over, the current one, and only to a session
    whose dialect is confirmed and which is subscribed (or speaks
    EthereumStratum/2.0.0). *)
Theorem stratum_receive_correct (env : st_env) (lib : JsonLib) (rd : JsonRead lib)
    (parse : list ascii -> option Value) (data : list ascii) (s : stratum) :
  open_session s ->
  exists o s', onRecvSocketDataCompleted env parse (Some data) s = Some (o, s') /\
    received (st_message s ++ data) s o s'.
Proof.
  intros Ho. pose proof (receive_spec env parse data s Ho) as H. unfold spec in H.
  destruct (onRecvSocketDataCompleted env parse (Some data) s) as [[o s']|]; [|done]. by exists o, s'.
Qed.

(** ** Every sequence of events *)

(** The number of the request that submits a solution. *)
Definition submit_id (solution : Solution) : Z := u32 (40 + s_midx solution).

(** A share credited to miner [i] answers for a solution of [subs] or a higher miner. *)
Definition answered (subs : list Solution) (c : st_call) : Prop :=
  match c with
  | CallAccepted _ i _ | CallRejected _ i =>
      0 <= i /\ exists solution, solution ∈ subs /\ 40 + i <= submit_id solution
  | _ => True
  end.

Definition confirmed (c : option URI) : Prop := exists u, c = Some u /\ m_stratumModeConfirmed u = true.

(** A session is only open with a confirmed dialect, the highest request number
    is that of a solution, and every verdict answers one. *)
Definition client_inv (subs : list Solution) (s : stratum) : Prop :=
  (is_Some (m_session s) -> confirmed (m_conn s)) /\
  (forall m, m_solution_submitted_max_id s = Some m -> m = 0 \/ exists solution, solution ∈ subs /\ m = submit_id solution) /\
  Forall (answered subs) (verdicts s).

#[local] Instance client_tame subs : Tame True (client_inv subs).
Proof.
  split; try done.
  - intros s s' [= E1 E2 E3 E4 E5]. unfold client_inv. by rewrite E1, E2, E3, E5.
  - intros f s x Hf (HJ & HM & HV) E. split; [|done]. intros _. apply HJ. by rewrite E.
Qed.

#[local] Instance client_invariant subs : MessageInvariant True (client_inv subs).
Proof.
  split; [apply _| | | |].
  - intros s u (HJ & H) E. split; [|done]. intros Hx. destruct (HJ Hx) as (u' & E' & Hc).
    exists (MarkUnrecoverable u). split; [done|]. rewrite E in E'. by injection E' as <-.
  - intros s u x (HJ & H) _ [Hc _]. split; [|done]. intros _. by exists u.
  - done.
  - intros s m c i (HJ & HM & HV) Hm H0 Hi (d & stale & Hc). split; [done|]. split; [done|].
    unfold verdicts in *. cbn. rewrite filter_app. apply Forall_app. split; [done|].
    destruct (HM m Hm) as [->|(sol & Hsol & ->)]; [lia|].
    destruct Hc as [-> | ->]; (apply Forall_singleton; split; [done|by exists sol]).
Qed.

Lemma keeps_any {A} (I : stratum -> Prop) (m : st_m A) :
  (forall s o s', I s -> m s = Some (o, s') -> I s') -> keeps True I m.
Proof. intros H s Hs. unfold spec. destruct (m s) as [[o s']|] eqn:E; [by apply (H s o)|done]. Qed.

Section Client.
Context (env : st_env) (subs : list Solution).
Local Notation I := (client_inv subs).

Lemma keeps_set_conn f :
  (forall u, m_stratumModeConfirmed u = true -> m_stratumModeConfirmed (f u) = true) -> keeps True I (set_conn f).
Proof.
  intros Hf s (HJ & H). apply spec_conn; [|done]. intros u Hu. split; [|done]. intros Hx.
  destruct (HJ Hx) as (u' & E & Hc). exists (f u). split; [done|]. apply Hf. congruence.
Qed.

Lemma keeps_no_session f :
  (forall s, m_session (f s) = None /\ m_solution_submitted_max_id (f s) = m_solution_submitted_max_id s /\
             verdicts (f s) = verdicts s) ->
  keeps True I (update f).
Proof.
  intros Hf. apply keeps_update. intros s (HJ & HM & HV). destruct (Hf s) as (E1 & E2 & E3).
  unfold client_inv. rewrite E1, E2, E3. split; [|done]. by intros [].
Qed.

Lemma keeps_no_submission f :
  (forall s, m_session (f s) = m_session s /\ m_conn (f s) = m_conn s /\ m_solution_submitted_max_id (f s) = Some 0 /\
             verdicts (f s) = verdicts s) ->
  keeps True I (update f).
Proof.
  intros Hf. apply keeps_update. intros s (HJ & HM & HV). destruct (Hf s) as (E1 & E2 & E3 & E4).
  unfold client_inv. rewrite E1, E2, E3, E4. split; [done|]. split; [|done]. intros m [= <-]. by left.
Qed.

Lemma keeps_disconnect_finalize : keeps True I (disconnect_finalize env).
Proof.
  unfold disconnect_finalize. keeps; try by apply keeps_set_conn.
  - by apply keeps_no_session.
  - by apply keeps_no_submission.
Qed.

Lemma keeps_disconnect : keeps True I (disconnect env).
Proof. pose proof keeps_disconnect_finalize. unfold disconnect. keeps. Qed.

Lemma keeps_init_socket : keeps True I init_socket.
Proof. unfold init_socket. keeps. Qed.

Lemma keeps_connect : keeps True I connect.
Proof. pose proof keeps_init_socket. unfold connect. keeps. Qed.

Lemma keeps_resolve_handler l : keeps True I (resolve_handler env l).
Proof. pose proof keeps_disconnect_finalize. unfold resolve_handler. keeps. Qed.

Lemma keeps_start_connect : keeps True I (start_connect env).
Proof.
  pose proof keeps_disconnect_finalize. pose proof keeps_init_socket. unfold start_connect. keeps.
  by apply keeps_no_submission.
Qed.

Lemma keeps_pop_endpoint : keeps True I pop_endpoint.
Proof.
  apply keeps_any. intros s o s' Hs. unfold pop_endpoint. destruct (m_endpoints s); [done|].
  intros [= <- <-]. by apply (tame_core s).
Qed.

Lemma keeps_connect_handler ec hec : keeps True I (connect_handler env ec hec).
Proof.
  pose proof keeps_pop_endpoint. unfold connect_handler. keeps.
  - apply keeps_any. intros s o s' Hs. by destruct (st_socket s); intros [= <- <-].
  - by apply keeps_set_conn.
  - by apply keeps_set_conn.
  - apply keeps_set_conn. intros u Hu. destruct (Version u <? 999); [done|]. by rewrite Hu.
Qed.

Lemma keeps_workloop_timer_elapsed ec : keeps True I (workloop_timer_elapsed env ec).
Proof. pose proof keeps_pop_endpoint. unfold workloop_timer_elapsed. keeps. by apply keeps_any. Qed.

Lemma keeps_onSendSocketDataCompleted ec : keeps True I (onSendSocketDataCompleted env ec).
Proof. unfold onSendSocketDataCompleted. keeps. Qed.

Lemma keeps_submitHashrate rate i : keeps True I (submitHashrate rate i).
Proof. unfold submitHashrate. keeps. Qed.

Lemma keeps_submitSolution solution : solution ∈ subs -> keeps True I (submitSolution env solution).
Proof.
  intros Hs. unfold submitSolution. keeps.
  apply keeps_any. intros s o s' (HJ & HM & HV). destruct (m_solution_submitted_max_id s) as [m|] eqn:E; [|done].
  intros [= <- <-]. split; [done|]. split; [|done]. cbn. intros m' [= <-].
  fold (submit_id solution).
  destruct (Z.max_spec m (submit_id solution)) as [[_ ->]|[_ ->]]; [right; by exists solution|by apply HM].
Qed.


Context {lib : JsonLib} {rd : JsonRead lib} (parse : list ascii -> option Value).

Lemma keeps_process_message fuel : keeps True I (process_message env parse fuel).
Proof.
  induction fuel as [|fuel IH]; intros s Hs; [done|]. unfold spec. cbn [process_message].
  destruct (cut_line (st_message s)) as [[l rest]|]; [|done].
  match goal with |- match ?m s with _ => _ end => change (spec True m s (fun _ => I)) end.
  apply spec_keeps; [|done]. pose proof (keeps_process_line env True I parse l). keeps.
Qed.

Lemma keeps_onRecvSocketDataCompleted data : keeps True I (onRecvSocketDataCompleted env parse data).
Proof.
  pose proof (keeps_process_message). pose proof (keeps_unrecoverable True I).
  assert (Hw : forall w, keeps True I (call (CallWork w))).
  { intros w. apply keeps_update. intros s (HJ & HM & HV). split; [done|]. split; [done|].
    unfold verdicts in *. cbn. rewrite filter_app. apply Forall_app. split; [done|by apply Forall_singleton]. }
  unfold onRecvSocketDataCompleted. keeps.
  apply keeps_update. intros s Hs. exact Hs.
Qed.

Lemma keeps_run_posted q : keeps True I (run_posted env q).
Proof.
  pose proof keeps_start_connect. pose proof keeps_disconnect. pose proof keeps_disconnect_finalize.
  pose proof (keeps_processResponse env True I). unfold run_posted. keeps.
Qed.

Lemma keeps_handler e s :
  I s -> enabled e s = true -> (forall solution, e = EvSolution solution -> solution ∈ subs) ->
  spec True (handler env parse e) s (fun _ => I).
Proof.
  intros Hs He Hsub. destruct e; cbn [handler].
  - apply bool_decide_eq_true in He. destruct Hs as (HJ & H). split; [|exact H]. cbn. rewrite He. by intros [].
  - by apply keeps_connect.
  - by apply keeps_disconnect.
  - by apply keeps_submitHashrate.
  - by apply keeps_submitSolution; [apply Hsub|].
  - by apply keeps_run_posted.
  - by apply keeps_resolve_handler.
  - by apply keeps_connect_handler.
  - by apply keeps_workloop_timer_elapsed.
  - by apply keeps_onSendSocketDataCompleted.
  - by apply keeps_onRecvSocketDataCompleted.
  - apply spec_keeps; [|done]. unfold onSSLShutdownCompleted. keeps.
Qed.

End Client.

(** A run of a client: any handler may be next, in any environment. *)
Inductive st_run {lib : JsonLib} {rd : JsonRead lib} (parse : list ascii -> option Value) (s : stratum) :
    list st_event -> stratum -> Prop :=
  | run_start : st_run parse s [] s
  | run_event es s1 env e o s2 :
      st_run parse s es s1 -> enabled e s1 = true -> handler env parse e s1 = Some (o, s2) ->
      st_run parse s (es ++ [e]) s2.

Definition solutions (es : list st_event) : list Solution :=
  omap (fun e => match e with EvSolution x => Some x | _ => None end) es.

Lemma client_inv_mono l l' s : l ⊆ l' -> client_inv l s -> client_inv l' s.
Proof.
  intros Hl (HJ & HM & HV). split; [done|]. split.
  - intros m Hm. destruct (HM m Hm) as [?|(x & Hx & ->)]; [by left|right]. exists x. by split; [apply Hl|].
  - eapply Forall_impl; [exact HV|]. intros [] H; try done; (destruct H as (H0 & x & Hx & Hi); split; [done|];
      exists x; by split; [apply Hl|]).
Qed.

Lemma run_inv {lib : JsonLib} {rd : JsonRead lib} parse env wt rt es s :
  st_run parse (EthStratumClient_new env wt rt) es s -> client_inv (solutions es) s.
Proof.
  induction 1 as [|es s1 env' e o s2 _ IH He Hs].
  - split; [by intros []|]. split; [done|constructor].
  - assert (Hsub : solutions es ⊆ solutions (es ++ [e])).
    { unfold solutions. rewrite omap_app. intros x Hx. apply elem_of_app. by left. }
    pose proof (keeps_handler env' (solutions (es ++ [e])) parse e s1 (client_inv_mono _ _ _ Hsub IH) He) as H.
    unfold spec in H. rewrite Hs in H. apply H. intros x ->. unfold solutions. rewrite omap_app.
    apply elem_of_app. right. cbn. by left.
Qed.


(** ** A run, evaluated *)

Fixpoint exec {lib : JsonLib} {rd : JsonRead lib} (parse : list ascii -> option Value)
    (l : list (st_env * st_event)) (s : stratum) : option stratum :=
  match l with
  | [] => Some s
  | (env, e) :: l =>
      if enabled e s then
        match handler env parse e s with Some (_, s) => exec parse l s | None => None end
      else None
  end.

Lemma run_trans {lib : JsonLib} {rd : JsonRead lib} parse s es s1 es' s2 :
  st_run parse s es s1 -> st_run parse s1 es' s2 -> st_run parse s (es ++ es') s2.
Proof.
  intros H1 H2. induction H2 as [|es' s2 env e o s3 _ IH He Hs]; [by rewrite app_nil_r|].
  rewrite app_assoc. by eapply run_event.
Qed.

Lemma run_one {lib : JsonLib} {rd : JsonRead lib} parse s env e o s' :
  enabled e s = true -> handler env parse e s = Some (o, s') -> st_run parse s [e] s'.
Proof. intros He Hs. change [e] with ([] ++ [e]). eapply run_event; [constructor|done|exact Hs]. Qed.

Lemma exec_run {lib : JsonLib} {rd : JsonRead lib} parse l : forall s s',
  exec parse l s = Some s' -> st_run parse s (snd <$> l) s'.
Proof.
  induction l as [|[env e] l IH]; intros s s' H; [injection H as <-; constructor|]. cbn in H.
  destruct (enabled e s) eqn:He; [|done]. destruct (handler env parse e s) as [[o s1]|] eqn:Hs; [|done].
  apply (run_trans parse s [e] s1); [by apply (run_one parse s env e o)|by apply IH].
Qed.

Lemma exec_events {lib : JsonLib} {rd : JsonRead lib} parse env es s s' :
  exec parse ((fun e => (env, e)) <$> es) s = Some s' -> st_run parse s es s'.
Proof.
  intros H%exec_run. rewrite <-list_fmap_compose in H. unfold compose in H. cbn [snd] in H. by rewrite list_fmap_id in H.
Qed.

Definition env_example : st_env :=
  mk_st_env 1000000000 "etcminer" (fun _ => Ok tt) boost_example.

(** A parser that knows these lines. *)
Definition parse_example (known : list (string * json)) (l : list ascii) : option json :=
  match list_find (fun kv => chars (fst kv) = l) known with Some (_, (_, v)) => Some v | None => None end.

Definition uri_text (t : string) : URI :=
  match URI_new (fun _ => None) (chars t) false with Ok u => u | Throw _ => URI_unparsed [] end.

Definition answer (i : Z) (r : json) : json := JObject [("id"%string, JInt i); ("result"%string, r)].

Definition lines_example : list (string * json) :=
  [("login"%string, answer 1 (JBool true)); ("share"%string, answer 42 (JBool true))].

(** From the start to an accepted share, with an ETH proxy. *)
Definition events_example : list st_event :=
  [EvSetConnection (uri_text "stratum1+tcp://user@pool.example:4444"); EvConnect; EvResolved (Some [7]);
   EvPosted PostStartConnect; EvConnected false false; EvReceived (Some (chars "login" ++ [newline]));
   EvSolution (mk_Solution 5 (h_zero 32) WorkPackage_default 0 2);
   EvReceived (Some (chars "share" ++ [newline]))].

Definition run_example : option stratum :=
  exec (lib := json_lib) (rd := json_read) (parse_example lines_example)
    ((fun e => (env_example, e)) <$> events_example) (EthStratumClient_new env_example 180 2).

Definition end_example : stratum := default (EthStratumClient_new env_example 180 2) run_example.

Lemma example_runs :
  st_run (lib := json_lib) (rd := json_read) (parse_example lines_example) (EthStratumClient_new env_example 180 2)
    events_example end_example.
Proof. apply (exec_events _ env_example). vm_compute. reflexivity. Qed.

Lemma example_accepts : CallAccepted 0 2 false ∈ st_calls end_example.
Proof. apply (list_elem_of_lookup_2 _ 2). vm_compute. reflexivity. Qed.

Lemma example_open : open_session end_example.
Proof.
  split_and!; match goal with |- is_Some ?o => destruct o eqn:E; [by eexists|] end; vm_compute in E; discriminate E.
Qed.


Lemma stratum_receive_correct_witness :
  exists o s', onRecvSocketDataCompleted (lib := json_lib) (rd := json_read) env_example (parse_example lines_example)
      (Some (chars "login" ++ [newline] ++ chars "sha")) end_example = Some (o, s') /\
    received (st_message end_example ++ chars "login" ++ [newline] ++ chars "sha") end_example o s'.
Proof.
  exact (stratum_receive_correct env_example json_lib json_read (parse_example lines_example)
    (chars "login" ++ [newline] ++ chars "sha") end_example example_open).
Defined.
