(* ===== verification/StratumProtocol.v ===== *)
(** * What the stratum client says to a pool

    Jobs as the pool sends them, shares as the client returns them, and the
    detection of the dialect: the detailed behaviour of the handlers, composed
    with the farm that divides the nonces. *)

From Stdlib Require Import ZArith Lia Bool Ascii String Floats.SpecFloat.
From stdpp Require Import base numbers list gmap strings relations.
From S2P Require Import Prelude Words EthashSpec Ethash Outcome CommonData FixedHash Floats.
From S2P Require Import Miner Farm PoolURI Target Json Lines PoolClient Stratum StratumCorrect.

Local Open Scope Z_scope.

(** ** Digits *)

Lemma hex_digits_take n k x :
  0 <= x -> (k <= n)%nat -> take k (hex_digits n x) = hex_digits k (x / 16 ^ Z.of_nat (n - k)).
Proof.
  revert k x. induction n as [|n IH]; intros k x Hx Hk.
  - assert (k = 0%nat) as -> by lia. done.
  - destruct (decide (k = S n)) as [->|Hne].
    { rewrite Nat.sub_diag, Z.div_1_r. apply take_ge. destruct (hex_digits_spec (S n) x Hx) as (_ & -> & _). done. }
    cbn [hex_digits]. pose proof (Z.div_pos x 16 Hx ltac:(lia)) as Hp.
    rewrite take_app_le by (destruct (hex_digits_spec n (x / 16) Hp) as (_ & -> & _); lia).
    rewrite IH by lia. f_equal. rewrite Z.div_div by lia.
    replace (S n - k)%nat with (S (n - k)) by lia. by rewrite Nat2Z.inj_succ, Z.pow_succ_r by lia.
Qed.

(** A digit as it is printed. *)
Definition lower_hex (c : ascii) : Prop := is_hex c /\ hex_digit (fromHex_char c) = c.

#[export] Instance lower_hex_dec c : Decision (lower_hex c).
Proof. unfold lower_hex. apply _. Defined.

Lemma hex_value_snoc l c : hex_value (l ++ [c]) = 16 * hex_value l + fromHex_char c.
Proof. unfold hex_value. by rewrite fold_left_app. Qed.

Lemma hex_value_app l l' : Forall is_hex l' -> hex_value (l ++ l') = hex_value l * 16 ^ Z.of_nat (length l') + hex_value l'.
Proof.
  induction l' as [|c l' IH] using rev_ind; intros Hl'.
  - rewrite app_nil_r. cbn. lia.
  - apply Forall_app in Hl' as [H1 H2]. rewrite app_assoc, !hex_value_snoc, IH by done.
    rewrite length_app, Nat.add_1_r, Nat2Z.inj_succ, Z.pow_succ_r by lia. lia.
Qed.

Lemma hex_digits_value l : Forall lower_hex l -> hex_digits (length l) (hex_value l) = l.
Proof.
  induction l as [|c l IH] using rev_ind; intros Hl; [done|]. apply Forall_app in Hl as [Hl Hc].
  rewrite length_app, Nat.add_1_r, hex_value_snoc. cbn [hex_digits].
  apply Forall_singleton in Hc as [Hh Hc]. pose proof (is_hex_range c Hh) as Hr.
  rewrite (Z.mul_comm 16), Z.div_add_l, Z.div_small, Z.add_0_r, IH by (done || lia).
  by rewrite Z.add_comm, Z.mod_add, Z.mod_small, Hc by lia.
Qed.

Lemma lower_hex_is_hex l : Forall lower_hex l -> Forall is_hex l.
Proof. intros Hl. eapply Forall_impl; [exact Hl|]. by intros c []. Qed.

Lemma zeros_hex n : Forall is_hex (replicate n "0"%char) /\ hex_value (replicate n "0"%char) = 0.
Proof.
  induction n as [|n [IH1 IH2]]; [done|]. rewrite replicate_S_end. split.
  - apply Forall_app. split; [done|]. by apply Forall_singleton.
  - rewrite hex_value_snoc, IH2. done.
Qed.

(** The standard conversion on digits alone. *)
Lemma parse_hex_digits l : Forall is_hex l -> l <> [] -> parse_hex (text l) = Some (false, hex_value l).
Proof.
  intros Hl Hne. unfold parse_hex. rewrite chars_text. destruct l as [|c l]; [done|].
  assert (Hc : is_hex c) by by inversion Hl. destruct (is_hex_plain c Hc) as (Hs & Hm & Hp & _).
  assert (Hne' : forall d, (code c =? code d) = false -> Ascii.eqb c d = false).
  { intros d Hd. destruct (Ascii.eqb_spec c d) as [->|]; [|done]. by rewrite Z.eqb_refl in Hd. }
  cbn [skip_spaces]. rewrite Hs, (Hne' "-"%char Hm), (Hne' "+"%char Hp). cbn [orb].
  by rewrite skip_0x_hex, hex_prefix_all by done.
Qed.

Lemma sto_hex_digits l :
  Forall is_hex l -> l <> [] -> (length l <= 16)%nat -> sto_hex (text l) = Ok (hex_value l).
Proof.
  intros Hl Hne Hlen. unfold sto_hex. rewrite parse_hex_digits by done.
  pose proof (hex_value_range l Hl) as Hr.
  assert (16 ^ Z.of_nat (length l) <= 2 ^ 64).
  { change 16 with (2 ^ 4). rewrite <-Z.pow_mul_r by lia. apply Z.pow_le_mono_r; lia. }
  destruct (Z.leb_spec (2 ^ 64) (hex_value l)); [lia|done].
Qed.

(** ** Shares *)

Lemma resize16_digits e :
  (length e <= 16)%nat -> resize16 (text e) = text (e ++ replicate (16 - length e) "0"%char).
Proof.
  intros He. unfold resize16. rewrite chars_text. f_equal.
  rewrite take_app_ge, take_replicate by lia. do 2 f_equal. lia.
Qed.

(** The extranonce as the leading digits of a nonce. *)
Lemma processExtranonce_digits e s x :
  Forall is_hex e -> (0 < length e <= 16)%nat -> m_session s = Some x ->
  exists s1 x1, processExtranonce (text e) s = Some (Ok tt, s1) /\ m_session s1 = Some x1 /\
    extraNonceSizeBytes x1 = Z.of_nat (length e) /\
    extraNonce x1 = hex_value e * 16 ^ Z.of_nat (16 - length e).
Proof.
  intros He Hlen Hx. set (n := (16 - length e)%nat). destruct (zeros_hex n) as [Hz Hz0].
  assert (Hsto : sto_hex (resize16 (text e)) = Ok (hex_value e * 16 ^ Z.of_nat n)).
  { rewrite resize16_digits by lia. fold n. rewrite sto_hex_digits.
    - by rewrite hex_value_app, Hz0, Z.add_0_r, length_replicate by done.
    - by apply Forall_app.
    - destruct e; [simpl in *; lia|done].
    - rewrite length_app, length_replicate. lia. }
  unfold processExtranonce, set_session, mbind, st_bind, session, throwing. rewrite Hx, Hsto. cbn.
  do 2 eexists. split; [reflexivity|]. split; [reflexivity|]. cbn.
  rewrite length_text, wrap_id by (unfold in_word; lia). done.
Qed.

Lemma pow16 n : 16 ^ Z.of_nat n = 2 ^ (4 * Z.of_nat n).
Proof. change 16 with (2 ^ 4). by rewrite <-Z.pow_mul_r by lia. Qed.

Lemma toHex64_digits n : 0 <= n < 2 ^ 64 -> toHex64 n DontAdd 16 = text (hex_digits 16 n).
Proof.
  intros Hn. unfold toHex64. cbn [add_prefix]. unfold put_hex.
  rewrite Nat.max_l; [done|]. apply hex_length_bound; [|lia]. by rewrite pow16.
Qed.

(** A nonce that begins with the digits [e] is sent without them. *)
Lemma nonce_suffix_digits e n :
  Forall lower_hex e -> (length e <= 16)%nat -> 0 <= n < 2 ^ 64 ->
  n / 16 ^ Z.of_nat (16 - length e) = hex_value e ->
  exists t, nonce_suffix n (Z.of_nat (length e)) = Ok (text t) /\ e ++ t = chars (toHex64 n DontAdd 16).
Proof.
  intros He Hlen Hn Hpre. exists (drop (length e) (hex_digits 16 n)).
  unfold nonce_suffix. rewrite toHex64_digits, chars_text by done.
  destruct (hex_digits_spec 16 n) as (_ & Hl & _); [lia|]. rewrite Hl.
  destruct (Z.ltb_spec (Z.of_nat 16) (Z.of_nat (length e))); [lia|]. rewrite Nat2Z.id. split; [done|].
  rewrite <-(take_drop (length e) (hex_digits 16 n)) at 2. f_equal.
  rewrite hex_digits_take, Hpre by lia. by rewrite hex_digits_value.
Qed.

(** The message that submits a share in the dialects with an extranonce. *)
Definition share_message (u : URI) (x : Session) (solution : Solution) (t : string) : json :=
  JObject [("id"%string, JInt (u32 (40 + s_midx solution))); ("method"%string, JString "mining.submit");
           ("params"%string, JArray
             (if m_stratumMode u =? mode_ETHEREUMSTRATUM
              then [str (UserDotWorker u); JString (job (s_work solution)); JString t]
              else [JString (job (s_work solution)); JString t; JString (workerId x)]))].

(** A client that can send at once. *)
Definition ready (u : URI) (x : Session) (s : stratum) : Prop :=
  m_conn s = Some u /\ m_session s = Some x /\ s_authorized x = true /\ isConnected s = true /\
  m_txPending s = false /\ m_txQueue s = [] /\ is_Some (m_solution_submitted_max_id s).

Lemma sendSocketData_connected s u :
  m_conn s = Some u -> isConnected s = true -> m_txQueue s <> [] ->
  sendSocketData s = Some (Ok tt, put_txQueue [] (put_calls (st_calls s ++ [CallWrite (m_txQueue s)]) s)).
Proof.
  intros Hu Hc Hq. unfold sendSocketData, mbind, st_bind, get. cbn [id]. rewrite Hc.
  destruct (m_txQueue s) eqn:E; [done|]. cbn [negb orb]. unfold conn. rewrite Hu. done.
Qed.

Lemma send_idle s u j :
  m_conn s = Some u -> isConnected s = true -> m_txPending s = false -> m_txQueue s = [] ->
  send j s = Some (Ok tt, put_txQueue [] (put_calls (st_calls s ++ [CallWrite [j]]) (put_txPending true (put_txQueue [j] s)))).
Proof.
  intros Hu Hc Hp Hq. unfold send, mbind, st_bind, update, get. cbn [id].
  rewrite Hq. cbn [bounded_push push_within length queue_size Nat.ltb Nat.leb app].
  change (m_txPending (put_txQueue [j] s)) with (m_txPending s). rewrite Hp.
  by rewrite (sendSocketData_connected _ u).
Qed.

Lemma submitSolution_ready env u x s solution t :
  ready u x s -> m_stratumMode u = mode_ETHEREUMSTRATUM \/ m_stratumMode u = mode_ETHEREUMSTRATUM2 ->
  nonce_suffix (s_nonce solution) (exSizeBytes (s_work solution)) = Ok t ->
  exists s', submitSolution env solution s = Some (Ok tt, s') /\
    st_calls s' = st_calls s ++ [CallWrite [share_message u x solution t]].
Proof.
  intros Hr Hmode Ht. pose proof Hr as (Hu & Hx & Ha & Hc & Hp & Hq & [m Hm]).
  unfold submitSolution, mbind, st_bind, get. cbn [id].
  assert (Hauth : isAuthorized s = true) by (unfold isAuthorized; by rewrite Hx). rewrite Hauth. cbn [negb].
  rewrite Hm. unfold conn, session. cbn [m_conn put_solution_submitted_max_id]. rewrite Hu.
  cbn beta iota. change (m_session (put_solution_submitted_max_id _ s)) with (m_session s). rewrite Hx.
  assert (Hsub : submission u x solution = Ok [("method"%string, JString "mining.submit");
    ("params"%string, JArray (if m_stratumMode u =? mode_ETHEREUMSTRATUM
              then [str (UserDotWorker u); JString (job (s_work solution)); JString t]
              else [JString (job (s_work solution)); JString t; JString (workerId x)]))]).
  { unfold submission. destruct Hmode as [-> | ->]; cbn; by rewrite Ht. }
  unfold throwing. rewrite Hsub. unfold enqueue_response_plea, update.
  assert (Hsend : forall s1, m_conn s1 = m_conn s -> isConnected s1 = isConnected s -> m_txPending s1 = m_txPending s ->
    m_txQueue s1 = m_txQueue s -> st_calls s1 = st_calls s -> exists s', send (share_message u x solution t) s1 = Some (Ok tt, s') /\
    st_calls s' = st_calls s ++ [CallWrite [share_message u x solution t]]).
  { intros s1 E1 E2 E3 E4 E5. rewrite (send_idle s1 u) by congruence. eexists. split; [reflexivity|]. cbn. by rewrite E5. }
  apply Hsend; by destruct (_ =? 0).
Qed.

(** A solution a miner found in the segment it was given. *)
Definition found_by (bits : Z) (m : Miner) (solution : Solution) : Prop :=
  s_work solution = m_work m /\
  exists a, 0 <= a < 2 ^ bits /\ s_nonce solution = u64 (startNonce (m_work m) + a).

(** Every nonce of every segment begins with the digits of the extranonce. *)
Lemma segment_prefix e f wp rnd f' i m m' solution :
  let n := Z.of_nat (length (m_miners f)) in
  Forall is_hex e -> (0 < length e <= 16)%nat -> nonce (m_Settings f) = ""%string ->
  exSizeBytes wp = Z.of_nat (length e) -> startNonce wp = hex_value e * 16 ^ Z.of_nat (16 - length e) ->
  in_word 64 rnd -> 0 < n -> Z.log2_up n + 4 * Z.of_nat (length e) <= 64 ->
  farm_setWork f wp rnd = Some f' -> m_miners f !! i = Some m -> paused m = false -> m_miners f' !! i = Some m' ->
  found_by (64 - Z.log2_up n - 4 * Z.of_nat (length e)) m' solution ->
  in_word 64 (s_nonce solution) /\
  s_nonce solution / 16 ^ Z.of_nat (16 - length e) = hex_value e /\
  exSizeBytes (s_work solution) = Z.of_nat (length e).
Proof.
  intros n He Hlen Hset Hsize Hstart Hrnd Hn Hfit Hf Hm Hp Hm' (Hwork & a & Ha & Hnonce).
  assert (Hk : prefix_digits f wp = Z.of_nat (length e)) by (unfold prefix_digits; rewrite Hset, Hsize; cbn; lia).
  assert (Hs : prefix_start f wp rnd = startNonce wp).
  { unfold prefix_start. rewrite Hset, Hsize. cbn [negb String.eqb]. by destruct (Z.ltb_spec 0 (Z.of_nat (length e))); [|lia]. }
  pose proof (hex_value_range e He) as Hr. pose proof (Z.log2_up_nonneg n) as Hlog.
  assert (H64 : 2 ^ 64 = 16 ^ Z.of_nat (length e) * 16 ^ Z.of_nat (16 - length e)).
  { rewrite !pow16, <-Z.pow_add_r by lia. f_equal. lia. }
  pose proof (Z.pow_pos_nonneg 16 (Z.of_nat (16 - length e)) ltac:(lia) ltac:(lia)) as Hpos.
  assert (Hin : in_word 64 (startNonce wp)) by (unfold in_word; rewrite Hstart, H64; nia).
  destruct (farm_setWork_miners f wp rnd) as (f1 & E & Hminers); fold n; rewrite ?Hset, ?Hk; try done; [lia|].
  rewrite Hf in E. injection E as <-. rewrite Hminers, list_lookup_imap, Hm, Hs, Hk in Hm'. injection Hm' as <-.
  unfold setWork in Hwork, Hnonce. rewrite Hp in Hwork, Hnonce. cbn in Hwork, Hnonce.
  split; [rewrite Hnonce; by apply wrap_in_word|]. split; [|by rewrite Hwork].
  assert (Hexp : 16 ^ Z.of_nat (16 - length e) = 2 ^ (64 - 4 * prefix_digits f wp))
    by (rewrite pow16, Hk; f_equal; lia).
  assert (Hb : 1 <= Z.log2_up n + 4 * prefix_digits f wp <= 64) by lia.
  rewrite Hnonce. fold n. rewrite <-Hk in Ha |- *.
  assert (Hi : Z.of_nat i < n) by (apply lookup_lt_Some in Hm; unfold n; lia).
  rewrite Hexp, (segments_in_block f wp n Hn Hb (startNonce wp) i a Hin); [|rewrite <-Hexp, Hstart; apply Z.divide_factor_r|done|done].
  by rewrite <-Hexp, Hstart, Z.div_mul by lia.
Qed.

(** ** Jobs *)

Section Jobs.
Context (env : st_env) {lib : JsonLib} {rd : JsonRead lib}.

(** The array [key] of a message has these texts. *)
Definition has_fields (v : Value) (key : string) (fields : list string) : Prop :=
  exists p, json_get v key nullValue = Ok p /\ isArray p = true /\ json_empty p = false /\
    json_size p = Z.of_nat (length fields) /\
    forall i t, fields !! i = Some t -> text_at p (Z.of_nat i) = Ok t.

(** The difficulty of a job: what the pool said, or that of the target. *)
Definition job_difficulty (x : Session) (b : list Z) : outcome double :=
  if is_zero (nextWorkDifficulty x) then e_hashesToTarget env (h_hex b Add) else Ok (nextWorkDifficulty x).

Lemma current_difficulty_eq s x d :
  m_session s = Some x -> job_difficulty x (boundary (m_current s)) = Ok d ->
  current_difficulty env s = Some (Ok tt, put_current (work_difficulty d (m_current s)) s).
Proof.
  intros Hx Hd. unfold current_difficulty, mbind, st_bind, session, job_difficulty in *. rewrite Hx.
  destruct (is_zero _); cbn [negb].
  - unfold get, throwing. cbn [id]. by rewrite Hd.
  - by injection Hd as ->.
Qed.

Lemma hash_of_hex h p s : hash_wf 32 h -> hash_of (h_hex h p) s = Some (Ok h, s).
Proof.
  intros Hh. unfold hash_of, throwing. by rewrite h_of_string_hex.
Qed.

Lemma text_app l l' : (text l +:+ text l')%string = text (l ++ l').
Proof. induction l as [|c l IH]; [done|]. exact (f_equal (String c) IH). Qed.

(** A target of up to 64 digits, short ones being filled up. *)
Lemma fix_target_spec digits :
  Forall is_hex digits -> (length digits <= 64)%nat ->
  exists t, fix_target (text ("0"%char :: "x"%char :: digits)) = Ok t /\
    exists b, h_of_string 32 t = Ok b /\ hash_wf 32 b /\ be_number b = hex_value digits.
Proof.
  intros Hd Hlen. set (n := (64 - length digits)%nat). destruct (zeros_hex n) as [Hz Hz0].
  set (l := replicate n "0"%char ++ digits).
  assert (Hl : Forall is_hex l) by by apply Forall_app.
  assert (Hl64 : length l = 64%nat) by (unfold l; rewrite length_app, length_replicate; lia).
  assert (Hv : hex_value l = hex_value digits) by (unfold l; rewrite hex_value_app, Hz0 by done; lia).
  exists (text ("0"%char :: "x"%char :: l)). split.
  - unfold fix_target. rewrite length_text. cbn [length]. rewrite chars_text. cbn [drop].
    destruct (Nat.ltb_spec (S (S (length digits))) 66) as [H|H].
    + destruct (Nat.ltb_spec (S (S (length digits))) 2); [lia|]. f_equal.
      replace (66 - S (S (length digits)))%nat with n by lia. unfold l.
      by rewrite text_app.
    + assert (n = 0%nat) as E by lia. unfold l. by rewrite E.
  - destruct (hash_of_digits Add l Hl Hl64) as (b & Hb & Hwf & Hval). exists b. split; [done|]. split; [done|]. by rewrite Hval.
Qed.

(** A job changes neither the login nor what was reported. *)
Definition same_login (s s' : stratum) : Prop :=
  m_conn s' = m_conn s /\ m_session s' = m_session s /\ st_calls s' = st_calls s.

(** How a pool announces a job in a dialect: the texts of its message, and the
    target, which EthereumStratum/1.0.0 sets apart. *)
Inductive announces (u : URI) (x : Session) (v : Value) (j : string) (hdr seed b : list Z) : Prop :=
  | by_ethereumstratum p rest r :
      m_stratumMode u = mode_ETHEREUMSTRATUM -> isMember v "result" = Ok r ->
      has_fields v "params" (j :: h_hex seed p :: h_hex hdr p :: rest) -> b = nextWorkBoundary x ->
      announces u x v j hdr seed b
  | by_stratum p digits rest r :
      m_stratumMode u = mode_STRATUM -> isMember v "result" = Ok r ->
      has_fields v "params" (j :: h_hex hdr p :: h_hex seed p :: text ("0"%char :: "x"%char :: digits) :: rest) ->
      Forall is_hex digits -> (length digits <= 64)%nat -> hash_wf 32 b -> be_number b = hex_value digits ->
      announces u x v j hdr seed b
  | by_ethproxy p digits :
      m_stratumMode u = mode_ETHPROXY -> isMember v "result" = Ok true ->
      has_fields v "result" [h_hex hdr p; h_hex seed p; text ("0"%char :: "x"%char :: digits)] -> j = h_hex hdr p ->
      Forall is_hex digits -> (length digits <= 64)%nat -> hash_wf 32 b -> be_number b = hex_value digits ->
      announces u x v j hdr seed b.

(** The work of a job; the epoch is left for the pool manager to find. *)
Definition job_work (u : URI) (x : Session) (w : WorkPackage) (j : string) (hdr seed b : list Z) (d : double) :
    WorkPackage :=
  let by_pool := m_stratumMode u =? mode_ETHEREUMSTRATUM in
  mk_WorkPackage j b hdr seed (epoch w) (-1)
    (if by_pool then extraNonce x else startNonce w) (if by_pool then u16 (extraNonceSizeBytes x) else exSizeBytes w) d.

Lemma nonempty_hex h p : hash_wf 32 h -> String.eqb (h_hex h p) "" = false.
Proof.
  intros [Hl Hb]. apply String.eqb_neq. intros E. apply (f_equal (fun t => length (chars t))) in E.
  unfold h_hex, toHex in E. rewrite chars_text, toHex_list_pairs in E by done.
  destruct p; [|done]. by destruct h.
Qed.

Lemma nicehash_job_eq s x p j hdr seed d px :
  m_session s = Some x -> hash_wf 32 hdr -> hash_wf 32 seed ->
  text_at p 1 = Ok (h_hex seed px) -> text_at p 2 = Ok (h_hex hdr px) ->
  job_difficulty x (nextWorkBoundary x) = Ok d -> job (m_current s) = j ->
  exists s', nicehash_job env p s = Some (Ok tt, s') /\ m_newjobprocessed s' = true /\
    same_login s s' /\
    m_current s' = mk_WorkPackage j (nextWorkBoundary x) hdr seed (epoch (m_current s)) (-1)
      (extraNonce x) (u16 (extraNonceSizeBytes x)) d.
Proof.
  intros Hx Hh Hs E1 E2 Hd Hj. unfold nicehash_job, mbind, st_bind. unfold throwing at 1 2. rewrite E1, E2.
  rewrite !nonempty_hex by done. cbn [orb]. rewrite !hash_of_hex by done.
  unfold current, update. cbn beta iota. rewrite !hash_of_hex by done.
  cbn beta iota. unfold session at 1. cbn [m_session put_current]. rewrite Hx. cbn beta iota.
  rewrite (current_difficulty_eq _ x d); [|done|done]. eexists. split; [reflexivity|]. subst j. by repeat split.
Qed.

Lemma classic_job_eq s u x p i j hdr seed b digits d px :
  m_session s = Some x -> hash_wf 32 hdr -> hash_wf 32 seed ->
  text_at p i = Ok (h_hex hdr px) -> text_at p (i + 1) = Ok (h_hex seed px) ->
  text_at p (i + 2) = Ok (text ("0"%char :: "x"%char :: digits)) ->
  (m_stratumMode u =? mode_ETHPROXY) && (i + 3 <? json_size p) = false ->
  Forall is_hex digits -> (length digits <= 64)%nat -> hash_wf 32 b -> be_number b = hex_value digits ->
  job_difficulty x b = Ok d -> job (m_current s) = j ->
  exists s', classic_job env u p i s = Some (Ok tt, s') /\ m_newjobprocessed s' = true /\
    same_login s s' /\
    m_current s' = mk_WorkPackage j b hdr seed (epoch (m_current s)) (-1)
      (startNonce (m_current s)) (exSizeBytes (m_current s)) d.
Proof.
  intros Hx Hh Hs E0 E1 E2 Hb Hdig Hlen Hwf Hval Hd Hj.
  destruct (fix_target_spec digits Hdig Hlen) as (t & Ht & b' & Hb' & Hwf' & Hval').
  assert (b' = b) as ->.
  { apply be_number_inj; [apply Hwf'|apply Hwf|by rewrite (proj1 Hwf), (proj1 Hwf')|by rewrite Hval, Hval']. }
  unfold classic_job, mbind, st_bind. unfold throwing at 1 2 3. rewrite E0, E1, E2, Hb.
  unfold current, update, throwing, mret, st_ret. cbn beta iota. rewrite Ht. cbn beta iota.
  do 2 (rewrite ?hash_of_hex by done; cbn beta iota). unfold hash_of, throwing. rewrite Hb'. cbn beta iota.
  rewrite (current_difficulty_eq _ x d); [|done|done]. eexists. split; [reflexivity|]. subst j. by repeat split.
Qed.

(** What a client does with a job it can take. *)
Lemma notify_eq s u x v j hdr seed b d :
  m_conn s = Some u -> m_session s = Some x -> s_subscribed x = true -> m_newjobprocessed s = false ->
  hash_wf 32 hdr -> hash_wf 32 seed -> announces u x v j hdr seed b -> job_difficulty x b = Ok d ->
  exists s', notify env u v s = Some (Ok tt, s') /\ m_newjobprocessed s' = true /\
    same_login s s' /\ m_current s' = job_work u x (m_current s) j hdr seed b d.
Proof.
  intros Hu Hx Hsub Hn Hh Hs Ha Hd. unfold notify, mbind, st_bind, get. cbn [id].
  assert (Hsub' : isSubscribed s = true) by (unfold isSubscribed; by rewrite Hx). rewrite Hsub', Hn. cbn [negb orb].
  unfold job_work.
  destruct Ha as [p rest r Hm Hr (a & Hp & Ha1 & Ha2 & Hsz & Hf) ->
                 |p digits rest r Hm Hr (a & Hp & Ha1 & Ha2 & Hsz & Hf) Hdig Hlen Hwf Hval
                 |p digits Hm Hr (a & Hp & Ha1 & Ha2 & Hsz & Hf) -> Hdig Hlen Hwf Hval]; rewrite Hm;
    unfold throwing at 1; rewrite Hr; cbn [andb Z.eqb mode_ETHEREUMSTRATUM mode_ETHPROXY mode_STRATUM Pos.eqb];
    unfold throwing at 1; rewrite Hp, Ha1, Ha2; cbn [negb orb]; unfold throwing at 1; rewrite (Hf 0%nat _ eq_refl : text_at a 0 = _);
    unfold current at 1, update at 1; cbn beta iota.
  - exact (nicehash_job_eq (put_current (work_job j (m_current s)) s) x a j hdr seed d p Hx Hh Hs
      (Hf 1%nat _ eq_refl) (Hf 2%nat _ eq_refl) Hd eq_refl).
  - exact (classic_job_eq (put_current (work_job j (m_current s)) s) u x a 1 j hdr seed b digits d p Hx Hh Hs
      (Hf 1%nat _ eq_refl) (Hf 2%nat _ eq_refl) (Hf 3%nat _ eq_refl) ltac:(by rewrite Hm) Hdig Hlen Hwf Hval Hd eq_refl).
  - exact (classic_job_eq (put_current (work_job (h_hex hdr p) (m_current s)) s) u x a 0 (h_hex hdr p) hdr seed b
      digits d p Hx Hh Hs (Hf 0%nat _ eq_refl) (Hf 1%nat _ eq_refl) (Hf 2%nat _ eq_refl)
      ltac:(rewrite Hsz; apply andb_false_r) Hdig Hlen Hwf Hval Hd eq_refl).
Qed.

(** Code that depends on the connection only and changes nothing. *)
Definition observes {A} (m : st_m A) : Prop :=
  forall s s', m_conn s' = m_conn s ->
    exists r, m s = (fun o => (o, s)) <$> r /\ m s' = (fun o => (o, s')) <$> r.

Lemma observes_bind {A B} (m : st_m A) (f : A -> st_m B) :
  observes m -> (forall x, observes (f x)) -> observes (m ≫= f).
Proof.
  intros Hm Hf s s' E. destruct (Hm s s' E) as (r & E1 & E2). unfold mbind, st_bind. rewrite E1, E2.
  destruct r as [[x|e]|]; cbn; [by apply Hf|by exists (Some (Throw e))|by exists None].
Qed.

Lemma observes_throwing {A} (o : outcome A) : observes (throwing o).
Proof. intros s s' _. by exists (Some o). Qed.

Lemma observes_ret {A} (x : A) : observes (mret x : st_m A).
Proof. intros s s' _. by exists (Some (Ok x)). Qed.

Lemma observes_conn : observes conn.
Proof. intros s s' E. exists (Ok <$> m_conn s). unfold conn. rewrite E. by destruct (m_conn s). Qed.

Lemma read_message_conn v s s' m :
  m_conn s' = m_conn s -> read_message v s = Some (Ok m, s) -> read_message v s' = Some (Ok m, s').
Proof.
  intros E H. assert (Ho : observes (read_message v)).
  { unfold read_message.
    repeat first [apply observes_bind; [|intros ?]|apply observes_throwing|apply observes_ret|apply observes_conn
                 |lazymatch goal with |- observes (if ?b then _ else _) => destruct b end|progress cbv zeta]. }
  destruct (Ho s s' E) as ([o|] & E1 & E2); rewrite H in E1; [|done]. injection E1 as <-. exact E2.
Qed.

(** A message that announces a job. *)
Definition is_job (v : Value) (s : stratum) : Prop :=
  exists m, read_message v s = Some (Ok m, s) /\ msg_notification m = true /\
    msg_method m = "mining.notify"%string /\ is_sane m v = Ok true.

Lemma processResponse_job s u x v j hdr seed b d :
  m_conn s = Some u -> logged_in u x -> m_session s = Some x -> s_subscribed x = true ->
  m_newjobprocessed s = false -> is_job v s -> hash_wf 32 hdr -> hash_wf 32 seed ->
  announces u x v j hdr seed b -> job_difficulty x b = Ok d ->
  exists s', processResponse env v s = Some (Ok tt, s') /\ m_newjobprocessed s' = true /\
    same_login s s' /\ m_current s' = job_work u x (m_current s) j hdr seed b d.
Proof.
  intros Hu [Hc _] Hx Hsub Hn (m & Hread & Hnot & Hmeth & Hsane) Hh Hs Ha Hd.
  unfold processResponse, mbind, st_bind, throwing. rewrite Hread, Hsane, Hnot. cbn [negb orb].
  unfold conn. cbn [mret st_ret]. rewrite Hu. unfold when. rewrite Hc.
  unfold handle_notification, mbind, st_bind, conn. rewrite Hu, Hmeth. cbn [String.eqb Ascii.eqb Bool.eqb andb].
  assert (Hne : (m_stratumMode u =? mode_ETHEREUMSTRATUM2) = false) by (destruct Ha as [??? -> | ???? -> | ?? ->]; done).
  rewrite Hne. cbn [negb]. by apply notify_eq.
Qed.

Lemma cut_line_single line : newline ∉ line -> cut_line (line ++ [newline]) = Some (line, []).
Proof.
  intros Hl. unfold cut_line.
  assert (H : forall l, newline ∉ l -> span (fun x => negb (Ascii.eqb x newline)) (l ++ [newline]) = (l, [newline])).
  { induction l as [|c l IH]; intros Hn; [done|]. apply not_elem_of_cons in Hn as [Hc Hn]. cbn [app span].
    destruct (Ascii.eqb_spec c newline); [congruence|]. cbn [negb]. by rewrite IH. }
  by rewrite H.
Qed.

(** A transmission of one line. *)
Lemma receive_line parse line v s s2 :
  newline ∉ line -> trim line <> [] -> parse (trim line) = Some v -> st_message s = [] ->
  processResponse env v (with_text (line ++ [newline]) s) = Some (Ok tt, s2) ->
  process_message env parse (S (length (st_message s ++ line ++ [newline]))) (with_text (st_message s ++ line ++ [newline]) s) =
  Some (Ok tt, put_message [] s2).
Proof.
  intros Hnl Hne Hp Hm E. rewrite Hm. cbn [app]. set (s1 := with_text (line ++ [newline]) s) in *.
  assert (Hline : process_line env parse line s1 = Some (Ok tt, s2)).
  { unfold process_line. destruct (trim line) as [|c l] eqn:Et; [done|]. rewrite Hp. unfold guarded. by rewrite E. }
  cbn [process_message]. change (st_message s1) with (line ++ [newline]). rewrite cut_line_single by done.
  unfold mbind, st_bind. rewrite Hline. rewrite length_app, Nat.add_1_r. done.
Qed.

End Jobs.

(** C18: a transmission of one line that announces a job, in any of the first three
    dialects, to a session that is logged in and subscribed hands exactly this
    job over: its name, the hashes the digits denote, the target (padded on the
    left when it is short, or the one set apart), the extranonce of the session
    in EthereumStratum/1.0.0, and the difficulty. *)
Theorem stratum_job_correct (env : st_env) (lib : JsonLib) (rd : JsonRead lib) (parse : list ascii -> option Value)
    (s : stratum) (u : URI) (x : Session) (line : list ascii) (v : Value) (j : string)
    (hdr seed b : list Z) (d : double) :
  m_conn s = Some u -> m_session s = Some x -> logged_in u x -> s_subscribed x = true ->
  st_message s = [] -> newline ∉ line -> trim line <> [] -> parse (trim line) = Some v ->
  is_job v s -> hash_wf 32 hdr -> hash_wf 32 seed -> announces u x v j hdr seed b ->
  job_difficulty env x b = Ok d ->
  exists s', onRecvSocketDataCompleted env parse (Some (line ++ [newline])) s = Some (Ok tt, s') /\
    works s' = works s ++ [job_work u x (m_current s) j hdr seed b d].
Proof.
  intros Hu Hx Hl Hsub Hm Hnl Hne Hp (m & Hread & Hj) Hh Hs Ha Hd.
  rewrite onRecv_eq, Hm. cbn [app]. set (s1 := with_text (line ++ [newline]) s).
  destruct (processResponse_job env s1 u x v j hdr seed b d) as (s2 & E & Hn2 & (Hc2 & Hx2 & Hcalls) & Hw); try done.
  { exists m. split; [|done]. by apply (read_message_conn v s). }
  pose proof (receive_line env parse line v s s2 Hnl Hne Hp Hm E) as Hmsg. rewrite Hm in Hmsg.
  cbn [app] in Hmsg. fold s1 in Hmsg.
  unfold mbind, st_bind, get. rewrite Hmsg. cbn [id]. change (m_newjobprocessed (put_message [] s2)) with (m_newjobprocessed s2).
  rewrite Hn2. unfold when, call, update. cbn beta iota. destruct (isConnected _).
  - unfold recvSocketData, mbind, st_bind, conn. cbn [put_message put_calls m_conn]. rewrite Hc2.
    change (m_conn s1) with (m_conn s). rewrite Hu. eexists. split; [reflexivity|].
    unfold works. cbn. rewrite omap_app, Hcalls, Hw. done.
  - eexists. split; [reflexivity|]. unfold works. cbn. rewrite omap_app, Hcalls, Hw. done.
Qed.

(** C6: the extranonce of a pool and the shares sent back fit together.  After the
    pool sets an extranonce of up to 16 digits, a job with the nonce and the
    number of digits the session then has is divided by the farm so that a
    solution of any running miner is submitted, in both dialects that use an
    extranonce, as the digits that follow it: extranonce and digits together are
    the 16 digits of the nonce. *)
Theorem stratum_share_roundtrip (env : st_env) (s s2 : stratum) (x x2 : Session) (e : list ascii) (u : URI)
    (f : Farm) (wp : WorkPackage) (rnd : Z) :
  let n := Z.of_nat (length (m_miners f)) in
  Forall lower_hex e -> (0 < length e <= 16)%nat -> m_session s = Some x ->
  nonce (m_Settings f) = ""%string -> in_word 64 rnd -> 0 < n -> Z.log2_up n + 4 * Z.of_nat (length e) <= 64 ->
  ready u x2 s2 -> m_stratumMode u = mode_ETHEREUMSTRATUM \/ m_stratumMode u = mode_ETHEREUMSTRATUM2 ->
  exists s1 x1, processExtranonce (text e) s = Some (Ok tt, s1) /\ m_session s1 = Some x1 /\
    (startNonce wp = extraNonce x1 -> exSizeBytes wp = u16 (extraNonceSizeBytes x1) ->
     exists f', farm_setWork f wp rnd = Some f' /\
       forall i m m' solution,
         m_miners f !! i = Some m -> paused m = false -> m_miners f' !! i = Some m' ->
         found_by (64 - Z.log2_up n - 4 * Z.of_nat (length e)) m' solution ->
         exists t s', submitSolution env solution s2 = Some (Ok tt, s') /\
           st_calls s' = st_calls s2 ++ [CallWrite [share_message u x2 solution (text t)]] /\
           e ++ t = chars (toHex64 (s_nonce solution) DontAdd 16)).
Proof.
  intros n He Hlen Hx Hset Hrnd Hn Hfit Hready Hmode.
  pose proof (lower_hex_is_hex e He) as Hhex.
  destruct (processExtranonce_digits e s x Hhex Hlen Hx) as (s1 & x1 & E1 & Hx1 & Hsize & Hnonce).
  exists s1, x1. split; [done|]. split; [done|]. intros Hstart Hex. rewrite Hnonce in Hstart.
  rewrite Hsize, wrap_id in Hex by (unfold in_word; lia).
  assert (Hk : prefix_digits f wp = Z.of_nat (length e)) by (unfold prefix_digits; rewrite Hset, Hex; cbn; lia).
  pose proof (hex_value_range e Hhex) as Hr. pose proof (Z.log2_up_nonneg n) as Hlog.
  destruct (farm_setWork_miners f wp rnd) as (f' & Hf & _); fold n; rewrite ?Hset, ?Hk; try done.
  { unfold in_word. rewrite Hstart. replace (2 ^ 64) with (16 ^ Z.of_nat (length e) * 16 ^ Z.of_nat (16 - length e))
      by (rewrite <-Z.pow_add_r by lia; replace (Z.of_nat (length e) + Z.of_nat (16 - length e)) with 16 by lia; done).
    pose proof (Z.pow_pos_nonneg 16 (Z.of_nat (16 - length e)) ltac:(lia) ltac:(lia)). nia. }
  { lia. }
  exists f'. split; [done|]. intros i m m' solution Hm Hp Hm' Hfound.
  destruct (segment_prefix e f wp rnd f' i m m' solution Hhex Hlen Hset Hex Hstart Hrnd Hn Hfit Hf Hm Hp Hm' Hfound)
    as (Hin & Hpre & Hsz).
  destruct (nonce_suffix_digits e (s_nonce solution) He (proj2 Hlen) Hin Hpre) as (t & Ht & Happ).
  destruct (submitSolution_ready env u x2 s2 solution (text t) Hready Hmode) as (s' & Hs' & Hcalls); [by rewrite Hsz|].
  by exists t, s'.
Qed.

(** ** Finding the dialect *)

(** What the phases of a login attempt have in common. *)
Definition phase (connecting : bool) (u : URI) (calls : list st_call) (s : stratum) : Prop :=
  m_conn s = Some u /\ m_session s = None /\ m_connecting s = connecting /\ m_disconnecting s = false /\
  m_endpoints s <> [] /\ st_calls s = calls.

Lemma start_connect_phase env u calls s :
  phase false u calls s -> m_txPending s = false ->
  exists s', start_connect env s = Some (Ok tt, s') /\ phase true u calls s' /\
    st_socket s' = Some true /\ m_txPending s' = false.
Proof.
  intros (Hu & Hx & Hc & Hd & He & Hcalls) Hp. unfold start_connect, mbind, st_bind, get. cbn [id]. rewrite Hc.
  unfold update. cbn beta iota. destruct (m_endpoints s) as [|ep l] eqn:E; [done|]. cbn beta iota.
  assert (Hsock : forall s1, m_conn s1 = Some u -> exists s2,
    (match st_socket s with Some _ => mret tt | None => init_socket end) s1 = Some (Ok tt, s2) /\
    (s2 = s1 \/ s2 = put_socket (Some false) s1)).
  { intros s1 H1. destruct (st_socket s); [by exists s1; auto|].
    exists (put_socket (Some false) s1). unfold init_socket, mbind, st_bind, conn. rewrite H1. auto. }
  destruct (Hsock (put_endpoint ep (put_connecting true s)) Hu) as (s2 & E2 & Hs2). rewrite E2. cbn beta iota.
  unfold clear_response_pleas, enqueue_response_plea, update, conn. cbn beta iota.
  assert (H2 : m_conn s2 = Some u /\ m_session s2 = None /\ m_connecting s2 = true /\ m_disconnecting s2 = false /\
    m_endpoints s2 = ep :: l /\ st_calls s2 = calls /\ m_txPending s2 = false).
  { destruct Hs2 as [-> | ->]; cbn; by rewrite E. }
  destruct H2 as (A1 & A2 & A3 & A4 & A5 & A6 & A7). cbn. rewrite A1. eexists. split; [reflexivity|].
  unfold phase. cbn. by rewrite A1, A2, A3, A4, A5, A6, A7.
Qed.

(** The dialect tried next. *)
Definition tried (u : URI) : URI :=
  let u := set_Responds u true in if m_stratumMode u =? 999 then SetStratumMode u 3 false else u.

Definition undetermined (u : URI) : Prop :=
  999 <= Version u /\ is_secure u = false /\ m_stratumModeConfirmed u = false /\ m_unrecoverable u = false.

Lemma tried_undetermined u : undetermined u -> undetermined (tried u) /\ m_responds (tried u) = true.
Proof.
  intros (H1 & H2 & H3 & H4). unfold tried. change (m_stratumMode (set_Responds u true)) with (m_stratumMode u).
  by destruct (m_stratumMode u =? 999).
Qed.

Lemma bind_conn {A} (f : URI -> st_m A) u s : m_conn s = Some u -> (conn ≫= f) s = f u s.
Proof. intros Hu. unfold mbind, st_bind, conn. by rewrite Hu. Qed.

Lemma bind_set_conn {A} g (f : unit -> st_m A) u s :
  m_conn s = Some u -> (set_conn g ≫= f) s = f tt (put_conn (Some (g u)) s).
Proof. intros Hu. unfold mbind, st_bind, set_conn. by rewrite (bind_conn _ u). Qed.

Lemma connect_handler_phase env u calls s :
  undetermined u -> phase true u calls s -> st_socket s = Some true -> m_txPending s = false ->
  exists s', connect_handler env false false s = Some (Ok tt, s') /\
    phase false (tried u) (calls ++ [CallWrite [login_request env (tried u)]]) s' /\
    st_socket s' = Some true /\ st_message s' = [] /\ m_connected s' = true.
Proof.
  intros (Hv & Hsec & Hconf & Hunrec) (Hu & Hx & Hc & Hd & He & Hcalls) Hsock Hp.
  unfold connect_handler. rewrite bind_update. unfold mbind at 1, st_bind at 1. cbn [st_socket put_connecting]. rewrite Hsock.
  cbn [orb negb]. rewrite (bind_set_conn _ _ u) by done. rewrite bind_update.
  rewrite (bind_conn _ (set_Responds u true)) by done. change (is_secure (set_Responds u true)) with (is_secure u).
  rewrite Hsec. cbn [andb]. unfold clear_response_pleas. rewrite bind_update.
  rewrite (bind_set_conn _ _ (set_Responds u true)) by done.
  change (Version (set_Responds u true)) with (Version u). destruct (Z.ltb_spec (Version u) 999); [lia|].
  change (m_stratumModeConfirmed (set_Responds u true)) with (m_stratumModeConfirmed u). rewrite Hconf. cbn [negb andb].
  change (if m_stratumMode (set_Responds u true) =? 999 then _ else _) with (tried u).
  rewrite (bind_conn _ (tried u)) by done. cbv zeta. unfold recvSocketData at 1.
  unfold mbind at 1, st_bind at 1. rewrite (bind_conn _ (tried u)) by done. unfold update at 1.
  unfold enqueue_response_plea. cbn [m_response_pleas_count put_reading put_conn put_response_plea_older
    put_response_plea_times put_response_pleas_count Z.eqb]. rewrite bind_update. cbv zeta.
  rewrite (send_idle _ (tried u)); [|done| |done|done]; [|by unfold isConnected, isPendingState; cbn; rewrite Hd].
  eexists. split; [reflexivity|]. unfold phase. cbn. by rewrite Hcalls.
Qed.

Section Refused.
Context {lib : JsonLib} {rd : JsonRead lib} (parse : list ascii -> option Value).

(** A line that answers the login with an error. *)
Definition refusal (line : list ascii) : Prop :=
  newline ∉ line /\ trim line <> [] /\ exists v r, parse (trim line) = Some v /\ json_get v "result" nullValue = Ok r /\
    forall s, is_Some (m_conn s) -> exists m, read_message v s = Some (Ok m, s) /\ msg_id m = 1 /\ msg_success m = false /\
      msg_notification m = false /\ is_sane m v = Ok true.

Lemma dequeue_eq env s :
  exists d a b c, dequeue_response_plea env s =
    Some (Ok d, put_response_pleas_count a (put_response_plea_older b (put_response_plea_times c s))).
Proof.
  destruct s. unfold dequeue_response_plea. cbn. destruct m_response_plea_times as [|t ts]; cbn;
    (destruct (0 <? _); do 4 eexists;
      unfold put_response_pleas_count, put_response_plea_older, put_response_plea_times; cbn; reflexivity).
Qed.

Lemma processResponse_refusal env v r u s :
  json_get v "result" nullValue = Ok r ->
  (exists m, read_message v s = Some (Ok m, s) /\ msg_id m = 1 /\ msg_success m = false /\
     msg_notification m = false /\ is_sane m v = Ok true) ->
  m_conn s = Some u -> m_stratumModeConfirmed u = false ->
  exists a b c, processResponse env v s =
    let s1 := put_response_pleas_count a (put_response_plea_older b (put_response_plea_times c s)) in
    Some (Ok tt, put_posted (st_posted s ++ [PostDisconnect]) s1).
Proof.
  intros Hr (m & Hread & Hid & Hok & Hnot & Hsane) Hu Hc. destruct (dequeue_eq env s) as (d & a & b & c & E).
  exists a, b, c. unfold processResponse, mbind, st_bind, throwing. rewrite Hread, Hsane, Hnot. cbn [negb].
  unfold handle_response, mbind, st_bind, throwing. rewrite Hr, Hid. cbn [Z.eqb Pos.eqb].
  unfold first_response. rewrite Hok. unfold mbind at 1, st_bind at 1. rewrite E. cbv zeta.
  rewrite (bind_conn _ u) by done. rewrite Hc. done.
Qed.

(** Nothing to hand over: the client goes on reading if it is connected. *)
Lemma receive_quiet s u :
  m_newjobprocessed s = false -> m_conn s = Some u ->
  exists s', (s ← get id; _ ← when (m_newjobprocessed s) (call (CallWork (m_current s)));
              when (isConnected s) recvSocketData) s = Some (Ok tt, s') /\ (s' = s \/ s' = put_reading true s).
Proof.
  intros Hn Hu. unfold mbind, st_bind, get. cbn [id]. rewrite Hn. cbn [when mret st_ret].
  destruct (isConnected s); cbn [when]; [|by exists s; auto].
  exists (put_reading true s). split; [|by right]. unfold recvSocketData. by rewrite (bind_conn _ u).
Qed.

Lemma refusal_phase env line u calls s :
  refusal line -> undetermined u -> phase false u calls s -> st_socket s = Some true -> st_message s = [] ->
  exists s', onRecvSocketDataCompleted env parse (Some (line ++ [newline])) s = Some (Ok tt, s') /\
    phase false u calls s' /\ st_socket s' = Some true.
Proof.
  intros (Hnl & Hne & v & r & Hp & Hr & Hread) (_ & _ & Hconf & _) (Hu & Hx & Hc & Hd & He & Hcalls) Hsock Hm.
  destruct (processResponse_refusal env v r u (with_text (line ++ [newline]) s) Hr) as (a & b & c & E); [|done|done|].
  { apply Hread. by exists u. }
  rewrite onRecv_eq. unfold mbind at 1, st_bind at 1. rewrite (receive_line env parse line v s _ Hnl Hne Hp Hm E).
  match goal with |- exists s', ?m ?s3 = _ /\ _ => destruct (receive_quiet s3 u) as (s4 & E4 & Hs4) end; [done|done|].
  rewrite E4. exists s4. split; [done|]. destruct Hs4 as [-> | ->]; (split; [by repeat split|exact Hsock]).
Qed.

Lemma disconnect_phase env u calls s :
  e_cancel env true = Ok tt -> undetermined u -> m_responds u = true -> 0 <= m_stratumMode u < 2 ^ 16 ->
  phase false u calls s -> st_socket s = Some true ->
  exists s' u', disconnect env s = Some (Ok tt, s') /\ m_txPending s' = false /\
    if 0 <? m_stratumMode u then
      phase false u' calls s' /\ u' = SetStratumMode_only u (m_stratumMode u - 1)
    else phase false u' (calls ++ [CallDisconnected]) s' /\ m_unrecoverable u' = true.
Proof.
  intros Hcancel (_ & Hsec & Hconf & Hunrec) Hresp Hmode (Hu & Hx & Hc & Hd & He & Hcalls) Hsock.
  unfold disconnect. unfold mbind at 1, st_bind at 1, get. cbn [id]. rewrite Hd, bind_update, Hsock.
  unfold mbind at 1, st_bind at 1, throwing. rewrite Hcancel. rewrite (bind_conn _ u) by done. rewrite Hsec, bind_update.
  unfold disconnect_finalize. rewrite bind_update. unfold mbind at 1, st_bind at 1, get. cbn [id].
  match goal with |- context [m_session ?s1] => change (m_session s1) with (m_session s) end. rewrite Hx.
  unfold mbind at 1, st_bind at 1. cbn [mret st_ret]. rewrite bind_update, (bind_conn _ u) by done.
  rewrite Hunrec, Hconf, Hresp. cbn [negb andb]. destruct (Z.ltb_spec 0 (m_stratumMode u)).
  - rewrite (bind_set_conn _ _ u) by done. do 2 eexists. split; [reflexivity|]. split; [done|]. split; [|reflexivity].
    by repeat split.
  - cbn [when]. rewrite (bind_set_conn _ _ u) by done. unfold clear_response_pleas. rewrite !bind_update.
    eexists _, (MarkUnrecoverable u). split; [reflexivity|]. split; [done|]. split; [|reflexivity].
    repeat split; try done. cbn. by rewrite Hcalls.
Qed.

(** One attempt: connect, log in, be refused, disconnect. *)
Definition attempt (line : list ascii) : list st_event :=
  [EvPosted PostStartConnect; EvConnected false false; EvReceived (Some (line ++ [newline])); EvPosted PostDisconnect].

Lemma attempt_run env line u calls s :
  e_cancel env true = Ok tt -> refusal line -> undetermined u -> 0 <= m_stratumMode (tried u) < 2 ^ 16 ->
  phase false u calls s -> m_txPending s = false ->
  let said := calls ++ [CallWrite [login_request env (tried u)]] in
  exists s' u', st_run parse s (attempt line) s' /\ m_txPending s' = false /\
    if 0 <? m_stratumMode (tried u) then
      phase false u' said s' /\ u' = SetStratumMode_only (tried u) (m_stratumMode (tried u) - 1)
    else phase false u' (said ++ [CallDisconnected]) s' /\ m_unrecoverable u' = true.
Proof.
  intros Hcancel Href Hund Hmode Hph Hp said. destruct (tried_undetermined u Hund) as [Hund' Hresp].
  destruct (start_connect_phase env u calls s Hph Hp) as (s1 & E1 & Hph1 & Hsock1 & Hp1).
  destruct (connect_handler_phase env u calls s1 Hund Hph1 Hsock1 Hp1) as (s2 & E2 & Hph2 & Hsock2 & Hm2 & _).
  destruct (refusal_phase env line (tried u) said s2 Href Hund' Hph2 Hsock2 Hm2) as (s3 & E3 & Hph3 & Hsock3).
  destruct (disconnect_phase env (tried u) said s3 Hcancel Hund' Hresp Hmode Hph3 Hsock3) as (s4 & u' & E4 & Hp4 & H4).
  exists s4, u'. split; [|done].
  apply (run_trans parse s [_] s1); [by apply (run_one parse s env _ (Ok tt))|].
  apply (run_trans parse s1 [_] s2); [by apply (run_one parse s1 env _ (Ok tt))|].
  apply (run_trans parse s2 [_] s3); [by apply (run_one parse s2 env _ (Ok tt))|]. by apply (run_one parse s3 env _ (Ok tt)).
Qed.

End Refused.

(** The address while a dialect is tried: the pool has answered. *)
Definition with_mode (u : URI) (k : Z) : URI := SetStratumMode (set_Responds u true) k false.

Fixpoint down (k : nat) : list Z := match k with O => [0] | S k' => Z.of_nat k :: down k' end.

Lemma descend_run {lib : JsonLib} {rd : JsonRead lib} parse env line u k : forall u0 calls s,
  e_cancel env true = Ok tt -> refusal parse line -> undetermined u -> undetermined u0 ->
  (k < 4)%nat -> tried u0 = with_mode u (Z.of_nat k) -> phase false u0 calls s -> m_txPending s = false ->
  exists s' u', st_run parse s (concat (replicate (S k) (attempt line))) s' /\ m_unrecoverable u' = true /\
    phase false u' (calls ++ ((fun k => CallWrite [login_request env (with_mode u k)]) <$> down k) ++ [CallDisconnected]) s'.
Proof.
  induction k as [|k IH]; intros u0 calls s Hcancel Href Hund Hund0 Hk Ht Hph Hp.
  - destruct (attempt_run parse env line u0 calls s) as (s1 & u1 & R1 & P1 & H1); rewrite ?Ht in *; try done.
    destruct H1 as [H1 Hu1]. exists s1, u1. split; [done|]. split; [done|]. by rewrite <-app_assoc in H1.
  - assert (Hm : m_stratumMode (with_mode u (Z.of_nat (S k))) = Z.of_nat (S k)).
    { unfold with_mode. cbn. apply wrap_id. unfold in_word. lia. }
    destruct (attempt_run parse env line u0 calls s) as (s1 & u1 & R1 & P1 & H1); rewrite ?Ht, ?Hm in *; try done; [lia|].
    destruct (Z.ltb_spec 0 (Z.of_nat (S k))); [|lia]. destruct H1 as [H1 ->].
    replace (Z.of_nat (S k) - 1) with (Z.of_nat k) in H1 by lia.
    set (u1 := SetStratumMode_only _ _) in H1.
    assert (Hund1 : undetermined u1) by (destruct Hund as (? & ? & ? & ?); by repeat split).
    assert (Ht1 : tried u1 = with_mode u (Z.of_nat k)).
    { unfold tried, u1. cbn. destruct (Z.eqb_spec (u16 (Z.of_nat k)) 999) as [E|E]; [|done].
      rewrite wrap_id in E by (unfold in_word; lia). lia. }
    destruct (IH u1 _ s1 Hcancel Href Hund Hund1 ltac:(lia) Ht1 H1 P1) as (s2 & u2 & R2 & Hu2 & H2).
    exists s2, u2. split; [|split; [done|]].
    + change (replicate (S (S k)) (attempt line)) with (attempt line :: replicate (S k) (attempt line)).
      cbn [concat]. by eapply run_trans.
    + cbn [down fmap list_fmap]. by rewrite <-app_assoc in H2.
Qed.


(** ** Examples *)

Definition hash_example (b : Z) : list Z := replicate 32 b.

Lemma hash_example_wf b : 0 <= b < 256 -> hash_wf 32 (hash_example b).
Proof. intros Hb. split; [apply length_replicate|]. apply Forall_replicate. exact Hb. Qed.

Definition pool_uri : URI := SetStratumMode (uri_text "stratum+tcp://user@pool.example:4444") 0 true.

Definition session_example : Session := session_authorized true (session_subscribed true (Session_new 0)).

Definition client_example (u : URI) : stratum :=
  put_solution_submitted_max_id (Some 0) (put_connected true
    (put_session (Some session_example) (put_conn (Some u) (EthStratumClient_new env_example 180 2)))).

Definition job_message : json :=
  JObject [("method"%string, JString "mining.notify");
           ("params"%string, JArray [JString "7f"; JString (h_hex (hash_example 1) Add);
              JString (h_hex (hash_example 2) Add); JString "0xabcdef"])].

Definition target_example : list Z := h_zero 29 ++ [0xab; 0xcd; 0xef].

Definition difficulty_example : double := double_of_Z (hashes_dividend / 0xabcdef).

Lemma stratum_job_correct_witness :
  exists s', onRecvSocketDataCompleted (lib := json_lib) (rd := json_read) env_example
      (parse_example [("job"%string, job_message)]) (Some (chars "job" ++ [newline])) (client_example pool_uri) = Some (Ok tt, s') /\
    works s' = [mk_WorkPackage "7f" target_example (hash_example 1) (hash_example 2) (-1) (-1) 0 0 difficulty_example].
Proof.
  refine (stratum_job_correct env_example json_lib json_read (parse_example [("job"%string, job_message)])
    (client_example pool_uri) pool_uri session_example (chars "job") job_message "7f" (hash_example 1) (hash_example 2)
    target_example difficulty_example eq_refl eq_refl _ eq_refl eq_refl _ _ _ _ _ _ _ _).
  - split; [reflexivity|right; reflexivity].
  - refine (bool_decide_unpack _ _). vm_compute. exact I.
  - vm_compute. discriminate.
  - vm_compute. reflexivity.
  - exists (mk_message 1 0 true "mining.notify" true). split_and!; vm_compute; reflexivity.
  - apply hash_example_wf. lia.
  - apply hash_example_wf. lia.
  - apply (by_stratum (lib := json_lib) (rd := json_read) _ _ _ _ _ _ _ Add (chars "abcdef") [] false); try (vm_compute; reflexivity).
    + exists (JArray [JString "7f"; JString (h_hex (hash_example 1) Add); JString (h_hex (hash_example 2) Add); JString "0xabcdef"]).
      split_and!; try (vm_compute; reflexivity).
      intros i t Hi. do 4 (destruct i as [|i]; [injection Hi as <-; vm_compute; reflexivity|]). discriminate Hi.
    + refine (bool_decide_unpack _ _). vm_compute. exact I.
    + cbn. lia.
    + split; [reflexivity|]. refine (bool_decide_unpack _ _). vm_compute. exact I.
  - vm_compute. reflexivity.
Defined.

Definition nicehash_uri : URI := SetStratumMode (uri_text "stratum2+tcp://user.rig@pool.example:4444") 2 true.

Definition work_example : WorkPackage := work_nonce 0xab12000000000000 4 (work_job "7f" WorkPackage_default).

(** Found by the second of three miners. *)
Definition solution_example : Solution :=
  mk_Solution 0xab12400000000005 (h_zero 32) (set_startNonce work_example 0xab12400000000000) 0 1.

Lemma stratum_share_roundtrip_witness :
  exists t s', submitSolution env_example solution_example (client_example nicehash_uri) = Some (Ok tt, s') /\
    st_calls s' = [CallWrite [share_message nicehash_uri session_example solution_example (text t)]] /\
    chars "ab12" ++ t = chars "ab12400000000005".
Proof.
  destruct (stratum_share_roundtrip env_example (client_example nicehash_uri) (client_example nicehash_uri) session_example
    session_example (chars "ab12") nicehash_uri (farm_example "") work_example 0) as (s1 & x1 & E1 & Hx1 & H).
  - refine (bool_decide_unpack _ _). vm_compute. exact I.
  - cbn. lia.
  - reflexivity.
  - reflexivity.
  - unfold in_word. lia.
  - cbn. lia.
  - vm_compute. discriminate.
  - unfold ready. split_and!; try reflexivity. by exists 0.
  - left. reflexivity.
  - vm_compute in E1. injection E1 as <-. vm_compute in Hx1. injection Hx1 as <-.
    destruct H as (f' & Hf & H); [reflexivity|reflexivity|]. vm_compute in Hf. injection Hf as <-.
    refine (H 1%nat (miner_example 1) _ solution_example _ _ _ _); [reflexivity|reflexivity|reflexivity|].
    split; [vm_compute; reflexivity|]. exists 5. split; [split; [lia|vm_compute; reflexivity]|vm_compute; reflexivity].
Defined.

(** A pool that answers every login with an error. *)
Definition refusal_message : json :=
  JObject [("id"%string, JInt 1); ("result"%string, JNull); ("error"%string, JString "no")].

Definition unknown_uri : URI := uri_text "stratum://user@pool.example:4444".

Definition probing_example : stratum :=
  put_endpoints [7] (put_conn (Some unknown_uri) (EthStratumClient_new env_example 180 2)).

