(* ===== verification/StratumFindings.v ===== *)
(** * Where the stratum client falls short

    Behaviour of the handlers that their comments or their purpose contradict,
    each as a theorem about the model. *)

From Stdlib Require Import ZArith Lia Bool Ascii String Floats.SpecFloat.
From stdpp Require Import base numbers list gmap strings relations.
From S2P Require Import Prelude Words EthashSpec Ethash Outcome CommonData FixedHash Floats.
From S2P Require Import Miner Farm PoolURI Target Json Lines PoolClient Stratum StratumCorrect StratumProtocol.

Local Open Scope Z_scope.

(** The timer closes a socket that is being connected while the attempt is
    within its time and stops watching; once the time is over it does not. *)
Theorem connect_timeout_inverted (env : st_env) (s : stratum) (u : URI) (b : bool) :
  let delay := milliseconds (e_now env - m_response_plea_older s) in
  m_conn s = Some u -> m_session s = None -> m_connecting s = true -> m_response_pleas_count s <> 0 -> st_socket s = Some b ->
  exists s', workloop_timer_elapsed env false s = Some (Ok tt, s') /\
    if delay <=? m_responsetimeout s * 1000 then st_socket s' = Some false /\ st_timer s' = false
    else st_socket s' = Some b /\ st_timer s' = true.
Proof.
  intros delay Hu Hx Hc Hn Hs. unfold workloop_timer_elapsed. unfold mbind at 1, st_bind at 1, get. cbn [id].
  rewrite bind_update, Hu, Hx. unfold mbind, st_bind. cbn [mret st_ret].
  destruct (Z.eqb_spec (m_response_pleas_count s) 0); [done|]. fold delay.
  assert (Hp : isPendingState s = true) by (unfold isPendingState; by rewrite Hc).
  assert (Hnc : isConnected s = false) by (unfold isConnected; rewrite Hp; apply andb_false_r).
  rewrite Hp, Hc, Hs, Hnc. cbn [andb]. destruct (delay <=? _); cbn [andb]; eexists; (split; [reflexivity|by split]).
Qed.

Lemma start_connect_no_timer env : keeps True (fun s => st_timer s = false) (start_connect env).
Proof.
  assert (Hc : keeps True (fun s => st_timer s = false) conn) by (apply keeps_any; intros s o s' Hs; unfold conn;
    destruct (m_conn s); [by intros [= <- <-]|done]).
  assert (Hset : forall f, keeps True (fun s => st_timer s = false) (set_conn f)).
  { intros f. unfold set_conn. keeps. by apply keeps_update. }
  unfold start_connect, disconnect_finalize, init_socket, clear_response_pleas, enqueue_response_plea, post, call.
  keeps; apply keeps_update; intros s Hs; first [exact Hs|reflexivity|by destruct (m_response_pleas_count s =? 0)].
Qed.

(** When a login is not answered in time, the timer is not started again, and
    neither is it by the attempts with the other dialects that follow. *)
Theorem login_timeout_stops_timer (env : st_env) (s : stratum) (u : URI) :
  m_conn s = Some u -> m_session s = None -> isConnected s = true -> m_response_pleas_count s <> 0 ->
  m_responsetimeout s * 1000 <= milliseconds (e_now env - m_response_plea_older s) ->
  m_stratumModeConfirmed u = false -> m_unrecoverable u = false ->
  exists s', workloop_timer_elapsed env false s = Some (Ok tt, s') /\ st_timer s' = false /\
    st_posted s' = st_posted s ++ [PostLoginTimeout] /\
    forall env1, keeps True (fun s => st_timer s = false) (start_connect env1).
Proof.
  intros Hu Hx Hc Hn Hd Hconf Hunr. unfold workloop_timer_elapsed. unfold mbind at 1, st_bind at 1, get. cbn [id].
  rewrite bind_update, Hu, Hx. unfold mbind, st_bind. cbn [mret st_ret].
  destruct (Z.eqb_spec (m_response_pleas_count s) 0); [done|].
  assert (Hp : isPendingState s = false).
  { unfold isConnected in Hc. apply andb_true_iff in Hc as [_ Hc]. by apply negb_true_iff in Hc. }
  rewrite Hp, Hc. cbn [andb]. destruct (Z.leb_spec (m_responsetimeout s * 1000) (milliseconds (e_now env - m_response_plea_older s)));
    [|lia]. rewrite Hconf, Hunr. cbn [negb andb]. eexists. split; [reflexivity|]. split; [done|]. split; [done|].
  apply start_connect_no_timer.
Qed.

(** Of two requests waiting for an answer, the delay of the second answer is
    counted from the first request. *)
Theorem response_delay_stale (t0 t1 t2 t3 : Z) (env : st_env) (s : stratum) :
  let at_ t := mk_st_env t (e_version env) (e_cancel env) (e_boost env) in
  m_response_pleas_count s = 0 -> m_response_plea_times s = [] ->
  exists s', (_ ← enqueue_response_plea (at_ t0); _ ← enqueue_response_plea (at_ t1);
              d ← dequeue_response_plea (at_ t2); d' ← dequeue_response_plea (at_ t3); mret (d, d') : st_m (Z * Z)) s =
    Some (Ok (milliseconds (t2 - t0), milliseconds (t3 - t0)), s').
Proof.
  intros at_ Hc Ht. destruct s. cbn in Hc, Ht. subst.
  unfold mbind, st_bind, enqueue_response_plea, update, dequeue_response_plea. cbn. eexists. reflexivity.
Qed.

(** The first job of a transmission is kept, not the last. *)
Theorem first_job_of_transmission_kept (env : st_env) (lib : JsonLib) (rd : JsonRead lib) (u : URI) (v : Value) (s : stratum) :
  m_newjobprocessed s = true -> notify env u v s = Some (Ok tt, s).
Proof.
  intros Hn. unfold notify, mbind, st_bind, get. cbn [id]. by rewrite Hn, orb_true_r.
Qed.

(** An extranonce of more than 16 digits is accepted, and then no share can be
    submitted: the submission ends in an exception. *)
Theorem long_extranonce_loses_shares (env : st_env) (s : stratum) (u : URI) (x : Session) (solution : Solution) :
  ready u x s -> m_stratumMode u = mode_ETHEREUMSTRATUM \/ m_stratumMode u = mode_ETHEREUMSTRATUM2 ->
  in_word 64 (s_nonce solution) -> 16 < exSizeBytes (s_work solution) ->
  exists s', submitSolution env solution s = Some (Throw OutOfRange, s').
Proof.
  intros (Hu & Hx & Ha & Hc & Hp & Hq & [m Hm]) Hmode Hn Hsize. unfold submitSolution, mbind, st_bind, get. cbn [id].
  assert (Hauth : isAuthorized s = true) by (unfold isAuthorized; by rewrite Hx). rewrite Hauth. cbn [negb].
  rewrite Hm. unfold conn, session. cbn [m_conn put_solution_submitted_max_id]. rewrite Hu.
  cbn beta iota. change (m_session (put_solution_submitted_max_id _ s)) with (m_session s). rewrite Hx.
  assert (Ht : nonce_suffix (s_nonce solution) (exSizeBytes (s_work solution)) = Throw OutOfRange).
  { unfold nonce_suffix. rewrite toHex64_digits, chars_text by done.
    destruct (hex_digits_spec 16 (s_nonce solution)) as (_ & -> & _); [apply Hn|].
    by destruct (Z.ltb_spec (Z.of_nat 16) (exSizeBytes (s_work solution))); [|lia]. }
  assert (Hsub : submission u x solution = Throw OutOfRange).
  { unfold submission. destruct Hmode as [-> | ->]; cbn; by rewrite Ht. }
  unfold throwing. rewrite Hsub. by eexists.
Qed.

(** If cancelling the operations of the socket throws, the client stays in the
    disconnecting state, where disconnecting again does nothing. *)
Theorem failed_cancel_blocks (env env' : st_env) (s : stratum) (b : bool) (e : exn) :
  m_disconnecting s = false -> st_socket s = Some b -> e_cancel env b = Throw e ->
  exists s', disconnect env s = Some (Throw e, s') /\ m_disconnecting s' = true /\ st_socket s' = Some b /\
    disconnect env' s' = Some (Ok tt, s').
Proof.
  intros Hd Hs He. unfold disconnect, mbind, st_bind, get. cbn [id]. rewrite Hd, Hs. unfold update. cbn beta iota.
  unfold throwing. rewrite He. eexists. split; [reflexivity|]. by repeat split.
Qed.

(** With a dialect fixed by the scheme of its address, a client dereferences a
    null session when the pool sets a target before the login. *)
Definition early_events : list st_event :=
  [EvSetConnection (uri_text "stratum1+tcp://user@pool.example:4444"); EvConnect; EvResolved (Some [7]);
   EvPosted PostStartConnect; EvConnected false false].

Definition early_message : json :=
  JObject [("method"%string, JString "mining.set_target"); ("params"%string, JArray [JString "ff"])].

Theorem early_target_undefined :
  exists s, st_run (lib := json_lib) (rd := json_read) (parse_example [("t"%string, early_message)])
      (EthStratumClient_new env_example 180 2) early_events s /\
    onRecvSocketDataCompleted (lib := json_lib) (rd := json_read) env_example (parse_example [("t"%string, early_message)])
      (Some (chars "t" ++ [newline])) s = None.
Proof.
  set (parse := parse_example [("t"%string, early_message)]).
  destruct (exec (lib := json_lib) (rd := json_read) parse ((fun e => (env_example, e)) <$> early_events)
    (EthStratumClient_new env_example 180 2)) as [s|] eqn:E; [|vm_compute in E; discriminate E].
  exists s. split; [exact (exec_events (lib := json_lib) (rd := json_read) parse _ _ _ _ E)|].
  vm_compute in E. injection E as <-. vm_compute. reflexivity.
Qed.

(** A block number out of range in a job of an ETH proxy is thrown as a pointer,
    which no handler of the receive path catches. *)
Definition far_message : json :=
  JObject [("id"%string, JInt 0); ("result"%string, JArray [JString (h_hex (hash_example 1) Add);
    JString (h_hex (hash_example 2) Add); JString "0xff"; JString "0x9660181"])].

Theorem far_block_escapes :
  exists s, onRecvSocketDataCompleted (lib := json_lib) (rd := json_read) env_example
      (parse_example [("f"%string, far_message)]) (Some (chars "f" ++ [newline]))
      (client_example (SetStratumMode (uri_text "stratum1+tcp://user@pool.example:4444") 1 true)) =
    Some (Throw ThrownPointer, s).
Proof. eexists. vm_compute. reflexivity. Qed.
