(* ===== verification/StratumTypes.v ===== *)
(** * Types and bounds of the stratum client

    The values of the state stay within the types the source declares for them:
    every work package handed over consists of 32-byte hashes and numbers of
    the declared widths, and the queues stay within their capacity, in every run
    of a client. *)

From Stdlib Require Import ZArith Lia Bool Ascii String Floats.SpecFloat.
From stdpp Require Import base numbers list gmap strings relations.
From S2P Require Import Prelude Words EthashSpec Ethash Outcome CommonData FixedHash Floats.
From S2P Require Import Miner Farm PoolURI Target Json Lines PoolClient Stratum StratumCorrect.

Local Open Scope Z_scope.

Definition in_int (z : Z) : Prop := - 2 ^ 31 <= z < 2 ^ 31.

(** The declared types of [WorkPackage]. *)
Record work_ok (w : WorkPackage) : Prop := {
  wo_boundary : hash_wf 32 (boundary w);
  wo_header : hash_wf 32 (header w);
  wo_seed : hash_wf 32 (wp_seed w);
  wo_epoch : in_int (epoch w);
  wo_block : in_int (block w);
  wo_start : in_word 64 (startNonce w);
  wo_size : in_word 16 (exSizeBytes w)
}.

(** The declared types of [Session]. *)
Record session_ok (x : Session) : Prop := {
  so_extraNonce : in_word 64 (extraNonce x);
  so_size : in_word 32 (extraNonceSizeBytes x);
  so_boundary : hash_wf 32 (nextWorkBoundary x);
  so_epoch : in_word 32 (s_epoch x)
}.

Record typed (s : stratum) : Prop := {
  ty_current : work_ok (m_current s);
  ty_session : forall x, m_session s = Some x -> session_ok x;
  ty_works : Forall work_ok (works s);
  ty_queue : (length (m_txQueue s) <= queue_size)%nat;
  ty_pleas : (length (m_response_plea_times s) <= queue_size)%nat;
  ty_count : 0 <= m_response_pleas_count s
}.

Lemma i32_int z : in_int (i32 z).
Proof. unfold in_int, swrap. change (32 - 1) with 31. pose proof (Z.mod_pos_bound (z + 2 ^ 31) (2 ^ 32) ltac:(lia)). lia. Qed.

Lemma h_of_string_wf t h : h_of_string 32 t = Ok h -> hash_wf 32 h.
Proof.
  unfold h_of_string, fromHex. intros H. destruct (decide (Forall is_hex (hex_rest (chars t)))) as [Hh|Hh].
  - destruct (fromHex_list_ok ThrowOnError (chars t) Hh) as (bs & E & Hok & _ & _). rewrite E in H. cbn in H.
    injection H as <-. unfold h_of_bytes. destruct (Nat.eqb_spec (length bs) 32) as [Hl|Hl].
    + rewrite take_ge by lia. by split.
    + split; [reflexivity|apply zeros_ok].
  - rewrite fromHex_list_bad in H by done. discriminate H.
Qed.

Lemma hex_prefix_hex l : Forall is_hex (hex_prefix l).
Proof.
  induction l as [|c l IH]; [constructor|]. cbn [hex_prefix].
  destruct (Z.eqb_spec (fromHex_char c) (-1)); [constructor|]. by constructor.
Qed.

Lemma sto_hex_word t n : sto_hex t = Ok n -> in_word 64 n.
Proof.
  unfold sto_hex. destruct (parse_hex t) as [[neg v]|] eqn:E; [|done]. destruct (Z.leb_spec (2 ^ 64) v); [done|].
  intros [= <-]. destruct neg; [by apply wrap_in_word|]. split; [|lia].
  unfold parse_hex in E. destruct (hex_prefix _) as [|c l] eqn:Ep; [done|]. injection E as _ <-.
  rewrite <-Ep. apply hex_value_range, hex_prefix_hex.
Qed.

(** ** Rules *)

(** What [typed] looks at. *)
Definition typed_view (s : stratum) :=
  (m_current s, m_session s, works s, m_txQueue s, m_response_plea_times s, m_response_pleas_count s).

Lemma typed_ext s s' : typed_view s' = typed_view s -> typed s -> typed s'.
Proof.
  intros [= E1 E2 E3 E4 E5 E6] [H1 H2 H3 H4 H5 H6]. split; rewrite ?E1, ?E2, ?E3, ?E4, ?E5, ?E6; done.
Qed.

Lemma typed_silent f : (forall s, typed_view (f s) = typed_view s) -> keeps True typed (update f).
Proof. intros Hf. apply keeps_update. intros s. apply typed_ext, Hf. Qed.

Lemma typed_conn : keeps True typed conn.
Proof. apply keeps_any. intros s o s' Hs. unfold conn. destruct (m_conn s); [|done]. by intros [= <- <-]. Qed.

Lemma typed_session {A} (f : Session -> st_m A) :
  (forall x, session_ok x -> keeps True typed (f x)) -> keeps True typed (session ≫= f).
Proof.
  intros Hf s Hs. apply spec_seq. unfold spec at 1, session. destruct (m_session s) as [x|] eqn:E; [|done].
  apply Hf; [|done]. by apply (ty_session s Hs).
Qed.

Lemma typed_state {A} (f : stratum -> st_m A) :
  (forall s, typed s -> keeps True typed (f s)) -> keeps True typed (get id ≫= f).
Proof. intros Hf s Hs. apply spec_state. by apply Hf. Qed.

Lemma typed_throwing {A B} (o : outcome A) (f : A -> st_m B) :
  (forall x, o = Ok x -> keeps True typed (f x)) -> keeps True typed (throwing o ≫= f).
Proof. intros Hf s Hs. apply spec_throwing; [|done]. intros x Hx. by apply Hf. Qed.

Lemma typed_current f : (forall w, work_ok w -> work_ok (f w)) -> keeps True typed (current f).
Proof.
  intros Hf. apply keeps_update. intros s [H1 H2 H3 H4 H5 H6]. split; try done. by apply Hf.
Qed.

Lemma typed_set_session f : (forall x, session_ok x -> session_ok (f x)) -> keeps True typed (set_session f).
Proof.
  intros Hf. unfold set_session. apply typed_session. intros x Hx. apply keeps_update.
  intros s [H1 H2 H3 H4 H5 H6]. split; try done. intros x' [= <-]. by apply Hf.
Qed.

Lemma typed_set_conn f : keeps True typed (set_conn f).
Proof. unfold set_conn. apply keeps_bind; [apply typed_conn|]. intros u. by apply typed_silent. Qed.

Lemma typed_post p : keeps True typed (post p).
Proof. by apply typed_silent. Qed.

Lemma typed_call c : match c with CallWork w => work_ok w | _ => True end -> keeps True typed (call c).
Proof.
  intros Hc. apply keeps_update. intros s [H1 H2 H3 H4 H5 H6]. split; try done.
  unfold works in *. cbn. rewrite omap_app. apply Forall_app. split; [done|]. destruct c; constructor; done.
Qed.

Lemma bounded_push_length {A} (x : A) q : (length q <= queue_size)%nat -> (length (bounded_push x q) <= queue_size)%nat.
Proof. apply push_within_length. Qed.

Lemma typed_enqueue env : keeps True typed (enqueue_response_plea env).
Proof.
  apply keeps_update. intros s [H1 H2 H3 H4 H5 H6].
  destruct (m_response_pleas_count s =? 0); split; try done; cbn; try lia; by apply bounded_push_length.
Qed.

Lemma typed_dequeue env : keeps True typed (dequeue_response_plea env).
Proof.
  intros s [H1 H2 H3 H4 H5 H6]. unfold spec, dequeue_response_plea.
  destruct (m_response_plea_times s) as [|t ts] eqn:E; cbn; (destruct (Z.ltb_spec 0 (m_response_pleas_count s));
    split; cbn; try done; rewrite ?E; cbn in *; lia).
Qed.

Lemma typed_clear env : keeps True typed (clear_response_pleas env).
Proof. apply keeps_update. intros s [H1 H2 H3 H4 H5 H6]. split; try done. cbn. lia. Qed.

Lemma typed_clear_queue f :
  (forall s, typed_view (f s) = (m_current s, m_session s, works s, [], m_response_plea_times s, m_response_pleas_count s)) ->
  keeps True typed (update f).
Proof.
  intros Hf. apply keeps_update. intros s [H1 H2 H3 H4 H5 H6]. specialize (Hf s).
  injection Hf as E1 E2 E3 E4 E5 E6. split; rewrite ?E1, ?E2, ?E3, ?E4, ?E5, ?E6; try done. cbn. lia.
Qed.

Lemma typed_sendSocketData : keeps True typed sendSocketData.
Proof.
  unfold sendSocketData. apply typed_state. intros s Hs. destruct (_ || _); [by apply typed_clear_queue|].
  apply keeps_bind; [apply typed_conn|intros _]. apply keeps_bind; [by apply typed_call|intros _]. by apply typed_clear_queue.
Qed.

Lemma typed_send j : keeps True typed (send j).
Proof.
  unfold send. apply keeps_bind.
  { apply keeps_update. intros s [H1 H2 H3 H4 H5 H6]. split; try done. by apply bounded_push_length. }
  intros _. apply typed_state. intros s Hs. destruct (m_txPending s); [apply keeps_ret|].
  apply keeps_bind; [by apply typed_silent|intros _; apply typed_sendSocketData].
Qed.

Create HintDb typed discriminated.
#[export] Hint Resolve typed_conn typed_set_conn typed_post typed_enqueue typed_dequeue typed_clear typed_sendSocketData
  typed_send i32_int h_of_string_wf : typed.
#[export] Hint Extern 1 (keeps _ _ (update _)) =>
  first [apply typed_silent; intros ?; reflexivity|apply typed_clear_queue; intros ?; reflexivity] : typed.
#[export] Hint Extern 1 (keeps _ _ (call _)) => (apply typed_call; cbn; first [exact I|assumption|by repeat case_match]) : typed.
#[export] Hint Extern 1 (in_word _ _) => (apply wrap_in_word; lia) : typed.
#[export] Hint Extern 1 (in_int _) => (unfold in_int; lia) : typed.
#[export] Hint Extern 2 (in_word _ _) => (eapply sto_hex_word; eassumption) : typed.
#[export] Hint Extern 1 (keeps _ _ (current _)) =>
  (apply typed_current; intros ? []; split; cbn; eauto with typed) : typed.
#[export] Hint Extern 1 (keeps _ _ (set_session _)) =>
  (apply typed_set_session; intros ? []; split; cbn; eauto with typed) : typed.

Ltac typed_step :=
  lazymatch goal with
  | |- keeps _ _ (mbind _ (session)) => apply typed_session; intros ? []
  | |- keeps _ _ (mbind _ (get id)) => apply typed_state; intros ? ?
  | |- keeps _ _ (mbind _ (throwing _)) => apply typed_throwing; intros ? ?
  | |- keeps _ _ (mbind _ (hash_of _)) => unfold hash_of at 1; apply typed_throwing; intros ? ?
  | |- _ => keeps_step
  end.
Ltac typing := repeat first [typed_step|solve [eauto 4 with typed nocore]].

Section Typed.
Context (env : st_env) {lib : JsonLib} {rd : JsonRead lib}.

Lemma typed_processExtranonce e : keeps True typed (processExtranonce e).
Proof. unfold processExtranonce. typing. Qed.

Lemma typed_set_boundary t : keeps True typed (set_boundary t).
Proof. unfold set_boundary. typing. Qed.

Lemma typed_current_difficulty : keeps True typed (current_difficulty env).
Proof. unfold current_difficulty. typing. Qed.

Hint Resolve typed_processExtranonce typed_set_boundary typed_current_difficulty : typed.

Lemma typed_nicehash_job v : keeps True typed (nicehash_job env v).
Proof. unfold nicehash_job. typing. Qed.

Lemma typed_classic_job u v i : keeps True typed (classic_job env u v i).
Proof. unfold classic_job, proxy_block. typing. Qed.

Hint Resolve typed_nicehash_job typed_classic_job : typed.

Lemma typed_notify u v : keeps True typed (notify env u v).
Proof. unfold notify. typing. Qed.

Lemma typed_notify2 v : keeps True typed (notify2 env v).
Proof.
  unfold notify2. apply typed_state. intros s Hs. destruct (m_session s) as [x|] eqn:Hx; [|typing].
  destruct (ty_session s Hs x Hx). typing.
Qed.

Lemma typed_handle_notification method i r v : keeps True typed (handle_notification env method i r v).
Proof.
  pose proof typed_notify. pose proof typed_notify2.
  unfold handle_notification, set_target, set_difficulty, set_extranonce, mining_set. typing.
Qed.

Lemma typed_startSession : keeps True typed (startSession env).
Proof.
  unfold startSession. apply keeps_bind; [|intros _; typing]. apply keeps_update. intros s [H1 H2 H3 H4 H5 H6].
  split; try done. intros x [= <-]. split; cbn; unfold in_word; try lia. split; [reflexivity|].
  refine (bool_decide_unpack _ _). vm_compute. exact I.
Qed.

Hint Resolve typed_startSession : typed.

Lemma typed_handle_response i ok v : keeps True typed (handle_response env i ok v).
Proof.
  assert (Hs : forall i r v, keeps True typed (submit_response env i ok r v)).
  { intros i' r v'. unfold submit_response. typing. }
  assert (Hid : keeps True typed (fun s => match m_solution_submitted_max_id s with
      | Some max_id => Some (Ok (i <=? max_id), s) | None => None end)).
  { apply keeps_any. intros s o s' H. destruct (m_solution_submitted_max_id s); [|done]. by intros [= <- <-]. }
  unfold handle_response, first_response, subscribe_response, authorize_response, stray_response, negotiation_failed, unusable.
  typing.
Qed.

Lemma typed_processResponse v : keeps True typed (processResponse env v).
Proof.
  pose proof typed_handle_response. pose proof typed_handle_notification.
  unfold processResponse, read_message. typing.
Qed.

Lemma typed_process_message parse fuel : keeps True typed (process_message env parse fuel).
Proof.
  pose proof typed_processResponse. induction fuel as [|fuel IH]; intros s Hs; [done|]. unfold spec. cbn [process_message].
  destruct (cut_line (st_message s)) as [[l rest]|]; [|done].
  match goal with |- match ?m s with _ => _ end => change (spec True m s (fun _ => typed)) end.
  apply spec_keeps; [|done]. unfold process_line. typing.
Qed.

Lemma typed_onRecvSocketDataCompleted parse data : keeps True typed (onRecvSocketDataCompleted env parse data).
Proof.
  pose proof (typed_process_message parse). unfold onRecvSocketDataCompleted, recvSocketData. typing.
  match goal with H : typed ?s |- keeps _ _ (call (CallWork (m_current ?s))) => apply typed_call, (ty_current s H) end.
Qed.

(** *** Connecting *)

Lemma typed_pop_endpoint : keeps True typed pop_endpoint.
Proof.
  apply keeps_any. intros s o s' Hs. unfold pop_endpoint. destruct (m_endpoints s); [done|].
  intros [= <- <-]. by apply (typed_ext s).
Qed.

Lemma typed_disconnect_finalize : keeps True typed (disconnect_finalize env).
Proof.
  unfold disconnect_finalize. typing. apply keeps_update. intros s' [H1 H2 H3 H4 H5 H6]. by split.
Qed.

Hint Resolve typed_pop_endpoint typed_disconnect_finalize : typed.

Lemma typed_disconnect : keeps True typed (disconnect env).
Proof. unfold disconnect. typing. Qed.

Lemma typed_start_connect : keeps True typed (start_connect env).
Proof. unfold start_connect, init_socket. typing. Qed.

Hint Resolve typed_disconnect typed_start_connect typed_processResponse : typed.

Lemma typed_connect_handler ec hec : keeps True typed (connect_handler env ec hec).
Proof.
  assert (Hsock : keeps True typed (fun s => match st_socket s with Some b => Some (Ok b, s) | None => None end)).
  { apply keeps_any. intros s o s' H. destruct (st_socket s); [|done]. by intros [= <- <-]. }
  unfold connect_handler, recvSocketData. typing.
Qed.

Lemma typed_workloop_timer_elapsed ec : keeps True typed (workloop_timer_elapsed env ec).
Proof. unfold workloop_timer_elapsed. typing. by apply keeps_any. Qed.

Lemma typed_submitSolution solution : keeps True typed (submitSolution env solution).
Proof.
  unfold submitSolution. typing. apply keeps_any. intros s1 o s2 H1. destruct (m_solution_submitted_max_id s1); [|done].
  intros [= <- <-]. by apply (typed_ext s1).
Qed.

Lemma typed_handler parse e : keeps True typed (handler env parse e).
Proof.
  destruct e; cbn [handler].
  - unfold setConnection. typing.
  - unfold connect, init_socket. typing.
  - typing.
  - unfold submitHashrate. typing.
  - apply typed_submitSolution.
  - unfold run_posted. typing.
  - unfold resolve_handler. typing.
  - apply typed_connect_handler.
  - apply typed_workloop_timer_elapsed.
  - unfold onSendSocketDataCompleted. typing.
  - apply typed_onRecvSocketDataCompleted.
  - unfold onSSLShutdownCompleted. typing.
Qed.

End Typed.

Lemma new_typed env wt rt : typed (EthStratumClient_new env wt rt).
Proof.
  assert (Hz : hash_wf 32 (h_zero 32)) by (split; [reflexivity|apply zeros_ok]).
  split; cbn; try lia; [|discriminate|constructor]. split; cbn; try done; unfold in_int, in_word; lia.
Qed.

Lemma run_typed {lib : JsonLib} {rd : JsonRead lib} parse env wt rt es s :
  st_run parse (EthStratumClient_new env wt rt) es s -> typed s.
Proof.
  induction 1 as [|es s1 env' e o s2 _ IH He Hs]; [apply new_typed|].
  pose proof (typed_handler env' parse e s1 IH) as H. unfold spec in H. by rewrite Hs in H.
Qed.


Definition within_capacity (s : stratum) : Prop :=
  (length (m_txQueue s) <= 64)%nat /\ (length (m_response_plea_times s) <= 64)%nat /\ 0 <= m_response_pleas_count s.

(** In every run of a client the queue of messages and the queue of request
    times stay within the 64 entries they are made with, however long an answer
    of the socket or the pool takes, and the number of requests waiting for an
    answer never becomes negative. *)
Theorem stratum_queues_bounded (lib : JsonLib) (rd : JsonRead lib) (parse : list ascii -> option Value)
    (env : st_env) (worktimeout responsetimeout : Z) (es : list st_event) (s : stratum) :
  st_run parse (EthStratumClient_new env worktimeout responsetimeout) es s -> within_capacity s.
Proof. intros H%run_typed. split; [apply (ty_queue s H)|]. split; [apply (ty_pleas s H)|apply (ty_count s H)]. Qed.

(** ** A job handed over *)

Definition job_lines : list (string * json) :=
  [("login"%string, answer 1 (JBool true));
   ("job"%string, answer 0 (JArray [JString (h_hex (replicate 32 1) Add); JString (h_hex (replicate 32 2) Add);
                                    JString "0xff"; JString "0x10"]))].

Definition job_events : list st_event :=
  [EvSetConnection (uri_text "stratum1+tcp://user@pool.example:4444"); EvConnect; EvResolved (Some [7]);
   EvPosted PostStartConnect; EvConnected false false;
   EvReceived (Some (chars "login" ++ [newline] ++ chars "job" ++ [newline]))].

Definition job_end : stratum :=
  default (EthStratumClient_new env_example 180 2)
    (exec (lib := json_lib) (rd := json_read) (parse_example job_lines) ((fun e => (env_example, e)) <$> job_events)
       (EthStratumClient_new env_example 180 2)).

Definition job_handed : WorkPackage :=
  mk_WorkPackage (h_hex (replicate 32 1) Add) (h_zero 31 ++ [255]) (replicate 32 1) (replicate 32 2) (-1) 16 0 0 (double_of_Z (hashes_dividend / 255)).

Lemma job_runs :
  st_run (lib := json_lib) (rd := json_read) (parse_example job_lines) (EthStratumClient_new env_example 180 2) job_events job_end.
Proof. apply (exec_events _ env_example). vm_compute. reflexivity. Qed.

Lemma job_handed_over : CallWork job_handed ∈ st_calls job_end.
Proof. apply (list_elem_of_lookup_2 _ 2). vm_compute. reflexivity. Qed.


Lemma stratum_queues_bounded_witness : within_capacity job_end.
Proof.
  exact (stratum_queues_bounded json_lib json_read (parse_example job_lines) env_example 180 2 job_events job_end job_runs).
Defined.
