(* ===== verification/Devices.v ===== *)
(** * Devices: enumeration and selection

    The collection of devices that [execute] ([main.cpp]) fills: the enumeration
    of the OpenCL devices ([CLMiner::enumDevices]) and of the CUDA devices
    ([CUDAMiner::enumDevices]) under the texts of their PCI addresses, the
    subscription of the devices to a kind of miner, and [initDevice] of both
    miners, which finds an enumerated device again.  What the runtimes report is
    an argument. *)

From Stdlib Require Import ZArith Lia Bool Ascii String Structures.OrderedTypeEx Sorting.Sorted.
From stdpp Require Import base numbers list sets strings.
From S2P Require Import Prelude Outcome CommonData Floats Miner Farm Api.

Local Open Scope Z_scope.

#[export] Instance ClPlatformTypeEnum_eq_dec : EqDecision ClPlatformTypeEnum.
Proof. solve_decision. Defined.
#[export] Instance DeviceSubscriptionTypeEnum_eq_dec : EqDecision DeviceSubscriptionTypeEnum.
Proof. solve_decision. Defined.

(** ** Descriptors *)

(** [DeviceDescriptor], with the members for CUDA and those for OpenCL in records
    of their own; [clDeviceIndex] and [clBin] are never used. *)
Record cu_part := mk_cu_part {
  cuDetected : bool;
  cuDeviceOrdinal : Z;
  cuDeviceIndex : Z;
  cuCompute : string;
  cuComputeMajor : Z;
  cuComputeMinor : Z;
  de_cuBlockSize : Z;
  de_cuStreamSize : Z
}.

Record cl_part := mk_cl_part {
  clDetected : bool;
  clPlatformVersion : string;
  clPlatformVersionMajor : Z;
  clPlatformVersionMinor : Z;
  clDeviceOrdinal : Z;
  clDeviceVersion : string;
  clDeviceVersionMajor : Z;
  clDeviceVersionMinor : Z;
  clNvCompute : string;
  clArch : string;
  clNvComputeMajor : Z;
  clNvComputeMinor : Z;
  clPlatformId : Z;
  clPlatformName : string;
  de_clPlatformType : ClPlatformTypeEnum;
  de_clGroupSize : Z;
  de_clSplit : bool
}.

Record descriptor := mk_descriptor {
  de_type : DeviceTypeEnum;
  de_subscription : DeviceSubscriptionTypeEnum;
  uniqueId : string;
  totalMemory : Z;
  boardName : string;
  de_cu : cu_part;
  de_cl : cl_part
}.

(** [DeviceDescriptor()]: the members without initialiser are zero. *)
Definition descriptor_default : descriptor :=
  mk_descriptor DtUnknown SubNone "" 0 "" (mk_cu_part false 0 0 "" 0 0 0 0)
    (mk_cl_part false "" 0 0 0 "" 0 0 "" "" 0 0 0 "" ClUnknown 0 false).

(** ** minerMap *)

(** [std::map<string, DeviceDescriptor>]: in the order of the keys. *)
Abbreviation minerMap := (list (string * descriptor)).

Fixpoint map_find (k : string) (m : minerMap) : option descriptor :=
  match m with
  | [] => None
  | (k', d) :: m => if String.eqb k k' then Some d else map_find k m
  end.

(** [m[k] = d]. *)
Fixpoint map_put (k : string) (d : descriptor) (m : minerMap) : minerMap :=
  match m with
  | [] => [(k, d)]
  | (k', d') :: m =>
      match String_as_OT.cmp k k' with
      | Lt => (k, d) :: (k', d') :: m
      | Eq => (k', d) :: m
      | Gt => (k', d') :: map_put k d m
      end
  end.

(** ** OpenCL platforms and devices *)

(** A device as the runtime reports it.  [getInfo] may throw; a call of
    [clGetDeviceInfo] that fails leaves its target unchanged.  [gd_nv_pci]: bus
    and slot, when both calls succeed; [gd_topology]: the bytes as [cl_char];
    [gd_board]: what [s] holds after the call. *)
Record cl_gpu := mk_cl_gpu {
  gd_type : outcome Z;
  gd_nv_pci : option (Z * Z);
  gd_topology : option (list Z);
  gd_version : outcome string;
  gd_memory : outcome Z;
  gd_nv_major : option Z;
  gd_nv_minor : option Z;
  gd_name : outcome string;
  gd_board : string
}.

(** The answer of [cl::Platform::getDevices]. *)
Inductive devices_answer :=
  | Found (l : list cl_gpu)
  | DeviceNotFound
  | Failed (e : exn).

Record cl_platform := mk_cl_platform {
  pl_name : outcome string;
  pl_version : outcome string;
  pl_devices : devices_answer
}.

(** An error is reported and the list stays empty. *)
Definition getPlatforms (answer : outcome (list cl_platform)) : list cl_platform :=
  catch answer (fun _ => []).

(** "If simply no devices found return empty vector". *)
Definition caught_devices (a : devices_answer) : outcome (list cl_gpu) :=
  match a with
  | Found l => Ok l
  | DeviceNotFound => Ok []
  | Failed e => Throw e
  end.

(** [_platforms] is not empty: the callers have tested it. *)
Definition getDevices (_platforms : list cl_platform) (_platformId : Z) : option (outcome (list cl_gpu)) :=
  let platform_num := Z.min _platformId (u64 (Z.of_nat (length _platforms) - 1)) in
  p ← _platforms !! Z.to_nat platform_num;
  Some (caught_devices (pl_devices p)).

Definition CL_DEVICE_TYPE_CPU : Z := 2.
Definition CL_DEVICE_TYPE_GPU : Z := 4.
Definition CL_DEVICE_TYPE_ACCELERATOR : Z := 8.

(** [find("Intel") != npos]. *)
Definition contains (needle s : string) : bool := bool_decide (is_Some (String.index 0 needle s)).

(** [None]: the platform is skipped. *)
Definition platform_type (platformName : string) : option ClPlatformTypeEnum :=
  if String.eqb platformName "AMD Accelerated Parallel Processing" then Some ClAmd
  else if String.eqb platformName "Clover" || String.eqb platformName "Intel Gen OCL Driver" then Some ClClover
  else if String.eqb platformName "NVIDIA CUDA" then Some ClNvidia
  else if contains "Intel" platformName then Some ClIntel
  else None.

Definition device_type (detectedType : Z) : option DeviceTypeEnum :=
  if detectedType =? CL_DEVICE_TYPE_GPU then Some DtGpu
  else if detectedType =? CL_DEVICE_TYPE_CPU then Some DtCpu
  else if detectedType =? CL_DEVICE_TYPE_ACCELERATOR then Some DtAccelerator
  else None.

(** [stoi(s.substr(pos, 1))]. *)
Definition version_digit (s : string) (pos : nat) : outcome Z :=
  if (length (chars s) <? pos)%nat then Throw OutOfRange
  else
    match take 1 (drop pos (chars s)) with
    | [c] => if between "0" "9" c then Ok (code c - 48) else Throw InvalidArgument
    | _ => Throw InvalidArgument
    end.

(** Bus, slot and function of a PCI address; [hex] prints a number as unsigned. *)
Definition cl_pci_id (bus slot function : Z) : string :=
  text (chars "0000:" ++ put_hex 2 (u32 bus) ++ chars ":" ++ put_hex 2 (u32 slot) ++ chars "." ++
    put_hex 1 (u32 function)).

(** The key of a device; [None] for those that are not handled.  Where the call
    fails the key is empty. *)
Definition cl_unique_id (pIdx dIdx : Z) (platformType : ClPlatformTypeEnum) (clDeviceType : DeviceTypeEnum)
    (g : cl_gpu) : option string :=
  match clDeviceType, platformType with
  | DtGpu, ClNvidia =>
      Some match gd_nv_pci g with
      | Some (bus_id, slot_id) => cl_pci_id bus_id (Z.shiftr slot_id 3) (Z.land slot_id 7)
      | None => ""%string
      end
  | DtGpu, (ClAmd | ClClover) =>
      Some match gd_topology g with
      | Some t => cl_pci_id (nth 21 t 0) (nth 22 t 0) (nth 23 t 0)
      | None => ""%string
      end
  | DtGpu, ClIntel => Some ("Intel GPU " ++ to_string pIdx ++ "." ++ to_string dIdx)%string
  | DtCpu, _ => Some ("CPU " ++ text (put_hex 2 (u32 (pIdx + dIdx))))%string
  | _, _ => None
  end.

(** "Fill the blanks by OpenCL means": [v], [ver] are the versions of platform and
    device with their numbers. *)
Definition fill_cl (d : descriptor) (clDeviceType : DeviceTypeEnum) (key platformName : string)
    (platformType : ClPlatformTypeEnum) (v ver : string * Z * Z) (pIdx dIdx memory : Z) (name : string)
    (g : cl_gpu) : descriptor :=
  let nv := bool_decide (platformType = ClNvidia) in
  let o := de_cl d in
  let major := if nv then default (clNvComputeMajor o) (gd_nv_major g) else clNvComputeMajor o in
  let minor := if nv then default (clNvComputeMinor o) (gd_nv_minor g) else clNvComputeMinor o in
  mk_descriptor clDeviceType (de_subscription d) key memory (if nv then name else gd_board g) (de_cu d)
    (mk_cl_part true v.1.1 v.1.2 v.2 dIdx ver.1.1 ver.1.2 ver.2
      (if nv then to_string major ++ "." ++ to_string minor else clNvCompute o)%string
      (if nv then clArch o else name) major minor pIdx platformName platformType 64 (de_clSplit o)).

(** One device of a platform; the state is [dIdx] and the collection. *)
Definition enum_device (pIdx : Z) (platformName : string) (platformType : ClPlatformTypeEnum) (v : string * Z * Z)
    (st : Z * minerMap) (g : cl_gpu) : outcome (Z * minerMap) :=
  let '(dIdx, m) := st in
  detectedType ← gd_type g;
  match device_type detectedType with
  | None => Ok (dIdx, m)
  | Some clDeviceType =>
      match cl_unique_id pIdx dIdx platformType clDeviceType g with
      | None => Ok (u32 (dIdx + 1), m)
      | Some key =>
          let d := default descriptor_default (map_find key m) in
          version ← gd_version g;
          major ← version_digit version 7;
          minor ← version_digit version 9;
          memory ← gd_memory g;
          name ← gd_name g;
          let d := fill_cl d clDeviceType key platformName platformType v (version, major, minor) pIdx dIdx
            memory name g in
          Ok (u32 (dIdx + 1), map_put key d m)
      end
  end.

Fixpoint enum_devices (pIdx : Z) (platformName : string) (platformType : ClPlatformTypeEnum) (v : string * Z * Z)
    (st : Z * minerMap) (devices : list cl_gpu) : outcome (Z * minerMap) :=
  match devices with
  | [] => Ok st
  | g :: devices =>
      st ← enum_device pIdx platformName platformType v st g;
      enum_devices pIdx platformName platformType v st devices
  end.

(** One platform. *)
Definition enum_platform (platforms : list cl_platform) (pIdx : Z) (p : cl_platform) (m : minerMap)
  : option (outcome minerMap) :=
  match pl_name p with
  | Throw e => Some (Throw e)
  | Ok platformName =>
      match platform_type platformName with
      | None => Some (Ok m)
      | Some platformType =>
          match (v ← pl_version p; major ← version_digit v 7; minor ← version_digit v 9; Ok (v, major, minor)) with
          | Throw e => Some (Throw e)
          | Ok v =>
              devices ← getDevices platforms pIdx;
              Some (l ← devices; snd <$> enum_devices pIdx platformName platformType v (0, m) l)
          end
      end
  end.

Fixpoint enum_platforms (platforms : list cl_platform) (pIdx : Z) (rest : list cl_platform) (m : minerMap)
  : option (outcome minerMap) :=
  match rest with
  | [] => Some (Ok m)
  | p :: rest =>
      r ← enum_platform platforms pIdx p m;
      match r with
      | Throw e => Some (Throw e)
      | Ok m => enum_platforms platforms (u32 (pIdx + 1)) rest m
      end
  end.

(** [CLMiner::enumDevices]. *)
Definition cl_enumDevices (answer : outcome (list cl_platform)) (m : minerMap) : option (outcome minerMap) :=
  let platforms := getPlatforms answer in
  enum_platforms platforms 0 platforms m.

(** What [CLMiner::initDevice] writes into [m_hwmoninfo]; [None] for a platform it
    does not know. *)
Definition cl_hwmon (d : descriptor) : option HwMonitorInfo :=
  match de_clPlatformType (de_cl d) with
  | ClNvidia => Some (mk_HwMonitorInfo NVIDIA (uniqueId d) (-1))
  | ClAmd => Some (mk_HwMonitorInfo AMD (uniqueId d) (-1))
  | ClClover | ClIntel => Some (mk_HwMonitorInfo HwUNKNOWN (uniqueId d) (-1))
  | ClUnknown => None
  end.

(** OpenCL 1.0 and 1.1 are refused, except with Clover. *)
Definition too_old (c : cl_part) : bool :=
  (clPlatformVersionMajor c =? 1) && ((clPlatformVersionMinor c =? 0) || (clPlatformVersionMinor c =? 1)) &&
  negb (bool_decide (de_clPlatformType c = ClClover)).

(** [CLMiner::initDevice]: the device and the monitor information, or [None] for
    [false]. *)
Definition cl_initDevice (answer : outcome (list cl_platform)) (d : descriptor)
  : option (outcome (option (cl_gpu * HwMonitorInfo))) :=
  let platforms := getPlatforms answer in
  match platforms with
  | [] => Some (Ok None)
  | _ :: _ =>
      devices ← getDevices platforms (clPlatformId (de_cl d));
      Some
        match devices with
        | Throw e => Throw e
        | Ok [] => Ok None
        | Ok devices =>
            match devices !! Z.to_nat (clDeviceOrdinal (de_cl d)) with
            | None => Throw OutOfRange
            | Some g =>
                match cl_hwmon d with
                | None => Ok None
                | Some h => if too_old (de_cl d) then Throw ThrownPointer else Ok (Some (g, h))
                end
            end
        end
  end.

(** ** CUDA devices *)

(** What the runtime reports of a device. *)
Record cu_gpu := mk_cu_gpu {
  pciDomainID : Z;
  pciBusID : Z;
  pciDeviceID : Z;
  cu_name : string;
  cu_totalMem : Z;
  cu_major : Z;
  cu_minor : Z
}.

Definition cu_unique_id (g : cu_gpu) : string :=
  pci_id (u32 (pciDomainID g)) (u32 (pciBusID g)) (u32 (pciDeviceID g)).

Definition fill_cu (d : descriptor) (i : Z) (g : cu_gpu) : descriptor :=
  mk_descriptor DtGpu (de_subscription d) (cu_unique_id g) (cu_totalMem g) (cu_name g)
    (mk_cu_part true i i (to_string (cu_major g) ++ "." ++ to_string (cu_minor g))%string
      (cu_major g) (cu_minor g) 128 2)
    (de_cl d).

(** [CUDAMiner::enumDevices]: [None] for a device one of whose calls fails, which
    is reported and skipped. *)
Definition cu_enum_device (m : minerMap) (ig : nat * option cu_gpu) : minerMap :=
  match ig.2 with
  | None => m
  | Some g =>
      let d := default descriptor_default (map_find (cu_unique_id g) m) in
      map_put (cu_unique_id g) (fill_cu d (Z.of_nat ig.1) g) m
  end.

(** The number of devices; an error is reported and counts as none. *)
Definition getNumDevices (answer : outcome (list (option cu_gpu))) : list (option cu_gpu) :=
  catch answer (fun _ => []).

Definition cu_enumDevices (answer : outcome (list (option cu_gpu))) (m : minerMap) : minerMap :=
  let gpus := getNumDevices answer in
  fold_left cu_enum_device (zip (seq 0 (length gpus)) gpus) m.

(** [CUDAMiner::initDevice]: the device that is set, if the calls succeed. *)
Definition cu_initDevice (gpus : list (option cu_gpu)) (set_ok : bool) (d : descriptor)
  : HwMonitorInfo * option cu_gpu :=
  (mk_HwMonitorInfo NVIDIA (uniqueId d) (-1),
   if set_ok then g ← gpus !! Z.to_nat (cuDeviceIndex (de_cu d)); g else None).

(** ** Subscription *)

Inductive MinerType := MtMixed | MtCL | MtCUDA.
Definition uses_cl (t : MinerType) : bool := match t with MtCUDA => false | _ => true end.
Definition uses_cuda (t : MinerType) : bool := match t with MtCL => false | _ => true end.

Definition set_subscription (d : descriptor) (s : DeviceSubscriptionTypeEnum) : descriptor :=
  mk_descriptor (de_type d) s (uniqueId d) (totalMemory d) (boardName d) (de_cu d) (de_cl d).

(** [m_devices] is empty or contains the position of the device. *)
Definition selected (m_devices : list Z) (d : nat) : bool :=
  bool_decide (m_devices = []) || bool_decide (u32 (Z.of_nat d) ∈ m_devices).

(** One of the two loops. *)
Definition subscribe (detected : descriptor -> bool) (s : DeviceSubscriptionTypeEnum) (m_devices : list Z)
    (m : minerMap) : minerMap :=
  imap (fun i '(k, d) =>
    if negb (detected d) || negb (bool_decide (de_subscription d = SubNone)) then (k, d)
    else if selected m_devices i then (k, set_subscription d s) else (k, d)) m.

(** CUDA first, then OpenCL; [cuda], [cl]: which miners are compiled in. *)
Definition subscribe_devices (cuda cl : bool) (t : MinerType) (m_devices : list Z) (m : minerMap) : minerMap :=
  let m := if cuda && uses_cuda t then subscribe (fun d => cuDetected (de_cu d)) SubCuda m_devices m else m in
  if cl && uses_cl t then subscribe (fun d => clDetected (de_cl d)) SubOpenCL m_devices m else m.

Definition subscribedDevices (m : minerMap) : nat :=
  length (filter (fun kd => de_subscription kd.2 <> SubNone) m).

(** The members the farm uses. *)
Definition farm_device (d : descriptor) : DeviceDescriptor :=
  mk_Device (de_subscription d) (de_clPlatformType (de_cl d)) (de_cuBlockSize (de_cu d))
    (de_cuStreamSize (de_cu d)) (de_clGroupSize (de_cl d)) (de_clSplit (de_cl d)).

(** Both enumerations. *)
Definition collect_devices (cuda cl : bool) (t : MinerType) (platforms : outcome (list cl_platform))
    (gpus : outcome (list (option cu_gpu))) : option (outcome minerMap) :=
  r ← (if cl && uses_cl t then cl_enumDevices platforms [] else Some (Ok [])) : option (outcome minerMap);
  Some ((fun m => if cuda && uses_cuda t then cu_enumDevices gpus m else m) <$> (r : outcome minerMap)).

(** [execute] up to the construction of the farm; [None] inside: the devices are
    listed instead. *)
Definition execute_devices (cuda cl : bool) (t : MinerType) (should_list : bool) (m_devices : list Z)
    (platforms : outcome (list cl_platform)) (gpus : outcome (list (option cu_gpu)))
  : option (outcome (option minerMap)) :=
  r ← collect_devices cuda cl t platforms gpus;
  Some (m ← r;
    if (length m =? 0)%nat then Throw (RuntimeError "No usable mining devices found") else
    if should_list then Ok None else
    let m := subscribe_devices cuda cl t m_devices m in
    if (subscribedDevices m =? 0)%nat then Throw (RuntimeError "No mining device selected. Aborting ...")
    else Ok (Some m)).

(** ** The map *)

Lemma find_put k k' d m : map_find k (map_put k' d m) = if String.eqb k k' then Some d else map_find k m.
Proof.
  induction m as [|[k1 d1] m IH]; cbn [map_put map_find]; [done|].
  destruct (String_as_OT.cmp k' k1) eqn:E; cbn [map_find].
  - apply String_as_OT.cmp_eq in E as ->. by destruct (String.eqb k k1).
  - done.
  - rewrite IH. destruct (String.eqb_spec k k') as [->|]; [|done].
    destruct (String.eqb_spec k' k1) as [->|]; [|done].
    by rewrite (proj2 (String_as_OT.cmp_eq k1 k1) eq_refl) in E.
Qed.

Definition sorted (m : minerMap) : Prop := StronglySorted String_as_OT.lt m.*1.

Lemma put_keys k d m k1 : k1 ∈ (map_put k d m).*1 -> k1 = k \/ k1 ∈ m.*1.
Proof.
  induction m as [|[k2 d2] m IH]; cbn [map_put]; [set_solver|].
  destruct (String_as_OT.cmp k k2); csimpl; rewrite !elem_of_cons; [tauto|tauto|].
  intros [->|H]; [tauto|]. destruct (IH H); tauto.
Qed.

Lemma put_sorted k d m : sorted m -> sorted (map_put k d m).
Proof.
  unfold sorted. induction m as [|[k1 d1] m IH]; intros Hs; cbn [map_put].
  { repeat constructor. }
  cbn [fmap list_fmap fst] in Hs. apply StronglySorted_inv in Hs as [Hs Hall].
  destruct (String_as_OT.cmp k k1) eqn:E; cbn [fmap list_fmap fst].
  - by constructor.
  - apply String_as_OT.cmp_lt in E. constructor; [by constructor|]. constructor; [done|].
    apply (Forall_impl _ _ _ Hall). intros x Hx. exact (String_as_OT.lt_trans _ _ _ E Hx).
  - assert (Hlt : String_as_OT.lt k1 k).
    { apply String_as_OT.cmp_lt. by rewrite String_as_OT.cmp_antisym, E. }
    constructor; [by apply IH|]. apply Forall_forall. intros x [-> | Hx]%put_keys; [done|].
    by apply (proj1 (Forall_forall _ _) Hall).
Qed.

(** ** The enumeration of OpenCL devices *)

(** Device [k] of platform [p], as [enumDevices] sees it: the kind of the platform
    and of the device, and the key. *)
Definition device_at (platforms : list cl_platform) (p k : nat) (g : cl_gpu)
    (platformType : ClPlatformTypeEnum) (dt : DeviceTypeEnum) (key : string) : Prop :=
  exists pl l name t, platforms !! p = Some pl /\ pl_devices pl = Found l /\ l !! k = Some g /\
    pl_name pl = Ok name /\ platform_type name = Some platformType /\
    gd_type g = Ok t /\ device_type t = Some dt /\
    cl_unique_id (Z.of_nat p) (Z.of_nat k) platformType dt g = Some key.

(** A descriptor filled in for that device. *)
Definition filled (platforms : list cl_platform) (p k : nat) (g : cl_gpu) (key : string) (d : descriptor) : Prop :=
  exists platformType dt, device_at platforms p k g platformType dt key /\
    uniqueId d = key /\ de_type d = dt /\ gd_memory g = Ok (totalMemory d) /\ clDetected (de_cl d) = true /\
    clPlatformId (de_cl d) = Z.of_nat p /\ clDeviceOrdinal (de_cl d) = Z.of_nat k /\
    de_clPlatformType (de_cl d) = platformType.
Definition describes (platforms : list cl_platform) (key : string) (d : descriptor) : Prop :=
  exists p k g, filled platforms p k g key d.

(** Every device has one of the three types. *)
Definition known_types (platforms : list cl_platform) : Prop :=
  forall p pl l g, platforms !! p = Some pl -> pl_devices pl = Found l -> g ∈ l ->
    exists t, gd_type g = Ok t /\ is_Some (device_type t).

Definition counts_ok (platforms : list cl_platform) : Prop :=
  Z.of_nat (length platforms) < 2 ^ 32 /\
  forall p pl l, platforms !! p = Some pl -> pl_devices pl = Found l -> Z.of_nat (length l) < 2 ^ 32.

Section Enumeration.
Context (platforms : list cl_platform) (m0 : minerMap).
Context (Hknown : known_types platforms) (Hcounts : counts_ok platforms).

(** The collection, starting from [m0]. *)
Definition coll_ok (m : minerMap) : Prop :=
  sorted m /\ forall key d, map_find key m = Some d -> map_find key m0 = Some d \/ describes platforms key d.
Definition has (key : string) (m : minerMap) : Prop := exists d, map_find key m = Some d /\ describes platforms key d.

(** Entries of described devices are only overwritten by such. *)
Definition grows (m m' : minerMap) : Prop := (coll_ok m -> coll_ok m') /\ forall key, has key m -> has key m'.

Lemma grows_refl m : grows m m.
Proof. by split. Qed.
Lemma grows_trans m1 m2 m3 : grows m1 m2 -> grows m2 m3 -> grows m1 m3.
Proof. intros [H1 H2] [H3 H4]. split; auto. Qed.

Lemma put_grows key d m : describes platforms key d -> grows m (map_put key d m) /\ has key (map_put key d m).
Proof.
  intros Hd. split; [split|].
  - intros [Hs Hm]. split; [by apply put_sorted|]. intros k' d'. rewrite find_put.
    destruct (String.eqb_spec k' key) as [->|]; [|apply Hm]. intros [= <-]. by right.
  - intros k' (d' & H1 & H2). unfold has. rewrite find_put.
    destruct (String.eqb_spec k' key) as [->|]; [by exists d|by exists d'].
  - exists d. rewrite find_put, String.eqb_refl. done.
Qed.

Section Platform.
Context (p : nat) (pl : cl_platform) (l : list cl_gpu) (name : string) (ptype : ClPlatformTypeEnum).
Context (Hp : platforms !! p = Some pl) (Hl : pl_devices pl = Found l).
Context (Hname : pl_name pl = Ok name) (Htype : platform_type name = Some ptype).

Lemma enum_device_spec v k g m st :
  l !! k = Some g ->
  enum_device (Z.of_nat p) name ptype v (Z.of_nat k, m) g = Ok st ->
  st.1 = Z.of_nat (S k) /\ grows m st.2 /\
  (forall ty dt key, device_at platforms p k g ty dt key -> has key st.2).
Proof.
  intros Hg. unfold enum_device. destruct (Hknown p pl l g Hp Hl) as (t & Ht & dt & Hdt).
  { by apply list_elem_of_lookup_2 with k. }
  rewrite Ht. cbn [mbind outcome_bind]. rewrite Hdt.
  assert (Ek : u32 (Z.of_nat k + 1) = Z.of_nat (S k)).
  { rewrite wrap_id; [lia|]. destruct Hcounts as [_ Hc]. specialize (Hc p pl l Hp Hl).
    apply lookup_lt_Some in Hg. unfold in_word. lia. }
  assert (Hat : forall ty dt' key, device_at platforms p k g ty dt' key ->
    cl_unique_id (Z.of_nat p) (Z.of_nat k) ptype dt g = Some key).
  { intros ty dt' key (pl' & l' & name' & t' & E1 & E2 & E3 & E4 & E5 & E6 & E7 & E8).
    assert (pl' = pl) as -> by congruence. assert (name' = name) as -> by congruence.
    assert (t' = t) as -> by congruence. by replace ptype with ty by congruence; replace dt with dt' by congruence. }
  destruct (cl_unique_id (Z.of_nat p) (Z.of_nat k) ptype dt g) as [key|] eqn:Ekey.
  - destruct (gd_version g) as [ver|]; [|done]. cbn [mbind outcome_bind].
    destruct (version_digit ver 7) as [major|]; [|done]. cbn [mbind outcome_bind].
    destruct (version_digit ver 9) as [minor|]; [|done]. cbn [mbind outcome_bind].
    destruct (gd_memory g) as [memory|] eqn:Emem; [|done]. cbn [mbind outcome_bind].
    destruct (gd_name g) as [nm|]; [|done]. cbn [mbind outcome_bind]. injection 1 as <-.
    cbn [fst snd]. split; [exact Ek|].
    match goal with |- context [map_put key ?d m] => destruct (put_grows key d m) as [H1 H2] end.
    { exists p, k, g, ptype, dt. split; [by exists pl, l, name, t|].
      cbn [uniqueId de_type totalMemory de_cl fill_cl clDetected clPlatformId clDeviceOrdinal de_clPlatformType]. done. }
    split; [exact H1|]. intros ty dt' key' H. by injection (Hat _ _ _ H) as ->.
  - injection 1 as <-. cbn [fst snd]. split; [exact Ek|]. split; [apply grows_refl|].
    intros ty dt' key' H. by apply Hat in H.
Qed.

Lemma enum_devices_spec v rest : forall k m st,
  rest = drop k l -> enum_devices (Z.of_nat p) name ptype v (Z.of_nat k, m) rest = Ok st ->
  grows m st.2 /\ (forall k' g ty dt key, (k <= k')%nat -> device_at platforms p k' g ty dt key -> has key st.2).
Proof.
  induction rest as [|g rest IH]; intros k m st Hrest E; cbn [enum_devices] in E.
  - injection E as <-. split; [apply grows_refl|].
    intros k' g ty dt key Hk (pl' & l' & name' & t' & E1 & E2 & E3 & _). exfalso.
    assert (pl' = pl) as -> by congruence. assert (l' = l) as -> by congruence.
    apply lookup_lt_Some in E3. apply (f_equal length) in Hrest. rewrite length_drop in Hrest. cbn in Hrest. lia.
  - assert (Hg : l !! k = Some g) by (rewrite <-(Nat.add_0_r k), <-lookup_drop, <-Hrest; done).
    destruct (enum_device _ _ _ _ _ g) as [[dIdx m1]|] eqn:E1; [|done]. cbn [mbind outcome_bind] in E.
    destruct (enum_device_spec v k g m (dIdx, m1) Hg E1) as (H1 & H2 & H3). cbn [fst snd] in *. subst dIdx.
    destruct (IH (S k) m1 st) as [H4 H5]; [|exact E|].
    { rewrite (drop_S l g k Hg) in Hrest. congruence. }
    split; [exact (grows_trans _ _ _ H2 H4)|]. intros k' g' ty dt key Hk Hd.
    destruct (decide (k' = k)) as [->|Hne]; [|apply (H5 k' g' ty dt); [lia|done]].
    assert (g' = g) as ->.
    { destruct Hd as (pl' & l' & name' & t' & E1' & E2' & E3' & _).
      assert (pl' = pl) as -> by congruence. assert (l' = l) as -> by congruence. congruence. }
    apply H4. by apply (H3 ty dt).
Qed.
End Platform.

Lemma getDevices_at p pl :
  platforms !! p = Some pl -> getDevices platforms (Z.of_nat p) = Some (caught_devices (pl_devices pl)).
Proof.
  intros Hp. apply lookup_lt_Some in Hp as Hlt. destruct Hcounts as [Hc _]. unfold getDevices.
  rewrite (wrap_id 64 (Z.of_nat (length platforms) - 1)) by (unfold in_word; lia).
  rewrite Z.min_l by lia. by rewrite Nat2Z.id, Hp.
Qed.

(** What a platform or a list of them does to the collection. *)
Definition enumerated (sees : nat -> Prop) (m : minerMap) (r : outcome minerMap) : Prop :=
  match r with
  | Throw _ => True
  | Ok m' => grows m m' /\
      forall p k g ty dt key, sees p -> device_at platforms p k g ty dt key -> has key m'
  end.

Lemma enum_platform_spec p pl m :
  platforms !! p = Some pl ->
  exists r, enum_platform platforms (Z.of_nat p) pl m = Some r /\ enumerated (fun q => q = p) m r.
Proof.
  intros Hp. unfold enum_platform.
  assert (Hnone : (forall k g ty dt key, ~ device_at platforms p k g ty dt key) -> enumerated (fun q => q = p) m (Ok m)).
  { intros Hno. split; [apply grows_refl|]. intros q k g ty dt key -> H. by apply Hno in H. }
  destruct (pl_name pl) as [name|e] eqn:Hname; [|by exists (Throw e)].
  destruct (platform_type name) as [ptype|] eqn:Htype.
  2: { eexists. split; [reflexivity|]. apply Hnone.
       intros k g ty dt key (pl' & l' & name' & t' & E1 & E2 & E3 & E4 & E5 & _).
       assert (pl' = pl) as -> by congruence. congruence. }
  destruct (v ← pl_version pl; _) as [v|e]; [|by exists (Throw e)].
  rewrite (getDevices_at p pl Hp). cbn [mbind option_bind]. eexists. split; [reflexivity|].
  destruct (pl_devices pl) as [l| |e] eqn:Hl; cbn [caught_devices mbind outcome_bind]; [| |done].
  - destruct (enum_devices _ _ _ _ _ _) as [[dIdx m']|] eqn:E; [|done]. cbn [fmap outcome_fmap snd].
    destruct (enum_devices_spec p pl l name ptype Hp Hl Hname Htype v l 0 m (dIdx, m') eq_refl E) as [H1 H2].
    split; [exact H1|]. intros q k g ty dt key ->. apply H2. lia.
  - apply Hnone. intros k g ty dt key (pl' & l' & name' & t' & E1 & E2 & _).
    assert (pl' = pl) as -> by congruence. congruence.
Qed.

Lemma enum_platforms_spec rest : forall p m,
  rest = drop p platforms ->
  exists r, enum_platforms platforms (Z.of_nat p) rest m = Some r /\ enumerated (fun q => (p <= q)%nat) m r.
Proof.
  induction rest as [|pl rest IH]; intros p m Hrest; cbn [enum_platforms].
  - eexists. split; [reflexivity|]. split; [apply grows_refl|].
    intros q k g ty dt key Hq (pl' & l' & name' & t' & E1 & _). exfalso. apply lookup_lt_Some in E1.
    apply (f_equal length) in Hrest. rewrite length_drop in Hrest. cbn in Hrest. lia.
  - assert (Hp : platforms !! p = Some pl) by (rewrite <-(Nat.add_0_r p), <-lookup_drop, <-Hrest; done).
    destruct (enum_platform_spec p pl m Hp) as (r & -> & Hr). cbn [mbind option_bind].
    destruct r as [m1|e]; [|by exists (Throw e)]. destruct Hr as [H1 H2].
    assert (Ep : u32 (Z.of_nat p + 1) = Z.of_nat (S p)).
    { rewrite wrap_id; [lia|]. apply lookup_lt_Some in Hp. destruct Hcounts as [Hc _]. unfold in_word. lia. }
    rewrite Ep. destruct (IH (S p) m1) as (r & E & Hr).
    { rewrite (drop_S platforms pl p Hp) in Hrest. congruence. }
    exists r. split; [exact E|]. destruct r as [m2|]; [|done]. destruct Hr as [H3 H4].
    split; [exact (grows_trans _ _ _ H1 H3)|]. intros q k g ty dt key Hq Hd.
    destruct (decide (q = p)) as [->|]; [apply H3; by apply (H2 p k g ty dt)|apply (H4 q k g ty dt); [lia|done]].
Qed.

Lemma nonempty_match {A B} (l : list A) i x (X Y : B) :
  l !! i = Some x -> match l with [] => X | _ :: _ => Y end = Y.
Proof. by destruct l. Qed.

(** [initDevice] finds the device a descriptor was filled in for. *)
Lemma initDevice_filled p k g key d :
  filled platforms p k g key d ->
  exists h, devicePciId h = key /\
    cl_initDevice (Ok platforms) d = Some (if too_old (de_cl d) then Throw ThrownPointer else Ok (Some (g, h))).
Proof.
  intros (ptype & dt & (pl & l & name & t & E1 & E2 & E3 & E4 & E5 & E6 & E7 & E8) & Hu & _ & _ & _ & Hp & Hk & Ht).
  unfold cl_initDevice. cbn [getPlatforms catch].
  rewrite (nonempty_match _ _ _ _ _ E1).
  rewrite Hp, (getDevices_at p pl E1), E2. cbn [mbind option_bind caught_devices].
  destruct l as [|g0 l]; [by rewrite lookup_nil in E3|]. rewrite Hk, Nat2Z.id, E3.
  unfold cl_hwmon. rewrite Ht, Hu. unfold platform_type in E5.
  destruct ptype; [|eexists; split; [|by destruct (too_old _)]; reflexivity..].
  exfalso. revert E5. repeat case_match; discriminate.
Qed.
End Enumeration.

(** The runtime answers every question, with versions of the documented form. *)
Definition version_ok (v : outcome string) : Prop :=
  exists s a b, v = Ok s /\ version_digit s 7 = Ok a /\ version_digit s 9 = Ok b.
Definition responsive_device (g : cl_gpu) : Prop :=
  is_ok (gd_type g) = true /\ version_ok (gd_version g) /\ is_ok (gd_memory g) = true /\ is_ok (gd_name g) = true.
Definition responsive (pl : cl_platform) : Prop :=
  is_ok (pl_name pl) = true /\ version_ok (pl_version pl) /\
  exists l, caught_devices (pl_devices pl) = Ok l /\ Forall responsive_device l.

Lemma enum_device_ok pIdx name ptype v st g :
  responsive_device g -> exists st', enum_device pIdx name ptype v st g = Ok st'.
Proof.
  intros (H1 & (s & a & b & E1 & E2 & E3) & H2 & H3). destruct st as [dIdx m]. unfold enum_device.
  destruct (gd_type g); [|done]. cbn [mbind outcome_bind]. destruct (device_type _); [|by eexists].
  destruct (cl_unique_id _ _ _ _ _); [|by eexists]. rewrite E1. cbn [mbind outcome_bind].
  rewrite E2. cbn [mbind outcome_bind]. rewrite E3. cbn [mbind outcome_bind].
  destruct (gd_memory g); [|done]. cbn [mbind outcome_bind]. destruct (gd_name g); [|done]. by eexists.
Qed.

Lemma enum_devices_ok pIdx name ptype v l : forall st,
  Forall responsive_device l -> exists st', enum_devices pIdx name ptype v st l = Ok st'.
Proof.
  induction l as [|g l IH]; intros st Hl; cbn [enum_devices]; [by eexists|].
  apply Forall_cons in Hl as [Hg Hl]. destruct (enum_device_ok pIdx name ptype v st g Hg) as [st' ->]. by apply IH.
Qed.

Lemma enum_platforms_ok platforms rest : forall pIdx m r,
  Forall responsive platforms -> Forall responsive rest ->
  enum_platforms platforms pIdx rest m = Some r -> is_ok r = true.
Proof.
  induction rest as [|pl rest IH]; intros pIdx m r Hall Hr; cbn [enum_platforms]; [by intros [= <-]|].
  apply Forall_cons in Hr as [(Hname & (s & a & b & E1 & E2 & E3) & _) Hrest]. unfold enum_platform.
  destruct (pl_name pl) as [name|]; [|done]. destruct (platform_type name) as [ptype|]; [|by apply IH].
  rewrite E1. cbn [mbind outcome_bind]. rewrite E2. cbn [mbind outcome_bind]. rewrite E3. cbn [mbind outcome_bind].
  unfold getDevices at 1. destruct (platforms !! _) as [pl'|] eqn:E; [|done]. cbn [mbind option_bind].
  apply (Forall_lookup_1 _ _ _ _ Hall) in E as (_ & _ & l & -> & Hl). cbn [mbind outcome_bind].
  destruct (enum_devices_ok pIdx name ptype (s, a, b) l (0, m) Hl) as [st' ->]. cbn [fmap outcome_fmap]. by apply IH.
Qed.


(** A computer with two cards of the same vendor. *)
Definition nv_card (bus : Z) : cl_gpu :=
  mk_cl_gpu (Ok 4) (Some (bus, 8)) None (Ok "OpenCL 3.0 CUDA") (Ok 8000) (Some 8) (Some 6) (Ok "card") "".
Definition nv_platforms : list cl_platform :=
  [mk_cl_platform (Ok "NVIDIA CUDA") (Ok "OpenCL 3.0 CUDA 12.2") (Found [nv_card 1; nv_card 10])].

Lemma nv_known : known_types nv_platforms.
Proof.
  intros p pl l g Hp Hl Hg. apply list_elem_of_lookup_2 in Hp. apply list_elem_of_singleton in Hp as ->.
  injection Hl as <-. exists 4. split; [|by eexists]. by apply elem_of_cons in Hg as [-> | ->%list_elem_of_singleton].
Qed.

Lemma nv_counts : counts_ok nv_platforms.
Proof.
  split; [done|]. intros p pl l Hp Hl. apply list_elem_of_lookup_2 in Hp. apply list_elem_of_singleton in Hp as ->.
  by injection Hl as <-.
Qed.

Lemma nv_responsive : Forall responsive nv_platforms.
Proof.
  assert (Hg : forall bus, responsive_device (nv_card bus)).
  { intros bus. split_and!; [done| |done|done]. by eexists _, 3, 0. }
  constructor; [|constructor]. split; [done|]. split; [by eexists _, 3, 0|].
  exists [nv_card 1; nv_card 10]. split; [done|]. by constructor; [|constructor; [|constructor]].
Qed.


(** A device whose type is not exactly one of the three is skipped without being
    counted, so that the next one gets its ordinal: [initDevice] then selects the
    skipped device. *)
Theorem cl_ordinal_shifted :
  let skipped := mk_cl_gpu (Ok 5) (Some (1, 0)) None (Ok "OpenCL 3.0 ") (Ok 8000) None None (Ok "a") "" in
  let used := mk_cl_gpu (Ok 4) (Some (2, 0)) None (Ok "OpenCL 3.0 ") (Ok 8000) None None (Ok "b") "" in
  let platforms := [mk_cl_platform (Ok "NVIDIA CUDA") (Ok "OpenCL 3.0 ") (Found [skipped; used])] in
  exists d h, cl_enumDevices (Ok platforms) [] = Some (Ok [("0000:02:00.0", d)]) /\ boardName d = "b" /\
    cl_initDevice (Ok platforms) d = Some (Ok (Some (skipped, h))).
Proof. eexists _, _. split; [reflexivity|]. split; reflexivity. Qed.

(** The bytes of the AMD topology are signed: a bus from 128 on gives a key that
    no monitor library uses. *)
Theorem amd_bus_sign_extended :
  let card := mk_cl_gpu (Ok 4) None (Some (replicate 21 0 ++ [-125; 0; 0])) (Ok "") (Ok 0) None None (Ok "") "" in
  cl_unique_id 0 0 ClAmd DtGpu card = Some "0000:ffffff83:00.0" /\
  sysfs_id (mk_gpu_pci 0 131 0) = "0000:83:00.0".
Proof. by split. Qed.

(** ** The CUDA devices *)

(** The last device with the key, with its position. *)
Definition last_with (key : string) (l : list (nat * option cu_gpu)) : option (nat * cu_gpu) :=
  last (omap (fun ig => g ← ig.2; if String.eqb key (cu_unique_id g) then Some (ig.1, g) else None) l).

Lemma cu_enum_spec l : forall m,
  (sorted m -> sorted (fold_left cu_enum_device l m)) /\
  forall key, map_find key (fold_left cu_enum_device l m) =
    match last_with key l with
    | None => map_find key m
    | Some (i, g) => Some (fill_cu (default descriptor_default (map_find key m)) (Z.of_nat i) g)
    end.
Proof.
  induction l as [|[i [g|]] l IH] using rev_ind; intros m; [done| |];
    rewrite fold_left_app; cbn [fold_left cu_enum_device snd fst]; destruct (IH m) as [H1 H2].
  - split; [intros Hs; by apply put_sorted, H1|]. intros key. rewrite find_put. unfold last_with.
    rewrite omap_app, last_app. cbn [omap list_omap snd fst mbind option_bind].
    destruct (String.eqb_spec key (cu_unique_id g)) as [->|Hne]; cbn [last]; [|apply H2].
    rewrite H2. by destruct (last_with _ l) as [[j h]|].
  - split; [exact H1|]. intros key. rewrite H2. unfold last_with. by rewrite omap_app, last_app.
Qed.

Lemma pci_keys_agree bus dev :
  0 <= bus < 256 -> 0 <= dev < 32 ->
  pci_id 0 (u32 bus) (u32 dev) = cl_pci_id bus (Z.shiftr (8 * dev) 3) (Z.land (8 * dev) 7).
Proof.
  intros Hb Hd. unfold pci_id, cl_pci_id. f_equal.
  replace (Z.shiftr (8 * dev) 3) with dev by (rewrite Z.shiftr_div_pow2, Z.mul_comm, Z.div_mul by lia; done).
  replace (Z.land (8 * dev) 7) with 0; [reflexivity|].
  change 7 with (Z.ones 3). rewrite Z.land_ones by lia. change (2 ^ 3) with 8. by rewrite Z.mul_comm, Z.mod_mul by lia.
Qed.

Lemma sorted_nodup m : sorted m -> NoDup m.*1.
Proof.
  unfold sorted. induction m as [|kd m IH]; csimpl; [constructor|]. intros [Hs Hall]%StronglySorted_inv.
  constructor; [|by apply IH]. intros Hin. apply (proj1 (Forall_forall _ _) Hall) in Hin.
  by apply String_as_OT.lt_not_eq in Hin.
Qed.

Lemma last_with_unique key gpus i c :
  gpus !! i = Some (Some c) -> cu_unique_id c = key ->
  (forall j c', gpus !! j = Some (Some c') -> cu_unique_id c' = key -> j = i) ->
  last_with key (zip (seq 0 (length gpus)) gpus) = Some (i, c).
Proof.
  intros Hi Hk Hu. unfold last_with. set (f := fun ig : nat * option cu_gpu => _).
  assert (Hin : forall x, x ∈ omap f (zip (seq 0 (length gpus)) gpus) <->
    exists j o, gpus !! j = Some o /\ f (j, o) = Some x).
  { intros x. rewrite list_elem_of_omap. split.
    - intros ([j o] & Hj & Hf). apply list_elem_of_lookup_1 in Hj as [n Hn]. apply lookup_zip_with_Some in Hn as (a & b & E & Ha & Hb).
      injection E as -> ->. apply lookup_seq in Ha as [-> _]. by exists n, b.
    - intros (j & o & Hj & Hf). exists (j, o). split; [|exact Hf]. apply (list_elem_of_lookup_2 _ j).
      apply lookup_zip_with_Some. exists j, o. split; [done|]. split; [|done].
      apply lookup_seq. apply lookup_lt_Some in Hj. lia. }
  assert (Hc : (i, c) ∈ omap f (zip (seq 0 (length gpus)) gpus)).
  { apply Hin. exists i, (Some c). split; [done|]. cbn. by rewrite Hk, String.eqb_refl. }
  destruct (last (omap f _)) as [x|] eqn:E.
  - f_equal. apply last_Some_elem_of in E. apply Hin in E as (j & o & Hj & Hf). cbn in Hf.
    destruct o as [c'|]; [|done]. cbn in Hf. destruct (String.eqb_spec key (cu_unique_id c')) as [E|]; [|done].
    injection Hf as <-. pose proof (Hu j c' Hj (eq_sym E)) as ->. congruence.
  - apply last_None in E. rewrite E in Hc. by apply elem_of_nil in Hc.
Qed.



(** ** Subscription *)

Definition all_none (m : minerMap) : Prop := Forall (fun kd => de_subscription kd.2 = SubNone) m.

Lemma put_none key d m : de_subscription d = SubNone -> all_none m -> all_none (map_put key d m).
Proof.
  intros Hd. induction 1 as [|[k1 d1] m H1 Hm IH]; cbn [map_put]; [by constructor|].
  destruct (String_as_OT.cmp key k1); repeat constructor; done.
Qed.

Lemma find_none key m :
  all_none m -> de_subscription (default descriptor_default (map_find key m)) = SubNone.
Proof.
  induction 1 as [|[k1 d1] m H1 Hm IH]; [done|]. cbn [map_find]. by destruct (String.eqb key k1).
Qed.

Lemma enum_devices_none pIdx name ptype v l : forall st st',
  all_none st.2 -> enum_devices pIdx name ptype v st l = Ok st' -> all_none st'.2.
Proof.
  induction l as [|g l IH]; intros [dIdx m] st' Hm; cbn [enum_devices]; [by intros [= <-]|].
  destruct (enum_device _ _ _ _ _ g) as [st1|] eqn:E; [|done]. cbn [mbind outcome_bind]. apply IH.
  unfold enum_device in E. destruct (gd_type g); [|done]. cbn [mbind outcome_bind] in E.
  destruct (device_type _); [|by injection E as <-]. destruct (cl_unique_id _ _ _ _ _); [|by injection E as <-].
  destruct (gd_version g) as [ver|]; [|done]. cbn [mbind outcome_bind] in E.
  destruct (version_digit ver 7); [|done]. cbn [mbind outcome_bind] in E.
  destruct (version_digit ver 9); [|done]. cbn [mbind outcome_bind] in E.
  destruct (gd_memory g); [|done]. cbn [mbind outcome_bind] in E. destruct (gd_name g); [|done].
  injection E as <-. apply put_none; [|exact Hm]. by apply find_none.
Qed.

Lemma enum_platforms_none platforms rest : forall pIdx m m',
  all_none m -> enum_platforms platforms pIdx rest m = Some (Ok m') -> all_none m'.
Proof.
  induction rest as [|pl rest IH]; intros pIdx m m' Hm; cbn [enum_platforms]; [by intros [= <-]|].
  destruct (enum_platform platforms pIdx pl m) as [[m1|]|] eqn:E; [|done|done]. cbn [mbind option_bind]. apply IH.
  unfold enum_platform in E. destruct (pl_name pl) as [name|]; [|done].
  destruct (platform_type name) as [ptype|]; [|by injection E as <-].
  destruct (v ← pl_version pl; _) as [v|]; [|done]. destruct (getDevices _ _) as [[l|]|]; [|done|done].
  injection E as E. destruct (enum_devices _ _ _ _ _ l) as [st|] eqn:E1; [|done]. injection E as <-.
  exact (enum_devices_none _ _ _ _ _ (0, m) st Hm E1).
Qed.

Lemma cu_enum_none l : forall m, all_none m -> all_none (fold_left cu_enum_device l m).
Proof.
  induction l as [|[i [g|]] l IH]; intros m Hm; cbn [fold_left]; [done|apply IH|by apply IH].
  apply put_none; [|exact Hm]. by apply find_none.
Qed.

Lemma collect_none cuda cl t platforms gpus m :
  collect_devices cuda cl t platforms gpus = Some (Ok m) -> all_none m.
Proof.
  unfold collect_devices. destruct (if cl && uses_cl t then _ else _) as [[m1|]|] eqn:E; [|done|done].
  cbn [mbind option_bind fmap outcome_fmap]. injection 1 as <-.
  assert (Hm : all_none m1).
  { destruct (cl && uses_cl t); [|injection E as <-; constructor].
    apply (enum_platforms_none _ _ _ _ _ (Forall_nil_2 _) E). }
  destruct (cuda && uses_cuda t); [by apply cu_enum_none|exact Hm].
Qed.

(** The kind of miner for device [i]. *)
Definition choice (cuda cl : bool) (t : MinerType) (m_devices : list Z) (i : nat) (d : descriptor)
  : DeviceSubscriptionTypeEnum :=
  if negb (selected m_devices i) then SubNone
  else if cuda && uses_cuda t && cuDetected (de_cu d) then SubCuda
  else if cl && uses_cl t && clDetected (de_cl d) then SubOpenCL
  else SubNone.

Definition chosen (cuda cl : bool) (t : MinerType) (m_devices : list Z) (m : minerMap) : minerMap :=
  imap (fun i '(k, d) => (k, set_subscription d (choice cuda cl t m_devices i d))) m.

Lemma subscribe_devices_spec cuda cl t m_devices m :
  all_none m -> subscribe_devices cuda cl t m_devices m = chosen cuda cl t m_devices m.
Proof.
  intros Hm. apply list_eq. intros i. unfold chosen. rewrite list_lookup_imap.
  assert (Hl : forall b detected s m, (if b : bool then subscribe detected s m_devices m else m) !! i =
    (fun '(k, d) => (k, if b && detected d && bool_decide (de_subscription d = SubNone) && selected m_devices i
      then set_subscription d s else d)) <$> m !! i).
  { intros b detected s m'. destruct b; cbn [andb]; [|by destruct (m' !! i) as [[? ?]|]].
    unfold subscribe. rewrite list_lookup_imap. destruct (m' !! i) as [[k d]|]; [|done]. cbn.
    by destruct (detected d), (bool_decide (de_subscription d = SubNone)), (selected m_devices i). }
  unfold subscribe_devices. rewrite !Hl. destruct (m !! i) as [[k d]|] eqn:E; [|done]. cbn [fmap option_fmap option_map].
  apply (Forall_lookup_1 _ _ _ _ Hm) in E. cbn [snd] in E. unfold choice. destruct d as [ty sub u me b cu c].
  cbn [de_subscription de_cu de_cl] in *. subst sub.
  change (bool_decide (SubNone = SubNone)) with true.
  by destruct (selected m_devices i), (cuda && uses_cuda t), (cuDetected cu), (cl && uses_cl t), (clDetected c) eqn:Ec;
    cbn; rewrite ?Ec.
Qed.

(** The miners [Farm::start] creates. *)
Definition miner_prefix (d : DeviceDescriptor) : option string :=
  match subscriptionType d with SubCuda => Some "cu"%string | SubOpenCL => Some "cl"%string | SubNone => None end.

Lemma start_devices_miners cuda cl now ds : forall f,
  Forall (fun d => match subscriptionType d.2 with SubCuda => cuda = true | SubOpenCL => cl = true | SubNone => True end) ds ->
  let f' := (start_devices cuda cl now f ds).1 in
  (ta_prefix <$> telemetry_miners f') = (ta_prefix <$> telemetry_miners f) ++ omap (fun d => miner_prefix d.2) ds /\
  length (m_miners f') = (length (m_miners f) + length (omap (fun d => miner_prefix d.2) ds))%nat.
Proof.
  induction ds as [|[id dev] ds IH]; intros f Hds; cbn [start_devices fst].
  { cbn. by rewrite app_nil_r, Nat.add_0_r. }
  apply Forall_cons in Hds as [Hd Hds]. cbn [snd] in Hd.
  destruct (start_device cuda cl now f (id, dev)) as [f1 d1] eqn:E1.
  destruct (IH f1 Hds) as [H1 H2].
  destruct (start_devices cuda cl now f1 ds) as [f2 ds2]. cbn [fst] in *. rewrite H1, H2.
  set (rest := omap (fun d => miner_prefix d.2) ds).
  change (omap (fun d => miner_prefix d.2) ((id, dev) :: ds))
    with (match miner_prefix dev with Some p => p :: rest | None => rest end).
  unfold start_device in E1. unfold miner_prefix.
  destruct (subscriptionType dev); [by injection E1 as <- <-| |]; rewrite Hd in E1; injection E1 as <- <-;
    cbn; rewrite fmap_app, length_app; cbn; (split; [by rewrite <-app_assoc|lia]).
Qed.

Lemma prefixes_farm (l : minerMap) :
  omap (fun d => miner_prefix d.2) (prod_map id farm_device <$> l) = omap (fun kd => miner_prefix (farm_device kd.2)) l.
Proof. induction l as [|kd l IH]; [done|]. csimpl. by rewrite IH. Qed.

Lemma prefixes_count (l : minerMap) :
  length (omap (fun kd => miner_prefix (farm_device kd.2)) l) = subscribedDevices l.
Proof.
  unfold subscribedDevices. induction l as [|[k d] l IH]; [done|]. rewrite filter_cons.
  set (F := fun kd : string * descriptor => miner_prefix (farm_device kd.2)) in *.
  change (omap F ((k, d) :: l)) with (match F (k, d) with Some p => p :: omap F l | None => omap F l end).
  unfold F at 1, miner_prefix. cbn [subscriptionType farm_device snd].
  destruct (de_subscription d); case_decide as H; cbn [length]; rewrite ?IH; done || by destruct H.
Qed.

(** C30: What [execute] does with the collected devices: it throws when there is
    none, and when none of them is selected and can be used; otherwise every
    selected device gets one kind of miner, CUDA where it can be used and OpenCL
    else, the others none, and a farm started with them has exactly the miners
    chosen, in the order of the collection. *)
Theorem execute_devices_correct (cuda cl : bool) (t : MinerType) (m_devices : list Z)
    (platforms : outcome (list cl_platform)) (gpus : outcome (list (option cu_gpu))) (m : minerMap)
    (now : Z) (nvml sysfs : option (list gpu_pci)) (s : FarmSettings) :
  collect_devices cuda cl t platforms gpus = Some (Ok m) ->
  let ms := chosen cuda cl t m_devices m in
  execute_devices cuda cl t false m_devices platforms gpus =
    Some (if (length m =? 0)%nat then Throw (RuntimeError "No usable mining devices found")
      else if (subscribedDevices ms =? 0)%nat then Throw (RuntimeError "No mining device selected. Aborting ...")
      else Ok (Some ms)) /\
  let f := (Farm.start cuda cl now (Farm_new now nvml sysfs (prod_map id farm_device <$> ms) s)).2 in
  (ta_prefix <$> telemetry_miners f) = omap (fun kd => miner_prefix (farm_device kd.2)) ms /\
  length (m_miners f) = subscribedDevices ms.
Proof.
  intros Hm ms. split.
  { unfold execute_devices. rewrite Hm. cbn [mbind option_bind outcome_bind].
    by rewrite (subscribe_devices_spec cuda cl t m_devices m (collect_none _ _ _ _ _ _ Hm)). }
  unfold Farm.start, Farm_new. cbn [m_isMining m_miners m_DevicesCollection].
  match goal with |- context [start_devices cuda cl now ?f0 ?ds] =>
    destruct (start_devices_miners cuda cl now ds f0) as [H1 H2] end.
  { apply Forall_fmap, Forall_lookup. intros i [k d] Hi. unfold ms, chosen in Hi. rewrite list_lookup_imap in Hi.
    apply fmap_Some in Hi as ([k' d'] & _ & [= -> ->]). cbn. unfold choice.
    destruct (selected m_devices i), cuda, cl; cbn; try destruct (uses_cuda t); try destruct (uses_cl t);
      cbn; try destruct (cuDetected _); try destruct (clDetected _); done. }
  destruct (start_devices cuda cl now _ _) as [f ds]. cbn [fst] in H1, H2.
  enough (H : ta_prefix <$> telemetry_miners f = omap (fun kd => miner_prefix (farm_device kd.2)) ms /\
    length (m_miners f) = subscribedDevices ms) by exact H.
  rewrite H1, H2. cbn [telemetry_miners m_miners fmap list_fmap length app Nat.add].
  rewrite prefixes_farm. split; [done|]. apply prefixes_count.
Qed.

Lemma execute_devices_correct_witness :
  exists m, collect_devices false true MtMixed (Ok nv_platforms) (Ok []) = Some (Ok m) /\
  exists ms, execute_devices false true MtMixed false [1] (Ok nv_platforms) (Ok []) = Some (Ok (Some ms)) /\
    (fun kd => (kd.1, de_subscription kd.2)) <$> ms = [("0000:01:01.0", SubNone); ("0000:0a:01.0", SubOpenCL)] /\
    length (m_miners (Farm.start false true 0 (Farm_new 0 None None (prod_map id farm_device <$> ms)
      (settings_example ""))).2) = 1%nat.
Proof.
  eexists. split; [reflexivity|].
  destruct (execute_devices_correct false true MtMixed [1] (Ok nv_platforms) (Ok []) _ 0 None None (settings_example "")
    eq_refl) as (H1 & _ & H2).
  eexists. split; [exact H1|]. split; [reflexivity|]. exact H2.
Defined.
