(* ===== verification/Cli.v ===== *)
(** * The command line ([etcminer/main.cpp])

    What [main] makes of the command line: the notifiers that check options, the
    settings [validateArgs] fills in, and the exit code.  The option parser is
    Boost's: the options it stores, or that it fails, are an argument. *)

From Stdlib Require Import ZArith Lia Bool Ascii String.
From stdpp Require Import base numbers list sets strings.
From S2P Require Import Prelude Outcome CommonData Floats Miner CudaMiner Farm PoolURI PoolManager.
From S2P Require Import Api Devices.

Local Open Scope Z_scope.

(** ** Options *)

(** What is compiled in. *)
Record build := mk_build_flags { b_cl : bool; b_cuda : bool; b_cpu : bool; b_api : bool; b_dev : bool }.

(** [variables_map]: a flag is whether the option occurs, an option without
    default is [None] when it does not. *)
Record options := mk_options {
  o_help : bool;
  o_help_module : option string;
  o_version : bool;
  o_pool : option (list string);
  o_opencl : bool;
  o_cuda : bool;
  o_verbosity : Z;
  o_getwork_recheck : Z;
  o_retry_delay : Z;
  o_retry_max : Z;
  o_work_timeout : Z;
  o_response_timeout : Z;
  o_report_hashrate : bool;
  o_display_interval : Z;
  o_HWMON : Z;
  o_exit : bool;
  o_failover_timeout : Z;
  o_nocolor : bool;
  o_syslog : bool;
  o_list_devices : bool;
  o_tstop : Z;
  o_tstart : Z;
  o_nonce : string;
  o_devices : option (list Z);
  o_seq : bool;
  o_api_bind : string;
  o_api_port : Z;
  o_api_password : string;
  o_cu_block : Z;
  o_cu_streams : Z;
  o_cl_work : Z;
  o_cl_split : bool;
  o_benchmark : option Z;
  o_simulate : option Z
}.

(** The command line as the parser sees it: whether parsing it fails; with
    [--config], whether the file can be opened and parsed; what is stored; what
    was not recognised. *)
Record command_line := mk_command_line {
  c_parses : bool;
  c_config : option (bool * bool);
  c_options : options;
  c_unknown : list string
}.

(** ** Notifiers *)

(** [boost::program_options::error]. *)
Definition options_error (what : string) : exn := StdException what.

Section Notifiers.
Context (b : build).

Definition modules : list string :=
  (if b_cl b then ["cl"] else []) ++ (if b_cuda b then ["cu"] else []) ++ (if b_cpu b then ["cp"] else []) ++
  (if b_api b then ["api"] else []) ++ ["con"; "test"; "misc"; "test"; "conf"; "reboot"].

Definition newline : string := String (ascii_of_nat 10) EmptyString.

(** [msg += first ? "" : ", " + m]. *)
Definition module_list (ms : list string) : string :=
  (fold_left (fun '(msg, first) m => ((if first : bool then msg else msg ++ ", " ++ m)%string, false)) ms
    (("The --help-module parameter must be one of the following:" ++ newline ++ "    ")%string, true)).1.

Definition on_help_module (m : string) : outcome unit :=
  if bool_decide (m ∈ modules) then Ok tt else Throw (options_error (module_list modules)).

Definition on_nonce (n : string) : outcome unit :=
  if forallb (fun c => negb (negb (between "0" "9" c) && negb (between "a" "f" c) && negb (between "A" "F" c))) (chars n)
  then Ok tt else Throw (options_error "The --nonce value must be a hex string").

Definition log_next : Z := if b_dev b then 256 else 4.

Definition on_verbosity (u : Z) : outcome unit :=
  if u <? log_next then Ok tt
  else Throw (options_error ("The --verbosity value must be less than " ++ to_string log_next)).

Definition on_hwmon (u : Z) : outcome unit :=
  if u <? 3 then Ok tt else Throw (options_error "The --HWMON value must be 0, 1 or 2").

Definition on_api_port (i : Z) : outcome unit :=
  if (-65535 <=? i) && (i <=? 65535) then Ok tt
  else Throw (options_error "The --api-port value is out of range").

Definition on_cu_block_size (x : Z) : outcome unit :=
  if (x =? 32) || (x =? 64) || (x =? 128) || (x =? 256) then Ok tt
  else Throw (options_error "The --cu-block value is out of range").

Definition on_cu_streams (s : Z) : outcome unit :=
  if (s =? 1) || (s =? 2) || (s =? 4) then Ok tt
  else Throw (options_error "The --cu-streams value is out of range").

Definition on_cl_local_work (x : Z) : outcome unit :=
  if (x =? 64) || (x =? 128) || (x =? 256) then Ok tt
  else Throw (options_error "The --cl-work value is out of range").

(** [notify]: the options that are compiled in, in the order of their names. *)
Definition notify_options (o : options) : outcome unit :=
  _ ← on_hwmon (o_HWMON o);
  _ ← (if b_api b then on_api_port (o_api_port o) else Ok tt);
  _ ← (if b_cl b then on_cl_local_work (o_cl_work o) else Ok tt);
  _ ← (if b_cuda b then on_cu_block_size (o_cu_block o) else Ok tt);
  _ ← (if b_cuda b then on_cu_streams (o_cu_streams o) else Ok tt);
  _ ← (match o_help_module o with Some m => on_help_module m | None => Ok tt end);
  _ ← on_nonce (o_nonce o);
  on_verbosity (o_verbosity o).

(** The [try] block: [false] when an error is reported or something is unknown. *)
Definition parse_args (c : command_line) : bool :=
  c_parses c &&
  match c_config c with Some (opened, parses) => opened && parses | None => true end &&
  is_ok (notify_options (c_options c)) &&
  bool_decide (c_unknown c = []).
End Notifiers.

(** ** ParseBind *)

Fixpoint span_digits (l : list ascii) : list ascii * list ascii :=
  match l with
  | c :: l' => if between "0" "9" c then let '(d, r) := span_digits l' in (c :: d, r) else ([], l)
  | [] => ([], [])
  end.

(** [stoi] of text that consists of digits and minus signs: a sign, then the
    digits up to the next sign. *)
Definition stoi_port (l : list ascii) : outcome Z :=
  let '(neg, l) := match l with c :: l' => if Ascii.eqb c "-" then (true, l') else (false, l) | [] => (false, l) end in
  let digits := fst (span_digits l) in
  match digits with
  | [] => Throw InvalidArgument
  | _ :: _ =>
      let v := fold_left (fun v c => 10 * v + (code c - 48)) digits 0 in
      let v := if neg : bool then - v else v in
      if (- 2 ^ 31 <=? v) && (v <? 2 ^ 31) then Ok v else Throw OutOfRange
  end.

(** The pattern: the last colon separates an address from a port. *)
Definition match_bind (inaddr : list ascii) : option (list ascii * list ascii) :=
  '(addr, port) ← split_last ":" inaddr;
  if forallb (fun c => is_xdigit c || Ascii.eqb c "." || Ascii.eqb c ":") addr &&
     forallb (fun c => between "0" "9" c || Ascii.eqb c "-") port
  then Some (addr, port) else None.

(** [from_string] is [boost::asio::ip::address::from_string] and [to_string]. *)
Definition ParseBind (from_string : string -> option string) (inaddr : string) (advertise_negative_port : bool)
  : outcome (string * Z) :=
  match match_bind (chars inaddr) with
  | None => Throw InvalidArgument
  | Some (addr, port) =>
      match from_string (text addr) with
      | None => Throw InvalidArgument
      | Some outaddr =>
          outport ← stoi_port port;
          if advertise_negative_port then
            if (outport <? -65535) || (65535 <? outport) || (outport =? 0) then Throw InvalidArgument
            else Ok (outaddr, outport)
          else if (outport <? 1) || (65535 <? outport) then Throw InvalidArgument
          else Ok (outaddr, outport)
      end
  end.

(** ** validateArgs *)

Inductive OperationMode := ModeNone | ModeSimulation | ModeMining.

(** The members of [MinerCLI] and the globals that [validateArgs] sets. *)
Record config := mk_config {
  cf_logOptions : Z;
  cf_logNoColor : bool;
  cf_logSyslog : bool;
  cf_exitOnError : bool;
  cf_seqDAG : bool;
  cf_pool : PoolSettings;
  cf_connections : list URI;
  cf_displayInterval : Z;
  cf_listDevices : bool;
  cf_devices : list Z;
  cf_farm : FarmSettings;
  cf_api_address : string;
  cf_api_port : Z;
  cf_api_password : string;
  cf_minerType : MinerType;
  cf_mode : OperationMode
}.

Definition miner_type (cl_miner cuda_miner : bool) : MinerType :=
  if cl_miner then MtCL
  else if cuda_miner then MtCUDA
  else if cl_miner && cuda_miner then MtMixed
  else MtMixed.

Section Validate.
(** [ip]: what Boost makes of the host of an address. *)
Context (b : build) (from_string : string -> option string) (ip : list ascii -> option (bool * bool)).
Context (hashRateId_random : string).

(** The [-P] arguments; [i] is the position. *)
Definition connection_uri (i : nat) (url : string) : outcome URI :=
  url ← (if String.eqb url "exit" then
           if (i =? 0)%nat then Throw InvalidArgument else Ok "stratum+tcp://-:x@exit:0"%string
         else Ok url);
  match URI_new ip (chars url) false with
  | Ok u => Ok u
  | Throw e => Throw (RuntimeError "Bad pool URI")
  end.

Fixpoint connection_uris (i : nat) (pools : list string) : outcome (list URI) :=
  match pools with
  | [] => Ok []
  | p :: pools =>
      u ← connection_uri i p;
      us ← connection_uris (S i) pools;
      Ok (u :: us)
  end.

(** [max(hwMon, 1)], and the order of the thresholds. *)
Definition check_thresholds (s : FarmSettings) : outcome FarmSettings :=
  if tempStop s =? 0 then Ok s
  else if tempStop s <=? tempStart s then Throw InvalidArgument
  else Ok (mk_FarmSettings (Z.max (hwMon s) 1) (tempStart s) (tempStop s) (nonce s) (cuBlockSize s) (cuStreams s)
             (clGroupSize s) (clSplit s)).

Definition farm_settings (o : options) : FarmSettings :=
  mk_FarmSettings (o_HWMON o) (o_tstart o) (o_tstop o) (o_nonce o)
    (if b_cuda b then o_cu_block o else 0) (if b_cuda b then o_cu_streams o else 0)
    (if b_cl b then o_cl_work o else 0) (if b_cl b then o_cl_split o else false).

(** The block to test on; [--benchmark] wins. *)
Definition bench_block (o : options) : option Z :=
  match o_benchmark o with Some n => Some n | None => o_simulate o end.

Definition pool_settings (o : options) : PoolSettings :=
  mk_PoolSettings (o_getwork_recheck o) (o_work_timeout o) (o_response_timeout o) (o_failover_timeout o)
    (o_report_hashrate o) 60 hashRateId_random (o_retry_max o) (o_retry_delay o) (default 0 (bench_block o)).

(** Address and port of the API; [None]: the address is invalid. *)
Definition api_bind (o : options) : option (string * Z) :=
  if negb (b_api b) then Some ("0.0.0.0"%string, 0)
  else if String.eqb (o_api_bind o) "" then Some ("0.0.0.0"%string, o_api_port o)
  else match ParseBind from_string (o_api_bind o) true with Ok r => Some r | Throw _ => None end.

Definition pool_connections (o : options) : outcome (list URI) :=
  match bench_block o with
  | Some _ => u ← URI_new ip (chars "simulation://localhost:0") true; Ok [u]
  | None =>
      if o_list_devices o then Ok []
      else
        match default [] (o_pool o) with
        | [] => Throw InvalidArgument
        | pools => connection_uris 0 pools
        end
  end.

(** [Ok None] is [false]: do not continue. *)
Definition validateArgs (c : command_line) : outcome (option config) :=
  let o := c_options c in
  if negb (parse_args b c) then Ok None
  else if o_help o then Ok None
  else if o_version o then Ok None
  else if bool_decide (is_Some (o_help_module o)) then Ok None
  else
    match api_bind o with
    | None => Ok None
    | Some (address, port) =>
        conns ← pool_connections o;
        farm ← check_thresholds (farm_settings o);
        Ok (Some (mk_config (o_verbosity o) (o_nocolor o) (o_syslog o) (o_exit o) (o_seq o)
          (pool_settings o) conns (o_display_interval o) (o_list_devices o) (default [] (o_devices o)) farm
          address port (if b_api b then o_api_password o else ""%string)
          (miner_type (o_opencl o) (o_cuda o))
          (match bench_block o with Some _ => ModeSimulation | None => ModeMining end)))
    end.

(** ** main *)

(** The handlers of [main]; a [RuntimeError] is a [runtime_error]. *)
Definition exit_code (e : exn) : Z :=
  match e with
  | RuntimeError _ => 2
  | ThrownPointer => 4
  | _ => 3
  end.

(** [main]; [execute] is what [cli.execute()] does with the settings. *)
Definition main (execute : config -> outcome unit) (args : option command_line) : Z :=
  match args with
  | None => 1
  | Some c =>
      match validateArgs c with
      | Throw e => exit_code e
      | Ok None => 0
      | Ok (Some cfg) =>
          match execute (mk_config (cf_logOptions cfg) (cf_logNoColor cfg || cf_logSyslog cfg) (cf_logSyslog cfg)
            (cf_exitOnError cfg) (cf_seqDAG cfg) (cf_pool cfg) (cf_connections cfg) (cf_displayInterval cfg)
            (cf_listDevices cfg) (cf_devices cfg) (cf_farm cfg) (cf_api_address cfg) (cf_api_port cfg)
            (cf_api_password cfg) (cf_minerType cfg) (cf_mode cfg)) with
          | Ok _ => 0
          | Throw e => exit_code e
          end
      end
  end.
End Validate.

(** ** The settings *)

Lemma is_ok_bind {A B} (x : outcome A) (f : A -> outcome B) :
  is_ok (x ≫= f) = true -> exists a, x = Ok a /\ is_ok (f a) = true.
Proof. destruct x as [a|]; [|done]. by exists a. Qed.

(** A notifier that accepts exactly when a condition holds. *)
Lemma guard_ok (c : bool) (e : exn) u : (if c then Ok tt else Throw e) = Ok u -> c = true.
Proof. by destruct c. Qed.

Lemma one_of (x : Z) (l : list Z) :
  existsb (Z.eqb x) l = true -> x ∈ l.
Proof. intros (y & Hy & ->%Z.eqb_eq)%existsb_exists. by apply list_elem_of_In. Qed.

Lemma hex_char_ok c :
  negb (negb (between "0" "9" c) && negb (between "a" "f" c) && negb (between "A" "F" c)) = true -> is_hex c.
Proof.
  rewrite !negb_andb, !negb_involutive, !orb_true_iff. unfold is_hex, fromHex_char, between.
  change (code "0") with 48. change (code "9") with 57. change (code "a") with 97. change (code "f") with 102.
  change (code "A") with 65. change (code "F") with 70. rewrite !andb_true_iff, !Z.leb_le. intros H.
  repeat case_match; rewrite ?andb_true_iff, ?andb_false_iff, ?Z.leb_le, ?Z.leb_gt in *; lia.
Qed.

Lemma notify_options_ok b o :
  is_ok (notify_options b o) = true ->
  o_HWMON o < 3 /\ (b_api b = true -> -65535 <= o_api_port o <= 65535) /\
  (b_cl b = true -> o_cl_work o ∈ [64; 128; 256]) /\
  (b_cuda b = true -> o_cu_block o ∈ [32; 64; 128; 256]) /\
  (b_cuda b = true -> o_cu_streams o ∈ [1; 2; 4]) /\
  Forall is_hex (chars (o_nonce o)) /\ o_verbosity o < log_next b.
Proof.
  unfold notify_options. intros (u1 & H1 & (u2 & H2 & (u3 & H3 & (u4 & H4 & (u5 & H5 & (u6 & _ & (u7 & H7 & H8)
    %is_ok_bind)%is_ok_bind)%is_ok_bind)%is_ok_bind)%is_ok_bind)%is_ok_bind)%is_ok_bind.
  split; [by apply guard_ok, Z.ltb_lt in H1|].
  split; [intros E; rewrite E in H2; apply guard_ok, andb_true_iff in H2 as [?%Z.leb_le ?%Z.leb_le]; lia|].
  split; [intros E; rewrite E in H3; apply guard_ok in H3; apply one_of; cbn; by rewrite orb_false_r, orb_assoc|].
  split; [intros E; rewrite E in H4; apply guard_ok in H4; apply one_of; cbn; by rewrite orb_false_r, !orb_assoc|].
  split; [intros E; rewrite E in H5; apply guard_ok in H5; apply one_of; cbn; by rewrite orb_false_r, orb_assoc|].
  split.
  - apply guard_ok in H7. apply Forall_forall. intros c Hc. apply hex_char_ok.
    rewrite forallb_forall in H7. apply H7. by apply list_elem_of_In.
  - unfold on_verbosity in H8. by destruct (Z.ltb_spec (o_verbosity o) (log_next b)).
Qed.

Section Settings.
Context (b : build) (from_string : string -> option string) (ip : list ascii -> option (bool * bool)) (rid : string).

Lemma validateArgs_inv c cfg :
  validateArgs b from_string ip rid c = Ok (Some cfg) ->
  let o := c_options c in
  is_ok (notify_options b o) = true /\ api_bind b from_string o = Some (cf_api_address cfg, cf_api_port cfg) /\
  pool_connections ip o = Ok (cf_connections cfg) /\ check_thresholds (farm_settings b o) = Ok (cf_farm cfg) /\
  cf_logOptions cfg = o_verbosity o /\ cf_listDevices cfg = o_list_devices o /\
  cf_mode cfg = (match bench_block o with Some _ => ModeSimulation | None => ModeMining end).
Proof.
  unfold validateArgs. cbv zeta. set (o := c_options c).
  destruct (parse_args b c) eqn:Hp; [|done]. unfold parse_args in Hp. fold o in Hp. cbn [negb].
  destruct (o_help o); [done|]. destruct (o_version o); [done|].
  destruct (bool_decide (is_Some (o_help_module o))); [done|].
  destruct (api_bind b from_string o) as [[address port]|]; [|done].
  destruct (pool_connections ip o) as [conns|]; [|done]. cbn [mbind outcome_bind].
  destruct (check_thresholds (farm_settings b o)) as [farm|]; [|done]. cbn [mbind outcome_bind].
  intros [= <-]. apply andb_true_iff in Hp as [Hp _]. apply andb_true_iff in Hp as [_ Hp]. by split_and!.
Qed.

Lemma check_thresholds_ok s s' :
  check_thresholds s = Ok s' -> 0 <= hwMon s < 3 ->
  0 <= hwMon s' < 3 /\ nonce s' = nonce s /\ cuBlockSize s' = cuBlockSize s /\ cuStreams s' = cuStreams s /\
  clGroupSize s' = clGroupSize s /\ (tempStop s' = 0 \/ 1 <= hwMon s' /\ tempStart s' < tempStop s').
Proof.
  unfold check_thresholds. destruct (Z.eqb_spec (tempStop s) 0) as [E|E].
  { intros [= <-]. rewrite E. auto 10. }
  destruct (Z.leb_spec (tempStop s) (tempStart s)); [done|]. intros [= <-] Hw. cbn. split; [lia|].
  do 4 (split; [done|]). right. lia.
Qed.

Lemma connection_uris_ok pools : forall i us,
  connection_uris ip i pools = Ok us ->
  Forall2 (fun url u => if String.eqb url "exit" then m_host u = chars "exit" else URI_new ip (chars url) false = Ok u)
    pools us.
Proof.
  induction pools as [|url pools IH]; intros i us; cbn [connection_uris]; [intros [= <-]; constructor|].
  destruct (connection_uri ip i url) as [u|] eqn:Eu; [|done]. cbn [mbind outcome_bind].
  destruct (connection_uris ip (S i) pools) as [us'|] eqn:E; [|done]. intros [= <-]. constructor; [|by apply (IH (S i))].
  unfold connection_uri in Eu. destruct (String.eqb url "exit").
  - destruct (i =? 0)%nat; [done|]. cbn [mbind outcome_bind] in Eu.
    destruct (URI_new ip _ false) as [u'|] eqn:E1; [|done]. injection Eu as <-. revert E1. vm_compute.
    repeat case_match; by intros [= <-].
  - cbn [mbind outcome_bind] in Eu. destruct (URI_new ip (chars url) false); [|done]. by injection Eu as <-.
Qed.
End Settings.

(** The sizes under which both kinds of miners are correct. *)
Definition mineable (cuda cl : bool) (d : DeviceDescriptor) : Prop :=
  match subscriptionType d with
  | SubCuda => cuda = true -> (exists groups, dd_cuBlockSize d = 8 * groups /\ 0 < groups) /\
      (0 < Z.to_nat (dd_cuStreamSize d) <= MAX_STREAMS)%nat
  | SubOpenCL => cl = true -> exists quads, dd_clGroupSize d = 4 * quads /\ 0 < quads
  | SubNone => True
  end.

Lemma start_devices_mineable cuda cl now (s : FarmSettings) ds : forall f,
  Farm.m_Settings f = s ->
  (cuda = true -> cuBlockSize s ∈ [32; 64; 128; 256] /\ cuStreams s ∈ [1; 2; 4]) ->
  (cl = true -> clGroupSize s ∈ [64; 128; 256]) ->
  Forall (fun d => mineable cuda cl d.2) (start_devices cuda cl now f ds).2.
Proof.
  induction ds as [|[id dev] ds IH]; intros f Hf Hcu Hcl; cbn [start_devices]; [constructor|].
  destruct (start_device cuda cl now f (id, dev)) as [f1 d1] eqn:E1.
  assert (Hf1 : Farm.m_Settings f1 = s /\ mineable cuda cl d1.2).
  { unfold start_device in E1. rewrite Hf in E1. unfold mineable.
    destruct (subscriptionType dev) eqn:Es.
    - injection E1 as <- <-. cbn [snd]. by rewrite Es.
    - destruct cl; injection E1 as <- <-; cbn [snd subscriptionType]; [|by rewrite Es].
      split; [exact Hf|]. intros _. cbn [dd_clGroupSize]. specialize (Hcl eq_refl).
      assert (H : 0 < clGroupSize s /\ clGroupSize s mod 4 = 0)
        by (repeat (apply elem_of_cons in Hcl as [-> | Hcl]; [done|]); by apply elem_of_nil in Hcl).
      destruct (Z.eqb_spec (clGroupSize s) 0) as [E|]; [lia|]. exists (clGroupSize s / 4).
      pose proof (Z.div_mod (clGroupSize s) 4). lia.
    - destruct cuda; injection E1 as <- <-; cbn [snd subscriptionType]; [|by rewrite Es].
      split; [exact Hf|]. intros _. cbn [dd_cuBlockSize dd_cuStreamSize]. destruct (Hcu eq_refl) as [H1 H2].
      assert (H : 0 < cuBlockSize s /\ cuBlockSize s mod 8 = 0)
        by (repeat (apply elem_of_cons in H1 as [-> | H1]; [done|]); by apply elem_of_nil in H1).
      assert (G : 0 < cuStreams s <= 4)
        by (repeat (apply elem_of_cons in H2 as [-> | H2]; [done|]); by apply elem_of_nil in H2).
      destruct (Z.eqb_spec (cuBlockSize s) 0) as [E|]; [lia|]. destruct (Z.eqb_spec (cuStreams s) 0); [lia|].
      split; [|unfold MAX_STREAMS; lia]. exists (cuBlockSize s / 8). pose proof (Z.div_mod (cuBlockSize s) 8). lia. }
  destruct Hf1 as [Hf1 Hd]. pose proof (IH f1 Hf1 Hcu Hcl) as Hrest.
  destruct (start_devices cuda cl now f1 ds) as [f2 ds2]. by constructor.
Qed.

(** C27: Arguments that [validateArgs] accepts give settings the rest of the
    program can work with: verbosity and monitoring level in range, a threshold
    to stop only above the threshold to start and with monitoring, a nonce of
    hexadecimal digits, an API port in range; every pool is parsed, and there is
    one, unless devices are listed; a benchmark has the simulation for its only
    connection.  A farm started with these settings gives every device the block,
    stream and work-group sizes under which the miners are correct. *)
Theorem cli_settings_correct (b : build) (from_string : string -> option string)
    (ip : list ascii -> option (bool * bool)) (rid : string) (c : command_line) (cfg : config)
    (now : Z) (nvml sysfs : option (list gpu_pci)) (ds : list (string * DeviceDescriptor)) :
  let o := c_options c in
  0 <= o_HWMON o -> 0 <= o_verbosity o ->
  validateArgs b from_string ip rid c = Ok (Some cfg) ->
  let s := cf_farm cfg in
  0 <= cf_logOptions cfg < log_next b /\ 0 <= hwMon s < 3 /\
  (tempStop s = 0 \/ 1 <= hwMon s /\ tempStart s < tempStop s) /\ Forall is_hex (chars (nonce s)) /\
  -65535 <= cf_api_port cfg <= 65535 /\
  match cf_mode cfg with
  | ModeSimulation => exists u, cf_connections cfg = [u] /\ m_scheme u = chars "simulation"
  | _ => cf_listDevices cfg = true \/ cf_connections cfg <> [] /\
      Forall2 (fun url u => if String.eqb url "exit" then m_host u = chars "exit"
        else URI_new ip (chars url) false = Ok u) (default [] (o_pool o)) (cf_connections cfg)
  end /\
  let f := (Farm.start (b_cuda b) (b_cl b) now (Farm_new now nvml sysfs ds s)).2 in
  Forall (fun d => mineable (b_cuda b) (b_cl b) d.2) (m_DevicesCollection f).
Proof.
  intros o Hh Hv E s. destruct (validateArgs_inv b from_string ip rid c cfg E) as (H1 & H2 & H3 & H4 & H5 & H6 & H7).
  fold o in H1, H2, H3, H4, H5, H6, H7. destruct (notify_options_ok b o H1) as (N1 & N2 & N3 & N4 & N5 & N6 & N7).
  destruct (check_thresholds_ok _ _ H4) as (T1 & T2 & T3 & T4 & T5 & T6); [cbn; lia|].
  fold s in T1, T2, T3, T4, T5, T6. split; [lia|]. split; [exact T1|]. split; [exact T6|].
  split; [by rewrite T2|]. split.
  { unfold api_bind in H2. destruct (b_api b); cbn [negb] in H2; [|injection H2 as _ <-; lia].
    specialize (N2 eq_refl). destruct (String.eqb _ _); [injection H2 as _ <-; lia|].
    unfold ParseBind in H2. destruct (match_bind _) as [[addr port]|]; [|done].
    destruct (from_string _); [|done]. destruct (stoi_port port) as [p|]; [|done]. cbn [mbind outcome_bind] in H2.
    destruct (_ || _) eqn:Ep in H2; [done|]. injection H2 as _ <-.
    apply orb_false_iff in Ep as [Ep _]. apply orb_false_iff in Ep as [?%Z.ltb_ge ?%Z.ltb_ge]. lia. }
  split.
  { rewrite H7, H6. unfold pool_connections in H3. destruct (bench_block o).
    - destruct (URI_new ip _ true) as [u|] eqn:Eu; [|done]. injection H3 as <-. exists u. split; [done|].
      revert Eu. vm_compute. repeat case_match; by intros [= <-].
    - destruct (o_list_devices o); [by left|]. right. destruct (default [] (o_pool o)) as [|p pools]; [done|].
      apply connection_uris_ok in H3 as HF. split; [|exact HF]. intros E0. rewrite E0 in HF. by apply Forall2_nil_inv_r in HF. }
  unfold Farm.start, Farm_new. cbn [m_isMining m_miners m_DevicesCollection].
  match goal with |- context [start_devices ?a ?b' now ?f0 ?l] =>
    pose proof (start_devices_mineable a b' now s l f0 eq_refl) as Hm;
    destruct (start_devices a b' now f0 l) as [f ds'] end.
  apply Hm; [intros Hb; rewrite T3, T4; cbn; rewrite Hb; auto|intros Hb; rewrite T5; cbn; rewrite Hb; auto].
Qed.

(** The options of a command line with pools and a temperature limit, all others
    having their defaults. *)
Definition sample_options (pools : option (list string)) (verbosity : Z) : options :=
  mk_options false None false pools false false verbosity 500 0 3 180 2 false 5 0 false 0 false false false 80 70 "ab" None
    false "127.0.0.1:-3333" 0 "" 128 2 128 false None None.
Definition sample_line (pools : option (list string)) (verbosity : Z) : command_line :=
  mk_command_line true None (sample_options pools verbosity) [].
Definition full_build : build := mk_build_flags true true false true false.
Definition sample_pools : list string := ["stratum+tcp://me.rig@pool.org:4444"; "exit"].

Lemma cli_settings_correct_witness :
  exists cfg, validateArgs full_build Some (fun _ => None) "" (sample_line (Some sample_pools) 3) = Ok (Some cfg) /\
    cf_api_port cfg = -3333 /\ 1 <= hwMon (cf_farm cfg) /\ length (cf_connections cfg) = 2%nat /\
    Forall (fun d => mineable true true d.2)
      (m_DevicesCollection (Farm.start true true 0 (Farm_new 0 None None devices_example (cf_farm cfg))).2).
Proof.
  destruct (validateArgs full_build Some (fun _ => None) "" (sample_line (Some sample_pools) 3)) as [[cfg|]|] eqn:E;
    [|vm_compute in E; discriminate|vm_compute in E; discriminate].
  exists cfg. split; [reflexivity|].
  pose proof (cli_settings_correct full_build Some (fun _ => None) "" (sample_line (Some sample_pools) 3) cfg 0 None None
    devices_example ltac:(cbn; lia) ltac:(cbn; lia) E) as (_ & _ & _ & _ & _ & _ & H).
  vm_compute in E. injection E as E. rewrite <-E in *. split; [reflexivity|]. split; [cbn; lia|]. split; [reflexivity|exact H].
Defined.

(** Options the parser or a notifier refuses end the program with code 0, as help
    does, and no command line that has arguments ends it with code 1; a command
    line without pools ends it with code 3. *)
Theorem cli_exit_codes (b : build) (from_string : string -> option string) (ip : list ascii -> option (bool * bool))
    (rid : string) (execute : config -> outcome unit) :
  (forall c, parse_args b c = false -> main b from_string ip rid execute (Some c) = 0) /\
  (forall c, main b from_string ip rid execute (Some c) <> 1) /\
  main full_build Some ip rid execute (Some (sample_line (Some sample_pools) 9)) = 0 /\
  main full_build Some ip rid execute (Some (sample_line None 3)) = 3.
Proof.
  split; [|split; [|split; reflexivity]].
  - intros c Hc. unfold main, validateArgs. by rewrite Hc.
  - intros c. unfold main, exit_code. repeat case_match; lia.
Qed.

(** With [-G] and [-U] only OpenCL is used; the branch for both is not reached. *)
Theorem cli_both_is_cl : miner_type true true = MtCL.
Proof. reflexivity. Qed.

(** The list of modules in the error message lacks the first. *)
Theorem cli_first_module_missing m ms :
  module_list (m :: ms) = fold_left (fun msg x => (msg ++ ", " ++ x)%string) ms
    ("The --help-module parameter must be one of the following:" ++ newline ++ "    ")%string.
Proof.
  unfold module_list. cbn [fold_left].
  assert (H : forall l msg, (fold_left (fun '(msg, first) x => ((if first : bool then msg else msg ++ ", " ++ x)%string,
    false)) l (msg, false)).1 = fold_left (fun msg x => (msg ++ ", " ++ x)%string) l msg).
  { induction l as [|x l IH]; intros msg; [done|]. apply IH. }
  apply H.
Qed.
