(* ===== verification/Hwmon.v ===== *)
(** * Hardware monitors ([libhwmon])

    The monitor of AMD cards reads files below [/sys] ([wrapamdsysfs.cpp]), that
    of NVIDIA cards calls a library ([wrapnvml.cpp]).  The file system and the
    library are arguments.  [None] is undefined behaviour. *)

From Stdlib Require Import ZArith Lia Bool Ascii String Floats.SpecFloat.
From stdpp Require Import base numbers list gmap strings.
From S2P Require Import Prelude Outcome CommonData Floats Miner CudaMiner Farm Api Stratum StratumProtocol Devices.

Local Open Scope Z_scope.

(** ** Files *)

(** What a path names; a file is the list of its lines. *)
Inductive node :=
  | Absent
  | Dir (names : list string)
  | Regular (lines : list (list ascii))
  | Special.

Definition is_dir (n : node) : bool := match n with Dir _ => true | _ => false end.
Definition is_regular (n : node) : bool := match n with Regular _ => true | _ => false end.
Definition lines_of (n : node) : list (list ascii) := match n with Regular l => l | _ => [] end.

(** The longest prefix of digits of a base below ten. *)
Fixpoint digits_prefix (base : Z) (l : list ascii) : list ascii :=
  match l with
  | c :: l => if (48 <=? code c) && (code c <? 48 + base) then c :: digits_prefix base l else []
  | [] => []
  end.
Definition digits_value (base : Z) (l : list ascii) : Z := fold_left (fun v c => base * v + (code c - 48)) l 0.

(** [strtoul(p, &p2, 0)]: the value if anything is converted. *)
Definition strtoul0 (l : list ascii) : option Z :=
  let l := skip_spaces l in
  let neg := match l with c :: _ => Ascii.eqb c "-" | [] => false end in
  let l := match l with
           | c :: l' => if Ascii.eqb c "-" || Ascii.eqb c "+" then l' else l
           | [] => []
           end in
  let v :=
    match l with
    | "0"%char :: x :: c :: _ =>
        if (Ascii.eqb x "x" || Ascii.eqb x "X") && negb (fromHex_char c =? -1)
        then Some (hex_value (hex_prefix (drop 2 l))) else Some (digits_value 8 (digits_prefix 8 l))
    | "0"%char :: _ => Some (digits_value 8 (digits_prefix 8 l))
    | _ => match digits_prefix 10 l with [] => None | d => Some (digits_value 10 d) end
    end in
  (fun v => if neg : bool then - v else v) <$> v.

(** [getFileContentValue]: the value left in the variable and the result. *)
Definition getFileContentValue (n : node) : Z * bool :=
  match strtoul0 (default [] (head (lines_of n))) with
  | None => (0, false)
  | Some v => if Z.abs v <? 2 ^ 64 then (u32 (u64 v), true) else (u32 (2 ^ 64 - 1), false)
  end.

(** [snprintf] into a buffer of 120 characters. *)
Definition snprintf120 (s : string) : string := text (take 119 (chars s)).

(** [stoi(s, nullptr, 10)] of digits. *)
Definition stoi_digits (l : list ascii) : outcome Z :=
  match l with
  | [] => Throw InvalidArgument
  | _ => if digits_value 10 l <? 2 ^ 31 then Ok (digits_value 10 l) else Throw OutOfRange
  end.

(** A name that consists of [prefix] and digits: the digits. *)
Definition numbered (prefix name : string) : option (list ascii) :=
  let p := chars prefix in
  let l := chars name in
  let d := drop (length p) l in
  if bool_decide (take (length p) l = p) && bool_decide (d <> []) && forallb (between "0" "9") d then Some d else None.

(** ** Cards *)

Record pciInfo := mk_pciInfo { DeviceId : Z; HwMonId : Z; PciDomain : Z; PciBus : Z; PciDevice : Z }.

Definition UINT_MAX : Z := 2 ^ 32 - 1.

Section Sysfs.
Context (fs : string -> node).

Definition drm (rest : string) : string := ("/sys/class/drm" ++ rest)%string.

(** The least number of the entries [hwmonN] of a directory. *)
Definition least_hwmon (dir : string) (names : list string) (hwmonIndex : Z) : outcome Z :=
  fold_left (fun acc name =>
    i ← acc;
    match numbered "hwmon" name with
    | Some d => if is_dir (fs (dir ++ "/" ++ name)%string) then v ← stoi_digits d; Ok (Z.min i v) else Ok i
    | None => Ok i
    end) names (Ok hwmonIndex).

(** [boost::split] at colons and points. *)
Fixpoint split_pci (l : list ascii) : list (list ascii) :=
  match l with
  | [] => [[]]
  | c :: l =>
      match split_pci l with
      | w :: ws => if Ascii.eqb c ":" || Ascii.eqb c "." then [] :: w :: ws else (c :: w) :: ws
      | [] => []
      end
  end.

(** The four numbers of a PCI address; every exception gives -1. *)
Definition pci_numbers (pciId : list ascii) : Z * Z * Z :=
  match split_pci pciId with
  | a :: b :: c :: d :: _ =>
      match (x ← stoi_hex (text a); y ← stoi_hex (text b); z ← stoi_hex (text c); _ ← stoi_hex (text d); Ok (x, y, z)) with
      | Ok r => r
      | Throw _ => (-1, -1, -1)
      end
  | _ => (-1, -1, -1)
  end.

Fixpoint slot_name (lines : list (list ascii)) : Z * Z * Z :=
  match lines with
  | [] => (-1, -1, -1)
  | line :: lines =>
      if (24 <? length line)%nat && bool_decide (take 13 line = chars "PCI_SLOT_NAME")
      then pci_numbers (drop 14 line) else slot_name lines
  end.

Definition uevent_path (devIndex : Z) : string :=
  snprintf120 (drm ("/card" ++ to_string devIndex ++ "/device/uevent")).

(** One entry of the directory; [None] is [continue]. *)
Definition card_info (devName : string) : outcome (option pciInfo) :=
  match numbered "card" devName with
  | None => Ok None
  | Some d =>
      if negb (is_dir (fs (drm ("/" ++ devName)))) then Ok None
      else
      devIndex ← stoi_digits d;
      let '(vendorId, read) := getFileContentValue (fs (snprintf120 (drm ("/" ++ devName ++ "/device/vendor")))) in
      if negb (is_regular (fs (drm ("/" ++ devName ++ "/device/vendor")))) || negb read || negb (vendorId =? 4098)
      then Ok None
      else
      let hwmon_dir := drm ("/" ++ devName ++ "/device/hwmon") in
      match fs hwmon_dir with
      | Dir names =>
          hwmonIndex ← least_hwmon hwmon_dir names UINT_MAX;
          if hwmonIndex =? UINT_MAX then Ok None
          else if negb (is_regular (fs (drm ("/" ++ devName ++ "/device/uevent")))) then Ok None
          else
          let '(dom, bus, dev) := slot_name (lines_of (fs (uevent_path devIndex))) in
          if dom =? -1 then Ok None else Ok (Some (mk_pciInfo devIndex hwmonIndex dom bus dev))
      | _ => Ok None
      end
  end.

Fixpoint card_infos (names : list string) : outcome (list pciInfo) :=
  match names with
  | [] => Ok []
  | name :: names =>
      i ← card_info name;
      rest ← card_infos names;
      Ok (option_list i ++ rest)
  end.

(** [None]: no handle; [alloc]: whether memory for it can be had. *)
Definition wrap_amdsysfs_create (alloc : bool) : outcome (option (list pciInfo)) :=
  match fs (drm "") with
  | Dir names =>
      devices ← card_infos names;
      match devices with
      | [] => Ok None
      | _ => Ok (if alloc then Some devices else None)
      end
  | _ => Ok None
  end.

(** What the farm makes of the handle. *)
Definition sysfs_gpu (i : pciInfo) : gpu_pci := mk_gpu_pci (u32 (PciDomain i)) (u32 (PciBus i)) (u32 (PciDevice i)).

(** ** Readings *)

(** The device of an index, with a number of the monitor that is not negative as
    an [int]. *)
Definition sysfs_entry (h : list pciInfo) (index : Z) : option pciInfo :=
  if (index <? 0) || (Z.of_nat (length h) <=? index) then None
  else i ← h !! Z.to_nat index; if 2 ^ 31 <=? HwMonId i then None else Some i.

Definition hwmon_file (i : pciInfo) (name : string) : node :=
  fs (snprintf120 (drm ("/card" ++ to_string (DeviceId i) ++ "/device/hwmon/hwmon" ++ to_string (HwMonId i) ++ "/" ++ name))).

(** Result and the variable, which is written only when the file has a value. *)
Definition get_temperature (file : string) (h : list pciInfo) (index tempC : Z) : Z * Z :=
  match sysfs_entry h index with
  | None => (-1, tempC)
  | Some i =>
      let temp := (getFileContentValue (hwmon_file i file)).1 in
      (0, if 0 <? temp then temp / 1000 else tempC)
  end.
Definition wrap_amdsysfs_get_tempC := get_temperature "temp1_input".
Definition wrap_amdsysfs_get_mem_tempC := get_temperature "temp3_input".

(** [(unsigned)(double(pwm - pwmMin) / double(pwmMax - pwmMin) * 100.0)]. *)
Definition fan_percent (pwm pwmMax pwmMin : Z) : option Z :=
  uint32_of_float (dmul (ddiv (double_of_Z (u32 (pwm - pwmMin))) (double_of_Z (u32 (pwmMax - pwmMin)))) (double_of_Z 100)).

Definition wrap_amdsysfs_get_fanpcnt (h : list pciInfo) (index fanpcnt : Z) : option (Z * Z) :=
  match sysfs_entry h index with
  | None => Some (-1, fanpcnt)
  | Some i =>
      let pwm := (getFileContentValue (hwmon_file i "pwm1")).1 in
      let pwmMax := (getFileContentValue (hwmon_file i "pwm1_max")).1 in
      let pwmMin := (getFileContentValue (hwmon_file i "pwm1_min")).1 in
      p ← fan_percent pwm pwmMax pwmMin;
      Some (0, p)
  end.

(** [regex_search] for a number of watts: the run of digits, points and bars that
    ends where the text of the average begins. *)
Definition watt_char (c : ascii) : bool := between "0" "9" c || Ascii.eqb c "|" || Ascii.eqb c ".".
Definition watt_tail : list ascii := chars " W (average GPU)".

Fixpoint search_watt (run l : list ascii) : option (list ascii) :=
  match l with
  | [] => None
  | c :: l' =>
      if bool_decide (run <> []) && bool_decide (take (length watt_tail) l = watt_tail) then Some run
      else search_watt (if watt_char c then run ++ [c] else []) l'
  end.

(** [atof] of such a run: digits with one point, up to the first other character;
    the quotient is rounded once. *)
Definition atof_run (run : list ascii) : double :=
  let whole := digits_prefix 10 run in
  let fraction := match drop (length whole) run with "."%char :: r => digits_prefix 10 r | _ => [] end in
  match digits_value 10 (whole ++ fraction) with
  | Zpos n => ddiv (S754_finite false n 0) (S754_finite false (Z.to_pos (10 ^ Z.of_nat (length fraction))) 0)
  | _ => S754_zero false
  end.

Definition wrap_amdsysfs_get_power_usage (h : list pciInfo) (index milliwatts : Z) : option (Z * Z) :=
  if (index <? 0) || (Z.of_nat (length h) <=? index) then Some (-1, milliwatts)
  else
  i ← h !! Z.to_nat index;
  let file := fs (snprintf120 ("/sys/kernel/debug/dri/" ++ to_string (DeviceId i) ++ "/amdgpu_pm_info")) in
  match head (omap (search_watt []) (lines_of file)) with
  | None => Some (-1, milliwatts)
  | Some run => w ← uint32_of_float (dmul (atof_run run) (double_of_Z 1000)); Some (0, w)
  end.

(** What a collection reads, from variables that are zero. *)
Definition sysfs_sensors (h : list pciInfo) (index : Z) : option Sensors :=
  fan ← wrap_amdsysfs_get_fanpcnt h index 0;
  power ← wrap_amdsysfs_get_power_usage h index 0;
  Some (mk_Sensors (wrap_amdsysfs_get_tempC h index 0).2 (wrap_amdsysfs_get_mem_tempC h index 0).2 fan.2 power.2).
End Sysfs.

(** ** NVML *)

(** The library: whether it and all its functions can be loaded and memory be had,
    and the addresses of the cards it reports. *)
Definition wrap_nvml_create (dlopen alloc symbols alloc_devs : bool) (pci : list gpu_pci) : option (list gpu_pci) :=
  if dlopen && alloc && symbols && alloc_devs then Some pci else None.

(** A query; [call] is the function of the library, [None] an error. *)
Definition wrap_nvml_get (call : Z -> option Z) (h : list gpu_pci) (gpuindex old : Z) : Z * Z :=
  if (gpuindex <? 0) || (Z.of_nat (length h) <=? gpuindex) then (-1, old)
  else match call gpuindex with Some v => (0, v) | None => (-1, old) end.

(** ** The address of a card *)

(** The address as the kernel writes it. *)
Definition slot_text (dom bus dev fn : Z) : list ascii :=
  put_hex 4 dom ++ ":"%char :: put_hex 2 bus ++ ":"%char :: put_hex 2 dev ++ "."%char :: put_hex 1 fn.

Lemma split_pci_nonempty l : split_pci l <> [].
Proof. induction l as [|c l IH]; [done|]. cbn [split_pci]. destruct (split_pci l); [done|]. by destruct (_ || _). Qed.

Lemma hex_not_separator c : is_hex c -> (Ascii.eqb c ":" || Ascii.eqb c ".") = false.
Proof.
  intros Hc. apply orb_false_iff. split; apply Ascii.eqb_neq; intros ->; by apply Hc.
Qed.

Lemma split_pci_word a s l :
  Forall is_hex a -> (Ascii.eqb s ":" || Ascii.eqb s ".") = true -> split_pci (a ++ s :: l) = a :: split_pci l.
Proof.
  intros Ha Hs. induction Ha as [|c a Hc Ha IH]; cbn [app split_pci].
  - pose proof (split_pci_nonempty l). rewrite Hs. by destruct (split_pci l).
  - by rewrite IH, hex_not_separator.
Qed.

Lemma split_pci_last a : Forall is_hex a -> split_pci a = [a].
Proof. induction 1 as [|c a Hc Ha IH]; [done|]. cbn [split_pci]. by rewrite IH, hex_not_separator. Qed.

Lemma stoi_put_hex w x : (0 < w)%nat -> 0 <= x < 2 ^ 31 -> stoi_hex (text (put_hex w x)) = Ok x.
Proof.
  intros Hw Hx. destruct (put_hex_spec w x ltac:(lia)) as (H1 & H2 & H3). unfold stoi_hex.
  rewrite parse_hex_digits by (done || (intros E; rewrite E in H3; cbn in H3; lia)).
  rewrite H2. destruct (Z.leb_spec (- 2 ^ 31) x), (Z.ltb_spec x (2 ^ 31)); (done || lia).
Qed.

(** The numbers of an address are read back. *)
Lemma pci_numbers_slot dom bus dev fn :
  0 <= dom < 2 ^ 16 -> 0 <= bus < 256 -> 0 <= dev < 32 -> 0 <= fn < 8 ->
  pci_numbers (slot_text dom bus dev fn) = (dom, bus, dev).
Proof.
  intros Hdom Hbus Hdev Hfn. unfold pci_numbers, slot_text.
  rewrite split_pci_word by (done || by apply put_hex_spec; lia).
  rewrite split_pci_word by (done || by apply put_hex_spec; lia).
  rewrite split_pci_word by (done || by apply put_hex_spec; lia).
  rewrite split_pci_last by (by apply put_hex_spec; lia).
  rewrite stoi_put_hex by lia. cbn [mbind outcome_bind]. rewrite stoi_put_hex by lia. cbn [mbind outcome_bind].
  rewrite stoi_put_hex by lia. cbn [mbind outcome_bind]. by rewrite stoi_put_hex by lia.
Qed.

(** A line that does not name the slot. *)
Definition other_line (line : list ascii) : Prop := take 13 line <> chars "PCI_SLOT_NAME".

Lemma slot_name_found pre post dom bus dev fn :
  Forall other_line pre -> 0 <= dom < 2 ^ 16 -> 0 <= bus < 256 -> 0 <= dev < 32 -> 0 <= fn < 8 ->
  slot_name (pre ++ (chars "PCI_SLOT_NAME=" ++ slot_text dom bus dev fn) :: post) = (dom, bus, dev).
Proof.
  intros Hpre Hdom Hbus Hdev Hfn. induction Hpre as [|l pre Hl Hpre IH]; cbn [app slot_name].
  - rewrite bool_decide_eq_true_2 by done. rewrite andb_true_r.
    assert (Hlen : (24 < length (chars "PCI_SLOT_NAME=" ++ slot_text dom bus dev fn))%nat).
    { unfold slot_text. rewrite !length_app. cbn [length]. rewrite !length_app. cbn [length]. rewrite !length_app.
      cbn [length]. destruct (put_hex_spec 4 dom ltac:(lia)) as (_ & _ & ->).
      destruct (put_hex_spec 2 bus ltac:(lia)) as (_ & _ & ->). destruct (put_hex_spec 2 dev ltac:(lia)) as (_ & _ & ->).
      destruct (put_hex_spec 1 fn ltac:(lia)) as (_ & _ & ->). change (length (chars "PCI_SLOT_NAME=")) with 14%nat. lia. }
    apply Nat.ltb_lt in Hlen. cbn [app chars] in Hlen |- *. rewrite Hlen.
    change (drop 14 _) with (slot_text dom bus dev fn). by apply pci_numbers_slot.
  - rewrite (bool_decide_eq_false_2 _ Hl), andb_false_r. exact IH.
Qed.

Lemma card_info_slot fs name info :
  card_info fs name = Ok (Some info) ->
  slot_name (lines_of (fs (uevent_path (DeviceId info)))) = (PciDomain info, PciBus info, PciDevice info).
Proof.
  unfold card_info. destruct (numbered "card" name) as [d|]; [|done].
  destruct (negb (is_dir _)); [done|]. destruct (stoi_digits d) as [n|]; [|done]. cbn [mbind outcome_bind].
  destruct (getFileContentValue _) as [vendor read]. destruct (_ || _ || _); [done|].
  destruct (fs (drm ("/" ++ name ++ "/device/hwmon"))) as [|names| |]; [done| |done|done].
  destruct (least_hwmon _ _ _ _) as [k|]; [|done]. cbn [mbind outcome_bind]. destruct (k =? UINT_MAX); [done|].
  destruct (negb (is_regular _)); [done|].
  destruct (slot_name (lines_of (fs (uevent_path n)))) as [[dom bus] dev] eqn:E.
  destruct (dom =? -1); [done|]. by intros [= <-].
Qed.

Lemma card_infos_slot fs names : forall h, card_infos fs names = Ok h ->
  Forall (fun info => slot_name (lines_of (fs (uevent_path (DeviceId info)))) =
    (PciDomain info, PciBus info, PciDevice info)) h.
Proof.
  induction names as [|name names IH]; intros h; cbn [card_infos]; [intros [= <-]; constructor|].
  destruct (card_info fs name) as [i|] eqn:E; [|done]. cbn [mbind outcome_bind].
  destruct (card_infos fs names) as [rest|]; [|done]. intros [= <-]. apply Forall_app. split; [|by apply IH].
  destruct i as [info|]; [|constructor]. constructor; [by apply (card_info_slot fs name)|constructor].
Qed.

Lemma create_slot fs alloc h :
  wrap_amdsysfs_create fs alloc = Ok (Some h) ->
  Forall (fun info => slot_name (lines_of (fs (uevent_path (DeviceId info)))) =
    (PciDomain info, PciBus info, PciDevice info)) h.
Proof.
  unfold wrap_amdsysfs_create. destruct (fs (drm "")) as [|names| |]; [done| |done|done].
  destruct (card_infos fs names) as [[|i l]|] eqn:E; [done| |done]. cbn [mbind outcome_bind].
  destruct alloc; [|done]. intros [= <-]. by apply (card_infos_slot fs names).
Qed.

(** The index of a card in the map of the farm. *)
Lemma pci_map_lookup id gpus i g :
  gpus !! i = Some g -> (forall j g', gpus !! j = Some g' -> id g' = id g -> j = i) ->
  pci_map id gpus !! id g = Some (Z.of_nat i).
Proof.
  intros Hg Hu. unfold pci_map. set (f := fun '(mp, i) g => _).
  assert (Hnone : forall l mp j, (forall g', g' ∈ l -> id g' <> id g) -> (fold_left f l (mp, j)).1 !! id g = mp !! id g).
  { induction l as [|g' l IH]; intros mp j Hl; [done|]. cbn [fold_left]. unfold f at 2.
    rewrite IH by (intros; apply Hl; by right). apply lookup_insert_ne. apply Hl. by left. }
  assert (Hsome : forall l mp j n, l !! n = Some g ->
    (forall k g', l !! k = Some g' -> id g' = id g -> k = n) -> (fold_left f l (mp, j)).1 !! id g = Some (j + Z.of_nat n)).
  { induction l as [|g' l IH]; intros mp j n Hn Hl; [done|]. cbn [fold_left]. unfold f at 2. destruct n as [|n].
    - injection Hn as ->. rewrite Hnone; [rewrite lookup_insert_eq; f_equal; lia|].
      intros g' [k Hk]%list_elem_of_lookup_1 E. by specialize (Hl (S k) g' Hk E).
    - rewrite (IH _ _ n); [f_equal; lia|exact Hn|]. intros k g2 Hk E. by injection (Hl (S k) g2 Hk E). }
  by rewrite (Hsome gpus ∅ 0 i Hg Hu).
Qed.


(** Files of a computer with one AMD card. *)
Definition amd_files (path : string) : node :=
  if String.eqb path "/sys/class/drm" then Dir ["version"; "card1"; "card1-DP-1"]
  else if String.eqb path "/sys/class/drm/card1" then Dir []
  else if String.eqb path "/sys/class/drm/card1/device/vendor" then Regular [chars "0x1002"]
  else if String.eqb path "/sys/class/drm/card1/device/hwmon" then Dir ["hwmon3"]
  else if String.eqb path "/sys/class/drm/card1/device/hwmon/hwmon3" then Dir []
  else if String.eqb path "/sys/class/drm/card1/device/uevent" then
    Regular [chars "DRIVER=amdgpu"; chars "PCI_SLOT_NAME=0000:0a:00.0"; chars "MODALIAS=pci"]
  else if String.eqb path "/sys/class/drm/card1/device/hwmon/hwmon3/temp1_input" then Regular [chars "56000"]
  else if String.eqb path "/sys/class/drm/card1/device/hwmon/hwmon3/pwm1" then Regular [chars "128"]
  else if String.eqb path "/sys/class/drm/card1/device/hwmon/hwmon3/pwm1_max" then Regular [chars "255"]
  else if String.eqb path "/sys/class/drm/card1/device/hwmon/hwmon3/pwm1_min" then Regular [chars "0"]
  else if String.eqb path "/sys/kernel/debug/dri/1/amdgpu_pm_info" then
    Regular [chars "GFX Clocks and Power:"; chars "  97.15 W (average GPU)"]
  else Absent.
Definition amd_card : cl_gpu :=
  mk_cl_gpu (Ok 4) None (Some (replicate 21 0 ++ [10; 0; 0])) (Ok "OpenCL 2.0 ") (Ok 8000) None None (Ok "gfx") "card".


(** The percentage of the fan is exact for every value of a fan register of eight
    bits. *)
Theorem fan_percent_exact (pwm : Z) : 0 <= pwm <= 255 -> fan_percent pwm 255 0 = Some (pwm * 100 / 255).
Proof.
  intros Hp. assert (H : Forall (fun p => fan_percent p 255 0 = Some (p * 100 / 255)) (Z.of_nat <$> seq 0 256)).
  { apply (bool_decide_unpack _). vm_compute. exact I. }
  apply (proj1 (Forall_forall _ _) H). apply list_elem_of_fmap. exists (Z.to_nat pwm). rewrite elem_of_seq. lia.
Qed.

(** A missing file overwrites the default of the maximum with zero: without
    [pwm1_max] and [pwm1_min] the percentage is a quotient by zero, and its
    conversion to an integer undefined. *)
Theorem fan_without_maximum (fs : string -> node) (h : list pciInfo) (index old : Z) (i : pciInfo) :
  sysfs_entry h index = Some i ->
  hwmon_file fs i "pwm1_max" = Absent -> hwmon_file fs i "pwm1_min" = Absent ->
  wrap_amdsysfs_get_fanpcnt fs h index old = None.
Proof.
  intros Hi E1 E2. unfold wrap_amdsysfs_get_fanpcnt. rewrite Hi, E1, E2.
  change (getFileContentValue Absent).1 with 0. unfold fan_percent.
  change (double_of_Z (u32 (0 - 0))) with (S754_zero false). set (x := double_of_Z (u32 _)).
  clearbody x. by destruct x as [[]|[]| |[] m e].
Qed.

(** The key of a card in the map of the NVIDIA monitor is made of its device number
    shifted by three bits, which NVML already reports without the function: the
    CUDA enumeration uses the number as it is, and the monitor is found only for
    cards with device number 0. *)
Theorem nvml_device_shifted (domain bus dev : Z) (name : string) (mem major minor : Z) :
  0 <= domain < 2 ^ 16 -> 0 <= bus < 256 -> 0 <= dev < 32 ->
  nvml_id (mk_gpu_pci domain bus dev) = cu_unique_id (mk_cu_gpu domain bus dev name mem major minor) <-> dev = 0.
Proof.
  intros Hdom Hbus Hdev. unfold nvml_id, cu_unique_id. cbn [pci_domain_id pci_bus_id pci_device_id pciDomainID pciBusID pciDeviceID].
  rewrite !(wrap_id 32) by (unfold in_word; lia). split; [|by intros ->].
  unfold pci_id. intros E. apply (f_equal chars) in E. rewrite !chars_text in E.
  apply (app_inv_head (put_hex 4 domain)) in E. apply (app_inv_head (chars ":")) in E.
  apply (app_inv_head (put_hex 2 bus)) in E. apply (app_inv_head (chars ":")) in E. apply app_inv_tail in E.
  apply (f_equal hex_value) in E.
  assert (Hs : 0 <= Z.shiftr dev 3) by (apply Z.shiftr_nonneg; lia).
  destruct (put_hex_spec 2 (Z.shiftr dev 3) Hs) as (_ & E1 & _). destruct (put_hex_spec 2 dev ltac:(lia)) as (_ & E2 & _).
  rewrite E1, E2, Z.shiftr_div_pow2 in E by lia. change (2 ^ 3) with 8 in E.
  pose proof (Z.div_mod dev 8). pose proof (Z.mod_pos_bound dev 8). lia.
Qed.
